(* ===== verification/_CoqProject ===== *)
-Q . S2P
Prelude.v
Error.v
Sys.v
Fs.v
MockFs.v
Calendar.v
CoreFs.v
Text.v
Cli.v
LineTools.v
StdFs.v
CoreMain.v
FileTools.v
FileCopy.v
FileEdit.v
TreeWalk.v
FileWalk.v
FileGrep.v
Process.v
Runners.v
TrustAnchors.v
Terminal.v
MockDevices.v
MockNet.v
Winargv.v
DBusValue.v
DBusWire.v
DBusEnc.v
DBusLimits.v
DBusMessage.v
DBusConn.v
SecretService.v
LinuxFd.v
LinuxNet.v
DBusTransport.v
NetApi.v
BsdNet.v
LinuxSecurity.v
LinuxSpawn.v
LinuxProcess.v
LinuxTerm.v
LinuxTun.v
LinuxPty.v
LinuxCloexec.v
WinFs.v
WinProcess.v
WinLaunch.v
WinNet.v
NetBackends.v
BsdSecurity.v
WinSecurity.v
WinTerm.v
WinPty.v
