(* ===== verification/Prelude.v ===== *)
(** * rustils: a verification development for the platform personality layer

    The workspace [rustils] is a portable operating-system interface
    ([crates/platform]: traits and value types) with backends
    ([platform-linux], [platform-bsd], [platform-windows], and
    [platform-mock], a deterministic in-memory one), a Windows command-line
    builder ([winargv]) and command-line tools written against the interface
    ([coreutils]).  This library translates the parts that compute something
    and the three real backends down to their system calls, and proves what
    makes them correct.

    ** How a Rust function becomes a definition

    - [Result<T>] is [Error.Result], a panic or a loop that does not end is
      visible: functions that can panic or that need fuel return [Run T],
      which is [Done r], [Panic] or [OutOfFuel]; state is passed explicitly
      ([S -> S * Run T], sequenced by [st!]).
    - a [u8], [u16], char or code unit is a [Z] with its range as a
      hypothesis or lemma; a machine integer wraps by [Prelude.wrap] or
      [Prelude.sign] where the code wraps; lengths are unbounded.
    - bytes are [list Z]; [String] and [&str] are the UTF-8 bytes or, in the
      line tools, the decoded scalar values (file Text.v).
    - shared mutable objects (an [Arc<Mutex<_>>] node of the mock
      filesystem, a channel of the mock network) live in a heap [gmap] and
      are named by location, so aliasing is as in the code.
    - a trait with several backends is a [Class]; a backend that the
      repository implements in Rust is an [Instance].  System calls,
      [std::fs], [std::process], the clock, the terminal and the peer of a
      socket are parameters: arguments of the definitions, with the
      documented behaviour a theorem relies on as hypotheses or class laws,
      and a concrete instance in the witness.

    ** The files

    - Prelude.v (this file): integers at their width, the [Run] monad
      helpers on lists and options, UTF-8, little-endian bytes, automation.
    - Error.v: [platform/src/error.rs] and the monads.
    - Fs.v: [platform/src/fs.rs]: the data of the filesystem interface, the
      class [FsBackend] with its laws, and the provided method
      [write_atomic].
    - MockFs.v: [platform-mock/src/fs.rs], every operation, over a heap of
      nodes; the instance of [FsBackend].
    - Calendar.v, CoreFs.v: [coreutils/src/ls.rs] and [cat.rs].
    - Text.v, Cli.v, LineTools.v: strings of characters; arguments, standard
      input and files; [rhead rtail rsort runiq rcut rtr rwc rxargs] and the
      search loop of [rgrep].
    - StdFs.v: the calls of [std::fs] and [std::path] the file utilities make,
      on a tree of directories and regular files, with what the system refuses
      or breaks off besides as the class [Faults]; CoreMain.v: [rls], [rcat],
      [open_ambient_file] over the filesystem interface; FileTools.v: [rcp],
      [rmv], [rrm], [rtouch], [rmkdir], [rfind] on the tree, with FileCopy.v,
      FileEdit.v, FileWalk.v for what they do; TreeWalk.v: the class of
      programs that walk a directory tree, of which [rfind] and, in
      FileGrep.v, [rgrep] are instances.
    - Process.v: [platform/src/process.rs] ([Command], [wait_any], the class
      [Processes]) and [platform-mock/src/process.rs].
    - Runners.v: [rrun], [rtee], [rpar].
    - TrustAnchors.v: [platform-linux/src/sys/trust_anchors.rs].
    - Terminal.v: [platform/src/term.rs] (the class [Terminal]), the mock
      terminal, [coreutils/src/term_report.rs] and [rterm].
    - MockDevices.v: tun, pty, signal and security mocks.
    - MockNet.v: [platform-mock/src/net.rs], a registry of channels.
    - Winargv.v: [winargv/src/lib.rs] and the model splitter of its fuzz
      target.
    - DBusValue.v, DBusWire.v, DBusMessage.v, DBusConn.v:
      [platform-linux/src/sys/dbus]; DBusEnc.v holds the encoding the wire
      format is refined against and DBusLimits.v what holds of arbitrary
      input; DBusTransport.v makes the system calls that reach the bus.
    - SecretService.v: [platform-linux/src/sys/secret_service.rs] over the
      class [Bus], which the D-Bus connection implements; a provider is what
      the Secret Service specification says of items, attributes, sessions and
      locks, whatever the client.
    - Sys.v: the system calls the backends make
      ([platform-linux/src/ffi/libc_surface.rs], its BSD and Windows
      counterparts) and what one answers; the kernel is a parameter and every
      call is logged.  Two logics over the log: [owns] counts descriptors and
      handles (each one acquired is returned or closed once), [traces] says
      which calls are made, in which order and with which arguments, whatever
      the kernel answers.
    - LinuxFd.v: [sys/fdio.rs], [fs.rs], an instance of [FsBackend];
      LinuxNet.v: [sys/net.rs]; LinuxSecurity.v: [sys/security.rs] with an
      interpreter for the seccomp program; LinuxSpawn.v: [sys/spawn.rs];
      LinuxProcess.v: [process.rs]; LinuxTerm.v: [sys/termios.rs] and
      [term.rs], an instance of [Terminal]; LinuxTun.v: [sys/tun.rs] and
      [tun.rs]; LinuxPty.v: [sys/pty.rs], [pty.rs], [sys/signals.rs],
      [signals.rs] and [sys/identity.rs]; all under [platform-linux/src].
    - LinuxCloexec.v: what holds of all of these together.
    - BsdNet.v: [platform-bsd/src/sys/net.rs], [sys/fdio.rs] and [net.rs], the
      five targets as a parameter; BsdSecurity.v: [sys/trust_anchors.rs].
    - WinFs.v: [sys/errmap.rs], [util/wide.rs], [sys/nt.rs],
      [sys/fileio.rs] and [fs.rs], an instance of [FsBackend];
      WinProcess.v: [sys/proc.rs] and [process.rs], with WinLaunch.v for what
      holds of its command lines, environment, lookup and waits; WinNet.v:
      [sys/net.rs] and [net.rs]; WinSecurity.v: [sys/security.rs] and
      [security.rs]; WinTerm.v: [sys/console.rs], [term.rs],
      [sys/csignals.rs] and [signals.rs], an instance of [Terminal]; WinPty.v:
      [sys/pty.rs] and [pty.rs], the two threads of a pseudo console call by
      call; all under [platform-windows/src].
    - NetApi.v: the traits of [platform/src/net.rs] as records of operations
      with laws about descriptors, and the Linux instance; NetBackends.v: the
      three backends against these laws.
    ** What the theorems show

    - round trips: command lines against the MSVCRT splitter and a POSIX
      shell, D-Bus values and messages, base64.
    - refinement: [marshal] against the D-Bus encoding, the credential store
      against a map, a mock connection against two byte queues.
    - invariants and safety: the node heap stays a forest and never dangles;
      [write_atomic] is atomic in every observable state, over every backend
      that keeps the laws; [with_raw] leaves raw mode; [rpar] keeps labels
      and children in step.
    - termination and liveness: the D-Bus decoder on any bytes (and the
      types for which it does not end), [wait_any], the copy loops.
    - the utilities on a file tree: whatever is refused, a recursive copy
      changes nothing outside the target and, when it reports nothing, has
      laid the source over it (and does not end when the target is inside the
      source); a move has four outcomes, none of which loses content; a
      removal stays below its operands, [rfind] and [rgrep] print for each
      entry once.
    - equivalence: dates against the Gregorian calendar, [head], [tail] and
      [sort] against their definitions on the list of lines.
    - errors and bounds: which inputs are refused and with which kind.
    - the Linux backend, over any kernel: descriptors are neither leaked nor
      closed twice and (but for TUN devices) are close-on-exec from the
      start; a spawned child gets
      exactly the descriptors, directory, environment and group the command
      asks for; a child is reaped once and its status kept; a Unix socket
      path is unlinked only after a connection to it was refused; a sandbox
      reports success only when every rule was added and enforced, and the
      seccomp program computes the policy it is meant to; terminal
      attributes are restored; socket addresses and wait statuses read back.
    - the BSD backend, over any kernel: every socket is marked close-on-exec
      by the very next call, or its failure is reported; keychain references
      are released once.
    - the Windows backend, over any system: the child runs the program that
      the lookup found with the arguments it was given; a child with its own
      group is in its job before it runs; link targets and environments read
      back; a wait over more than 64 handles misses none; a stale Unix socket
      is deleted only after a refused connection; credentials form a map; the
      account of the console is right; however the two threads of a pseudo
      console interleave it is closed once, and dropping its master returns.
    Theorems that show a defect (named in the manifest's findings) state what
    the code does.

    ** Fuel

    Fuel stands for the iterations of a loop or the depth of a recursion
    whose bound is data: [DBusEnc.list_fuel] and [DBusLimits.tfuel_list]
    (the size of the values, the length of the buffer), one round per chunk
    in the copy loops, the number of bytes in [write_loop], the number of
    timer ticks in [wait_any], the depth of the tree in the recursive
    utilities.  In the Linux backend it counts calls that a
    signal may interrupt ([poll_loop], [wait_loop], [fill_loop]) or the
    doublings of a buffer ([read_link_loop], [grow]); in the Windows backend
    the rounds of a polling loop with a deadline, the elements a directory or
    a certificate store has left, and the reads of a drain until its pipe
    breaks.  The theorems give the amount that is enough;
    none is conditional on the fuel being enough, except where the
    conclusion is that no amount is.

    ** Not modelled

    - the arms of the backends built with the features [track-p] and
      [track-w], off by default, which make the same calls through libraries
      outside the repository; the newtypes that only call a modelled function;
      std conversions.
    - links, permission bits and times in the tree of StdFs.v (that opening,
      writing, renaming or removing a file is refused is a parameter; that
      making, listing or searching a directory is refused is not), names that
      are too long, and a working directory that is removed; the crates [rpath] and
      [rusty_regx], which are not in the repository, are parameters.
    - the second copy of the PEM decoder in [platform-bsd], which its comment
      says is kept identical to the one of TrustAnchors.v.
    - the parity suite, the fuzz targets other than the splitter above, the
      tests.
*)

From Stdlib Require Import ZArith Lia String Ascii.
From stdpp Require Import base numbers list strings gmap sorting.

(** ** Scope, notations and automation *)

Declare Scope rust_scope.
Delimit Scope rust_scope with rust.

Create HintDb rust discriminated.
Create Rewrite HintDb rust_rw.

(** [zlen] is [Vec::len] as an unbounded integer (a length never exceeds
    [isize::MAX], so no [usize] operation on lengths in this development
    wraps on the 64-bit targets the code supports). *)
Abbreviation zlen l := (Z.of_nat (length l)).

(** Split every [if], [match] on an option and boolean comparison of the
    goal; used to explore the branches of a translated function body. *)
Ltac case_match_all := repeat (case_match; simplify_eq/=; try done).

(** Turn boolean comparisons in the context into propositions. *)
Ltac bool_to_prop :=
  repeat match goal with
  | H : (_ =? _)%Z = true |- _ => apply Z.eqb_eq in H
  | H : (_ =? _)%Z = false |- _ => apply Z.eqb_neq in H
  | H : (_ <? _)%Z = true |- _ => apply Z.ltb_lt in H
  | H : (_ <? _)%Z = false |- _ => apply Z.ltb_ge in H
  | H : (_ <=? _)%Z = true |- _ => apply Z.leb_le in H
  | H : (_ <=? _)%Z = false |- _ => apply Z.leb_gt in H
  | H : (_ >? _)%Z = true |- _ => rewrite Z.gtb_ltb in H; apply Z.ltb_lt in H
  | H : (_ >? _)%Z = false |- _ => rewrite Z.gtb_ltb in H; apply Z.ltb_ge in H
  | H : (_ && _)%bool = true |- _ => apply andb_true_iff in H; destruct H
  | H : (_ || _)%bool = false |- _ => apply orb_false_iff in H; destruct H
  end.

(** ** Machine integers

    An unsigned [w]-bit integer is a [Z] in [0, 2^w); [wrap w] is the
    [as u<w>] cast and [sign w] the reinterpretation of the same bits as a
    two's complement [i<w>]. *)

Definition in_u (w x : Z) : Prop := (0 <= x < 2 ^ w)%Z.
Definition in_i (w x : Z) : Prop := (- 2 ^ (w - 1) <= x < 2 ^ (w - 1))%Z.
Definition wrap (w x : Z) : Z := (x mod 2 ^ w)%Z.
Definition sign (w x : Z) : Z :=
  (if x <? 2 ^ (w - 1) then x else x - 2 ^ w)%Z.

#[export] Instance in_u_dec w x : Decision (in_u w x).
Proof. unfold in_u. apply _. Defined.
#[export] Instance in_i_dec w x : Decision (in_i w x).
Proof. unfold in_i. apply _. Defined.

Lemma wrap_in_u w x : (0 <= w)%Z -> in_u w (wrap w x).
Proof. intros ?. unfold in_u, wrap. apply Z.mod_pos_bound. lia. Qed.

Lemma wrap_small w x : in_u w x -> wrap w x = x.
Proof. intros. unfold wrap. by apply Z.mod_small. Qed.

Lemma sign_wrap w x : (0 < w)%Z -> in_i w x -> sign w (wrap w x) = x.
Proof.
  unfold sign, wrap, in_i. intros Hw Hx.
  assert (2 ^ w = 2 * 2 ^ (w - 1))%Z as Hp.
  { rewrite <- Z.pow_succ_r by lia. f_equal. lia. }
  assert (0 < 2 ^ (w - 1))%Z by lia.
  destruct (Z.leb_spec 0 x).
  - rewrite Z.mod_small by lia. destruct (Z.ltb_spec x (2 ^ (w - 1))); lia.
  - rewrite <- (Z_mod_plus_full x 1), Z.mul_1_l, Z.mod_small by lia.
    destruct (Z.ltb_spec (x + 2 ^ w) (2 ^ (w - 1))); lia.
Qed.

(** ** Bytes and little-endian integers

    [to_le_bytes] and [from_le_bytes] of the [n]-byte unsigned integers. *)

Abbreviation byte_ok := (in_u 8).

Fixpoint le_bytes (n : nat) (x : Z) : list Z :=
  match n with
  | O => []
  | S n' => (x mod 256)%Z :: le_bytes n' (x / 256)
  end.

Fixpoint le_val (bs : list Z) : Z :=
  match bs with
  | [] => 0
  | b :: bs' => b + 256 * le_val bs'
  end%Z.

Lemma length_le_bytes n x : length (le_bytes n x) = n.
Proof. revert x. induction n; intros; simpl; auto. Qed.

Lemma le_bytes_ok n x : Forall byte_ok (le_bytes n x).
Proof.
  revert x. induction n; intros; simpl; constructor; auto.
  unfold in_u. pose proof (Z.mod_pos_bound x 256). lia.
Qed.

Lemma le_val_bytes n x :
  in_u (8 * Z.of_nat n) x -> le_val (le_bytes n x) = x.
Proof.
  revert x. induction n as [|n IH]; intros x Hx; unfold in_u in *.
  - simpl in *. lia.
  - cbn [le_bytes le_val]. rewrite IH.
    + pose proof (Z_div_mod_eq_full x 256). lia.
    + replace (8 * Z.of_nat (S n))%Z with (8 + 8 * Z.of_nat n)%Z in Hx by lia.
      rewrite Z.pow_add_r in Hx by lia. change (2 ^ 8)%Z with 256%Z in Hx.
      split; [apply Z.div_pos; lia|]. apply Z.div_lt_upper_bound; lia.
Qed.

Lemma le_val_range bs :
  Forall byte_ok bs -> in_u (8 * zlen bs) (le_val bs).
Proof.
  induction 1 as [|b bs Hb _ IH]; unfold in_u in *; [simpl; lia|].
  cbn [length le_val].
  replace (8 * Z.of_nat (S (length bs)))%Z with (8 + 8 * zlen bs)%Z by lia.
  rewrite Z.pow_add_r by lia. change (2 ^ 8)%Z with 256%Z in *. nia.
Qed.

(** A buffer literal is a list of bytes, by evaluation. *)
Lemma bytes_ok bs : forallb (fun b => (0 <=? b) && (b <? 256))%Z bs = true -> Forall byte_ok bs.
Proof.
  induction bs as [|b bs IH]; [constructor|]. cbn [forallb]. intros [Hb H]%andb_true_iff.
  constructor; [|auto]. unfold in_u. bool_to_prop. change (2 ^ 8)%Z with 256%Z. lia.
Qed.

#[export] Hint Rewrite length_le_bytes : rust_rw.
#[export] Hint Rewrite @length_app @length_cons @length_nil @length_replicate
  @length_take @length_drop : rust_rw.

(** ** Rust strings

    A [str] is its UTF-8 byte sequence; [OsStr]/[OsString] are byte
    sequences too (their unix encoding). *)

Abbreviation str := (list Z).
Abbreviation OsString := (list Z).

Fixpoint lit (s : string) : list Z :=
  match s with
  | EmptyString => []
  | String c s' => Z.of_N (N_of_ascii c) :: lit s'
  end.

(** Is byte [b] a UTF-8 continuation byte ([0b10xxxxxx])? *)
Definition is_cont (b : Z) : bool := ((128 <=? b) && (b <? 192))%Z.

(** [str::is_char_boundary]. *)
Definition is_char_boundary (s : str) (i : Z) : bool :=
  if (i =? 0)%Z then true
  else if (i =? zlen s)%Z then true
  else match s !! Z.to_nat i with
       | Some b => (0 <=? i)%Z && negb (is_cont b)
       | None => false
       end.

(** [&s[i..j]]: [None] is the panic of an out-of-range, decreasing or
    mid-character range. *)
Definition str_slice (s : str) (i j : Z) : option str :=
  if (i <=? j)%Z && (j <=? zlen s)%Z && is_char_boundary s i
     && is_char_boundary s j
  then Some (take (Z.to_nat (j - i)) (drop (Z.to_nat i) s))
  else None.

(** [String::from_utf8]'s validity check: the well-formed byte sequences of
    the Unicode standard (no overlong forms, no surrogates, at most
    U+10FFFF). *)
Fixpoint utf8_valid (bs : list Z) : bool :=
  match bs with
  | [] => true
  | b0 :: r0 =>
    if (b0 <? 128)%Z then utf8_valid r0
    else match r0 with
    | [] => false
    | b1 :: r1 =>
      if ((194 <=? b0) && (b0 <=? 223))%Z then is_cont b1 && utf8_valid r1
      else match r1 with
      | [] => false
      | b2 :: r2 =>
        if ((224 <=? b0) && (b0 <=? 239))%Z then
          (if (b0 =? 224) then (160 <=? b1) && (b1 <=? 191)
           else if (b0 =? 237) then (128 <=? b1) && (b1 <=? 159)
           else is_cont b1)%Z && is_cont b2 && utf8_valid r2
        else match r2 with
        | [] => false
        | b3 :: r3 =>
          ((240 <=? b0) && (b0 <=? 244))%Z &&
          (if (b0 =? 240) then (144 <=? b1) && (b1 <=? 191)
           else if (b0 =? 244) then (128 <=? b1) && (b1 <=? 143)
           else is_cont b1)%Z && is_cont b2 && is_cont b3 && utf8_valid r3
        end
      end
    end
  end.

(** [String::from_utf8_lossy]: each maximal ill-formed subsequence becomes
    one U+FFFD. *)
Definition replacement : list Z := [239; 191; 189]%Z.

(** Is [b1] a continuation the lead byte [b0] of a 3- or 4-byte sequence
    allows (no overlong form, no surrogate, at most U+10FFFF)? *)
Definition second_ok (b0 b1 : Z) : bool :=
  (if b0 =? 224 then (160 <=? b1) && (b1 <=? 191)
   else if b0 =? 237 then (128 <=? b1) && (b1 <=? 159)
   else if b0 =? 240 then (144 <=? b1) && (b1 <=? 191)
   else if b0 =? 244 then (128 <=? b1) && (b1 <=? 143)
   else is_cont b1)%Z.

Fixpoint from_utf8_lossy (bs : list Z) : list Z :=
  match bs with
  | [] => []
  | b0 :: r0 =>
    if (b0 <? 128)%Z then b0 :: from_utf8_lossy r0
    else if ((194 <=? b0) && (b0 <=? 223))%Z then
      match r0 with
      | b1 :: r1 =>
        if is_cont b1 then b0 :: b1 :: from_utf8_lossy r1 else replacement ++ from_utf8_lossy r0
      | [] => replacement
      end
    else if ((224 <=? b0) && (b0 <=? 239))%Z then
      match r0 with
      | b1 :: r1 =>
        if second_ok b0 b1 then
          match r1 with
          | b2 :: r2 =>
            if is_cont b2 then b0 :: b1 :: b2 :: from_utf8_lossy r2
            else replacement ++ from_utf8_lossy r1
          | [] => replacement
          end
        else replacement ++ from_utf8_lossy r0
      | [] => replacement
      end
    else if ((240 <=? b0) && (b0 <=? 244))%Z then
      match r0 with
      | b1 :: r1 =>
        if second_ok b0 b1 then
          match r1 with
          | b2 :: r2 =>
            if is_cont b2 then
              match r2 with
              | b3 :: r3 =>
                if is_cont b3 then b0 :: b1 :: b2 :: b3 :: from_utf8_lossy r3
                else replacement ++ from_utf8_lossy r2
              | [] => replacement
              end
            else replacement ++ from_utf8_lossy r1
          | [] => replacement
          end
        else replacement ++ from_utf8_lossy r0
      | [] => replacement
      end
    else replacement ++ from_utf8_lossy r0
  end.

(** [chars().count()]: bytes that are not continuations. *)
Definition char_count (s : str) : nat := length (filter (fun b => is_cont b = false) s).

(** [{:>w$}] and [{:<w$}]: padding counts characters. *)
Definition pad_left (w : nat) (s : str) : str := replicate (w - char_count s) 32%Z ++ s.
Definition pad_right (w : nat) (s : str) : str := s ++ replicate (w - char_count s) 32%Z.

Lemma char_count_app a b : char_count (a ++ b) = (char_count a + char_count b)%nat.
Proof. unfold char_count. by rewrite filter_app, length_app. Qed.

Lemma char_count_le s : (char_count s <= length s)%nat.
Proof. apply length_filter. Qed.

Lemma char_count_spaces n : char_count (replicate n 32%Z) = n.
Proof. induction n as [|n IH]; [done|]. exact (f_equal S IH). Qed.

(** Padding fills a column exactly, whatever multi-byte characters it has. *)
Lemma padded_column w s : (char_count s <= w)%nat ->
  char_count (pad_left w s) = w /\ char_count (pad_right w s) = w.
Proof.
  intros. unfold pad_left, pad_right. rewrite !char_count_app, char_count_spaces. lia.
Qed.

Example lossy_ex :
  (from_utf8_lossy [104; 255; 254; 105] = [104; 239; 191; 189; 239; 191; 189; 105] /\
  from_utf8_lossy [226; 130; 172] = [226; 130; 172] /\
  from_utf8_lossy [240; 159; 146; 65] = [239; 191; 189; 65])%Z.
Proof. vm_compute. auto. Qed.

Definition is_ascii (b : Z) : bool := ((0 <=? b) && (b <? 128))%Z.

Lemma utf8_valid_ascii bs : Forall (fun b => is_ascii b = true) bs -> utf8_valid bs = true.
Proof.
  induction 1 as [|b bs Hb _ IH]; [done|]. cbn [utf8_valid].
  unfold is_ascii in Hb. bool_to_prop. rewrite (proj2 (Z.ltb_lt b 128)) by lia. done.
Qed.

(** [str::strip_prefix], [starts_with], and [split] on one character. *)
Fixpoint str_strip_prefix (pre s : str) : option str :=
  match pre, s with
  | [], _ => Some s
  | p :: pre', c :: s' => if (p =? c)%Z then str_strip_prefix pre' s' else None
  | _ :: _, [] => None
  end.

Definition starts_with (pre s : str) : bool :=
  match str_strip_prefix pre s with Some _ => true | None => false end.

Fixpoint split_char (sep : Z) (s : str) : list str :=
  match s with
  | [] => [[]]
  | c :: s' =>
    if (c =? sep)%Z then [] :: split_char sep s'
    else match split_char sep s' with
         | [] => [[c]]
         | w :: ws => (c :: w) :: ws
         end
  end.

(** [join] with a one-character separator. *)
Fixpoint join_char (sep : Z) (ws : list str) : str :=
  match ws with
  | [] => []
  | [w] => w
  | w :: ws' => w ++ sep :: join_char sep ws'
  end.

Lemma strip_prefix_app pre s : str_strip_prefix pre (pre ++ s) = Some s.
Proof. induction pre as [|c pre IH]; [done|]. simpl. by rewrite Z.eqb_refl. Qed.

Lemma strip_prefix_Some pre s r : str_strip_prefix pre s = Some r <-> s = pre ++ r.
Proof.
  split; [|intros ->; apply strip_prefix_app].
  revert s. induction pre as [|p pre IH]; intros s H; [by simplify_eq/=|].
  destruct s as [|c s]; [done|]. simpl in H. case_match eqn:E; [|done].
  bool_to_prop. simpl. f_equal; auto.
Qed.

Lemma split_char_none sep w : Forall (fun c => c <> sep) w -> split_char sep w = [w].
Proof.
  induction 1 as [|c w Hc _ IH]; [done|]. simpl.
  by rewrite (proj2 (Z.eqb_neq _ _) Hc), IH.
Qed.

Lemma split_char_app sep w s :
  Forall (fun c => c <> sep) w -> split_char sep (w ++ sep :: s) = w :: split_char sep s.
Proof.
  induction 1 as [|c w Hc _ IH]; simpl; [by rewrite Z.eqb_refl|].
  by rewrite (proj2 (Z.eqb_neq _ _) Hc), IH.
Qed.

(** Splitting a join gives the pieces back. *)
Lemma split_join_char sep ws :
  ws <> [] -> Forall (Forall (fun c => c <> sep)) ws -> split_char sep (join_char sep ws) = ws.
Proof.
  intros Hne H. induction H as [|w ws Hw H IH]; [done|]. destruct ws as [|w' ws].
  - by apply split_char_none.
  - cbn [join_char]. rewrite split_char_app by done. f_equal. by apply IH.
Qed.

(** [n.to_string()] for an unsigned [n] of at most 20 digits. *)
Fixpoint dec_loop (fuel : nat) (n : Z) (acc : str) : str :=
  match fuel with
  | O => acc
  | S fuel =>
    let acc := (48 + n mod 10)%Z :: acc in
    if (n <? 10)%Z then acc else dec_loop fuel (n / 10) acc
  end.
Definition dec (n : Z) : str := dec_loop 20 n [].

(** [format!("{b:02x}")]. *)
Definition hex_digit (d : Z) : Z := (if d <? 10 then 48 + d else 87 + d)%Z.
Definition hex2 (b : Z) : str := [hex_digit (b / 16); hex_digit (b mod 16)].

Example dec_ex : dec 0 = lit "0" /\ dec 18446744073709551615 = lit "18446744073709551615" /\
  hex2 171 = lit "ab".
Proof. vm_compute. auto. Qed.

(** ** Lists *)

Section lists.
Context {A : Type}.
Implicit Types l : list A.

(** [slice::contains] / [Iterator::any] on a boolean test. *)
Lemma existsb_false_Forall (f : A -> bool) l :
  existsb f l = false <-> Forall (fun x => f x = false) l.
Proof.
  induction l as [|x l IH]; simpl; [split; [constructor|done]|].
  rewrite orb_false_iff, IH, Forall_cons. done.
Qed.

Lemma existsb_true_Exists (f : A -> bool) l :
  existsb f l = true <-> Exists (fun x => f x = true) l.
Proof.
  rewrite List.existsb_exists, Exists_exists.
  split; intros (x & ? & ?); exists x; split; auto;
    first [by apply list_elem_of_In | by rewrite <- list_elem_of_In].
Qed.

Lemma drop_app_exact l k : drop (length l) (l ++ k) = k.
Proof. by rewrite drop_app_length. Qed.

Lemma take_app_exact l k : take (length l) (l ++ k) = l.
Proof. by rewrite take_app_length. Qed.

Lemma replicate_snoc n (x : A) l : replicate n x ++ x :: l = x :: replicate n x ++ l.
Proof. induction n; simpl; congruence. Qed.
End lists.

(** ** Buffers *)

Definition zeros (n : nat) : list Z := replicate n 0%Z.
(** A zeroed buffer of [n] bytes whose start was written. *)
Definition written (n : nat) (bs : list Z) : list Z := take n (bs ++ zeros n).
Definition field (bs : list Z) (off n : nat) : list Z := take n (drop off bs).
(** [bs] written into [buf] at [off]; what does not fit is lost. *)
Definition overwrite (buf : list Z) (off : nat) (bs : list Z) : list Z :=
  take off buf ++ take (length buf - off) bs ++ drop (off + length bs) buf.

Lemma field_app (a b c : list Z) : field (a ++ b ++ c) (length a) (length b) = b.
Proof. unfold field. rewrite drop_app_length. apply take_app_length. Qed.

Lemma written_app n (bs : list Z) : (length bs <= n)%nat -> written n bs = bs ++ zeros (n - length bs).
Proof.
  intros H. unfold written, zeros. rewrite take_app_ge by lia. f_equal.
  rewrite take_replicate. f_equal. lia.
Qed.

Lemma overwrite_at (pre rest bs : list Z) : (length bs <= length rest)%nat ->
  overwrite (pre ++ rest) (length pre) bs = (pre ++ bs) ++ drop (length bs) rest.
Proof.
  intros H. unfold overwrite. rewrite take_app_exact, length_app.
  rewrite (take_ge bs) by lia. rewrite drop_app_ge by lia. rewrite <- app_assoc.
  do 3 f_equal. lia.
Qed.

(** ** Byte-string order

    [OsStr]'s [Ord]: lexicographic on bytes, as [BTreeMap] iterates and
    [sort_by] on names compares. *)

Fixpoint bytes_leb (a b : list Z) : bool :=
  match a, b with
  | [], _ => true
  | _ :: _, [] => false
  | x :: a', y :: b' => if (x =? y)%Z then bytes_leb a' b' else (x <? y)%Z
  end.

Definition bytes_le (a b : list Z) : Prop := bytes_leb a b = true.
#[export] Instance bytes_le_dec : RelDecision bytes_le.
Proof. intros a b. unfold bytes_le. apply _. Defined.

Lemma bytes_leb_refl a : bytes_leb a a = true.
Proof. induction a as [|x a IH]; [done|]. simpl. by rewrite Z.eqb_refl. Qed.

#[export] Instance bytes_le_total : Total bytes_le.
Proof.
  unfold bytes_le. intros a. induction a as [|x a IH]; intros [|y b]; simpl; [tauto..|].
  rewrite (Z.eqb_sym y x). case_match eqn:E; [apply IH|]. bool_to_prop.
  destruct (Z.ltb_spec x y); [by left|]. right. apply Z.ltb_lt. lia.
Qed.

#[export] Instance bytes_le_trans : Transitive bytes_le.
Proof.
  unfold bytes_le. intros a. induction a as [|x a IH]; intros [|y b] [|z c]; simpl; try done.
  destruct (Z.eqb_spec x y), (Z.eqb_spec y z), (Z.eqb_spec x z); subst; try done; try lia;
    intros H1 H2; rewrite ?Z.ltb_lt in *; try lia; eauto.
Qed.

#[export] Instance bytes_le_antisymm : AntiSymm (=) bytes_le.
Proof.
  unfold bytes_le. intros a. induction a as [|x a IH]; intros [|y b]; simpl; try done.
  rewrite (Z.eqb_sym y x). case_match eqn:E; bool_to_prop; intros H1 H2.
  - subst. f_equal. by apply IH.
  - bool_to_prop. lia.
Qed.
