(* ===== verification/Error.v ===== *)
(** * The two-axis error model ([crates/platform/src/error.rs]) and the two
    result types every other file uses.

    [Result] is the crate's own alias.  [Run] adds to it the two outcomes a
    Rust function has besides returning: a panic (out-of-range index,
    mid-character slice), and, for the functions whose recursion is not
    structural, running out of the model's fuel. *)

From Stdlib Require Import ZArith String.
From S2P Require Import Prelude.
From stdpp Require Import base numbers list strings.

Inductive ErrorKind :=
  | NotFound | PermissionDenied | AlreadyExists | NotADirectory | IsADirectory
  | DirectoryNotEmpty | InvalidInput | WouldBlock | Interrupted | BrokenPipe
  | Unsupported | ConnectionRefused | ConnectionReset | ConnectionAborted
  | NotConnected | AddrInUse | AddrNotAvailable | TimedOut | FilesystemLoop
  | CrossesDevices | Other.

Inductive OsCode :=
  | Errno (code : Z)
  | Win32 (code : Z)
  | NoCode.

#[export] Instance ErrorKind_eq_dec : EqDecision ErrorKind.
Proof. solve_decision. Defined.
#[export] Instance OsCode_eq_dec : EqDecision OsCode.
Proof. solve_decision. Defined.

Record PlatformError := mkPlatformError {
  kind : ErrorKind;
  os : OsCode;
  op : string;
  path : option OsString;
}.

#[export] Instance PlatformError_eq_dec : EqDecision PlatformError.
Proof. solve_decision. Defined.

(** [PlatformError::new] and [PlatformError::with_path]. *)
Definition error_new (k : ErrorKind) (o : OsCode) (opn : string) : PlatformError :=
  mkPlatformError k o opn None.

Definition with_path (e : PlatformError) (p : OsString) : PlatformError :=
  mkPlatformError (kind e) (os e) (op e) (Some p).

Inductive Result (A : Type) :=
  | Ok (a : A)
  | Err (e : PlatformError).
Arguments Ok {A} a.
Arguments Err {A} e.

Inductive Run (A : Type) :=
  | Done (r : Result A)
  | Panic
  | OutOfFuel.
Arguments Done {A} r.
Arguments Panic {A}.
Arguments OutOfFuel {A}.

#[export] Instance Result_eq_dec {A} `{EqDecision A} : EqDecision (Result A).
Proof. solve_decision. Defined.
#[export] Instance Run_eq_dec {A} `{EqDecision A} : EqDecision (Run A).
Proof. solve_decision. Defined.

(** The [?] operator, on both types. *)
Notation "'let?' x := m 'in' k" :=
  (match m with Ok x => k | Err e => Err e end)
  (at level 10, x pattern, m at level 100, k at level 200).

Notation "'do!' x := m 'in' k" :=
  (match m with
   | Done (Ok x) => k
   | Done (Err e) => Done (Err e)
   | Panic => Panic
   | OutOfFuel => OutOfFuel
   end)
  (at level 10, x pattern, m at level 100, k at level 200).

Abbreviation ret x := (Done (Ok x)).
Abbreviation fail e := (Done (Err e)).

(** A panicking partial operation ([None] is the panic). *)
Definition or_panic {A} (o : option A) : Run A :=
  match o with Some a => ret a | None => Panic end.

(** [Option::ok_or_else]. *)
Definition ok_or_else {A} (o : option A) (e : PlatformError) : Result A :=
  match o with Some a => Ok a | None => Err e end.

Definition is_ok {A} (r : Result A) : bool :=
  match r with Ok _ => true | Err _ => false end.

(** ** Operations on a state

    A method that takes [&mut self] and returns a [Result] is a function from
    the state to the new state and the outcome: an error keeps the changes
    made before it. *)

Definition st_bind {S A B} (m : S -> S * Run A) (k : A -> S -> S * Run B) (s : S) : S * Run B :=
  match m s with
  | (s', ret a) => k a s'
  | (s', fail e) => (s', fail e)
  | (s', Panic) => (s', Panic)
  | (s', OutOfFuel) => (s', OutOfFuel)
  end.

Definition st_lift {S A} (r : Run A) (s : S) : S * Run A := (s, r).

Notation "'st!' x := m 'in' k" := (st_bind m (fun x => k))
  (at level 10, x pattern, m at level 100, k at level 200).

Lemma st_bind_ret {S A B} (m : S -> S * Run A) (k : A -> S -> S * Run B) s s' a :
  m s = (s', ret a) -> st_bind m k s = k a s'.
Proof. unfold st_bind. by intros ->. Qed.

Lemma st_bind_fail {S A B} (m : S -> S * Run A) (k : A -> S -> S * Run B) s s' e :
  m s = (s', fail e) -> st_bind m k s = (s', fail e).
Proof. unfold st_bind. by intros ->. Qed.

Lemma st_bind_inv {S A B} (m : S -> S * Run A) (k : A -> S -> S * Run B) s s' b :
  st_bind m k s = (s', ret b) -> exists s1 a, m s = (s1, ret a) /\ k a s1 = (s', ret b).
Proof.
  unfold st_bind. destruct (m s) as [s1 [[a|e]| |]]; intros H; try discriminate H. eauto.
Qed.

Lemma with_path_kind e p : kind (with_path e p) = kind e.
Proof. done. Qed.
