(* ===== verification/Sys.v ===== *)
(** * The system-call surface of the native backends
      ([crates/platform-linux/src/ffi/libc_surface.rs],
       [crates/platform-windows/src/ffi])

    Every call a backend may make is a constructor of [Call] ([c_] for the
    Linux ones, [w_] for Win32 and NT), with the arguments the code passes;
    what the call returns is a [Ret]: the integer result, the [errno]
    ([GetLastError] on Windows) left behind and the out-parameter.  The kernel is a
    parameter, an arbitrary function of its own state and the call; a world
    pairs its state with the log of the calls made, so theorems can speak of
    what the program asked for.

    An [OwnedFd] closes its descriptor when it goes out of scope; [owned] and
    [scoped] write those closes out, and the second half of the file is a
    small logic for who owns which descriptor. *)

From Stdlib Require Import ZArith Lia String.
From S2P Require Import Prelude Error.
From stdpp Require Import base numbers list strings gmap gmultiset.
Open Scope Z_scope.

(** ** Constants of the Linux user ABI (x86_64) *)

Definition EPERM := 1.
Definition ENOENT := 2.
Definition ESRCH := 3.
Definition EINTR := 4.
Definition EIO := 5.
Definition EBADF := 9.
Definition EAGAIN := 11.
Definition EACCES := 13.
Definition EEXIST := 17.
Definition EXDEV := 18.
Definition ENODEV := 19.
Definition ENOTDIR := 20.
Definition EISDIR := 21.
Definition EINVAL := 22.
Definition ENOTTY := 25.
Definition EPIPE := 32.
Definition ERANGE := 34.
Definition ENOSYS := 38.
Definition ENOTEMPTY := 39.
Definition ELOOP := 40.
Definition EOPNOTSUPP := 95.
Definition EADDRINUSE := 98.
Definition EADDRNOTAVAIL := 99.
Definition ECONNABORTED := 103.
Definition ECONNRESET := 104.
Definition ENOTCONN := 107.
Definition ETIMEDOUT := 110.
Definition ECONNREFUSED := 111.

Definition AT_FDCWD := -100.
Definition AT_SYMLINK_NOFOLLOW := 256.
Definition AT_REMOVEDIR := 512.
Definition O_RDONLY := 0.
Definition O_WRONLY := 1.
Definition O_RDWR := 2.
Definition O_CREAT := 64.
Definition O_EXCL := 128.
Definition O_NOCTTY := 256.
Definition O_TRUNC := 512.
Definition O_APPEND := 1024.
Definition O_NONBLOCK := 2048.
Definition O_DIRECTORY := 65536.
Definition O_CLOEXEC := 524288.
Definition O_PATH := 2097152.

(** ** Calls *)

(** The terminal attributes the code reads and writes back; [rest] is the
    fields it never looks at. *)
Record Termios := mkTermios { c_lflag : Z; rest : list Z }.

Record Stat := mkStat {
  st_dev : Z; st_ino : Z; st_mode : Z; st_nlink : Z; st_uid : Z; st_gid : Z;
  st_size : Z; st_mtime : Z; st_mtime_nsec : Z;
}.

(** One entry of a [posix_spawn_file_actions_t], in order of addition. *)
Inductive FileAction :=
  | AddChdir (path : OsString)
  | AddOpen (fd : Z) (path : OsString) (flags : Z)
  | AddDup2 (fd new_fd : Z).
#[export] Instance FileAction_eq_dec : EqDecision FileAction.
Proof. solve_decision. Defined.

(** [posix_spawnattr_t]: the flags word and the process group. *)
Record SpawnAttr := mkSpawnAttr { sa_flags : Z; sa_pgroup : Z }.

Record sock_filter := mkFilter { bf_code : Z; bf_jt : Z; bf_jf : Z; bf_k : Z }.

Inductive Call :=
  | c_close (fd : Z)
  | c_open (path : OsString) (flags : Z)
  | c_openat (dirfd : Z) (path : OsString) (flags mode : Z)
  | c_openat2 (dirfd : Z) (path : OsString) (flags mode resolve : Z)
  | c_memfd_create (name : str) (flags : Z)
  | c_read (fd n : Z)
  | c_write (fd : Z) (buf : list Z)
  | c_fcntl_dupfd_cloexec (fd : Z)
  | c_fcntl_getfl (fd : Z)
  | c_fcntl_setfl (fd flags : Z)
  | c_fsync (fd : Z)
  | c_mkdirat (dirfd : Z) (path : OsString) (mode : Z)
  | c_unlinkat (dirfd : Z) (path : OsString) (flags : Z)
  | c_symlinkat (target : OsString) (dirfd : Z) (link : OsString)
  | c_readlinkat (dirfd : Z) (path : OsString) (cap : Z)
  | c_fstatat (dirfd : Z) (path : OsString) (flags : Z)
  | c_fchmodat (dirfd : Z) (path : OsString) (mode flags : Z)
  | c_faccessat (dirfd : Z) (path : OsString) (mode flags : Z)
  | c_renameat2 (olddir : Z) (old : OsString) (newdir : Z) (new : OsString) (flags : Z)
  | c_chmod (path : OsString) (mode : Z)
  | c_fdopendir (fd : Z)
  | c_readdir (dir : Z)
  | c_closedir (dir : Z)
  | c_socket (family type protocol : Z)
  | c_connect (fd : Z) (addr : list Z) (len : Z)
  | c_bind (fd : Z) (addr : list Z) (len : Z)
  | c_listen (fd backlog : Z)
  | c_accept4 (fd cap flags : Z)
  | c_setsockopt (fd level name : Z) (value : list Z)
  | c_getpeername (fd cap : Z)
  | c_getsockname (fd cap : Z)
  | c_sendto (fd : Z) (buf : list Z) (addr : list Z) (len : Z)
  | c_recvfrom (fd n cap : Z)
  | c_pipe2 (flags : Z)
  | c_actions_init
  | c_actions_add (a : FileAction)
  | c_attr_init
  | c_attr_setflags (flags : Z)
  | c_attr_setpgroup (pgroup : Z)
  | c_posix_spawn (path : OsString) (actions : list FileAction) (attr : SpawnAttr)
      (argv envp : list OsString)
  | c_waitpid (pid flags : Z)
  | c_kill (pid sig : Z)
  | c_pidfd_open (pid flags : Z)
  | c_poll (fds : list (Z * Z)) (timeout : Z)
  | c_set_signal (signum handler : Z)
  | c_isatty (fd : Z)
  | c_tcgetattr (fd : Z)
  | c_tcsetattr (fd action : Z) (t : Termios)
  | c_tcsetpgrp (fd pgid : Z)
  | c_ioctl_get_winsize (fd : Z)
  | c_ioctl_set_winsize (fd rows cols : Z)
  | c_ioctl (fd request : Z) (req : list Z)
  | c_posix_openpt (flags : Z)
  | c_grantpt (fd : Z)
  | c_unlockpt (fd : Z)
  | c_ptsname (fd cap : Z)
  | c_getrandom (n flags : Z)
  | c_prctl (option arg : Z)
  | c_prctl_seccomp (program : list sock_filter)
  | c_landlock_create_ruleset (handled : Z)
  | c_landlock_add_rule (ruleset rule_type allowed parent : Z)
  | c_landlock_restrict_self (ruleset : Z)
  (* Win32 and NT; names and paths are UTF-16 code units; [c_close] is also
     [CloseHandle] and [closesocket] *)
  | w_create_file (name : list Z) (access share : Z) (inherit : bool) (disposition flags : Z)
  | w_nt_create_file (root : Z) (name : list Z) (access attributes disposition options : Z)
  | w_read_file (h n : Z)
  | w_write_file (h : Z) (buf : list Z)
  | w_flush_file_buffers (h : Z)
  | w_get_file_info_ex (h class : Z)
  | w_get_file_info (h : Z)
  | w_set_disposition (h delete : Z)
  | w_nt_set_rename (h : Z) (info : list Z)
  | w_device_io_control (h code : Z) (input : list Z) (cap : Z)
  | w_duplicate_handle (h : Z) (inherit : bool)
  | w_create_pipe (inherit : bool)
  | w_set_inherit (h flags : Z)
  | w_get_std_handle (slot : Z)
  | w_create_job
  | w_set_job_limits (job flags : Z)
  | w_assign_process (job process : Z)
  | w_resume_thread (h : Z)
  | w_create_process (line : list Z) (inherit : bool) (flags : Z) (env : option (list Z))
      (cwd : list Z) (std : option (list Z))
  | w_open_process (access pid : Z)
  | w_wait_single (h ms : Z)
  | w_wait_multiple (handles : list Z) (ms : Z)
  | w_get_exit_code (process : Z)
  | w_terminate_process (process code : Z)
  | w_terminate_job (job code : Z)
  | w_wsa_startup (version : Z)
  | w_socket (family type protocol : Z)
  | w_connect (s : Z) (addr : list Z)
  | w_bind (s : Z) (addr : list Z)
  | w_listen (s backlog : Z)
  | w_accept (s cap : Z)
  | w_getsockname (s cap : Z)
  | w_getpeername (s cap : Z)
  | w_recv (s n : Z)
  | w_send (s : Z) (buf : list Z)
  | w_sendto (s : Z) (buf addr : list Z)
  | w_recvfrom (s n cap : Z)
  | w_ioctlsocket (s cmd arg : Z)
  | w_setsockopt (s level name value : Z)
  | w_delete_file (name : list Z)
  | w_get_console_mode (h : Z)
  | w_set_console_mode (h mode : Z)
  | w_get_screen_info (h : Z)
  | w_alloc_console
  | w_free_console
  | w_attach_console (pid : Z)
  | w_set_std_handle (slot h : Z)
  | w_set_ctrl_handler (add : Z)
  | w_create_pseudo_console (cols rows input output : Z)
  | w_resize_pseudo_console (hpc cols rows : Z)
  | w_close_pseudo_console (hpc : Z)
  | w_attribute_list_size (count : Z)
  | w_init_attribute_list (count size : Z)
  | w_update_attribute (attribute value : Z)
  | w_delete_attribute_list
  | w_create_process_ex (line : list Z) (inherit : bool) (flags : Z) (env : option (list Z))
      (cwd : list Z) (std : option (list Z)) (attributes : list (Z * Z))
  | w_peek_named_pipe (h : Z)
  | w_bcrypt_gen_random (n flags : Z)
  | w_cred_write (type : Z) (target user : list Z) (blob : list Z) (size persist : Z)
  | w_cred_read (target : list Z) (type : Z)
  | w_cred_free (cred : Z)
  | w_cert_open_store (name : list Z)
  | w_cert_enum (store prev : Z)
  | w_cert_close_store (store : Z)
  (* the calls the BSD backend makes where Linux has another *)
  | c_accept (fd cap : Z)
  | c_fcntl_setfd (fd flags : Z)
  (* Security.framework and CoreFoundation on macOS *)
  | c_sec_copy_anchors
  | c_sec_copy_data (cert : Z)
  | c_cf_array_count (array : Z)
  | c_cf_array_value (array i : Z)
  | c_cf_data_length (data : Z)
  | c_cf_data_ptr (data : Z)
  | c_cf_release (cf : Z).

(** ** Results

    [rv] is the returned integer, [err] the value of [errno] after the call
    and [out] what the kernel wrote through the out-parameter (nothing, when
    the zeroed buffer the code passed was left alone). *)

Inductive Out :=
  | ONone
  | OBytes (bs : list Z)
  | OAddr (storage : list Z) (len : Z)
  | OPair (a b : Z)
  | OInt (x : Z)
  | OInts (l : list Z)
  | OStat (st : Stat)
  | OTermios (t : Termios)
  | ODirent (name : list Z) (d_type : Z)
  | ODatagram (bs : list Z) (storage : list Z).

Record Ret := mkRet { rv : Z; err : Z; out : Out }.

Definition out_bytes (r : Ret) : list Z :=
  match out r with OBytes bs | ODatagram bs _ => bs | _ => [] end.
Definition out_storage (r : Ret) : list Z :=
  match out r with OAddr a _ | ODatagram _ a => a | _ => [] end.
Definition out_len (r : Ret) : Z := match out r with OAddr _ n => n | _ => 0 end.
Definition out_pair (r : Ret) : Z * Z := match out r with OPair a b => (a, b) | _ => (0, 0) end.
Definition out_int (r : Ret) : Z := match out r with OInt x => x | _ => 0 end.
Definition out_ints (r : Ret) : list Z := match out r with OInts l => l | _ => [] end.
Definition out_stat (r : Ret) : Stat :=
  match out r with OStat st => st | _ => mkStat 0 0 0 0 0 0 0 0 0 end.
Definition out_termios (r : Ret) : Termios :=
  match out r with OTermios t => t | _ => mkTermios 0 [] end.

(** ** The world and one call *)

Section world.
Context {K : Type} (kernel : Call -> K -> K * Ret).

Record World := mkWorld { state : K; log : list (Call * Ret) }.

Definition syscall (c : Call) (w : World) : World * Run Ret :=
  let (k, r) := kernel c (state w) in (mkWorld k (log w ++ [(c, r)]), ret r).

(** The [Drop] of an [OwnedFd]: close, and ignore what close says. *)
Definition drop_fd (fd : Z) (w : World) : World := fst (syscall (c_close fd) w).

(** [fd] lives to the end of [body] and moves into its result; an early
    return or a panic drops it. *)
Definition owned {A} (fd : Z) (body : World -> World * Run A) (w : World) : World * Run A :=
  match body w with
  | (w, ret a) => (w, ret a)
  | (w, OutOfFuel) => (w, OutOfFuel)
  | (w, r) => (drop_fd fd w, r)
  end.

(** [fd] is dropped when [body] is over, however it ends. *)
Definition scoped {A} (fd : Z) (body : World -> World * Run A) (w : World) : World * Run A :=
  match body w with
  | (w, OutOfFuel) => (w, OutOfFuel)
  | (w, r) => (drop_fd fd w, r)
  end.

(** Several descriptors dropped in turn ([Vec], array and local-variable
    drops), on an error and when a scope ends. *)
Definition drop_fds (l : list Z) (w : World) : World := fold_left (fun w fd => drop_fd fd w) l w.

Definition bail {A} (l : list Z) (e : PlatformError) (w : World) : World * Run A :=
  (drop_fds l w, fail e).

(** [m?] while [l] is owned: an early return or a panic drops it. *)
Definition or_bail {A B} (l : list Z) (m : World -> World * Run A) (k : A -> World -> World * Run B)
    (w : World) : World * Run B :=
  match m w with
  | (w, ret a) => k a w
  | (w, fail e) => bail l e w
  | (w, Panic) => (drop_fds l w, Panic)
  | (w, OutOfFuel) => (w, OutOfFuel)
  end.

Definition scoped_all {A} (l : list Z) (body : World -> World * Run A) (w : World) : World * Run A :=
  match body w with
  | (w, OutOfFuel) => (w, OutOfFuel)
  | (w, r) => (drop_fds l w, r)
  end.
End world.
Arguments World : clear implicits.
Arguments mkWorld {K} _ _.
Arguments state {K} _.
Arguments log {K} _.

(** ** Who owns which descriptor

    [acquired] is the descriptors a successful call hands over, [released]
    the one it takes back.  [replay] follows the ownership along a log; it is
    [None] when a descriptor is closed by code that does not own it. *)

(** [OwnedWinHandle::from_raw]: neither [INVALID_HANDLE_VALUE] nor null. *)
Definition valid_handle (h : Z) : bool := negb (h =? -1) && negb (h =? 0).
Definition handles (l : list Z) : list Z := List.filter valid_handle l.

Definition acquired (e : Call * Ret) : list Z :=
  let r := snd e in
  match fst e with
  | c_open _ _ | c_openat _ _ _ _ | c_openat2 _ _ _ _ _ | c_memfd_create _ _
  | c_fcntl_dupfd_cloexec _ | c_socket _ _ _ | c_accept4 _ _ _ | c_pidfd_open _ _
  | c_posix_openpt _ | c_landlock_create_ruleset _ | c_accept _ _ => if 0 <=? rv r then [rv r] else []
  | c_pipe2 _ => if rv r =? 0 then [fst (out_pair r); snd (out_pair r)] else []
  | w_create_file _ _ _ _ _ _ | w_create_job | w_open_process _ _ => handles [rv r]
  | w_nt_create_file _ _ _ _ _ _ => if rv r =? 0 then handles [out_int r] else []
  | w_duplicate_handle _ _ => if rv r =? 0 then [] else handles [out_int r]
  | w_socket _ _ _ | w_accept _ _ => if rv r =? -1 then [] else [rv r]
  | w_create_pipe _ | w_create_process _ _ _ _ _ _ | w_create_process_ex _ _ _ _ _ _ _ =>
    (* a success hands over two handles, the first of which is valid *)
    if (rv r =? 0) || negb (valid_handle (nth 0 (out_ints r) 0)) then [] else handles (take 2 (out_ints r))
  (* the references the Copy rule makes the caller release *)
  | c_sec_copy_anchors => if (rv r =? 0) && negb (out_int r =? 0) then [out_int r] else []
  | c_sec_copy_data _ => if rv r =? 0 then [] else [rv r]
  | _ => []
  end.

Definition released (c : Call) : option Z :=
  match c with c_close fd | c_closedir fd | c_cf_release fd => Some fd | _ => None end.

Abbreviation fds l := (list_to_set_disj l : gmultiset Z).

Definition replay1 (h : gmultiset Z) (e : Call * Ret) : option (gmultiset Z) :=
  match released (fst e) with
  | Some fd => if decide (fd ∈ h) then Some (h ∖ {[+ fd +]}) else None
  | None => Some (h ⊎ fds (acquired e))
  end.

Fixpoint replay (h : gmultiset Z) (l : list (Call * Ret)) : option (gmultiset Z) :=
  match l with
  | [] => Some h
  | e :: l' => h' ← replay1 h e; replay h' l'
  end.

Lemma own_more fd (h f : gmultiset Z) : fd ∈ h -> fd ∈ h ⊎ f.
Proof. intros. apply gmultiset_elem_of_disj_union. by left. Qed.

Lemma own_bail_head fd (h : gmultiset Z) : ({[+ fd +]} ⊎ h) ∖ {[+ fd +]} = h.
Proof.
  symmetry. apply (inj (disj_union {[+ fd +]})).
  apply gmultiset_disj_union_difference, gmultiset_disj_union_subseteq_l.
Qed.

Lemma replay_app h l1 l2 : replay h (l1 ++ l2) = (h' ← replay h l1; replay h' l2).
Proof.
  revert h. induction l1 as [|e l1 IH]; intros h; [done|].
  cbn [replay app]. destruct (replay1 h e); cbn; [apply IH|done].
Qed.

(** What is not touched can be added on both sides. *)
Lemma replay1_frame f h e h' : replay1 h e = Some h' -> replay1 (h ⊎ f) e = Some (h' ⊎ f).
Proof.
  unfold replay1. destruct (released (fst e)) as [fd|].
  - intros H. destruct (decide (fd ∈ h)) as [Hin|]; [|done].
    rewrite decide_True by by apply own_more. simplify_eq. f_equal.
    rewrite (gmultiset_disj_union_difference' fd h Hin) at 1.
    by rewrite <- (assoc_L (⊎)), own_bail_head.
  - intros. simplify_eq. f_equal.
    by rewrite <- !(assoc_L (⊎)), (comm_L (⊎) f).
Qed.

Lemma replay_frame f l : forall h h', replay h l = Some h' -> replay (h ⊎ f) l = Some (h' ⊎ f).
Proof.
  induction l as [|e l IH]; intros h h' H; cbn [replay] in *; [congruence|].
  destruct (replay1 h e) as [h1|] eqn:E; [|done]. cbn in *.
  rewrite (replay1_frame f _ _ _ E). cbn. by apply IH.
Qed.

(** [owns h m Q E]: run by code that owns [h], [m] ends owning [Q a] when it
    returns [a] and [E] when it fails or panics, and it never closes what it
    does not own. *)
Section owns.
Context {K : Type} (kernel : Call -> K -> K * Ret).
Abbreviation M A := (World K -> World K * Run A).

Definition held {A} (Q : A -> gmultiset Z) (E : gmultiset Z) (r : Run A) : option (gmultiset Z) :=
  match r with Done (Ok a) => Some (Q a) | OutOfFuel => None | _ => Some E end.

Definition owns {A} (h : gmultiset Z) (m : M A) (Q : A -> gmultiset Z) (E : gmultiset Z) : Prop :=
  forall w w' r, m w = (w', r) -> exists l, log w' = log w ++ l /\
  (r <> OutOfFuel -> replay h l = held Q E r).

Lemma owns_lift {A} h (r : Run A) E (Q : A -> gmultiset Z) :
  (r <> OutOfFuel -> held Q E r = Some h) -> owns h (st_lift r) Q E.
Proof.
  intros H w w' r' [= <- <-]. exists []. rewrite app_nil_r. split; [done|]. intros Hr.
  by rewrite H.
Qed.

Lemma owns_ret {A} h (a : A) Q E : Q a = h -> owns h (st_lift (ret a)) Q E.
Proof. intros <-. by apply owns_lift. Qed.
Lemma owns_fail {A} h e (Q : A -> gmultiset Z) : owns h (st_lift (fail e)) Q h.
Proof. by apply owns_lift. Qed.

Lemma owns_bind {A B} h (m : M A) (k : A -> M B) Q R E :
  owns h m Q E -> (forall a, owns (Q a) (k a) R E) -> owns h (st_bind m k) R E.
Proof.
  intros Hm Hk w w' r. unfold st_bind. destruct (m w) as [w1 r1] eqn:E1.
  destruct (Hm _ _ _ E1) as (l1 & Hl1 & H1). destruct r1 as [[a|e]| |]; intros H; simplify_eq.
  - destruct (Hk a _ _ _ H) as (l2 & Hl2 & H2). exists (l1 ++ l2).
    rewrite Hl2, Hl1, app_assoc. split; [done|]. intros Hr. rewrite replay_app, H1 by done.
    cbn. by apply H2.
  - exists l1. split; [done|]. intros _. by rewrite H1.
  - exists l1. split; [done|]. intros _. by rewrite H1.
  - exists l1. done.
Qed.

(** Calls, by what they do to ownership. *)
Lemma owns_syscall h c E :
  released c = None -> owns h (syscall kernel c) (fun r => h ⊎ fds (acquired (c, r))) E.
Proof.
  intros Hc w w' r. unfold syscall. destruct (kernel c (state w)) as [k1 r1]. intros [= <- <-].
  exists [(c, r1)]. split; [done|]. intros _. cbn. unfold replay1. cbn [fst]. by rewrite Hc.
Qed.

Lemma drop_fd_log fd w : exists r, log (drop_fd kernel fd w) = log w ++ [(c_close fd, r)].
Proof.
  unfold drop_fd, syscall. destruct (kernel (c_close fd) (state w)) as [k1 r1]. by exists r1.
Qed.

Lemma replay_close h l fd r h' :
  replay h l = Some ({[+ fd +]} ⊎ h') -> replay h (l ++ [(c_close fd, r)]) = Some h'.
Proof.
  intros H. rewrite replay_app, H. cbn [mbind option_bind replay replay1 fst released].
  unfold replay1. cbn [fst released]. rewrite decide_True.
  - cbn [mbind option_bind]. by rewrite own_bail_head.
  - apply gmultiset_elem_of_disj_union. left. by apply gmultiset_elem_of_singleton.
Qed.

Lemma owns_owned {A} h fd (body : M A) Q E :
  owns h body Q ({[+ fd +]} ⊎ E) -> owns h (owned kernel fd body) Q E.
Proof.
  intros Hb w w' r. unfold owned. destruct (body w) as [w1 r1] eqn:E1.
  destruct (Hb _ _ _ E1) as (l1 & Hl1 & H1).
  destruct r1 as [[a|e]| |]; intros H; simplify_eq;
    try (exists l1; split; [done|]; intros ?; by rewrite H1).
  all: destruct (drop_fd_log fd w1) as [r2 Hd]; exists (l1 ++ [(c_close fd, r2)]).
  all: rewrite Hd, Hl1, app_assoc; split; [done|]; intros _.
  all: apply replay_close; by apply H1.
Qed.

Lemma owns_scoped {A} h fd (body : M A) Q E :
  owns h body (fun a => {[+ fd +]} ⊎ Q a) ({[+ fd +]} ⊎ E) -> owns h (scoped kernel fd body) Q E.
Proof.
  intros Hb w w' r. unfold scoped. destruct (body w) as [w1 r1] eqn:E1.
  destruct (Hb _ _ _ E1) as (l1 & Hl1 & H1).
  destruct r1 as [[a|e]| |]; intros H; simplify_eq; [| | |by exists l1].
  all: destruct (drop_fd_log fd w1) as [r2 Hd]; exists (l1 ++ [(c_close fd, r2)]).
  all: rewrite Hd, Hl1, app_assoc; split; [done|]; intros _.
  all: apply replay_close; by apply H1.
Qed.

Lemma drop_fds_log l : forall w, exists l', log (drop_fds kernel l w) = log w ++ l' /\
  forall h, replay (fds l ⊎ h) l' = Some h.
Proof.
  induction l as [|fd l IH]; intros w; cbn [drop_fds fold_left].
  - exists []. rewrite app_nil_r. split; [done|]. intros h.
    by rewrite list_to_set_disj_nil, (left_id_L ∅ (⊎)).
  - destruct (drop_fd_log fd w) as [r Hr]. destruct (IH (drop_fd kernel fd w)) as (l' & Hl & HT).
    exists ((c_close fd, r) :: l'). unfold drop_fds in Hl. rewrite Hl, Hr, <- app_assoc. split; [done|].
    intros h. rewrite list_to_set_disj_cons, <- (assoc_L (⊎)).
    pose proof (replay_close ({[+ fd +]} ⊎ (fds l ⊎ h)) [] fd r _ eq_refl) as E. cbn [app replay] in *.
    destruct (replay1 _ _) as [h'|]; [|done]. cbn in E. injection E as ->. apply HT.
Qed.

Lemma drop_fds_closes l w : exists l', log (drop_fds kernel l w) = log w ++ l' /\
  Forall (fun e => exists fd, fst e = c_close fd) l'.
Proof.
  revert w. induction l as [|fd l IH]; intros w.
  - exists []. by rewrite app_nil_r.
  - destruct (drop_fd_log fd w) as [r Hr]. destruct (IH (drop_fd kernel fd w)) as (l' & Hl & Hq).
    exists ((c_close fd, r) :: l'). unfold drop_fds in *. cbn [fold_left]. rewrite Hl, Hr, <- app_assoc.
    split; [done|]. constructor; [by exists fd|done].
Qed.

Lemma owns_bail {A} h l e (Q : A -> _) : owns (fds l ⊎ h) (bail kernel l e) Q h.
Proof.
  intros w w' r [= <- <-]. destruct (drop_fds_log l w) as (l' & Hl & HT). exists l'.
  split; [done|]. intros _. apply HT.
Qed.

Lemma owns_or_bail {A B} h h0 l (m : M A) (k : A -> M B) Q R :
  owns h0 m Q (fds l ⊎ h) -> (forall a, owns (Q a) (k a) R h) -> owns h0 (or_bail kernel l m k) R h.
Proof.
  intros Hm Hk w w' r. unfold or_bail, bail. destruct (m w) as [w1 r1] eqn:E1.
  destruct (Hm _ _ _ E1) as (l1 & Hl1 & H1). destruct r1 as [[a|e]| |]; intros H.
  - destruct (Hk a _ _ _ H) as (l2 & Hl2 & H2). exists (l1 ++ l2).
    rewrite Hl2, Hl1, app_assoc. split; [done|]. intros Hr. rewrite replay_app, H1 by done.
    cbn. by apply H2.
  - injection H as <- <-. destruct (drop_fds_log l w1) as (l' & Hd & HT). exists (l1 ++ l').
    rewrite Hd, Hl1, app_assoc. split; [done|]. intros _. rewrite replay_app, H1 by done. apply HT.
  - injection H as <- <-. destruct (drop_fds_log l w1) as (l' & Hd & HT). exists (l1 ++ l').
    rewrite Hd, Hl1, app_assoc. split; [done|]. intros _. rewrite replay_app, H1 by done. apply HT.
  - injection H as <- <-. by exists l1.
Qed.

(** Which descriptors are owned does not depend on the order they are listed
    in. *)
Lemma owns_perm {A} h l l' (m : M A) Q E :
  l ≡ₚ l' -> owns (fds l ⊎ h) m Q E -> owns (fds l' ⊎ h) m Q E.
Proof. intros Hl. by rewrite (list_to_set_disj_perm l l' Hl). Qed.

Lemma owns_scoped_all {A} h l (body : M A) Q E :
  owns h body (fun a => fds l ⊎ Q a) (fds l ⊎ E) -> owns h (scoped_all kernel l body) Q E.
Proof.
  intros Hb w w' r. unfold scoped_all. destruct (body w) as [w1 r1] eqn:E1.
  destruct (Hb _ _ _ E1) as (l1 & Hl1 & H1).
  destruct r1 as [[a|e]| |]; intros H; simplify_eq; [| | |by exists l1].
  all: destruct (drop_fds_log l w1) as (l' & Hd & HT); exists (l1 ++ l').
  all: rewrite Hd, Hl1, app_assoc; split; [done|]; intros _.
  all: rewrite replay_app, H1 by done; apply HT.
Qed.

(** The same scope, written out by the caller. *)
Lemma owns_closing {A} h fd (body : M A) Q E :
  owns h body (fun a => {[+ fd +]} ⊎ Q a) ({[+ fd +]} ⊎ E) ->
  owns h (fun w => let (w, r) := body w in (drop_fd kernel fd w, r)) Q E.
Proof.
  intros Hb w w' r. destruct (body w) as [w1 r1] eqn:E1.
  destruct (Hb _ _ _ E1) as (l1 & Hl1 & H1). intros [= <- <-].
  destruct (drop_fd_log fd w1) as [r2 Hd]. exists (l1 ++ [(c_close fd, r2)]).
  rewrite Hd, Hl1, app_assoc. split; [done|]. intros Hr. specialize (H1 Hr).
  destruct r1 as [[a|e]| |]; [| | |done]; by apply replay_close.
Qed.

(** A clean-up that always returns, on the error path only. *)
Lemma owns_cleanup {A B C} h (m : M A) (c : M C) (k : A -> M B) Q R E :
  owns h m Q E -> owns E c (fun _ => E) E -> (forall w, snd (c w) <> OutOfFuel) ->
  (forall a, owns (Q a) (k a) R E) ->
  owns h (fun w => match m w with
    | (w, fail e) => let (w, _) := c w in (w, fail e)
    | (w, Panic) => (w, Panic)
    | (w, OutOfFuel) => (w, OutOfFuel)
    | (w, ret a) => k a w
    end) R E.
Proof.
  intros Hm Hc Hf Hk w w' r. destruct (m w) as [w1 r1] eqn:E1.
  destruct (Hm _ _ _ E1) as (l1 & Hl1 & H1). destruct r1 as [[a|e]| |].
  - intros H. destruct (Hk a _ _ _ H) as (l2 & Hl2 & H2). exists (l1 ++ l2).
    rewrite Hl2, Hl1, app_assoc. split; [done|]. intros Hr. rewrite replay_app, H1 by done.
    cbn. by apply H2.
  - destruct (c w1) as [w2 r2] eqn:E2. intros [= <- <-]. destruct (Hc _ _ _ E2) as (l2 & Hl2 & H2).
    exists (l1 ++ l2). rewrite Hl2, Hl1, app_assoc. split; [done|]. intros _.
    rewrite replay_app, H1 by done. specialize (Hf w1). rewrite E2 in Hf. cbn in *.
    rewrite H2 by done. by destruct r2 as [[]| |].
  - intros [= <- <-]. exists l1. split; [done|]. intros _. by rewrite H1.
  - intros [= <- <-]. by exists l1.
Qed.

(** Every outcome handled. *)
Lemma owns_match {A B} h (m : M A) (k : A -> M B) (f : PlatformError -> M B) (p : M B) Q R E E' :
  owns h m Q E -> (forall a, owns (Q a) (k a) R E') -> (forall e, owns E (f e) R E') -> owns E p R E' ->
  owns h (fun w => match m w with
    | (w, ret a) => k a w
    | (w, fail e) => f e w
    | (w, Panic) => p w
    | (w, OutOfFuel) => (w, OutOfFuel)
    end) R E'.
Proof.
  intros Hm Hk Hf Hp w w' r. destruct (m w) as [w1 r1] eqn:E1.
  destruct (Hm _ _ _ E1) as (l1 & Hl1 & H1). destruct r1 as [[a|e]| |].
  4: intros [= <- <-]; by exists l1.
  all: intros H.
  1: destruct (Hk a _ _ _ H) as (l2 & Hl2 & H2). 2: destruct (Hf e _ _ _ H) as (l2 & Hl2 & H2).
  3: destruct (Hp _ _ _ H) as (l2 & Hl2 & H2).
  all: exists (l1 ++ l2); rewrite Hl2, Hl1, app_assoc; split; [done|]; intros Hr; rewrite replay_app, H1 by done; by apply H2.
Qed.

(** An error handled. *)
Lemma owns_catch {A B} h (m : M A) (f : PlatformError -> M B) (k : A -> M B) Q R E :
  owns h m Q E -> (forall e, owns E (f e) R E) -> (forall a, owns (Q a) (k a) R E) ->
  owns h (fun w => match m w with
    | (w, ret a) => k a w
    | (w, fail e) => f e w
    | (w, Panic) => (w, Panic)
    | (w, OutOfFuel) => (w, OutOfFuel)
    end) R E.
Proof.
  intros Hm Hf Hk. eapply (owns_match h m k f (st_lift Panic)); [done..|]. by apply owns_lift.
Qed.

(** [let Ok(a) = m else { return b }]. *)
Lemma owns_let_else {A B} h (m : M A) (b : B) (k : A -> M B) Q R E :
  owns h m Q E -> (forall w, snd (m w) <> OutOfFuel) -> R b = E -> (forall a, owns (Q a) (k a) R E) ->
  owns h (fun w => match m w with (w, ret a) => k a w | (w, _) => (w, ret b) end) R E.
Proof.
  intros Hm Hf Hb Hk w w' r. specialize (Hf w). destruct (m w) as [w1 r1] eqn:E1.
  destruct (Hm _ _ _ E1) as (l1 & Hl1 & H1). destruct r1 as [[a|e]| |]; [|intros [= <- <-]..|done].
  - intros H. destruct (Hk a _ _ _ H) as (l2 & Hl2 & H2). exists (l1 ++ l2).
    rewrite Hl2, Hl1, app_assoc. split; [done|]. intros Hr. rewrite replay_app, H1 by done. by apply H2.
  - exists l1. split; [done|]. intros _. rewrite H1 by done. cbn. by rewrite Hb.
  - exists l1. split; [done|]. intros _. rewrite H1 by done. cbn. by rewrite Hb.
Qed.

(** Descriptors the callee knows nothing about. *)
Lemma owns_frame {A} f h (m : M A) Q E :
  owns h m Q E -> owns (h ⊎ f) m (fun a => Q a ⊎ f) (E ⊎ f).
Proof.
  intros Hm w w' r H. destruct (Hm _ _ _ H) as (l & Hl & Hr). exists l. split; [done|].
  intros Hf. rewrite (replay_frame f l h (default ∅ (held Q E r))).
  - by destruct r as [[]| |].
  - rewrite (Hr Hf). by destruct r as [[]| |].
Qed.

Lemma owns_eq {A} h h' (m : M A) Q Q' E E' :
  owns h m Q E -> h = h' -> (forall a, Q a = Q' a) -> E = E' -> owns h' m Q' E'.
Proof.
  intros Hm <- HQ <- w w' r H. destruct (Hm _ _ _ H) as (l & Hl & Hr). exists l. split; [done|].
  intros Hf. rewrite (Hr Hf). destruct r as [[]| |]; cbn; by rewrite ?HQ.
Qed.

Lemma owns_release h c fd E : released c = Some fd ->
  owns ({[+ fd +]} ⊎ h) (syscall kernel c) (fun _ => h) E.
Proof.
  intros Hc w w' r. unfold syscall. destruct (kernel c (state w)) as [k1 r1]. intros [= <- <-].
  exists [(c, r1)]. split; [done|]. intros _. cbn [replay]. unfold replay1. cbn [fst].
  rewrite Hc, decide_True; [|apply gmultiset_elem_of_disj_union; left; by apply gmultiset_elem_of_singleton].
  cbn [mbind option_bind held]. by rewrite own_bail_head.
Qed.

Lemma owns_pure {A} h (r : Run A) : owns h (st_lift r) (fun _ => h) h.
Proof. apply owns_lift. by destruct r as [[]| |]. Qed.

(** The usual shapes: a call that moves no descriptor, and one whose result
    is a descriptor when it is not negative. *)
Lemma owns_neutral h c E : released c = None -> (forall r, acquired (c, r) = []) ->
  owns h (syscall kernel c) (fun _ => h) E.
Proof.
  intros Hc Ha. eapply owns_eq; [by apply owns_syscall|done| |done].
  intros r. cbn. rewrite Ha. apply (right_id_L ∅ (⊎)).
Qed.

Lemma owns_acquire {A} h c (bad k : Ret -> M A) Q E :
  released c = None -> (forall r, acquired (c, r) = if 0 <=? rv r then [rv r] else []) ->
  (forall r, owns h (bad r) Q E) -> (forall r, owns ({[+ rv r +]} ⊎ h) (k r) Q E) ->
  owns h (st! r := syscall kernel c in if rv r <? 0 then bad r else k r) Q E.
Proof.
  intros Hc Ha Hbad Hk. eapply owns_bind; [by apply owns_syscall|]. intros r. cbn beta.
  rewrite Ha. destruct (rv r <? 0) eqn:E1; bool_to_prop.
  - rewrite (proj2 (Z.leb_gt 0 (rv r)) E1), list_to_set_disj_nil, (right_id_L ∅ (⊎)). apply Hbad.
  - rewrite (proj2 (Z.leb_le 0 (rv r)) E1), list_to_set_disj_cons, list_to_set_disj_nil.
    rewrite (right_id_L ∅ (⊎)), (comm_L (⊎)). apply Hk.
Qed.
End owns.

(** The callees' specifications; each is stated for whatever the caller
    owns. *)
Create HintDb owns discriminated.
#[export] Hint Extern 1 (owns _ (st_lift _) _ _) => first [apply owns_pure | apply owns_ret; reflexivity | apply owns_fail] : owns.
#[export] Hint Extern 1 (owns _ (syscall _ _) _ _) => apply owns_release; reflexivity : owns.
#[export] Hint Extern 2 (owns _ (syscall _ _) _ _) => apply owns_neutral; [reflexivity|reflexivity] : owns.

Ltac owns_step :=
  match goal with
  | |- owns _ (st! r := syscall _ _ in if rv r <? 0 then _ else _) _ _ =>
    first [eapply owns_acquire; [reflexivity|reflexivity|intros|intros]
          |eapply owns_bind; [solve [eauto with owns]|intros; cbv beta]]
  | |- owns _ (st_bind _ _) _ _ => eapply owns_bind; [solve [eauto with owns]|intros; cbv beta]
  | |- owns _ (owned _ _ _) _ _ => apply owns_owned
  | |- owns _ (scoped _ _ _) _ _ => apply owns_scoped
  | |- owns _ (if ?b then _ else _) _ _ => destruct b
  | |- owns _ (match ?b with _ => _ end) _ _ => destruct b
  | |- owns _ _ _ _ => solve [eauto with owns]
  end.
Ltac owns_go := repeat (cbv beta zeta; owns_step).

(** [io::Error::last_os_error]: what the last call left in [errno]. *)
Definition errno {K} (w : World K) : Z :=
  match reverse (log w) with e :: _ => err (snd e) | [] => 0 end.

(** [CString::new], with the caller's error. *)
Definition to_cstring (s : OsString) (e : PlatformError) : Run OsString :=
  if existsb (Z.eqb 0) s then fail e else ret s.

(** A call always returns. *)
Lemma syscall_total {K} (kernel : Call -> K -> K * Ret) c (w : World K) :
  exists w' r, syscall kernel c w = (w', ret r).
Proof. unfold syscall. destruct (kernel c (state w)) as [k r]. by eexists _, r. Qed.

(** A call whose answer is known. *)
Lemma st_sys {K A} (kernel : Call -> K -> K * Ret) c k' r (k : Ret -> World K -> World K * Run A) (w : World K) :
  kernel c (state w) = (k', r) ->
  (st! x := syscall kernel c in k x) w = k r (mkWorld k' (log w ++ [(c, r)])).
Proof. unfold st_bind, syscall. by intros ->. Qed.

Lemma errno_last {K} k c r (l : list (Call * Ret)) : errno (K := K) (mkWorld k (l ++ [(c, r)])) = err r.
Proof. unfold errno. cbn [log]. by rewrite reverse_snoc. Qed.

(** Code that branches on [errno]. *)
Lemma owns_errno {K A} h (m1 m2 : World K -> World K * Run A) c Q E :
  owns h m1 Q E -> owns h m2 Q E ->
  owns h (fun w => if errno w =? c then m1 w else m2 w) Q E.
Proof.
  intros H1 H2 w w' r. destruct (errno w =? c); [apply H1|apply H2].
Qed.

(** ** What a piece of code asks the kernel

    [traces m T]: whatever the kernel answers, [m] extends the log by some
    [l] and ends in some [r] with [T l r]. *)
Section traces.
Context {K : Type} (kernel : Call -> K -> K * Ret).
Abbreviation M A := (World K -> World K * Run A).
Abbreviation Trace A := (list (Call * Ret) -> Run A -> Prop).

Definition traces {A} (m : M A) (T : Trace A) : Prop :=
  forall w, exists l, log (fst (m w)) = log w ++ l /\ T l (snd (m w)).

Lemma traces_lift {A} (r : Run A) (T : Trace A) : T [] r -> traces (st_lift r) T.
Proof. intros H w. exists []. split; [symmetry; apply app_nil_r|apply H]. Qed.

Lemma traces_fail {A} (f : World K -> PlatformError) (T : Trace A) :
  (forall e, T [] (fail e)) -> traces (fun w => (w, fail (f w))) T.
Proof. intros H w. exists []. split; [symmetry; apply app_nil_r|apply H]. Qed.

Lemma traces_sys {A} c (k : Ret -> M A) (T : Trace A) :
  (forall r, traces (k r) (fun l => T ((c, r) :: l))) ->
  traces (st! r := syscall kernel c in k r) T.
Proof.
  intros H w. unfold st_bind, syscall. destruct (kernel c (state w)) as [k1 r].
  destruct (H r (mkWorld k1 (log w ++ [(c, r)]))) as (l & Hl & HT).
  exists ((c, r) :: l). split; [|done]. by rewrite Hl; cbn [log]; rewrite <- app_assoc.
Qed.

(** After a step, with what is known of it; a step that does not return ends
    the whole. *)
Definition carried {A B} (r : Run A) : Run B :=
  match r with Done (Ok _) => Panic | fail e => fail e | Panic => Panic | OutOfFuel => OutOfFuel end.

Lemma traces_bind {A B} (m : M A) (k : A -> M B) (T1 : Trace A) (T : Trace B) :
  traces m T1 ->
  (forall l a, T1 l (ret a) -> traces (k a) (fun l2 => T (l ++ l2))) ->
  (forall l r, T1 l r -> (forall a, r <> ret a) -> T l (carried r)) ->
  traces (st_bind m k) T.
Proof.
  intros Hm Hk Hr w. destruct (Hm w) as (l & Hl & HT). unfold st_bind.
  destruct (m w) as [w1 r]. cbn [fst snd] in *. destruct r as [[a|e]| |].
  - destruct (Hk l a HT w1) as (l2 & Hl2 & HT2). exists (l ++ l2). split; [by rewrite Hl2, Hl, app_assoc|done].
  - exists l. split; [done|]. by apply (Hr l (fail e)).
  - exists l. split; [done|]. by apply (Hr l Panic).
  - exists l. split; [done|]. by apply (Hr l OutOfFuel).
Qed.

Lemma traces_pure {A B} (r : Run A) (k : A -> M B) (T : Trace B) :
  (forall a, r = ret a -> traces (k a) T) -> ((forall a, r <> ret a) -> T [] (carried r)) ->
  traces (st_bind (st_lift r) k) T.
Proof.
  intros Hk Hr w. unfold st_bind, st_lift. destruct r as [[a|e]| |]; [by apply Hk|..].
  all: exists []; split; [symmetry; apply app_nil_r|]; by apply Hr.
Qed.

(** [m] returns some [a] with [P a l], or fails with calls that all satisfy
    [q]; it neither panics nor diverges. *)
Definition outcome {A} (q : Call * Ret -> Prop) (P : A -> list (Call * Ret) -> Prop)
    (l : list (Call * Ret)) (r : Run A) : Prop :=
  match r with ret a => P a l | fail _ => Forall q l | _ => False end.

Lemma traces_then {A B} q (m : M A) (k : A -> M B) P (T : Trace B) :
  traces m (outcome q P) ->
  (forall l a, P a l -> traces (k a) (fun l2 => T (l ++ l2))) ->
  (forall l e, Forall q l -> T l (fail e)) -> traces (st_bind m k) T.
Proof.
  intros Hm Hk Hf. eapply traces_bind; [exact Hm|exact Hk|].
  intros l [[a|e]| |] HT Hr; cbn in *; [by destruct (Hr a)|by apply Hf|done|done].
Qed.

Lemma traces_weaken {A} (m : M A) (T T' : Trace A) :
  traces m T -> (forall l r, T l r -> T' l r) -> traces m T'.
Proof. intros Hm H w. destruct (Hm w) as (l & Hl & HT). eauto. Qed.

Lemma traces_scoped {A} fd (body : M A) (T : Trace A) :
  traces body (fun l r => r <> OutOfFuel /\ forall rc, T (l ++ [(c_close fd, rc)]) r) ->
  traces (scoped kernel fd body) T.
Proof.
  intros H w. destruct (H w) as (l & Hl & HF & HT). unfold scoped.
  destruct (body w) as [w1 r]. cbn [fst snd] in *.
  destruct (drop_fd_log kernel fd w1) as [rc Hd]. exists (l ++ [(c_close fd, rc)]).
  destruct r as [[a|e]| |]; [| | |done]; cbn [fst snd]; rewrite Hd, Hl, app_assoc; auto.
Qed.

Lemma traces_owned {A} fd (body : M A) (T : Trace A) :
  traces body (fun l r => match r with
    | ret _ | OutOfFuel => T l r
    | _ => forall rc, T (l ++ [(c_close fd, rc)]) r
    end) -> traces (owned kernel fd body) T.
Proof.
  intros H w. destruct (H w) as (l & Hl & HT). unfold owned.
  destruct (body w) as [w1 r]. cbn [fst snd] in *.
  destruct (drop_fd_log kernel fd w1) as [rc Hd].
  destruct r as [[a|e]| |]; cbn [fst snd]; [eauto| | |eauto];
    exists (l ++ [(c_close fd, rc)]); rewrite Hd, Hl, app_assoc; auto.
Qed.

Lemma traces_run {A} (m : M A) (T : Trace A) w w' r :
  traces m T -> m w = (w', r) -> exists l, log w' = log w ++ l /\ T l r.
Proof. intros H E. destruct (H w) as (l & Hl & HT). rewrite E in *. eauto. Qed.
End traces.

(** ** Laws of the calls a piece of code makes

    [logs P m]: whatever happens, the calls [m] makes satisfy [P], where [P]
    is kept by doing nothing, by one thing after another, and by closing. *)
Class LogLaw (P : list (Call * Ret) -> Prop) : Prop := {
  law_nil : P [];
  law_app l1 l2 : P l1 -> P l2 -> P (l1 ++ l2);
  law_close fd r : P [(c_close fd, r)];
}.

Section logs.
Context {K : Type} (kernel : Call -> K -> K * Ret) {P : list (Call * Ret) -> Prop} {law : LogLaw P}.
Abbreviation M A := (World K -> World K * Run A).

Definition logs {A} (m : M A) : Prop := traces m (fun l _ => P l).

(** Code that makes no call. *)
Lemma logs_pure {A} (m : M A) : (forall w, fst (m w) = w) -> logs m.
Proof. intros Hm w. exists []. rewrite Hm, app_nil_r. split; [done|apply law_nil]. Qed.

Lemma logs_sys c : (forall r, P [(c, r)]) -> logs (syscall kernel c).
Proof.
  intros Hc w. unfold syscall. destruct (kernel c (state w)) as [k r]. by exists [(c, r)].
Qed.

(** The next step, whatever the last one ended in. *)
Lemma logs_next {A B} (m : M A) (k : Run A -> M B) :
  logs m -> (forall r, logs (k r)) -> logs (fun w => k (snd (m w)) (fst (m w))).
Proof.
  intros Hm Hk w. destruct (Hm w) as (l & Hl & HT). destruct (Hk (snd (m w)) (fst (m w))) as (l2 & Hl2 & HT2).
  exists (l ++ l2). rewrite Hl2, Hl, app_assoc. split; [done|]. by apply law_app.
Qed.

Lemma logs_ext {A} (m m' : M A) : logs m' -> (forall w, m w = m' w) -> logs m.
Proof. intros H E w. rewrite E. apply H. Qed.

Lemma logs_bind {A B} (m : M A) (k : A -> M B) : logs m -> (forall a, logs (k a)) -> logs (st_bind m k).
Proof.
  intros Hm Hk. eapply logs_ext.
  - apply (logs_next m (fun r => match r with
      | ret a => k a | fail e => st_lift (fail e) | Panic => st_lift Panic | OutOfFuel => st_lift OutOfFuel end)
      Hm). intros [[a|e]| |]; [apply Hk|by apply logs_pure..].
  - intros w. unfold st_bind. by destruct (m w) as [w' [[a|e]| |]].
Qed.

Lemma logs_lift {A} (r : Run A) : logs (st_lift r).
Proof. by apply logs_pure. Qed.

Lemma logs_drop fd : logs (fun w => (drop_fd kernel fd w, ret tt)).
Proof.
  intros w. destruct (drop_fd_log kernel fd w) as [r Hr]. exists [(c_close fd, r)]. split; [done|].
  apply law_close.
Qed.

Lemma logs_drops l : logs (fun w => (drop_fds kernel l w, ret tt)).
Proof.
  intros w. destruct (drop_fds_closes kernel l w) as (l' & Hl & HT). exists l'. split; [done|].
  clear Hl. induction HT as [|[c r] l' [fd Hc] _ IH]; [apply law_nil|]. cbn in Hc. subst c.
  apply (law_app [(c_close fd, r)]); [apply law_close|done].
Qed.

Lemma logs_owned {A} fd (body : M A) : logs body -> logs (owned kernel fd body).
Proof.
  intros Hb. eapply logs_ext.
  - apply (logs_next body (fun r => match r with
      | ret a => st_lift (ret a) | OutOfFuel => st_lift OutOfFuel
      | r => fun w => (fst (drop_fd kernel fd w, ret tt), r) end) Hb).
    intros [[a|e]| |]; [by apply logs_pure| | |by apply logs_pure]; exact (logs_drop fd).
  - intros w. unfold owned. by destruct (body w) as [w' [[a|e]| |]].
Qed.

Lemma logs_scoped {A} fd (body : M A) : logs body -> logs (scoped kernel fd body).
Proof.
  intros Hb. eapply logs_ext.
  - apply (logs_next body (fun r => match r with
      | OutOfFuel => st_lift OutOfFuel | r => fun w => (drop_fd kernel fd w, r) end) Hb).
    intros [[a|e]| |]; [..|by apply logs_pure]; exact (logs_drop fd).
  - intros w. unfold scoped. by destruct (body w) as [w' [[a|e]| |]].
Qed.

Lemma logs_scoped_all {A} l (body : M A) : logs body -> logs (scoped_all kernel l body).
Proof.
  intros Hb. eapply logs_ext.
  - apply (logs_next body (fun r => match r with
      | OutOfFuel => st_lift OutOfFuel | r => fun w => (drop_fds kernel l w, r) end) Hb).
    intros [[a|e]| |]; [..|by apply logs_pure]; exact (logs_drops l).
  - intros w. unfold scoped_all. by destruct (body w) as [w' [[a|e]| |]].
Qed.

Lemma logs_bail {A} l e : logs (bail (A := A) kernel l e).
Proof. exact (logs_drops l). Qed.

Lemma logs_or_bail {A B} l (m : M A) (k : A -> M B) :
  logs m -> (forall a, logs (k a)) -> logs (or_bail kernel l m k).
Proof.
  intros Hm Hk. eapply logs_ext.
  - apply (logs_next m (fun r => match r with
      | ret a => k a | OutOfFuel => st_lift OutOfFuel
      | fail e => bail kernel l e | Panic => fun w => (drop_fds kernel l w, Panic) end) Hm).
    intros [[a|e]| |]; [apply Hk|apply logs_bail|exact (logs_drops l)|by apply logs_pure].
  - intros w. unfold or_bail. by destruct (m w) as [w' [[a|e]| |]].
Qed.

Lemma logs_errno {A} c (m m' : M A) : logs m -> logs m' -> logs (fun w => if errno w =? c then m w else m' w).
Proof. intros Hm Hm' w. destruct (errno w =? c); [apply Hm|apply Hm']. Qed.

Lemma logs_state {A} (m : K -> M A) : (forall k, logs (m k)) -> logs (fun w => m (state w) w).
Proof. intros Hm w. apply (Hm (state w) w). Qed.
End logs.
Arguments logs {K} P {A} m.

(** A result that is known. *)
Ltac trace_given := apply traces_pure; [intros ? [= <-]|intros Hno; exfalso; by eapply Hno].

Ltac trace_step :=
  match goal with
  | |- traces (st_bind (syscall _ _) _) _ => apply traces_sys; intros ?
  | |- traces (if ?b then _ else _) _ => let E := fresh "E" in destruct b eqn:E; bool_to_prop
  | |- traces (st_lift _) _ => apply traces_lift
  | |- traces (fun w => (w, fail _)) _ => apply traces_fail; intros ?
  end.

(** ** Running code call by call *)

Lemma errno_snoc {K} (k : K) l e : errno (mkWorld k (l ++ [e])) = err (snd e).
Proof. unfold errno. cbn [log]. by rewrite reverse_app. Qed.

(** One call at a time, down every branch. *)
Ltac call1 kern :=
  match goal with
  | |- context [kern ?c ?k] =>
    let k' := fresh "k" in let r' := fresh "r" in
    destruct (kern c k) as [k' r']; cbn [fst snd state log]; rewrite ?errno_snoc; cbn [snd]
  end.
Ltac branch :=
  match goal with
  | |- context [if ?b then _ else _] =>
    match b with context [rv _] => destruct b eqn:? | context [err _] => destruct b eqn:? end
  end; bool_to_prop.
