(* ===== verification/Fs.v ===== *)
(** * The filesystem traits ([crates/platform/src/fs.rs])

    The data types of the [Dir]/[File] surface, the traits themselves as an
    interface ([FsBackend], with the laws a client may rely on in [DirLaws]),
    and the one method the trait implements itself, [Dir::write_atomic]. *)

From Stdlib Require Import ZArith Lia String.
From S2P Require Import Prelude Error.
From stdpp Require Import base numbers list strings gmap.
Open Scope Z_scope.

Record OpenOptions := mkOpenOptions {
  o_read : bool;
  o_write : bool;
  o_append : bool;
  o_create : bool;
  o_create_new : bool;
  o_truncate : bool;
}.
Definition OpenOptions_read : OpenOptions := mkOpenOptions true false false false false false.
Definition OpenOptions_create_truncate : OpenOptions :=
  mkOpenOptions false true false true false true.

Record AccessMode := mkAccessMode { a_read : bool; a_write : bool; a_execute : bool }.
Definition AccessMode_read : AccessMode := mkAccessMode true false false.
Definition AccessMode_write : AccessMode := mkAccessMode false true false.
Definition AccessMode_execute : AccessMode := mkAccessMode false false true.

Inductive FileType := FtFile | FtDir | FtSymlink | FtOther.
#[export] Instance FileType_eq_dec : EqDecision FileType.
Proof. solve_decision. Defined.

(** A [SystemTime] is its signed distance from the epoch in nanoseconds. *)
Record Metadata := mkMetadata {
  file_type : FileType;
  len : Z;
  nlink : Z;
  modified : Z;
}.

Record UnixMode := mkUnixMode {
  setuid : bool;
  setgid : bool;
  sticky : bool;
  uid : Z;
  gid : Z;
  permissions : Z;
}.
Definition UnixMode_default : UnixMode := mkUnixMode false false false 0 0 0.

(** [Mode]: the settable subset. *)
Record Mode := mkMode { m_setuid : bool; m_setgid : bool; m_sticky : bool; m_permissions : Z }.

Record FileId := mkFileId { dev : Z; ino : Z }.

Record DirEntry := mkDirEntry { de_name : OsString; de_type : FileType }.

(** ** The traits as an interface

    [S] is the state the backend works on, [D] its directory capabilities
    and [F] its open files. *)

Class FsBackend (S D F : Type) := {
  open_ : D -> OsString -> OpenOptions -> S -> S * Run F;
  read_ : F -> Z -> S -> S * Run (list Z);
  write_ : F -> list Z -> S -> S * Run Z;
  sync_all_ : F -> S -> S * Run unit;
  (** The [Drop] of a [Box<dyn File>]. *)
  drop_file_ : F -> S -> S;
  remove_file_ : D -> OsString -> S -> S * Run unit;
  rename_ : D -> OsString -> OsString -> S -> S * Run unit;
  sync_dir_ : D -> S -> S * Run unit;
  read_dir_ : D -> S -> S * Run (list DirEntry);
  metadata_ : D -> OsString -> S -> S * Run Metadata;
  unix_mode_ : D -> OsString -> S -> S * Run (option UnixMode);
  read_link_ : D -> OsString -> S -> S * Run OsString;
}.

(** ** [Dir::write_atomic] *)

Fixpoint hex_loop (fuel : nat) (n : Z) (acc : str) : str :=
  match fuel with
  | O => acc
  | S fuel =>
    let acc := hex_digit (n mod 16) :: acc in
    if n <? 16 then acc else hex_loop fuel (n / 16) acc
  end.
(** [format!("{n:x}")] of a [u64]: at most 16 digits. *)
Definition hex (n : Z) : str := hex_loop 16 n [].

(** [n] is what [COUNTER.fetch_add] returned. *)
Definition tmp_name (rel : OsString) (pid n : Z) : OsString :=
  rel ++ lit ".rustils-tmp-" ++ dec pid ++ lit "-" ++ hex n.

Definition create_new_opts : OpenOptions := mkOpenOptions false true false false true false.

Section write_atomic.
Context {S D F : Type} {B : FsBackend S D F}.

Fixpoint write_loop (fuel : nat) (tmp : OsString) (f : F) (contents : list Z) : S -> S * Run unit :=
  match fuel with
  | O => st_lift OutOfFuel
  | Datatypes.S fuel =>
    match contents with
    | [] => st_lift (ret tt)
    | _ =>
      st! n := write_ f contents in
      if n =? 0 then st_lift (fail (with_path (error_new Other NoCode "write_atomic") tmp))
      else write_loop fuel tmp f (drop (Z.to_nat n) contents)
    end
  end.

(** [f] is a local variable of [body]'s scope. *)
Definition with_open_file {A} (f : F) (body : S -> S * Run A) (s : S) : S * Run A :=
  let (s, r) := body s in (drop_file_ f s, r).

(** The closure [write_and_sync]; [fuel] is enough when it exceeds the
    number of [write] calls, at most one per byte. *)
Definition write_and_sync (d : D) (tmp : OsString) (contents : list Z) : S -> S * Run unit :=
  st! f := open_ d tmp create_new_opts in
  with_open_file f
    (st! _ := write_loop (Datatypes.S (length contents)) tmp f contents in
     sync_all_ f).

Definition write_atomic (d : D) (rel : OsString) (contents : list Z) (pid n : Z) (s : S)
    : S * Run unit :=
  let tmp := tmp_name rel pid n in
  match write_and_sync d tmp contents s with
  | (s, fail e) => let (s, _) := remove_file_ d tmp s in (s, fail e)
  | (s, Panic) => (s, Panic)
  | (s, OutOfFuel) => (s, OutOfFuel)
  | (s, ret _) =>
    (st! _ := rename_ d tmp rel in
     sync_dir_ d) s
  end.
End write_atomic.

(** ** What a backend promises *)

(** A directory entry as a client sees it. *)
Inductive Entry :=
  | EFile (content : list Z)
  | EOther.

Class DirLaws (S D F : Type) (B : FsBackend S D F) := {
  (** [d] is a live capability. *)
  dir_ok : S -> D -> Prop;
  entry_at : S -> D -> OsString -> option Entry;
  (** [f] is open for writing on the file named [n], at its end. *)
  writes_to : S -> D -> OsString -> F -> Prop;

  open_new_law s d n : dir_ok s d ->
    exists s' r, open_ d n create_new_opts s = (s', r) /\ dir_ok s' d /\
    ((exists f, r = ret f /\ entry_at s d n = None /\ writes_to s' d n f /\
        entry_at s' d n = Some (EFile []) /\
        forall m, m <> n -> entry_at s' d m = entry_at s d m) \/
     (exists e, r = fail e /\ forall m, entry_at s' d m = entry_at s d m));

  write_law s d n f c bs : dir_ok s d -> writes_to s d n f ->
    entry_at s d n = Some (EFile c) -> bs <> [] ->
    exists s' r, write_ f bs s = (s', r) /\ dir_ok s' d /\ writes_to s' d n f /\
    (forall m, m <> n -> entry_at s' d m = entry_at s d m) /\
    ((exists k, r = ret k /\ 0 <= k <= zlen bs /\
        entry_at s' d n = Some (EFile (c ++ take (Z.to_nat k) bs))) \/
     (exists e, r = fail e /\ exists c', entry_at s' d n = Some (EFile c')));

  sync_all_law s d n f : dir_ok s d -> writes_to s d n f ->
    exists s' r, sync_all_ f s = (s', r) /\ dir_ok s' d /\
    (forall m, entry_at s' d m = entry_at s d m) /\ (r = ret tt \/ exists e, r = fail e);

  drop_file_law s d f : dir_ok s d ->
    dir_ok (drop_file_ f s) d /\ forall m, entry_at (drop_file_ f s) d m = entry_at s d m;

  remove_file_law s d n : dir_ok s d ->
    exists s' r, remove_file_ d n s = (s', r) /\ dir_ok s' d /\
    (forall m, m <> n -> entry_at s' d m = entry_at s d m);

  rename_law s d a b x : dir_ok s d -> a <> b -> entry_at s d a = Some x ->
    exists s' r, rename_ d a b s = (s', r) /\ dir_ok s' d /\
    ((r = ret tt /\ entry_at s' d a = None /\ entry_at s' d b = Some x /\
      forall m, m <> a -> m <> b -> entry_at s' d m = entry_at s d m) \/
     (exists e, r = fail e /\ forall m, entry_at s' d m = entry_at s d m));

  sync_dir_law s d : dir_ok s d ->
    exists s' r, sync_dir_ d s = (s', r) /\ dir_ok s' d /\
    (forall m, entry_at s' d m = entry_at s d m) /\ (r = ret tt \/ exists e, r = fail e);
}.

(** ** The states an observer can see *)

(** Run an operation and record the state it leaves. *)
Definition traced {S A} (m : S -> S * Run A) (sl : S * list S) : (S * list S) * Run A :=
  let (s', r) := m (fst sl) in ((s', snd sl ++ [s']), r).

Definition traced_backend {S D F} (B : FsBackend S D F) : FsBackend (S * list S) D F := {|
  open_ d n o := traced (open_ d n o);
  read_ f n := traced (read_ f n);
  write_ f bs := traced (write_ f bs);
  sync_all_ f := traced (sync_all_ f);
  drop_file_ f sl := let s' := drop_file_ f (fst sl) in (s', snd sl ++ [s']);
  remove_file_ d n := traced (remove_file_ d n);
  rename_ d a b := traced (rename_ d a b);
  sync_dir_ d := traced (sync_dir_ d);
  read_dir_ d := traced (read_dir_ d);
  metadata_ d n := traced (metadata_ d n);
  unix_mode_ d n := traced (unix_mode_ d n);
  read_link_ d n := traced (read_link_ d n);
|}.

Lemma tmp_name_fresh rel pid n : tmp_name rel pid n <> rel.
Proof.
  unfold tmp_name. intros H. apply (f_equal length) in H. rewrite length_app in H.
  cbn [lit app length] in H. lia.
Qed.

Section atomic.
Context {S D F : Type} {B : FsBackend S D F} {L : DirLaws S D F B}.

(** Only the name [tmp] may differ between the two states. *)
Definition only_changes (tmp : OsString) (d : D) (s s' : S) : Prop :=
  dir_ok s' d /\ forall m, m <> tmp -> entry_at s' d m = entry_at s d m.

Lemma only_changes_trans tmp d s1 s2 s3 :
  only_changes tmp d s1 s2 -> only_changes tmp d s2 s3 -> only_changes tmp d s1 s3.
Proof.
  intros [_ H1] [Hd H2]. split; [done|]. intros m Hm. by rewrite H2, H1.
Qed.

Lemma only_changes_log tmp d s1 s2 log :
  only_changes tmp d s1 s2 -> Forall (only_changes tmp d s2) log -> Forall (only_changes tmp d s1) log.
Proof.
  intros H1 H2. eapply Forall_impl; [exact H2|]. intros s. by apply only_changes_trans.
Qed.

(** A call that returned, with or without an error. *)
Definition returns {A} (r : Run A) : Prop := exists x, r = Done x.

Lemma traced_write_loop tmp d f : forall fuel contents c s log,
  (length contents < fuel)%nat ->
  dir_ok s d -> writes_to s d tmp f -> entry_at s d tmp = Some (EFile c) ->
  exists s' log' r,
  write_loop (B := traced_backend B) fuel tmp f contents (s, log) = ((s', log ++ log'), r) /\
  Forall (only_changes tmp d s) log' /\ only_changes tmp d s s' /\ writes_to s' d tmp f /\
  returns r /\ (r = ret tt -> entry_at s' d tmp = Some (EFile (c ++ contents))).
Proof.
  induction fuel as [|fuel IH]; intros contents c s log Hf Hd Hw He; cbn [write_loop]; [lia|].
  destruct contents as [|b bs].
  { exists s, [], (ret tt). rewrite !app_nil_r. repeat split; try done. by eexists. }
  set (contents := b :: bs) in *. unfold st_bind.
  destruct (write_law s d tmp f c contents) as (s1 & r & E & Hd1 & Hw1 & Ho & Hr); [done..|].
  cbn [write_ traced_backend]. unfold traced. cbn [fst snd]. rewrite E.
  assert (only_changes tmp d s s1) as Hs1 by done.
  destruct Hr as [(k & -> & Hk & He1)|(e & -> & _)].
  - destruct (k =? 0) eqn:Ek; bool_to_prop.
    + exists s1, [s1], (fail (with_path (error_new Other NoCode "write_atomic") tmp)).
      split; [done|]. repeat split; try done; [by constructor|by eexists].
    + assert (length (drop (Z.to_nat k) contents) < fuel)%nat as Hf'.
      { rewrite length_drop. unfold contents in *. cbn [length] in *. lia. }
      destruct (IH (drop (Z.to_nat k) contents) _ s1 (log ++ [s1]) Hf' Hd1 Hw1 He1) as
        (s' & log' & r & E' & F1 & F2 & F3 & F4 & F5).
      exists s', (s1 :: log'), r. split.
      { rewrite E'. by rewrite <- app_assoc. }
      split; [constructor; [done|by eapply only_changes_log]|].
      split; [by eapply only_changes_trans|]. split; [done|]. split; [done|].
      intros ->. rewrite F5 by done. by rewrite <- app_assoc, take_drop.
  - exists s1, [s1], (fail e). split; [done|]. repeat split; try done; [by constructor|by eexists].
Qed.

(** The end of a scope that holds the file: one more state, the same
    entries. *)
Lemma traced_with_open_file {A} tmp d f (body : S * list S -> (S * list S) * Run A) s sl s1 log1 r1 :
  body sl = ((s1, log1), r1) -> Forall (only_changes tmp d s) log1 -> only_changes tmp d s s1 ->
  exists s' log', with_open_file (B := traced_backend B) f body sl = ((s', log'), r1) /\
  Forall (only_changes tmp d s) log' /\ only_changes tmp d s s' /\
  forall m, entry_at s' d m = entry_at s1 d m.
Proof.
  intros E F1 F2. unfold with_open_file. rewrite E. cbn [drop_file_ traced_backend fst snd].
  destruct (drop_file_law s1 d f) as [Hd' Hsame]; [apply F2|].
  assert (only_changes tmp d s (drop_file_ f s1)) as F3.
  { split; [done|]. intros m Hm. rewrite Hsame. by apply F2. }
  eexists _, _. split; [reflexivity|]. split; [|by split].
  apply Forall_app. split; [done|by constructor].
Qed.

Lemma traced_write_then_sync tmp d f contents s log :
  dir_ok s d -> writes_to s d tmp f -> entry_at s d tmp = Some (EFile []) ->
  exists s' log' r,
  (st! _ := write_loop (B := traced_backend B) (Datatypes.S (length contents)) tmp f contents in
   sync_all_ (FsBackend := traced_backend B) f) (s, log) = ((s', log ++ log'), r) /\
  Forall (only_changes tmp d s) log' /\ only_changes tmp d s s' /\ returns r /\
  (r = ret tt -> entry_at s' d tmp = Some (EFile contents)).
Proof.
  intros Hd Hw He. unfold st_bind.
  destruct (traced_write_loop tmp d f (Datatypes.S (length contents)) contents [] s log)
    as (s2 & log2 & r & E2 & F1 & F2 & F3 & F4 & F5); [lia|done..|]. rewrite E2.
  destruct F4 as [[[]|e] ->].
  2: { eexists _, _, _. split; [reflexivity|]. split; [done|]. split; [done|]. split; [by eexists|done]. }
  destruct (sync_all_law s2 d tmp f) as (s3 & r & E3 & Hd3 & Hsame & Hr); [apply F2|done|].
  cbn [sync_all_ traced_backend]. unfold traced. cbn [fst snd]. rewrite E3.
  assert (only_changes tmp d s s3) as Hs3.
  { split; [done|]. intros m Hm. rewrite Hsame. by apply F2. }
  eexists _, (log2 ++ [s3]), r. rewrite app_assoc. split; [reflexivity|]. split.
  { apply Forall_app. split; [done|by constructor]. }
  split; [done|]. split; [destruct Hr as [->|[e ->]]; by eexists|].
  intros ->. rewrite Hsame. by apply F5.
Qed.

Lemma traced_write_and_sync tmp d contents s :
  dir_ok s d ->
  exists s' log r,
  write_and_sync (B := traced_backend B) d tmp contents (s, []) = ((s', log), r) /\
  Forall (only_changes tmp d s) log /\ only_changes tmp d s s' /\ returns r /\
  (r = ret tt -> entry_at s' d tmp = Some (EFile contents)).
Proof.
  intros Hd. unfold write_and_sync, st_bind at 1.
  destruct (open_new_law s d tmp Hd) as (s1 & r & E & Hd1 & Hr).
  cbn [open_ traced_backend]. unfold traced at 1. cbn [fst snd]. rewrite E.
  destruct Hr as [(f & -> & _ & Hw & He & Ho)|(e & -> & Ho)].
  2: { exists s1, ([] ++ [s1]), (fail e). assert (only_changes tmp d s s1) by done.
       split; [done|]. split; [by constructor|]. split; [done|]. split; [by eexists|done]. }
  assert (only_changes tmp d s s1) as Hs1 by done.
  destruct (traced_write_then_sync tmp d f contents s1 ([] ++ [s1]) Hd1 Hw He)
    as (s2 & log2 & r & E2 & F1 & F2 & F3 & F4).
  destruct (traced_with_open_file tmp d f _ s _ _ _ _ E2) as (s' & log' & E3 & G1 & G2 & G3).
  { constructor; [done|]. by eapply only_changes_log. }
  { by eapply only_changes_trans. }
  exists s', log', r. split; [exact E3|]. split; [done|]. split; [done|]. split; [done|].
  intros ->. rewrite G3. by apply F4.
Qed.

(** The file named [rel] is either what it was or the whole new content, and
    no third name is touched. *)
Definition old_or_new (rel tmp : OsString) (d : D) (contents : list Z) (s s' : S) : Prop :=
  (entry_at s' d rel = entry_at s d rel \/ entry_at s' d rel = Some (EFile contents)) /\
  forall m, m <> rel -> m <> tmp -> entry_at s' d m = entry_at s d m.

Lemma only_changes_old rel tmp d contents s s' :
  rel <> tmp -> only_changes tmp d s s' -> old_or_new rel tmp d contents s s'.
Proof. intros Hn [_ H]. split; [left; auto|auto]. Qed.

Lemma Forall_snoc2 (P : S -> Prop) l a : Forall P l -> P a -> Forall P ((l ++ [a]) ++ [a]).
Proof. intros. apply Forall_app. split; [apply Forall_app; split; [done|]|]; by constructor. Qed.

Lemma Forall_snoc3 (P : S -> Prop) l a b :
  Forall P l -> P a -> P b -> Forall P (((l ++ [a]) ++ [b]) ++ [b]).
Proof. intros. apply Forall_snoc2; [|done]. apply Forall_app. split; [done|by constructor]. Qed.

(** C5: over any backend that keeps the interface's laws, [write_atomic] is
    atomic: in every state an observer can see between its operations, errors
    and short writes included, the target is the old file or the complete new
    one and no other name but the temporary one is touched; it always returns,
    and when it returns [Ok] the target is the new content and the temporary name is gone. *)
Theorem write_atomic_atomic d rel contents pid n s
    (Hd : dir_ok s d) :
  exists s' log r,
  write_atomic (B := traced_backend B) d rel contents pid n (s, []) = ((s', log), r) /\
  Forall (old_or_new rel (tmp_name rel pid n) d contents s) (log ++ [s']) /\
  returns r /\
  (r = ret tt -> entry_at s' d rel = Some (EFile contents) /\
                 entry_at s' d (tmp_name rel pid n) = None).
Proof.
  pose proof (tmp_name_fresh rel pid n) as Hne. set (tmp := tmp_name rel pid n) in *.
  destruct (traced_write_and_sync tmp d contents s Hd) as (s1 & log & r & E & F1 & F2 & F0 & F3).
  unfold write_atomic. cbv zeta. fold tmp. rewrite E.
  assert (Forall (old_or_new rel tmp d contents s) log) as Hlog.
  { eapply Forall_impl; [exact F1|]. intros. by apply only_changes_old. }
  pose proof (only_changes_old rel tmp d contents s s1 (not_eq_sym Hne) F2) as H1.
  destruct F0 as [[[]|e] ->].
  - destruct (rename_law s1 d tmp rel (EFile contents)) as (s2 & r & E2 & Hd2 & Hr);
      [apply F2|done|by apply F3|].
    unfold st_bind. cbn [rename_ traced_backend]. unfold traced at 1. cbn [fst snd]. rewrite E2.
    destruct Hr as [(-> & Ht & Hrel & Ho)|(e & -> & Ho)].
    + destruct (sync_dir_law s2 d Hd2) as (s3 & r & E3 & Hd3 & Hsame & Hr).
      cbn [sync_dir_ traced_backend]. unfold traced. cbn [fst snd]. rewrite E3.
      assert (old_or_new rel tmp d contents s s2) as H2.
      { split; [by right|]. intros m ? ?. rewrite Ho by done. by apply F2. }
      assert (old_or_new rel tmp d contents s s3) as H3.
      { unfold old_or_new in *. rewrite Hsame. split; [apply H2|].
        intros. rewrite Hsame. by apply H2. }
      eexists _, _, _. split; [reflexivity|]. split; [by apply Forall_snoc3|].
      split; [destruct Hr as [->|[e ->]]; by eexists|]. intros _. by rewrite !Hsame.
    + assert (old_or_new rel tmp d contents s s2) as H2.
      { unfold old_or_new in *. rewrite Ho. split; [apply H1|]. intros. rewrite Ho. by apply H1. }
      eexists _, _, _. split; [reflexivity|]. split; [by apply Forall_snoc2|].
      split; [by eexists|done].
  - destruct (remove_file_law s1 d tmp) as (s2 & r & E2 & Hd2 & Ho); [apply F2|].
    cbn [remove_file_ traced_backend]. unfold traced. cbn [fst snd]. rewrite E2.
    assert (old_or_new rel tmp d contents s s2) as H2.
    { apply only_changes_old; [done|]. split; [done|]. intros m Hm. rewrite Ho by done. by apply F2. }
    eexists _, _, _. split; [reflexivity|]. split; [by apply Forall_snoc2|].
    split; [by eexists|done].
Qed.
End atomic.
