(* ===== verification/MockFs.v ===== *)
(** * The in-memory filesystem ([crates/platform-mock/src/fs.rs])

    [Arc<Mutex<Node>>] is a location in a heap of nodes, so that capabilities
    and handles alias as they do in the source; the shared position of a
    [MockFile] is a location in a heap of cursors.  A directory's [BTreeMap]
    is a finite map whose iteration ([read_dir]) is sorted by name.  Locks are
    not modelled: the operations are the critical sections. *)

From Stdlib Require Import ZArith Lia String.
From S2P Require Import Prelude Error Fs.
From stdpp Require Import base numbers list strings gmap sorting.
Open Scope Z_scope.

Inductive Node :=
  | Unreachable
  | NFile (data : list Z)
  | NDir (entries : gmap (list Z) nat)
  | NSymlink (target : OsString).

Record MockFs := mkMockFs {
  nodes : gmap nat Node;
  cursors : gmap nat Z;
  next_loc : nat;
}.

Definition err (k : ErrorKind) (opn : string) (rel : OsString) : PlatformError :=
  with_path (error_new k NoCode opn) rel.

Record MockFile := mkMockFile {
  f_node : nat;
  f_pos : nat;
  readable : bool;
  writable : bool;
}.

Definition set_node (l : nat) (n : Node) (s : MockFs) : MockFs :=
  mkMockFs (<[l := n]> (nodes s)) (cursors s) (next_loc s).
Definition alloc_node (n : Node) (s : MockFs) : nat * MockFs :=
  (next_loc s, mkMockFs (<[next_loc s := n]> (nodes s)) (cursors s) (S (next_loc s))).

(** [MockDir::root]: a fresh root in a given heap. *)
Definition root (s : MockFs) : nat * MockFs := alloc_node (NDir ∅) s.
Definition empty_fs : MockFs := mkMockFs ∅ ∅ 0.

(** Run [k] on the entries of [d]; [None] is a dangling location. *)
Definition with_entries {A} (d : nat) (e : PlatformError)
    (k : gmap (list Z) nat -> MockFs -> MockFs * Run A) (s : MockFs) : MockFs * Run A :=
  match nodes s !! d with
  | Some (NDir entries) => k entries s
  | Some _ => (s, fail e)
  | None => (s, Panic)
  end.

Definition child (d : nat) (rel : OsString) (opn : string) (s : MockFs) : Run nat :=
  match nodes s !! d with
  | Some (NDir entries) =>
    match entries !! rel with
    | Some l => ret l
    | None => fail (err NotFound opn rel)
    end
  | Some _ => fail (err NotADirectory opn rel)
  | None => Panic
  end.

(** [MockDir::with_file]. *)
Definition with_file (d : nat) (name : OsString) (contents : list Z) : MockFs -> MockFs * Run unit :=
  fun s => match nodes s !! d with
  | Some (NDir entries) =>
    let (l, s) := alloc_node (NFile contents) s in
    (set_node d (NDir (<[name := l]> entries)) s, ret tt)
  | _ => (s, Panic)
  end.

(** ** [impl File for MockFile] *)

Definition read (f : MockFile) (cap : Z) (s : MockFs) : MockFs * Run (list Z) :=
  if negb (readable f) then (s, fail (error_new PermissionDenied NoCode "read"))
  else
    match nodes s !! f_node f, cursors s !! f_pos f with
    | Some (NFile data), Some pos =>
      let remaining := drop (Z.to_nat (Z.min pos (zlen data))) data in
      let count := Z.min (zlen remaining) cap in
      (mkMockFs (nodes s) (<[f_pos f := pos + count]> (cursors s)) (next_loc s),
       ret (take (Z.to_nat count) remaining))
    | Some _, Some _ => (s, fail (error_new IsADirectory NoCode "read"))
    | _, _ => (s, Panic)
    end.

Definition write (f : MockFile) (buf : list Z) (s : MockFs) : MockFs * Run Z :=
  if negb (writable f) then (s, fail (error_new PermissionDenied NoCode "write"))
  else
    match nodes s !! f_node f with
    | Some (NFile data) => (set_node (f_node f) (NFile (data ++ buf)) s, ret (zlen buf))
    | Some _ => (s, fail (error_new IsADirectory NoCode "write"))
    | None => (s, Panic)
    end.

Definition flush (f : MockFile) (s : MockFs) : MockFs * Run unit := (s, ret tt).
Definition sync_all (f : MockFile) (s : MockFs) : MockFs * Run unit := (s, ret tt).
Definition try_clone (f : MockFile) (s : MockFs) : MockFs * Run MockFile :=
  (s, ret (mkMockFile (f_node f) (f_pos f) (readable f) (writable f))).

(** A [MockFile] with a fresh position. *)
Definition new_file (l : nat) (r w : bool) (s : MockFs) : MockFs * Run MockFile :=
  (mkMockFs (nodes s) (<[next_loc s := 0]> (cursors s)) (S (next_loc s)),
   ret (mkMockFile l (next_loc s) r w)).

(** ** [impl Dir for MockDir] *)

Definition open (d : nat) (rel : OsString) (opts : OpenOptions) (s : MockFs)
    : MockFs * Run MockFile :=
  let finish l := new_file l (o_read opts) (o_write opts || o_append opts) in
  match child d rel "open" s with
  | ret l =>
    if o_create_new opts then (s, fail (err AlreadyExists "open" rel))
    else
      let s := if o_truncate opts then
                 match nodes s !! l with
                 | Some (NFile _) => set_node l (NFile []) s
                 | _ => s
                 end
               else s in
      finish l s
  | fail e =>
    if o_create opts || o_create_new opts then
      with_entries d (err NotADirectory "open" rel) (fun entries s =>
        let (l, s) := alloc_node (NFile []) s in
        finish l (set_node d (NDir (<[rel := l]> entries)) s)) s
    else (s, fail e)
  | Panic => (s, Panic)
  | OutOfFuel => (s, OutOfFuel)
  end.

Definition open_dir (d : nat) (rel : OsString) (s : MockFs) : MockFs * Run nat :=
  (st! l := fun s => (s, child d rel "open_dir" s) in
   fun s => match nodes s !! l with
   | Some (NDir _) => (s, ret l)
   | Some _ => (s, fail (err NotADirectory "open_dir" rel))
   | None => (s, Panic)
   end) s.

(** The common shape of [create_dir] and [symlink]: a fresh node under a
    name that must be free. *)
Definition insert_new (d : nat) (rel : OsString) (opn : string) (n : Node)
    : MockFs -> MockFs * Run unit :=
  with_entries d (err NotADirectory opn rel) (fun entries s =>
    match entries !! rel with
    | Some _ => (s, fail (err AlreadyExists opn rel))
    | None =>
      let (l, s) := alloc_node n s in
      (set_node d (NDir (<[rel := l]> entries)) s, ret tt)
    end).

Definition create_dir (d : nat) (rel : OsString) : MockFs -> MockFs * Run unit :=
  insert_new d rel "create_dir" (NDir ∅).
Definition symlink (d : nat) (target link_name : OsString) : MockFs -> MockFs * Run unit :=
  insert_new d link_name "symlink" (NSymlink target).

Definition node_type (n : Node) : option FileType :=
  match n with
  | NFile _ => Some FtFile
  | NDir _ => Some FtDir
  | NSymlink _ => Some FtSymlink
  | Unreachable => None
  end.

Definition metadata (d : nat) (rel : OsString) (s : MockFs) : MockFs * Run Metadata :=
  (st! l := fun s => (s, child d rel "metadata" s) in
   fun s => match nodes s !! l with
   | Some (NFile data) => (s, ret (mkMetadata FtFile (zlen data) 1 0))
   | Some (NDir _) => (s, ret (mkMetadata FtDir 0 1 0))
   | Some (NSymlink target) => (s, ret (mkMetadata FtSymlink (zlen target) 1 0))
   | _ => (s, Panic)
   end) s.

Definition access (d : nat) (rel : OsString) (mode : AccessMode) (s : MockFs) : MockFs * Run unit :=
  if negb (a_read mode || a_write mode || a_execute mode) then (s, ret tt)
  else (st! _ := fun s => (s, child d rel "access" s) in st_lift (ret tt)) s.

Definition unix_mode (d : nat) (rel : OsString) (s : MockFs) : MockFs * Run (option UnixMode) :=
  (st! _ := fun s => (s, child d rel "unix_mode" s) in st_lift (ret (Some UnixMode_default))) s.

Definition set_unix_mode (d : nat) (rel : OsString) (mode : Mode) (s : MockFs) : MockFs * Run unit :=
  (st! _ := fun s => (s, child d rel "set_unix_mode" s) in st_lift (ret tt)) s.

Definition file_id (d : nat) (rel : OsString) (s : MockFs) : MockFs * Run FileId :=
  (st! l := fun s => (s, child d rel "file_id" s) in
   st_lift (ret (mkFileId 0 (Z.of_nat l)))) s.

(** A [BTreeMap] iterates in key order. *)
Definition key_le (a b : list Z * nat) : Prop := bytes_le (fst a) (fst b).
#[export] Instance key_le_dec : RelDecision key_le.
Proof. intros a b. unfold key_le. apply _. Defined.
Definition sorted_entries (entries : gmap (list Z) nat) : list (list Z * nat) :=
  merge_sort key_le (map_to_list entries).

Fixpoint dir_entries (heap : gmap nat Node) (es : list (list Z * nat)) : Run (list DirEntry) :=
  match es with
  | [] => ret []
  | (name, l) :: es' =>
    match heap !! l ≫= node_type with
    | Some t => do! rest := dir_entries heap es' in ret (mkDirEntry name t :: rest)
    | None => Panic
    end
  end.

Definition read_dir (d : nat) : MockFs -> MockFs * Run (list DirEntry) :=
  with_entries d (error_new NotADirectory NoCode "read_dir") (fun entries s =>
    (s, dir_entries (nodes s) (sorted_entries entries))).

Definition remove (d : nat) (rel : OsString) (want_dir : bool) (opn : string)
    : MockFs -> MockFs * Run unit :=
  with_entries d (err NotADirectory opn rel) (fun entries s =>
    match entries !! rel with
    | None => (s, fail (err NotFound opn rel))
    | Some l =>
      let done_ := (set_node d (NDir (delete rel entries)) s, ret tt) in
      match nodes s !! l, want_dir with
      | None, _ => (s, Panic)
      | Some (NFile _), true => (s, fail (err NotADirectory opn rel))
      | Some (NSymlink _), true => (s, fail (err NotADirectory opn rel))
      | Some (NDir _), false => (s, fail (err IsADirectory opn rel))
      | Some (NDir es), true =>
        if bool_decide (es = ∅) then done_ else (s, fail (err DirectoryNotEmpty opn rel))
      | Some _, _ => done_
      end
    end).

Definition remove_file (d : nat) (rel : OsString) := remove d rel false "remove_file".
Definition remove_dir (d : nat) (rel : OsString) := remove d rel true "remove_dir".

Definition read_link (d : nat) (rel : OsString) (s : MockFs) : MockFs * Run OsString :=
  (st! l := fun s => (s, child d rel "read_link" s) in
   fun s => match nodes s !! l with
   | Some (NSymlink target) => (s, ret target)
   | Some _ => (s, fail (err InvalidInput "read_link" rel))
   | None => (s, Panic)
   end) s.

Definition rename_impl (d : nat) (from to : OsString) (replace : bool) : MockFs -> MockFs * Run unit :=
  with_entries d (err NotADirectory "rename" from) (fun entries s =>
    match entries !! from with
    | None => (s, fail (err NotFound "rename" from))
    | Some l =>
      if negb replace && bool_decide (is_Some (entries !! to))
      then (s, fail (err AlreadyExists "rename" to))
      else (set_node d (NDir (<[to := l]> (delete from entries))) s, ret tt)
    end).
Definition rename (d : nat) (from to : OsString) := rename_impl d from to true.
Definition rename_no_replace (d : nat) (from to : OsString) := rename_impl d from to false.

(** [Dir::sync_dir]'s default body, which the mock keeps. *)
Definition sync_dir (d : nat) (s : MockFs) : MockFs * Run unit := (s, ret tt).

(** [MockAnonymousFile::create_memfd]. *)
Definition create_memfd (name : OsString) (s : MockFs) : MockFs * Run MockFile :=
  let (l, s) := alloc_node (NFile []) s in new_file l true true s.

#[export] Instance mock_backend : FsBackend MockFs nat MockFile := {|
  open_ := open;
  read_ := read;
  write_ := write;
  sync_all_ := sync_all;
  drop_file_ f s := s;
  remove_file_ := remove_file;
  rename_ := rename;
  sync_dir_ := sync_dir;
  read_dir_ := read_dir;
  metadata_ := metadata;
  unix_mode_ := unix_mode;
  read_link_ := read_link;
|}.

(** The source's own tests, evaluated. *)
Example mock_ex :
  let (r, s0) := root empty_fs in
  let '(s1, f) := open r (lit "a.txt") OpenOptions_create_truncate s0 in
  match f with
  | ret f =>
    let '(s2, _) := write f (lit "hello") s1 in
    let '(s3, f2) := open r (lit "a.txt") OpenOptions_read s2 in
    match f2 with
    | ret f2 => snd (read f2 16 s3) = ret (lit "hello")
    | _ => False
    end
  | _ => False
  end.
Proof. vm_compute. reflexivity. Qed.

Example write_atomic_ex :
  let (r, s0) := root empty_fs in
  let '(s1, _) := write_atomic r (lit "b") [1; 2] 7 0 (fst (with_file r (lit "a") [9] s0)) in
  snd (read_dir r s1) = ret [mkDirEntry (lit "a") FtFile; mkDirEntry (lit "b") FtFile].
Proof. vm_compute. reflexivity. Qed.

(** ** The heap invariant *)

Definition is_dir (s : MockFs) (d : nat) : Prop := exists es, nodes s !! d = Some (NDir es).
Definition is_file (s : MockFs) (l : nat) : Prop := exists data, nodes s !! l = Some (NFile data).

(** [l] is the node named [n] in the directory at [d]. *)
Definition names (s : MockFs) (d : nat) (n : OsString) (l : nat) : Prop :=
  exists es, nodes s !! d = Some (NDir es) /\ es !! n = Some l.

Record fs_ok (s : MockFs) : Prop := {
  (** every allocated location is below the next one, and initialised *)
  ok_alloc l n : nodes s !! l = Some n -> (l < next_loc s)%nat /\ n <> Unreachable;
  (** no entry dangles, and an entry is younger than its directory: the
      entries form a forest *)
  ok_entry d n l : names s d n l -> (d < l)%nat /\ is_Some (nodes s !! l);
  (** every node has at most one parent entry *)
  ok_parent d1 n1 d2 n2 l : names s d1 n1 l -> names s d2 n2 l -> d1 = d2 /\ n1 = n2;
}.

(** A live [MockFile] handle. *)
Definition handle_ok (s : MockFs) (f : MockFile) : Prop :=
  is_Some (nodes s !! f_node f) /\ is_Some (cursors s !! f_pos f).

(** What every operation preserves of the heap: directories stay
    directories, files files, positions positions. *)
Definition extends (s s' : MockFs) : Prop :=
  (forall d, is_dir s d -> is_dir s' d) /\ (forall l, is_file s l -> is_file s' l) /\
  (forall l, is_Some (nodes s !! l) -> is_Some (nodes s' !! l)) /\
  (forall p, is_Some (cursors s !! p) -> is_Some (cursors s' !! p)).

Lemma extends_refl s : extends s s.
Proof. by repeat split. Qed.

Lemma extends_trans s1 s2 s3 : extends s1 s2 -> extends s2 s3 -> extends s1 s3.
Proof. intros (A1 & A2 & A3 & A4) (B1 & B2 & B3 & B4). repeat split; auto. Qed.

Lemma extends_handle s s' f : extends s s' -> handle_ok s f -> handle_ok s' f.
Proof. intros (_ & _ & H3 & H4) [? ?]. split; auto. Qed.

Lemma fs_ok_empty : fs_ok empty_fs.
Proof.
  split; intros *; unfold names; cbn [nodes empty_fs].
  - by rewrite lookup_empty.
  - intros (? & H & _). by rewrite lookup_empty in H.
  - intros (? & H & _). by rewrite lookup_empty in H.
Qed.

(** Changing only cursors and the allocation counter. *)
Lemma fs_ok_cursors s c n :
  fs_ok s -> (next_loc s <= n)%nat -> fs_ok (mkMockFs (nodes s) c n).
Proof.
  intros [H1 H2 H3] Hn. split; unfold names in *; cbn [nodes next_loc]; auto.
  intros l nd Hl. destruct (H1 l nd Hl). split; [lia|done].
Qed.

(** A node is replaced by another of the same kind, with no new entry. *)
Lemma fs_ok_set_file s l data :
  fs_ok s -> is_file s l -> fs_ok (set_node l (NFile data) s).
Proof.
  intros [H1 H2 H3] [old Hl].
  assert (forall d n l', names (set_node l (NFile data) s) d n l' -> names s d n l') as Hn.
  { intros d n l' (es & Hd & He). unfold set_node in Hd. cbn [nodes] in Hd.
    apply lookup_insert_Some in Hd as [[_ ?]|[_ Hd]]; [done|]. by exists es. }
  split; [..|by eauto].
  - intros l' n. cbn [set_node nodes next_loc]. rewrite lookup_insert_Some.
    intros [[<- <-]|[_ ?]]; [split; [by apply (H1 _ _ Hl)|done]|by apply H1].
  - intros d n l' H. apply Hn, H2 in H as [? ?]. split; [done|].
    cbn [set_node nodes]. rewrite lookup_insert_is_Some. destruct (decide (l = l')); auto.
Qed.

(** The entries of a directory shrink or are renamed: every entry after is
    an entry before, under one name each. *)
Lemma fs_ok_set_dir s d es es' :
  fs_ok s -> nodes s !! d = Some (NDir es) ->
  (forall n l, es' !! n = Some l -> exists n0, es !! n0 = Some l) ->
  (forall n1 n2 l, es' !! n1 = Some l -> es' !! n2 = Some l -> n1 = n2) ->
  fs_ok (set_node d (NDir es') s).
Proof.
  intros [H1 H2 H3] Hd Hsub Hinj.
  assert (forall d' n l, names (set_node d (NDir es') s) d' n l ->
    (d' = d /\ es' !! n = Some l) \/ (d' <> d /\ names s d' n l)) as Hn.
  { intros d' n l (es1 & Hd' & He). cbn [set_node nodes] in Hd'.
    apply lookup_insert_Some in Hd' as [[<- [= <-]]|[? Hd']]; [by left|]. right.
    split; [done|]. by exists es1. }
  split.
  - intros l n. cbn [set_node nodes next_loc]. rewrite lookup_insert_Some.
    intros [[<- <-]|[_ ?]]; [split; [by apply (H1 _ _ Hd)|done]|by apply H1].
  - intros d' n l H. assert ((d' < l)%nat /\ is_Some (nodes s !! l)) as [? ?].
    { apply Hn in H as [[-> He]|[_ H]]; [|by apply H2 in H].
      apply Hsub in He as [n0 He]. apply (H2 d n0). by exists es. }
    split; [done|]. cbn [set_node nodes]. rewrite lookup_insert_is_Some.
    destruct (decide (d = l)); auto.
  - intros d1 n1 d2 n2 l A B. apply Hn in A as [[-> A]|[Hd1 A]], B as [[-> B]|[Hd2 B]].
    + split; [done|]. by eapply Hinj.
    + apply Hsub in A as [n0 A]. destruct (H3 d n0 d2 n2 l) as [? _]; [by exists es|done|congruence].
    + apply Hsub in B as [n0 B]. destruct (H3 d n0 d1 n1 l) as [? _]; [by exists es|done|congruence].
    + by eapply H3.
Qed.

(** A fresh node is entered under one name of a directory. *)
Lemma fs_ok_insert s d es n nd :
  fs_ok s -> nodes s !! d = Some (NDir es) -> nd <> Unreachable ->
  (nd = NDir ∅ \/ forall es', nd <> NDir es') ->
  fs_ok (set_node d (NDir (<[n := next_loc s]> es)) (snd (alloc_node nd s))).
Proof.
  intros [H1 H2 H3] Hd Hnd Hemp. set (l := next_loc s).
  assert (nodes s !! l = None) as Hfresh.
  { apply eq_None_not_Some. intros [x Hx]. apply H1 in Hx as [? _]. subst l. lia. }
  assert (d < l)%nat as Hdl by (by apply (H1 _ _ Hd)).
  assert (forall d' n' l', names (set_node d (NDir (<[n := l]> es)) (snd (alloc_node nd s))) d' n' l' ->
    (d' = d /\ n' = n /\ l' = l) \/ (names s d' n' l' /\ l' <> l)) as Hn.
  { intros d' n' l' (es1 & Hd' & He). cbn [set_node alloc_node snd nodes] in Hd'.
    assert (forall d0 n0, names s d0 n0 l' -> l' <> l) as Hnl.
    { intros d0 n0 H. apply H2 in H as [_ [x Hx]]. intros ->. congruence. }
    apply lookup_insert_Some in Hd' as [[<- [= <-]]|[? Hd']].
    - apply lookup_insert_Some in He as [[<- <-]|[? He]]; [by left|]. right.
      assert (names s d n' l') by (by exists es). eauto.
    - apply lookup_insert_Some in Hd' as [[<- ->]|[? Hd']].
      + destruct Hemp as [[= ->]|Hemp]; [by rewrite lookup_empty in He|by edestruct Hemp].
      + right. assert (names s d' n' l') by (by exists es1). eauto. }
  split.
  - intros l' n'. cbn [set_node alloc_node snd nodes next_loc].
    rewrite !lookup_insert_Some. fold l.
    intros [[<- <-]|[_ [[<- <-]|[_ Hl']]]]; [split; [lia|done]|split; [lia|done]|].
    apply H1 in Hl' as [? ?]. split; [subst l; lia|done].
  - intros d' n' l' H. cbn [set_node alloc_node snd nodes]. rewrite !lookup_insert_is_Some. fold l.
    apply Hn in H as [(-> & -> & ->)|[H ?]].
    + split; [done|]. destruct (decide (d = l)); auto.
    + apply H2 in H as [? ?]. split; [done|].
      destruct (decide (d = l')); [by left|]. right. split; [done|]. right. by split.
  - intros d1 n1 d2 n2 l' A B.
    apply Hn in A as [(-> & -> & ->)|[A ?]], B as [(-> & -> & ?)|[B ?]]; try done.
    by eapply H3.
Qed.

(** ** Every operation is safe *)

(** An outcome that keeps the invariant, keeps every handle alive, does not
    panic, and, when it is an error, changed nothing. *)
Definition safe {A} (s : MockFs) (p : MockFs * Run A) : Prop :=
  fs_ok (fst p) /\ extends s (fst p) /\
  match snd p with
  | ret _ => True
  | fail _ => fst p = s
  | Panic | OutOfFuel => False
  end.

Lemma safe_same {A} s (r : Result A) : fs_ok s -> safe s (s, Done r).
Proof. intros. split; [done|]. split; [apply extends_refl|]. by destruct r. Qed.

Lemma safe_bind {A B} s (m : MockFs -> MockFs * Run A) (k : A -> MockFs -> MockFs * Run B) :
  (exists r, m s = (s, Done r) /\ forall a, r = Ok a -> safe s (k a s)) -> fs_ok s ->
  safe s (st_bind m k s).
Proof.
  intros ([a|e] & E & H) Hok; unfold st_bind; rewrite E; [by apply H|by apply safe_same].
Qed.

Lemma extends_set s l n n' :
  nodes s !! l = Some n -> (is_dir (set_node l n' s) l <-> is_dir s l) ->
  (is_file s l -> is_file (set_node l n' s) l) -> extends s (set_node l n' s).
Proof.
  intros Hl Hd Hf. repeat split; try done.
  - intros d Hdir. destruct (decide (d = l)) as [->|]; [by apply Hd|].
    destruct Hdir as [es ?]. exists es. cbn. by rewrite lookup_insert_ne.
  - intros f Hfile. destruct (decide (f = l)) as [->|]; [by apply Hf|].
    destruct Hfile as [es ?]. exists es. cbn. by rewrite lookup_insert_ne.
  - intros l' ?. cbn. rewrite lookup_insert_is_Some. destruct (decide (l = l')); auto.
Qed.

Lemma extends_set_file s l data : is_file s l -> extends s (set_node l (NFile data) s).
Proof.
  intros [old Hl]. apply extends_set with (NFile old); [done| |].
  - split; intros [es H]; [cbn in H; by rewrite lookup_insert_eq in H|congruence].
  - intros _. exists data. cbn. by rewrite lookup_insert_eq.
Qed.

Lemma extends_set_dir s d es es' :
  nodes s !! d = Some (NDir es) -> extends s (set_node d (NDir es') s).
Proof.
  intros Hd. apply extends_set with (NDir es); [done| |].
  - split; intros _; [by exists es|exists es'; cbn; by rewrite lookup_insert_eq].
  - intros [? H]. congruence.
Qed.

Lemma extends_alloc s n : fs_ok s -> extends s (snd (alloc_node n s)).
Proof.
  intros Hok. assert (forall l x, nodes s !! l = Some x ->
    nodes (snd (alloc_node n s)) !! l = Some x) as H.
  { intros l x Hl. cbn. rewrite lookup_insert_ne; [done|].
    apply (ok_alloc s Hok) in Hl as [? _]. lia. }
  repeat split; try done.
  - intros d [es ?]. exists es. auto.
  - intros l [? ?]. eexists. eauto.
  - intros l [x ?]. exists x. auto.
Qed.

Lemma extends_insert s d es es' n :
  fs_ok s -> nodes s !! d = Some (NDir es) ->
  extends s (set_node d (NDir es') (snd (alloc_node n s))).
Proof.
  intros Hok Hd. eapply extends_trans; [by apply extends_alloc|].
  apply extends_set_dir with es. cbn. rewrite lookup_insert_ne; [done|].
  apply (ok_alloc s Hok) in Hd as [? _]. lia.
Qed.

Lemma child_cases s d rel opn :
  is_dir s d ->
  (exists l, child d rel opn s = ret l /\ names s d rel l) \/
  (exists es, child d rel opn s = fail (err NotFound opn rel) /\
    nodes s !! d = Some (NDir es) /\ es !! rel = None).
Proof.
  intros [es Hd]. unfold child. rewrite Hd. destruct (es !! rel) as [l|] eqn:E.
  - left. exists l. split; [done|]. by exists es.
  - right. by exists es.
Qed.

(** Every node an entry names is a file, a directory or a symlink. *)
Lemma named_node s d n l : fs_ok s -> names s d n l ->
  exists nd, nodes s !! l = Some nd /\ nd <> Unreachable.
Proof.
  intros Hok H. destruct (ok_entry s Hok _ _ _ H) as [_ [nd Hl]].
  exists nd. split; [done|]. by apply (ok_alloc s Hok) in Hl as [_ ?].
Qed.

Lemma new_file_safe s l r w :
  fs_ok s -> is_Some (nodes s !! l) ->
  let p := new_file l r w s in
  fs_ok (fst p) /\ extends s (fst p) /\
  exists f, snd p = ret f /\ handle_ok (fst p) f /\ f_node f = l /\
    readable f = r /\ writable f = w /\ cursors (fst p) !! f_pos f = Some 0.
Proof.
  intros Hok Hl. cbn. split; [apply fs_ok_cursors; [done|lia]|]. split.
  - repeat split; try done. intros p ?. cbn. rewrite lookup_insert_is_Some.
    destruct (decide (next_loc s = p)); auto.
  - eexists. split; [done|]. unfold handle_ok. cbn. rewrite lookup_insert_eq. eauto 10.
Qed.

Lemma read_safe s f cap : fs_ok s -> handle_ok s f -> safe s (read f cap s).
Proof.
  intros Hok [[n Hn] [p Hp]]. unfold read. destruct (negb _); [by apply safe_same|].
  rewrite Hn, Hp. destruct n; try by apply safe_same. split; [by apply fs_ok_cursors|]. split; [|done].
  repeat split; try done. intros q ?. cbn. rewrite lookup_insert_is_Some.
  destruct (decide (f_pos f = q)); auto.
Qed.

Lemma write_safe s f buf : fs_ok s -> handle_ok s f -> safe s (write f buf s).
Proof.
  intros Hok [[n Hn] _]. unfold write. destruct (negb _); [by apply safe_same|].
  rewrite Hn. destruct n; try by apply safe_same.
  assert (is_file s (f_node f)) by (by eexists).
  split; [by apply fs_ok_set_file|]. split; [by apply extends_set_file|done].
Qed.

Lemma insert_new_safe s d rel opn n :
  fs_ok s -> is_dir s d -> n <> Unreachable -> (n = NDir ∅ \/ forall es', n <> NDir es') ->
  safe s (insert_new d rel opn n s).
Proof.
  intros Hok [es Hd] Hn He. unfold insert_new, with_entries. rewrite Hd.
  destruct (es !! rel); [by apply safe_same|].
  split; [by apply (fs_ok_insert s d es)|]. split; [by apply (extends_insert s d es)|done].
Qed.

Lemma remove_safe s d rel w opn : fs_ok s -> is_dir s d -> safe s (remove d rel w opn s).
Proof.
  intros Hok [es Hd]. unfold remove, with_entries. rewrite Hd.
  destruct (es !! rel) as [l|] eqn:E; [|by apply safe_same].
  assert (names s d rel l) as Hname by (by exists es).
  destruct (named_node _ _ _ _ Hok Hname) as (nd & Hl & Hu). rewrite Hl.
  assert (safe s (set_node d (NDir (delete rel es)) s, ret tt)) as Hdone.
  { split; [|split; [by apply (extends_set_dir s d es)|done]].
    apply (fs_ok_set_dir s d es); [done..| |].
    - intros n l' H. apply lookup_delete_Some in H as [_ H]. by exists n.
    - intros n1 n2 l' A B. apply lookup_delete_Some in A as [_ A], B as [_ B].
      by eapply (ok_parent s Hok d n1 d n2 l'); exists es. }
  destruct nd, w; try done; try by apply safe_same.
  case_bool_decide; [done|by apply safe_same].
Qed.

Lemma rename_safe s d a b r : fs_ok s -> is_dir s d -> safe s (rename_impl d a b r s).
Proof.
  intros Hok [es Hd]. unfold rename_impl, with_entries. rewrite Hd.
  destruct (es !! a) as [l|] eqn:E; [|by apply safe_same].
  destruct (_ && _); [by apply safe_same|].
  split; [|split; [by apply (extends_set_dir s d es)|done]].
  assert (forall n1 n2 l', es !! n1 = Some l' -> es !! n2 = Some l' -> n1 = n2) as Hinj.
  { intros n1 n2 l' A B. by eapply (ok_parent s Hok d n1 d n2 l'); exists es. }
  assert (forall n l', delete a es !! n = Some l' -> n <> a /\ es !! n = Some l') as Hdel.
  { intros n l' H. by apply lookup_delete_Some in H as [? H]. }
  apply (fs_ok_set_dir s d es); [done..| |].
  - intros n l' H. apply lookup_insert_Some in H as [[<- <-]|[_ H]]; [by exists a|].
    apply Hdel in H as [_ H]. by exists n.
  - intros n1 n2 l' A B.
    apply lookup_insert_Some in A as [[<- <-]|[? A]], B as [[<- ?]|[? B]]; subst; try done.
    + apply Hdel in B as [Hne B]. by destruct Hne; eapply Hinj.
    + apply Hdel in A as [Hne A]. by destruct Hne; eapply Hinj.
    + apply Hdel in A as [_ A], B as [_ B]. by eapply Hinj.
Qed.

Lemma open_safe s d rel opts :
  fs_ok s -> is_dir s d ->
  safe s (open d rel opts s) /\
  forall f, snd (open d rel opts s) = ret f -> handle_ok (fst (open d rel opts s)) f.
Proof.
  intros Hok Hd. unfold open.
  destruct (child_cases s d rel "open" Hd) as [(l & -> & Hn)|(es & -> & Hes & Hnone)].
  - destruct (o_create_new opts); [by split; [apply safe_same|]|].
    destruct (named_node _ _ _ _ Hok Hn) as (nd & Hl & _).
    set (s1 := if o_truncate opts then _ else s).
    assert (fs_ok s1 /\ extends s s1) as [Hok1 He1].
    { subst s1. destruct (o_truncate opts); [|split; [done|apply extends_refl]].
      rewrite Hl. destruct nd; try (split; [done|apply extends_refl]).
      assert (is_file s l) by (by eexists).
      split; [by apply fs_ok_set_file|by apply extends_set_file]. }
    destruct (new_file_safe s1 l (o_read opts) (o_write opts || o_append opts)) as
      (F1 & F2 & f & F3 & F4 & _); [done|apply He1; by eexists|].
    split; [|intros f'; rewrite F3; by intros [= <-]].
    split; [done|]. split; [by eapply extends_trans|]. by rewrite F3.
  - destruct (o_create opts || o_create_new opts); [|by split; [apply safe_same|]].
    unfold with_entries. rewrite Hes.
    pose proof (fs_ok_insert s d es rel (NFile []) Hok Hes ltac:(done) ltac:(right; done)) as Hok1.
    pose proof (extends_insert s d es (<[rel := next_loc s]> es) (NFile []) Hok Hes) as He1.
    cbn [alloc_node] in *. set (s1 := set_node d _ _) in *. cbn [snd] in Hok1, He1. fold s1 in Hok1, He1.
    destruct (new_file_safe s1 (next_loc s) (o_read opts) (o_write opts || o_append opts)) as
      (F1 & F2 & f & F3 & F4 & _); [done| |].
    { subst s1. cbn. rewrite lookup_insert_is_Some, lookup_insert_eq.
      destruct (decide (d = next_loc s)); [by left|by right; eauto]. }
    split; [|intros f'; rewrite F3; by intros [= <-]].
    split; [done|]. split; [by eapply extends_trans|]. by rewrite F3.
Qed.

(** The operations that only look a name up and read its node. *)
Lemma lookup_safe {A} s d rel opn (k : nat -> MockFs -> MockFs * Run A) :
  fs_ok s -> is_dir s d ->
  (forall l nd, nodes s !! l = Some nd -> nd <> Unreachable -> exists r, k l s = (s, Done r)) ->
  safe s (st_bind (fun s => (s, child d rel opn s)) k s).
Proof.
  intros Hok Hd Hk.
  destruct (child_cases s d rel opn Hd) as [(l & E & Hn)|(es & E & _)];
    unfold st_bind; rewrite E; [|by apply safe_same].
  destruct (named_node _ _ _ _ Hok Hn) as (nd & Hl & Hu).
  destruct (Hk l nd Hl Hu) as [r ->]. by apply safe_same.
Qed.

Lemma dir_entries_total heap es :
  (forall n l, (n, l) ∈ es -> exists nd, heap !! l = Some nd /\ nd <> Unreachable) ->
  exists ds, dir_entries heap es = ret ds /\
    Forall2 (fun e x => de_name x = fst e /\ Some (de_type x) = heap !! snd e ≫= node_type) es ds.
Proof.
  induction es as [|[n l] es IH]; intros H; cbn [dir_entries]; [by exists []|].
  destruct (H n l) as (nd & Hl & Hu); [by left|].
  destruct IH as (ds & E & HF). { intros n' l' Hin. apply (H n'). by right. }
  rewrite Hl, E. cbn [mbind option_bind].
  destruct nd; try done; eexists; (split; [done|]); constructor; try done; cbn; by rewrite Hl.
Qed.

Lemma sorted_entries_elem n l es : (n, l) ∈ sorted_entries es <-> es !! n = Some l.
Proof. unfold sorted_entries. by rewrite merge_sort_Permutation, elem_of_map_to_list. Qed.

Lemma read_dir_total s d es :
  fs_ok s -> nodes s !! d = Some (NDir es) ->
  exists ds, read_dir d s = (s, ret ds) /\
    Forall2 (fun e x => de_name x = fst e /\ Some (de_type x) = nodes s !! snd e ≫= node_type)
      (sorted_entries es) ds.
Proof.
  intros Hok Hd. unfold read_dir, with_entries. rewrite Hd.
  destruct (dir_entries_total (nodes s) (sorted_entries es)) as (ds & E & HF).
  - intros n l Hin. apply sorted_entries_elem in Hin.
    apply (named_node s d n l Hok). by exists es.
  - exists ds. by rewrite E.
Qed.

(** The trait methods, as data. *)
Inductive FsOp :=
  | OpOpen (d : nat) (rel : OsString) (opts : OpenOptions)
  | OpOpenDir (d : nat) (rel : OsString)
  | OpCreateDir (d : nat) (rel : OsString)
  | OpMetadata (d : nat) (rel : OsString)
  | OpAccess (d : nat) (rel : OsString) (m : AccessMode)
  | OpUnixMode (d : nat) (rel : OsString)
  | OpSetUnixMode (d : nat) (rel : OsString) (m : Mode)
  | OpFileId (d : nat) (rel : OsString)
  | OpReadDir (d : nat)
  | OpRemoveFile (d : nat) (rel : OsString)
  | OpRemoveDir (d : nat) (rel : OsString)
  | OpSymlink (d : nat) (target name : OsString)
  | OpReadLink (d : nat) (rel : OsString)
  | OpRename (d : nat) (a b : OsString)
  | OpRenameNoReplace (d : nat) (a b : OsString)
  | OpRead (f : MockFile) (cap : Z)
  | OpWrite (f : MockFile) (buf : list Z)
  | OpFlush (f : MockFile)
  | OpSyncAll (f : MockFile)
  | OpTryClone (f : MockFile)
  | OpMemfd (name : OsString).

Definition void {A} (p : MockFs * Run A) : MockFs * Run unit :=
  (fst p, match snd p with
          | ret _ => ret tt | fail e => fail e | Panic => Panic | OutOfFuel => OutOfFuel
          end).

Definition run_op (o : FsOp) (s : MockFs) : MockFs * Run unit :=
  match o with
  | OpOpen d rel opts => void (open d rel opts s)
  | OpOpenDir d rel => void (open_dir d rel s)
  | OpCreateDir d rel => create_dir d rel s
  | OpMetadata d rel => void (metadata d rel s)
  | OpAccess d rel m => access d rel m s
  | OpUnixMode d rel => void (unix_mode d rel s)
  | OpSetUnixMode d rel m => set_unix_mode d rel m s
  | OpFileId d rel => void (file_id d rel s)
  | OpReadDir d => void (read_dir d s)
  | OpRemoveFile d rel => remove_file d rel s
  | OpRemoveDir d rel => remove_dir d rel s
  | OpSymlink d t n => symlink d t n s
  | OpReadLink d rel => void (read_link d rel s)
  | OpRename d a b => rename d a b s
  | OpRenameNoReplace d a b => rename_no_replace d a b s
  | OpRead f cap => void (read f cap s)
  | OpWrite f buf => void (write f buf s)
  | OpFlush f => flush f s
  | OpSyncAll f => sync_all f s
  | OpTryClone f => void (try_clone f s)
  | OpMemfd name => void (create_memfd name s)
  end.

(** The capability or handle the call is made on is live. *)
Definition op_handles (o : FsOp) (s : MockFs) : Prop :=
  match o with
  | OpOpen d _ _ | OpOpenDir d _ | OpCreateDir d _ | OpMetadata d _ | OpAccess d _ _
  | OpUnixMode d _ | OpSetUnixMode d _ _ | OpFileId d _ | OpReadDir d | OpRemoveFile d _
  | OpRemoveDir d _ | OpSymlink d _ _ | OpReadLink d _ | OpRename d _ _
  | OpRenameNoReplace d _ _ => is_dir s d
  | OpRead f _ | OpWrite f _ | OpFlush f | OpSyncAll f | OpTryClone f => handle_ok s f
  | OpMemfd _ => True
  end.

Lemma safe_void {A} s (p : MockFs * Run A) : safe s p -> safe s (void p).
Proof. destruct p as [s' [[a|e]| |]]; intros (H1 & H2 & H3); by split; [|split]. Qed.

Lemma fs_ok_alloc_file s data : fs_ok s -> fs_ok (snd (alloc_node (NFile data) s)).
Proof.
  intros Hok. assert (forall d n l, names (snd (alloc_node (NFile data) s)) d n l -> names s d n l) as Hn.
  { intros d n l (es & Hd & He). cbn in Hd. apply lookup_insert_Some in Hd as [[_ ?]|[_ Hd]]; [done|].
    by exists es. }
  split.
  - intros l n. cbn. rewrite lookup_insert_Some. intros [[<- <-]|[_ H]]; [split; [lia|done]|].
    apply (ok_alloc s Hok) in H as [? ?]. split; [lia|done].
  - intros d n l H. apply Hn, (ok_entry s Hok) in H as [? ?]. split; [done|].
    cbn. rewrite lookup_insert_is_Some. destruct (decide (next_loc s = l)); auto.
  - intros d1 n1 d2 n2 l A%Hn B%Hn. by eapply (ok_parent s Hok).
Qed.

Lemma memfd_safe s name : fs_ok s -> safe s (create_memfd name s).
Proof.
  intros Hok. unfold create_memfd. pose proof (fs_ok_alloc_file s [] Hok) as H1.
  pose proof (extends_alloc s (NFile []) Hok) as H2. cbn [alloc_node snd] in *.
  set (s1 := mkMockFs _ _ _) in *.
  destruct (new_file_safe s1 (next_loc s) true true) as (F1 & F2 & f & F3 & _); [done| |].
  { exists (NFile []). cbn. by rewrite lookup_insert_eq. }
  split; [done|]. split; [by eapply extends_trans|]. by rewrite F3.
Qed.

(** C2: every operation of the mock filesystem, on any live capability or
    handle, keeps the heap a forest (every entry points to an initialised
    node with no other parent), keeps every other handle alive, never reaches
    an [unreachable!] or dangling node, and leaves the filesystem exactly as
    it was when it returns an error. *)
Theorem fs_operations_safe s o (Hok : fs_ok s) (Hh : op_handles o s) : safe s (run_op o s).
Proof.
  destruct o; cbn [run_op op_handles] in *;
    match goal with |- safe _ (void _) => apply safe_void | _ => idtac end.
  - by apply open_safe.
  - apply lookup_safe; [done..|]. intros l nd Hl _. rewrite Hl. destruct nd; by eexists.
  - apply insert_new_safe; auto.
  - apply lookup_safe; [done..|]. intros l nd Hl ?. rewrite Hl. destruct nd; [done|by eexists..].
  - unfold access. destruct (negb _); [by apply safe_same|].
    apply lookup_safe; [done..|]. intros. by eexists.
  - apply lookup_safe; [done..|]. intros. by eexists.
  - apply lookup_safe; [done..|]. intros. by eexists.
  - apply lookup_safe; [done..|]. intros. by eexists.
  - destruct Hh as [es Hd]. destruct (read_dir_total s d es Hok Hd) as (ds & -> & _).
    by apply safe_same.
  - by apply remove_safe.
  - by apply remove_safe.
  - apply insert_new_safe; [done..|]. by right.
  - apply lookup_safe; [done..|]. intros l nd Hl _. rewrite Hl. destruct nd; by eexists.
  - by apply rename_safe.
  - by apply rename_safe.
  - by apply read_safe.
  - by apply write_safe.
  - by apply safe_same.
  - by apply safe_same.
  - by apply safe_same.
  - by apply memfd_safe.
Qed.

Lemma fs_ok_root : fs_ok (snd (root empty_fs)).
Proof.
  split.
  - intros l n. cbn. rewrite lookup_insert_Some. intros [[<- <-]|[_ H]]; [split; [lia|done]|].
    by rewrite lookup_empty in H.
  - intros d n l (es & Hd & He). cbn in Hd.
    apply lookup_insert_Some in Hd as [[_ [= <-]]|[_ Hd]]; by rewrite lookup_empty in *.
  - intros d1 n1 d2 n2 l (es & Hd & He) _. cbn in Hd.
    apply lookup_insert_Some in Hd as [[_ [= <-]]|[_ Hd]]; by rewrite lookup_empty in *.
Qed.

Lemma fs_operations_safe_witness :
  safe (snd (root empty_fs)) (run_op (OpCreateDir 0 (lit "d")) (snd (root empty_fs))).
Proof.
  apply (fs_operations_safe (snd (root empty_fs)) (OpCreateDir 0 (lit "d")) fs_ok_root).
  exists ∅. reflexivity.
Defined.

(** ** The mock implements the interface *)

Definition node_entry (n : Node) : Entry :=
  match n with NFile data => EFile data | _ => EOther end.

(** What a client sees under a name: its node, through the heap. *)
Definition mock_entry (s : MockFs) (d : nat) (n : OsString) : option Entry :=
  match nodes s !! d with
  | Some (NDir es) => (es !! n) ≫= fun l => node_entry <$> (nodes s !! l)
  | _ => None
  end.

Definition mock_dir_ok (s : MockFs) (d : nat) : Prop := fs_ok s /\ is_dir s d.
Definition mock_writes_to (s : MockFs) (d : nat) (n : OsString) (f : MockFile) : Prop :=
  writable f = true /\ names s d n (f_node f) /\ is_Some (cursors s !! f_pos f).

Lemma mock_entry_Some s d n x :
  mock_entry s d n = Some x <->
  exists l nd, names s d n l /\ nodes s !! l = Some nd /\ x = node_entry nd.
Proof.
  unfold mock_entry, names. split.
  - destruct (nodes s !! d) as [[| |es|]|] eqn:Hd; try done.
    intros (l & Hl & (nd & Hn & ->)%fmap_Some)%bind_Some. exists l, nd. eauto.
  - intros (l & nd & (es & -> & Hl) & Hn & ->). apply bind_Some. exists l.
    split; [done|]. by rewrite Hn.
Qed.

(** Writing a file's node shows under its one name only. *)
Lemma mock_entry_set_file s d n l data m :
  fs_ok s -> is_dir s d -> names s d n l -> is_file s l ->
  mock_entry (set_node l (NFile data) s) d m
  = if decide (m = n) then Some (EFile data) else mock_entry s d m.
Proof.
  intros Hok [es Hd] Hn [old Hl].
  assert (d <> l) as Hdl by (intros ->; congruence).
  assert (es !! n = Some l) as Hes by (destruct Hn as (es' & Hd' & He); congruence).
  unfold mock_entry. cbn [set_node nodes]. rewrite lookup_insert_ne, Hd by done.
  destruct (decide (m = n)) as [->|Hne]; [rewrite Hes; cbn; by rewrite lookup_insert_eq|].
  destruct (es !! m) as [l'|] eqn:Em; [|done]. cbn. rewrite lookup_insert_ne; [done|].
  intros <-. apply Hne. eapply (ok_parent s Hok d m d n l); by exists es.
Qed.

(** Replacing a directory's entries, its nodes untouched. *)
Lemma mock_entry_set_dir s d es es' m :
  fs_ok s -> nodes s !! d = Some (NDir es) ->
  (forall n l, es' !! n = Some l -> exists n0, es !! n0 = Some l) ->
  mock_entry (set_node d (NDir es') s) d m = (es' !! m) ≫= fun l => node_entry <$> (nodes s !! l).
Proof.
  intros Hok Hd Hsub. unfold mock_entry. cbn [set_node nodes]. rewrite lookup_insert_eq.
  destruct (es' !! m) as [l|] eqn:E; [|done]. cbn. rewrite lookup_insert_ne; [done|].
  intros <-. apply Hsub in E as [n0 E].
  destruct (ok_entry s Hok d n0 d) as [? _]; [by exists es|lia].
Qed.

Lemma mock_entry_dir s d es m :
  nodes s !! d = Some (NDir es) ->
  mock_entry s d m = (es !! m) ≫= fun l => node_entry <$> (nodes s !! l).
Proof. intros Hd. unfold mock_entry. by rewrite Hd. Qed.

Lemma mock_remove_entries s d rel w opn es :
  fs_ok s -> nodes s !! d = Some (NDir es) ->
  forall m, m <> rel -> mock_entry (fst (remove d rel w opn s)) d m = mock_entry s d m.
Proof.
  intros Hok Hd m Hm. unfold remove, with_entries. rewrite Hd.
  destruct (es !! rel) as [l|] eqn:E; [|done].
  assert (mock_entry (set_node d (NDir (delete rel es)) s) d m = mock_entry s d m) as H.
  { rewrite (mock_entry_set_dir s d es), (mock_entry_dir s d es); [|done..|].
    - by rewrite lookup_delete_ne.
    - intros n l' [_ ?]%lookup_delete_Some. by exists n. }
  destruct (nodes s !! l) as [[]|], w; try done. by case_bool_decide.
Qed.

Lemma mock_rename_entries s d es a b l :
  fs_ok s -> nodes s !! d = Some (NDir es) -> es !! a = Some l -> a <> b ->
  let s' := set_node d (NDir (<[b := l]> (delete a es))) s in
  mock_entry s' d a = None /\ mock_entry s' d b = mock_entry s d a /\
  forall m, m <> a -> m <> b -> mock_entry s' d m = mock_entry s d m.
Proof.
  intros Hok Hd Ha Hab s'.
  assert (forall m, mock_entry s' d m =
    (<[b := l]> (delete a es) !! m) ≫= fun l => node_entry <$> (nodes s !! l)) as H.
  { intros m. apply (mock_entry_set_dir s d es); [done..|].
    intros n l' [[<- <-]|[_ [_ ?]%lookup_delete_Some]]%lookup_insert_Some; eauto. }
  split_and!.
  - by rewrite H, lookup_insert_ne, lookup_delete_eq.
  - by rewrite H, lookup_insert_eq, (mock_entry_dir s d es), Ha.
  - intros m ? ?. by rewrite H, lookup_insert_ne, lookup_delete_ne, (mock_entry_dir s d es).
Qed.

Lemma new_file_entry s l r w d m :
  mock_entry (fst (new_file l r w s)) d m = mock_entry s d m.
Proof. done. Qed.

Lemma mock_insert_entries s d es n nd :
  fs_ok s -> nodes s !! d = Some (NDir es) ->
  (nd = NDir ∅ \/ forall es', nd <> NDir es') ->
  let s' := set_node d (NDir (<[n := next_loc s]> es)) (snd (alloc_node nd s)) in
  mock_entry s' d n = Some (node_entry nd) /\
  forall m, m <> n -> mock_entry s' d m = mock_entry s d m.
Proof.
  intros Hok Hd Hnd s'.
  assert (nodes s !! next_loc s = None) as Hfresh.
  { apply eq_None_not_Some. intros [x Hx]. apply (ok_alloc s Hok) in Hx as [? _]. lia. }
  assert (d <> next_loc s) by congruence.
  split; [|intros m Hm].
  - unfold mock_entry, s'. cbn [set_node alloc_node snd nodes].
    rewrite lookup_insert_eq, lookup_insert_eq. cbn.
    rewrite lookup_insert_ne, lookup_insert_eq by done. done.
  - rewrite (mock_entry_dir s d es m Hd). unfold mock_entry, s'.
    cbn [set_node alloc_node snd nodes]. rewrite lookup_insert_eq, lookup_insert_ne by done.
    destruct (es !! m) as [l|] eqn:E; [|done]. cbn.
    destruct (ok_entry s Hok d m l) as [Hlt [x Hx]]; [by exists es|].
    rewrite lookup_insert_ne by lia. rewrite lookup_insert_ne by congruence. done.
Qed.

(** [open] with [create_new], on each of its two branches. *)
Lemma open_create_new s d n :
  fs_ok s -> is_dir s d ->
  (is_Some (mock_entry s d n) /\
   open d n create_new_opts s = (s, fail (err AlreadyExists "open" n))) \/
  (mock_entry s d n = None /\ exists s' f, open d n create_new_opts s = (s', ret f) /\
     mock_dir_ok s' d /\ mock_writes_to s' d n f /\ is_file s' (f_node f) /\
     mock_entry s' d n = Some (EFile []) /\
     forall m, m <> n -> mock_entry s' d m = mock_entry s d m).
Proof.
  intros Hok Hd. destruct (open_safe s d n create_new_opts Hok Hd) as [(S1 & S2 & _) S3].
  unfold open in *. destruct (child_cases s d n "open" Hd) as [(l & E & Hn)|(es & E & Hes & Hnone)];
    rewrite E in *; cbn [create_new_opts o_create_new o_create o_read o_write o_append orb] in *.
  - left. split; [|done]. destruct (named_node _ _ _ _ Hok Hn) as (nd & Hl & _).
    exists (node_entry nd). apply mock_entry_Some. eauto.
  - right. split; [by rewrite (mock_entry_dir s d es), Hnone|].
    unfold with_entries in *. rewrite Hes in *. cbn [alloc_node] in *.
    set (s1 := set_node d _ _) in *.
    destruct (mock_insert_entries s d es n (NFile []) Hok Hes) as [He Ho]; [by right|].
    cbn [alloc_node snd] in He, Ho. fold s1 in He, Ho.
    eexists _, _. split; [reflexivity|]. split; [split; [done|by apply S2]|].
    assert (d <> next_loc s) as Hne.
    { apply (ok_alloc s Hok) in Hes as [? _]. lia. }
    assert (nodes s1 !! next_loc s = Some (NFile [])) as Hf.
    { subst s1. cbn. by rewrite lookup_insert_ne, lookup_insert_eq. }
    split; [split; [done|split]|].
    + exists (<[n := next_loc s]> es). split; [|by rewrite lookup_insert_eq].
      subst s1. cbn. by rewrite lookup_insert_eq.
    + cbn. by rewrite lookup_insert_eq.
    + split; [by exists []|]. by split.
Qed.

Lemma mock_write_entry s d n f c bs :
  mock_dir_ok s d -> mock_writes_to s d n f -> mock_entry s d n = Some (EFile c) ->
  exists s', write f bs s = (s', ret (zlen bs)) /\ mock_dir_ok s' d /\ mock_writes_to s' d n f /\
  (forall m, m <> n -> mock_entry s' d m = mock_entry s d m) /\
  mock_entry s' d n = Some (EFile (c ++ bs)).
Proof.
  intros [Hok Hd] (Hw & Hn & Hp) He.
  apply mock_entry_Some in He as (l & nd & Hl & Hnd & Heq).
  assert (l = f_node f) as ->.
  { destruct Hl as (e1 & H1 & H2), Hn as (e2 & H3 & H4). congruence. }
  destruct nd as [|data| |]; try done. injection Heq as ->.
  assert (is_file s (f_node f)) as Hfile by (by exists data).
  unfold write. rewrite Hw, Hnd. cbn [negb].
  exists (set_node (f_node f) (NFile (data ++ bs)) s). split; [done|].
  pose proof (extends_set_file s (f_node f) (data ++ bs) Hfile) as He.
  split; [split; [by apply fs_ok_set_file|by apply He]|]. split.
  { split; [done|]. split; [|by apply He]. destruct Hn as (es & H1 & H2). exists es.
    split; [|done]. cbn. rewrite lookup_insert_ne; [done|]. congruence. }
  split.
  - intros m Hm. rewrite (mock_entry_set_file s d n) by done. by rewrite decide_False.
  - rewrite (mock_entry_set_file s d n) by done. by rewrite decide_True.
Qed.

#[export] Instance mock_laws : DirLaws MockFs nat MockFile mock_backend.
Proof.
  refine {| dir_ok := mock_dir_ok; entry_at := mock_entry; writes_to := mock_writes_to |}.
  - intros s d n [Hok Hd].
    destruct (open_create_new s d n Hok Hd) as [[_ E]|(He & s' & f & E & H1 & H2 & _ & H3 & H4)].
    + exists s, (fail (err AlreadyExists "open" n)). split; [done|]. split; [done|]. right. by eexists.
    + exists s', (ret f). split; [done|]. split; [done|]. left. by exists f.
  - intros s d n f c bs Hd Hw He Hne.
    destruct (mock_write_entry s d n f c bs Hd Hw He) as (s' & E & H1 & H2 & H3 & H4).
    exists s', (ret (zlen bs)). split_and!; [done..|]. left. exists (zlen bs).
    split_and!; [done|lia|lia|]. by rewrite Nat2Z.id, firstn_all.
  - intros s d n f Hd Hw. exists s, (ret tt). split_and!; [done..|]. by left.
  - intros s d f Hd. done.
  - intros s d n [Hok Hd]. destruct (remove_safe s d n false "remove_file" Hok Hd) as (S1 & S2 & _).
    cbn [remove_file_ mock_backend]. unfold remove_file.
    destruct (remove d n false "remove_file" s) as [s' r] eqn:E.
    exists s', r. split; [done|]. split; [split; [done|by apply S2]|].
    intros m Hm. destruct Hd as [es Hd].
    pose proof (mock_remove_entries s d n false "remove_file" es Hok Hd m Hm) as H. by rewrite E in H.
  - intros s d a b x [Hok Hd] Hab He.
    apply mock_entry_Some in He as (l & nd & (es & Hes & Hl) & Hnd & ->).
    destruct (rename_safe s d a b true Hok Hd) as (S1 & S2 & _).
    cbn [rename_ mock_backend]. unfold rename, rename_impl, with_entries in *.
    rewrite Hes, Hl in *. cbn [negb andb] in *.
    eexists _, (ret tt). split; [reflexivity|]. split; [split; [done|by apply S2]|]. left.
    destruct (mock_rename_entries s d es a b l Hok Hes Hl Hab) as (H1 & H2 & H3).
    split_and!; [done|exact H1| |exact H3]. cbn [fst snd]. rewrite H2, (mock_entry_dir s d es a Hes), Hl.
    cbn. by rewrite Hnd.
  - intros s d Hd. exists s, (ret tt). split_and!; [done..|]. by left.
Defined.

(** on the mock, [write_atomic] over a free temporary name succeeds: the
    target then holds exactly [contents], whatever was there before, the
    temporary name is gone and every other name is as it was. *)
Theorem mock_write_atomic s d rel contents pid n
    (Hok : fs_ok s) (Hd : is_dir s d) (Hfree : mock_entry s d (tmp_name rel pid n) = None) :
  exists s', write_atomic d rel contents pid n s = (s', ret tt) /\ fs_ok s' /\
  mock_entry s' d rel = Some (EFile contents) /\
  forall m, m <> rel -> mock_entry s' d m = mock_entry s d m.
Proof.
  pose proof (tmp_name_fresh rel pid n) as Hne. unfold write_atomic. cbv zeta.
  set (tmp := tmp_name rel pid n) in *.
  destruct (open_create_new s d tmp Hok Hd) as
    [[[x Hx] _]|(_ & s1 & f & E1 & Hd1 & Hw1 & _ & He1 & Ho1)]; [congruence|].
  assert (exists s2, write_and_sync d tmp contents s = (s2, ret tt) /\ mock_dir_ok s2 d /\
    mock_entry s2 d tmp = Some (EFile contents) /\
    forall m, m <> tmp -> mock_entry s2 d m = mock_entry s1 d m) as (s2 & -> & [Hok2 Hd2] & He2 & Ho2).
  { unfold write_and_sync. cbn [open_ write_ sync_all_ mock_backend].
    rewrite (st_bind_ret _ _ _ _ _ E1). unfold with_open_file. cbn [write_loop drop_file_ mock_backend].
    destruct contents as [|b bs]; [by exists s1|].
    destruct (mock_write_entry s1 d tmp f [] (b :: bs) Hd1 Hw1 He1) as (s2 & E2 & Hd2 & Hw2 & Ho2 & He2).
    exists s2. split; [|by split_and!].
    assert (zlen (b :: bs) <> 0) as Hz by (simpl; lia).
    unfold st_bind. cbn [write_ mock_backend]. rewrite E2, (proj2 (Z.eqb_neq _ _) Hz).
    rewrite Nat2Z.id, drop_all. cbn [length write_loop]. done. }
  apply mock_entry_Some in He2 as (l & nd & (es & Hes & Hl) & Hnd & Heq).
  cbn [rename_ sync_dir_ mock_backend]. unfold rename, rename_impl, with_entries, st_bind.
  rewrite Hes, Hl. cbn [negb andb].
  destruct (mock_rename_entries s2 d es tmp rel l Hok2 Hes Hl Hne) as (H1 & H2 & H3).
  eexists. split; [reflexivity|]. split.
  - destruct (rename_safe s2 d tmp rel true Hok2 Hd2) as (S1 & _).
    unfold rename_impl, with_entries in S1. rewrite Hes, Hl in S1. exact S1.
  - split.
    + rewrite H2, (mock_entry_dir s2 d es tmp Hes), Hl. cbn. rewrite Hnd. cbn. by rewrite <- Heq.
    + intros m Hm. destruct (decide (m = tmp)) as [->|]; [by rewrite H1, Hfree|].
      by rewrite H3, Ho2, Ho1.
Qed.

Lemma mock_write_atomic_witness :
  let s := snd (root empty_fs) in
  exists s', write_atomic 0%nat (lit "f") [1; 2; 3] 42 0 s = (s', ret tt) /\ fs_ok s' /\
  mock_entry s' 0 (lit "f") = Some (EFile [1; 2; 3]) /\
  forall m, m <> lit "f" -> mock_entry s' 0 m = mock_entry s 0 m.
Proof.
  apply (mock_write_atomic (snd (root empty_fs)) 0 (lit "f") [1; 2; 3] 42 0).
  - exact fs_ok_root.
  - exists ∅. reflexivity.
  - vm_compute. reflexivity.
Defined.

Lemma write_atomic_atomic_witness :
  let s := fst (with_file 0%nat (lit "f") [9; 9] (snd (root empty_fs))) in
  exists s' log r,
  write_atomic (B := traced_backend mock_backend) 0%nat (lit "f") [1; 2] 42 0 (s, []) = ((s', log), r) /\
  Forall (old_or_new (lit "f") (tmp_name (lit "f") 42 0) 0%nat [1; 2] s) (log ++ [s']) /\
  returns r /\
  (r = ret tt -> entry_at s' 0%nat (lit "f") = Some (EFile [1; 2]) /\
                 entry_at s' 0%nat (tmp_name (lit "f") 42 0) = None).
Proof.
  cbv zeta.
  apply (write_atomic_atomic 0%nat (lit "f") [1; 2] 42 0
    (fst (with_file 0%nat (lit "f") [9; 9] (snd (root empty_fs))))).
  split; [|by eexists].
  apply (fs_ok_insert (snd (root empty_fs)) 0 ∅ (lit "f") (NFile [9; 9]) fs_ok_root); [done..|by right].
Defined.

(** when the temporary name is already taken by a file, [write_atomic]
    fails with [AlreadyExists] and deletes that file, which it did not
    create: the clean-up after a failed [write_and_sync] does not distinguish
    a failed open from a failed write. *)
Theorem write_atomic_removes_existing_temp s d rel contents pid n old
    (Hok : fs_ok s) (Hd : is_dir s d)
    (Htaken : mock_entry s d (tmp_name rel pid n) = Some (EFile old)) :
  exists s', write_atomic d rel contents pid n s
    = (s', fail (err AlreadyExists "open" (tmp_name rel pid n))) /\
  mock_entry s' d (tmp_name rel pid n) = None.
Proof.
  unfold write_atomic. cbv zeta. set (tmp := tmp_name rel pid n) in *.
  destruct (open_create_new s d tmp Hok Hd) as [[_ E]|(He & _)]; [|congruence].
  unfold write_and_sync, st_bind. cbn [open_ mock_backend]. rewrite E.
  apply mock_entry_Some in Htaken as (l & nd & (es & Hes & Hl) & Hnd & Heq).
  destruct nd as [|data| |]; try done.
  cbn [remove_file_ mock_backend]. unfold remove_file, remove, with_entries. rewrite Hes, Hl, Hnd.
  eexists. split; [reflexivity|].
  rewrite (mock_entry_set_dir s d es), lookup_delete_eq; [done..|].
  intros m l' [_ ?]%lookup_delete_Some. by exists m.
Qed.

Lemma write_atomic_removes_existing_temp_witness :
  let s := fst (with_file 0%nat (tmp_name (lit "f") 42 0) [9] (snd (root empty_fs))) in
  exists s', write_atomic 0%nat (lit "f") [1] 42 0 s
    = (s', fail (err AlreadyExists "open" (tmp_name (lit "f") 42 0))) /\
  mock_entry s' 0 (tmp_name (lit "f") 42 0) = None.
Proof.
  cbv zeta. apply (write_atomic_removes_existing_temp
    (fst (with_file 0%nat (tmp_name (lit "f") 42 0) [9] (snd (root empty_fs))))
    0 (lit "f") [1] 42 0 [9]).
  - apply (fs_ok_insert (snd (root empty_fs)) 0 ∅ (tmp_name (lit "f") 42 0) (NFile [9]) fs_ok_root);
      [done..|by right].
  - by eexists.
  - vm_compute. reflexivity.
Defined.

(** ** Listing and renaming *)

Lemma sorted_entries_sorted es : Sorted bytes_le (map fst (sorted_entries es)).
Proof.
  assert (Sorted key_le (sorted_entries es)) as H.
  { apply Sorted_merge_sort. intros [a ?] [b ?]. unfold key_le. apply (total bytes_le). }
  induction H as [|x l _ IH Hx]; constructor; [done|].
  destruct Hx; constructor; done.
Qed.

(** [read_dir] lists the directory's names in increasing byte order,
    without repetition, exactly the names that have an entry, each with the
    type [metadata] reports. *)
Theorem read_dir_complete s d (Hok : fs_ok s) (Hd : is_dir s d) :
  exists ds, read_dir d s = (s, ret ds) /\
  Sorted bytes_le (map de_name ds) /\ NoDup (map de_name ds) /\
  (forall n, n ∈ map de_name ds <-> is_Some (mock_entry s d n)) /\
  (forall x, x ∈ ds -> exists md, metadata d (de_name x) s = (s, ret md) /\ file_type md = de_type x).
Proof.
  destruct Hd as [es Hes]. destruct (read_dir_total s d es Hok Hes) as (ds & E & HF).
  exists ds. split; [done|].
  assert (map de_name ds = map fst (sorted_entries es)) as Hnames.
  { clear E. induction HF as [|x y xs ys [H _] _ IH]; [done|]. simpl. by rewrite H, IH. }
  rewrite Hnames. split; [apply sorted_entries_sorted|]. split.
  { unfold sorted_entries. rewrite merge_sort_Permutation. apply NoDup_fst_map_to_list. }
  split.
  - intros n. rewrite (mock_entry_dir s d es n Hes). split.
    + intros ([n' l] & -> & Hin)%list_elem_of_fmap. apply sorted_entries_elem in Hin.
      cbn [fst] in *. rewrite Hin.
      destruct (named_node s d n' l Hok) as (nd & Hl & _); [by exists es|].
      cbn. rewrite Hl. by eexists.
    + intros [x (l & Hl & _)%bind_Some]. apply list_elem_of_fmap. exists (n, l).
      by rewrite sorted_entries_elem.
  - intros x Hx. apply list_elem_of_lookup in Hx as [i Hi].
    destruct (Forall2_lookup_r _ _ _ _ _ HF Hi) as ([n l] & Hnl & Hn & Ht).
    apply list_elem_of_lookup_2, sorted_entries_elem in Hnl. cbn [fst snd] in *.
    unfold metadata, child, st_bind. rewrite Hes, Hn, Hnl.
    destruct (nodes s !! l) as [[]|]; try done; injection Ht as Ht; by eexists.
Qed.

Lemma read_dir_complete_witness :
  let s := fst (with_file 0%nat (lit "f") [9] (snd (root empty_fs))) in
  exists ds, read_dir 0 s = (s, ret ds) /\
  Sorted bytes_le (map de_name ds) /\ NoDup (map de_name ds) /\
  (forall n, n ∈ map de_name ds <-> is_Some (mock_entry s 0 n)) /\
  (forall x, x ∈ ds -> exists md, metadata 0 (de_name x) s = (s, ret md) /\ file_type md = de_type x).
Proof.
  cbv zeta. apply (read_dir_complete (fst (with_file 0%nat (lit "f") [9] (snd (root empty_fs)))) 0).
  - apply (fs_ok_insert (snd (root empty_fs)) 0 ∅ (lit "f") (NFile [9]) fs_ok_root); [done..|by right].
  - by eexists.
Defined.

(** [rename] moves the entry whatever its kind, replacing what the target
    name held, and [rename_no_replace] refuses instead; neither touches a
    third name, and the node keeps its identity ([file_id]). *)
Theorem rename_moves s d a b x replace
    (Hok : fs_ok s) (Hd : is_dir s d) (Ha : mock_entry s d a = Some x) (Hab : a <> b) :
  if negb replace && bool_decide (is_Some (mock_entry s d b))
  then rename_impl d a b replace s = (s, fail (err AlreadyExists "rename" b))
  else exists s', rename_impl d a b replace s = (s', ret tt) /\
    mock_entry s' d a = None /\ mock_entry s' d b = Some x /\
    (forall m, m <> a -> m <> b -> mock_entry s' d m = mock_entry s d m) /\
    snd (file_id d b s') = snd (file_id d a s).
Proof.
  pose proof (proj1 (mock_entry_Some s d a x) Ha) as (l & nd & (es & Hes & Hl) & Hnd & Hx).
  assert (is_Some (mock_entry s d b) <-> is_Some (es !! b)) as Hb.
  { rewrite (mock_entry_dir s d es b Hes). split.
    - intros [y (l' & H & _)%bind_Some]. by eexists.
    - intros [l' H]. rewrite H. cbn. destruct (named_node s d b l' Hok) as (nd' & -> & _);
        [by exists es|by eexists]. }
  unfold rename_impl, with_entries. rewrite Hes, Hl.
  rewrite <- (bool_decide_ext _ _ Hb).
  destruct (negb replace && _); [done|]. eexists. split; [reflexivity|].
  destruct (mock_rename_entries s d es a b l Hok Hes Hl Hab) as (H1 & H2 & H3).
  split; [exact H1|]. split; [by rewrite H2, Ha|]. split; [exact H3|].
  unfold file_id, child, st_bind. cbn [set_node nodes]. rewrite lookup_insert_eq, lookup_insert_eq.
  by rewrite Hes, Hl.
Qed.

Lemma rename_moves_witness :
  let s := fst (with_file 0%nat (lit "f") [9] (snd (root empty_fs))) in
  exists s', rename_impl 0 (lit "f") (lit "g") false s = (s', ret tt) /\
    mock_entry s' 0 (lit "f") = None /\ mock_entry s' 0 (lit "g") = Some (EFile [9]) /\
    (forall m, m <> lit "f" -> m <> lit "g" -> mock_entry s' 0 m = mock_entry s 0 m) /\
    snd (file_id 0 (lit "g") s') = snd (file_id 0 (lit "f") s).
Proof.
  cbv zeta. apply (rename_moves (fst (with_file 0%nat (lit "f") [9] (snd (root empty_fs)))) 0
    (lit "f") (lit "g") (EFile [9]) false).
  - apply (fs_ok_insert (snd (root empty_fs)) 0 ∅ (lit "f") (NFile [9]) fs_ok_root); [done..|by right].
  - by eexists.
  - vm_compute. reflexivity.
  - vm_compute. congruence.
Defined.

(** ** Positions *)

Lemma read_spec s f cap data pos :
  readable f = true -> nodes s !! f_node f = Some (NFile data) ->
  cursors s !! f_pos f = Some pos -> 0 <= pos -> 0 <= cap ->
  exists s', read f cap s = (s', ret (take (Z.to_nat cap) (drop (Z.to_nat pos) data))) /\
    nodes s' = nodes s /\
    cursors s' = <[f_pos f := pos + Z.min (zlen (drop (Z.to_nat pos) data)) cap]> (cursors s).
Proof.
  intros Hr Hn Hp Hpos Hcap. unfold read. rewrite Hr, Hn, Hp. cbn [negb].
  assert (drop (Z.to_nat (Z.min pos (zlen data))) data = drop (Z.to_nat pos) data) as ->.
  { destruct (Z.le_gt_cases pos (zlen data)); [by rewrite Z.min_l|].
    rewrite Z.min_r, !drop_ge by lia. done. }
  set (rest := drop (Z.to_nat pos) data).
  assert (take (Z.to_nat (Z.min (zlen rest) cap)) rest = take (Z.to_nat cap) rest) as ->.
  { destruct (Z.le_gt_cases (zlen rest) cap).
    - rewrite Z.min_l, Nat2Z.id, !take_ge by lia. done.
    - by rewrite Z.min_r by lia. }
  eexists. split; [reflexivity|done].
Qed.

(** a handle and its [try_clone] share one position: whichever of the two
    reads next continues where the last read of either stopped, and the bytes
    they return together are a contiguous piece of the file. *)
Theorem clone_shares_position s f data pos cap1 cap2
    (Hr : readable f = true) (Hn : nodes s !! f_node f = Some (NFile data))
    (Hp : cursors s !! f_pos f = Some pos) (Hpos : 0 <= pos) (Hc1 : 0 <= cap1) (Hc2 : 0 <= cap2) :
  exists s1 s2 s3 b1 b2 g,
  try_clone f s = (s1, ret g) /\ read f cap1 s1 = (s2, ret b1) /\ read g cap2 s2 = (s3, ret b2) /\
  b1 ++ b2 = take (Z.to_nat (cap1 + cap2)) (drop (Z.to_nat pos) data).
Proof.
  destruct (read_spec s f cap1 data pos) as (s2 & E1 & N1 & C1); [done..|].
  set (g := mkMockFile (f_node f) (f_pos f) (readable f) (writable f)).
  set (rest := drop (Z.to_nat pos) data) in *.
  assert (cursors s2 !! f_pos g = Some (pos + Z.min (zlen rest) cap1)) as Hg
    by (rewrite C1; apply lookup_insert_eq).
  destruct (read_spec s2 g cap2 data (pos + Z.min (zlen rest) cap1)) as (s3 & E2 & _);
    [done|by rewrite N1|done|lia|lia|].
  eexists _, _, _, _, _, _. split; [reflexivity|]. split; [exact E1|]. split; [exact E2|].
  replace (Z.to_nat (pos + Z.min (zlen rest) cap1))
    with (Z.to_nat pos + Nat.min (length rest) (Z.to_nat cap1))%nat by lia.
  rewrite <- drop_drop. fold rest. rewrite Z2Nat.inj_add by lia.
  rewrite <- (take_take_drop rest (Z.to_nat cap1)). f_equal.
  destruct (Nat.le_ge_cases (length rest) (Z.to_nat cap1)).
  - rewrite Nat.min_l, !drop_ge by lia. done.
  - by rewrite Nat.min_r.
Qed.

Lemma clone_shares_position_witness :
  let s := mkMockFs {[0%nat := NFile [1; 2; 3; 4; 5]]} {[1%nat := 1]} 2 in
  exists s1 s2 s3 b1 b2 g,
  try_clone (mkMockFile 0 1 true false) s = (s1, ret g) /\
  read (mkMockFile 0 1 true false) 2 s1 = (s2, ret b1) /\ read g 9 s2 = (s3, ret b2) /\
  b1 ++ b2 = [2; 3; 4; 5].
Proof.
  cbv zeta. apply (clone_shares_position (mkMockFs {[0%nat := NFile [1; 2; 3; 4; 5]]} {[1%nat := 1]} 2)
    (mkMockFile 0 1 true false) [1; 2; 3; 4; 5] 1 2 9); try reflexivity; lia.
Defined.

(** a mock write always appends, whatever position the handle is at, and
    leaves the position alone; so a handle that wrote and then reads starts
    from its old position, where a descriptor that shares one position for
    both would be past what it wrote. *)
Theorem write_ignores_position s f data pos buf
    (Hw : writable f = true) (Hn : nodes s !! f_node f = Some (NFile data))
    (Hp : cursors s !! f_pos f = Some pos) :
  exists s', write f buf s = (s', ret (zlen buf)) /\
  nodes s' !! f_node f = Some (NFile (data ++ buf)) /\ cursors s' !! f_pos f = Some pos.
Proof.
  unfold write. rewrite Hw, Hn. cbn [negb]. eexists. split; [reflexivity|].
  cbn. by rewrite lookup_insert_eq.
Qed.

Lemma write_ignores_position_witness :
  let s := mkMockFs {[0%nat := NFile [1; 2; 3]]} {[1%nat := 1]} 2 in
  exists s', write (mkMockFile 0 1 true true) [9] s = (s', ret 1) /\
  nodes s' !! 0%nat = Some (NFile [1; 2; 3; 9]) /\ cursors s' !! 1%nat = Some 1.
Proof.
  cbv zeta. apply (write_ignores_position (mkMockFs {[0%nat := NFile [1; 2; 3]]} {[1%nat := 1]} 2)
    (mkMockFile 0 1 true true) [1; 2; 3] 1 [9]); reflexivity.
Defined.
