(* ===== verification/Calendar.v ===== *)
(** * The calendar of [ls -l] ([crates/coreutils/src/ls.rs])

    [unix_seconds], [civil_from_days], [ymdhm_from_unix_secs] and
    [format_date], translated; and the proof that [civil_from_days] is the
    proleptic Gregorian calendar: day 0 is 1970-01-01 and every next day is
    the next date. *)

From Stdlib Require Import ZArith Lia String.
From S2P Require Import Prelude.
From stdpp Require Import base numbers list strings.
Open Scope Z_scope.

(** A [SystemTime] is its signed distance from the epoch in nanoseconds;
    [duration_since] splits on its sign, [as_secs] truncates. *)
Definition unix_seconds (t : Z) : Z :=
  if 0 <=? t then t / 1000000000 else - ((- t) / 1000000000).

(** Rust's [/] on [i64] truncates; the numerators here are such that
    [Z.quot] is what the source computes. *)
Definition civil_from_days (z0 : Z) : Z * Z * Z :=
  let z := z0 + 719468 in
  let era := Z.quot (if 0 <=? z then z else z - 146096) 146097 in
  let doe := z - era * 146097 in
  let yoe := (doe - doe / 1460 + doe / 36524 - doe / 146096) / 365 in
  let y := yoe + era * 400 in
  let doy := doe - (365 * yoe + yoe / 4 - yoe / 100) in
  let mp := (5 * doy + 2) / 153 in
  let d := doy - (153 * mp + 2) / 5 + 1 in
  let m := if mp <? 10 then mp + 3 else mp - 9 in
  let y := if m <=? 2 then y + 1 else y in
  (y, m, d).

Definition ymdhm_from_unix_secs (secs : Z) : Z * Z * Z * Z * Z :=
  let days := secs / 86400 in
  let secs_of_day := secs mod 86400 in
  let '(y, m, d) := civil_from_days days in
  (y, m, d, secs_of_day / 3600, secs_of_day mod 3600 / 60).

Definition MONTH_NAMES : list str :=
  map lit ["Jan"; "Feb"; "Mar"; "Apr"; "May"; "Jun"; "Jul"; "Aug"; "Sep"; "Oct"; "Nov"; "Dec"]%string.

(** [{n:2}] (right-aligned, space) and [{n:02}] of a non-negative number,
    and [{n}] of any. *)
Definition pad2 (fill : Z) (n : Z) : str := let s := dec n in replicate (2 - length s) fill ++ s.
Definition dec_signed (n : Z) : str := if n <? 0 then 45 :: dec (- n) else dec n.

Definition SIX_MONTHS_SECS : Z := 6 * 30 * 24 * 60 * 60.

Definition format_date (modified now : Z) : str :=
  let modified_secs := unix_seconds modified in
  let now_secs := unix_seconds now in
  let recent := (modified_secs <=? now_secs) && (now_secs - modified_secs <? SIX_MONTHS_SECS) in
  let '(year, month, day, hour, minute) := ymdhm_from_unix_secs modified_secs in
  let mon := default [] (MONTH_NAMES !! Z.to_nat (month - 1)) in
  if recent
  then mon ++ [32] ++ pad2 32 day ++ [32] ++ pad2 48 hour ++ [58] ++ pad2 48 minute
  else mon ++ [32] ++ pad2 32 day ++ [32; 32] ++ dec_signed year.

Example format_date_ex :
  format_date 1000000000000000000 1000000500000000000 = lit "Sep  9 01:46" /\
  format_date 1000000000000000000 2000000000000000000 = lit "Sep  9  2001" /\
  format_date (-86400000000000) 0 = lit "Dec 31 00:00".
Proof. vm_compute. auto. Qed.

(** ** The calendar, as a rule for the next day *)

(** [lia] with quotients and remainders by constants. *)
Local Ltac Zify.zify_post_hook ::= Z.to_euclidean_division_equations.

Definition leap (y : Z) : bool :=
  ((y mod 4 =? 0) && negb (y mod 100 =? 0)) || (y mod 400 =? 0).

Definition month_len (y m : Z) : Z :=
  if m =? 2 then (if leap y then 29 else 28)
  else if (m =? 4) || (m =? 6) || (m =? 9) || (m =? 11) then 30 else 31.

Definition next_day (ymd : Z * Z * Z) : Z * Z * Z :=
  let '(y, m, d) := ymd in
  if d <? month_len y m then (y, m, d + 1)
  else if m <? 12 then (y, m + 1, 1)
  else (y + 1, 1, 1).

(** ** The 400-year era, counted from 1 March

    Year [y] of the era starts on day [start y] and has [ylen y] days. *)

Definition start (y : Z) : Z := 365 * y + y / 4 - y / 100.
Definition ylen (y : Z) : Z := if leap (y + 1) then 366 else 365.

Definition in_era (y doy : Z) : Prop := 0 <= y < 400 /\ 0 <= doy < ylen y.

Lemma leap_cases y :
  (leap y = true /\ (y mod 4 = 0 /\ (y mod 100 <> 0 \/ y mod 400 = 0))) \/
  (leap y = false /\ (y mod 4 <> 0 \/ (y mod 100 = 0 /\ y mod 400 <> 0))).
Proof.
  unfold leap. destruct (Z.eqb_spec (y mod 4) 0), (Z.eqb_spec (y mod 100) 0),
    (Z.eqb_spec (y mod 400) 0); cbn [andb orb negb];
    first [left; split; [reflexivity|lia] | right; split; [reflexivity|lia]].
Qed.

Lemma start_succ y : 0 <= y < 399 -> start (y + 1) = start y + ylen y.
Proof.
  intros Hy. unfold start, ylen.
  destruct (leap_cases (y + 1)) as [[-> H]|[-> H]]; lia.
Qed.

Lemma start_last : start 399 + ylen 399 = 146097.
Proof. reflexivity. Qed.

(** The day after [(y, doy)] in the era. *)
Lemma era_days n : 0 <= n < 146097 -> exists y doy, in_era y doy /\ n = start y + doy.
Proof.
  intros Hn. replace n with (Z.of_nat (Z.to_nat n)) in * by lia.
  revert Hn. generalize (Z.to_nat n). clear n. induction n as [|n IH]; intros Hn.
  - exists 0, 0. split; [|done]. split; [lia|]. unfold ylen. by case_match.
  - destruct IH as (y & doy & [Hy Hd] & E); [lia|].
    destruct (Z.eq_dec (doy + 1) (ylen y)) as [He|He].
    + assert (y <> 399) by (intros ->; pose proof start_last; lia).
      exists (y + 1), 0. rewrite start_succ by lia. split; [|lia]. split; [lia|].
      unfold ylen. by case_match.
    + exists y, (doy + 1). split; [|lia]. split; lia.
Qed.

(** The year of the era, as the source computes it. *)
Lemma yoe_spec y doy :
  in_era y doy ->
  let doe := start y + doy in
  (doe - doe / 1460 + doe / 36524 - doe / 146096) / 365 = y /\ 0 <= doe < 146097.
Proof.
  intros [Hy Hd] doe.
  assert (exists q a b, y = 100 * q + 4 * a + b /\ 0 <= q <= 3 /\ 0 <= a <= 24 /\ 0 <= b <= 3)
    as (q & a & b & Ey & Hq & Ha & Hb) by (exists (y / 100), (y mod 100 / 4), (y mod 4); lia).
  assert (start y = 36524 * q + 1461 * a + 365 * b) as Es by (unfold start; lia).
  assert (doy <= 364 \/ (doy = 365 /\ b = 3 /\ (a < 24 \/ q = 3))) as Hlen.
  { unfold ylen in Hd. destruct (leap_cases (y + 1)) as [[E H]|[E H]]; rewrite E in Hd; lia. }
  assert (doe = 36524 * q + (1461 * a + 365 * b + doy)) as Ed by (subst doe; lia).
  set (D := 1461 * a + 365 * b + doy) in *.
  assert (0 <= D <= 36523 \/ (D = 36524 /\ q = 3)) as HD by (subst D; lia).
  split; [|lia].
  destruct HD as [HD|[HD Hq3]].
  - assert (doe / 36524 = q) as -> by lia.
    assert (doe / 146096 = 0) as -> by lia.
    assert (doe / 1460 = 25 * q + a + (24 * q + a + 365 * b + doy) / 1460) as -> by (subst D; lia).
    destruct (Z.lt_ge_cases (24 * q + a + 365 * b + doy) 1460);
      [assert ((24 * q + a + 365 * b + doy) / 1460 = 0) as -> by lia
      |assert ((24 * q + a + 365 * b + doy) / 1460 = 1) as -> by lia]; subst D; lia.
  - rewrite Ed, HD, Hq3. assert (y = 399) as -> by (subst D; lia). reflexivity.
Qed.

(** ** The year, counted from 1 March *)

(** The source's month index and day of the month. *)
Definition mp_of (doy : Z) : Z := (5 * doy + 2) / 153.
Definition day_of (doy : Z) : Z := doy - (153 * mp_of doy + 2) / 5 + 1.
(** Lengths of the months March .. January, February. *)
Definition mlen (mp : Z) : Z :=
  if mp =? 11 then 29
  else if (mp =? 1) || (mp =? 3) || (mp =? 6) || (mp =? 8) then 30 else 31.

Definition march_step (doy : Z) : bool :=
  (0 <=? mp_of doy) && (mp_of doy <=? 11) && (1 <=? day_of doy) && (day_of doy <=? mlen (mp_of doy)) &&
  (if day_of doy <? mlen (mp_of doy)
   then (mp_of (doy + 1) =? mp_of doy) && (day_of (doy + 1) =? day_of doy + 1)
   else (mp_of (doy + 1) =? mp_of doy + 1) && (day_of (doy + 1) =? 1)).

(** Checked on each of the 365 days that have a next day in the year. *)
Lemma march_steps doy : 0 <= doy < 365 -> march_step doy = true.
Proof.
  intros H. assert (forallb (fun n => march_step (Z.of_nat n)) (seq 0 365) = true) as Hall
    by (vm_compute; reflexivity).
  rewrite forallb_forall in Hall. specialize (Hall (Z.to_nat doy)).
  rewrite Z2Nat.id in Hall by lia. apply Hall, in_seq. lia.
Qed.

(** The date of a day of the era. *)
Definition era_date (era y doy : Z) : Z * Z * Z :=
  let mp := mp_of doy in
  let m := if mp <? 10 then mp + 3 else mp - 9 in
  (if m <=? 2 then y + era * 400 + 1 else y + era * 400, m, day_of doy).

Lemma civil_era era y doy :
  in_era y doy -> civil_from_days (era * 146097 + start y + doy - 719468) = era_date era y doy.
Proof.
  intros H. destruct (yoe_spec y doy H) as [Hy Hr]. cbv zeta in *.
  unfold civil_from_days. cbv zeta.
  replace (era * 146097 + start y + doy - 719468 + 719468) with (era * 146097 + (start y + doy)) by lia.
  set (doe := start y + doy) in *.
  assert (Z.quot (if 0 <=? era * 146097 + doe then era * 146097 + doe
    else era * 146097 + doe - 146096) 146097 = era) as ->.
  { destruct (Z.leb_spec 0 (era * 146097 + doe)) as [Hs|Hs].
    - rewrite Z.quot_div_nonneg by lia. lia.
    - rewrite <- (Z.opp_involutive (_ - 146096)), Z.quot_opp_l, Z.quot_div_nonneg by lia. lia. }
  replace (era * 146097 + doe - era * 146097) with doe by lia. rewrite Hy.
  replace (doe - (365 * y + y / 4 - y / 100)) with doy by (subst doe; unfold start; lia).
  reflexivity.
Qed.

Lemma leap_shift y era : leap (y + era * 400) = leap y.
Proof.
  unfold leap. assert ((y + era * 400) mod 4 = y mod 4 /\ (y + era * 400) mod 100 = y mod 100 /\
    (y + era * 400) mod 400 = y mod 400) as (-> & -> & ->); [|done].
  split_and!; [replace (era * 400) with (era * 100 * 4) by lia
    |replace (era * 400) with (era * 4 * 100) by lia|]; by rewrite Z_mod_plus_full.
Qed.

(** The year of the date is the era's year plus one in January and February. *)
Lemma era_month_len era y doy :
  0 <= mp_of doy <= 11 ->
  let '(yr, m, d) := era_date era y doy in
  month_len yr m = if mp_of doy =? 11 then ylen y - 337 else mlen (mp_of doy).
Proof.
  intros Hmp. unfold era_date, ylen. generalize dependent (mp_of doy). intros mp Hmp.
  assert (mp = 0 \/ mp = 1 \/ mp = 2 \/ mp = 3 \/ mp = 4 \/ mp = 5 \/ mp = 6 \/ mp = 7 \/ mp = 8 \/
    mp = 9 \/ mp = 10 \/ mp = 11) as H by lia.
  repeat destruct H as [->|H]; try reflexivity. subst mp. cbn -[leap Z.mul Z.add].
  unfold month_len. change (11 - 9) with 2. change (2 =? 2) with true. change (2 <=? 2) with true.
  cbn iota. replace (y + era * 400 + 1) with (y + 1 + era * 400) by lia. rewrite leap_shift.
  by destruct (leap (y + 1)).
Qed.

Lemma march_step_spec doy : 0 <= doy < 365 ->
  0 <= mp_of doy <= 11 /\ 1 <= day_of doy <= mlen (mp_of doy) /\
  ((day_of doy < mlen (mp_of doy) /\ mp_of (doy + 1) = mp_of doy /\ day_of (doy + 1) = day_of doy + 1) \/
   (day_of doy = mlen (mp_of doy) /\ mp_of (doy + 1) = mp_of doy + 1 /\ day_of (doy + 1) = 1)).
Proof.
  intros H. apply march_steps in H. unfold march_step in H.
  destruct (day_of doy <? mlen (mp_of doy)) eqn:E; bool_to_prop; lia.
Qed.

Lemma last_month doy : mp_of doy = 11 -> day_of doy = doy - 336.
Proof. unfold day_of. intros ->. lia. Qed.

Lemma era_next_within era y doy :
  in_era y doy -> doy + 1 < ylen y -> era_date era y (doy + 1) = next_day (era_date era y doy).
Proof.
  intros [Hy Hd] Hn.
  assert (ylen y <= 366) by (unfold ylen; case_match; lia).
  destruct (march_step_spec doy) as (Hmp & Hday & Hstep); [lia|].
  pose proof (era_month_len era y doy Hmp) as Hml. unfold era_date in *. unfold next_day.
  rewrite Hml. clear Hml.
  destruct Hstep as [(Hlt & Em & Ed)|(Heq & Em & Ed)]; rewrite Em, Ed.
  - rewrite (proj2 (Z.ltb_lt (day_of doy) _)); [done|].
    destruct (Z.eqb_spec (mp_of doy) 11) as [E|E]; [|done]. rewrite (last_month _ E). lia.
  - assert (mp_of doy <> 11) as Hne.
    { intros E. pose proof (last_month _ E). rewrite E in Heq. unfold mlen in Heq. cbn in Heq. lia. }
    rewrite (proj2 (Z.eqb_neq _ _) Hne), (proj2 (Z.ltb_ge (day_of doy) _)) by lia.
    generalize dependent (mp_of doy). intros mp Hmp _ _ _ Hne.
    assert (mp = 0 \/ mp = 1 \/ mp = 2 \/ mp = 3 \/ mp = 4 \/ mp = 5 \/ mp = 6 \/ mp = 7 \/ mp = 8 \/
      mp = 9 \/ mp = 10) as Hc by lia.
    repeat destruct Hc as [->|Hc]; try reflexivity. by subst mp.
Qed.

Lemma era_next_year era y doy :
  in_era y doy -> doy + 1 = ylen y -> next_day (era_date era y doy) = (y + era * 400 + 1, 3, 1).
Proof.
  intros [Hy Hd] Hn. assert (doy = 364 \/ doy = 365) as Hdoy by (unfold ylen in Hn; case_match; lia).
  assert (mp_of doy = 11) as E by (unfold mp_of; lia).
  pose proof (era_month_len era y doy ltac:(lia)) as Hml. unfold era_date in *.
  pose proof (last_month doy E) as Hday. rewrite E in *. cbn -[Z.mul Z.add] in *.
  rewrite Hml, Hday, (proj2 (Z.ltb_ge (doy - 336) _)) by lia. done.
Qed.

(** C24: [civil_from_days] is the proleptic Gregorian calendar: day 0 is
    1970-01-01, and for every day number, past or future, the next day is the
    next date by the rule of month lengths and leap years. *)
Theorem civil_from_days_gregorian :
  civil_from_days 0 = (1970, 1, 1) /\
  forall z, civil_from_days (z + 1) = next_day (civil_from_days z).
Proof.
  split; [reflexivity|]. intros z.
  destruct (era_days ((z + 719468) mod 146097)) as (y & doy & He & Hn); [lia|].
  set (era := (z + 719468) / 146097).
  assert (z = era * 146097 + start y + doy - 719468) as Hz by (subst era; lia).
  rewrite Hz at 2. rewrite civil_era by done. destruct He as [Hy Hd].
  destruct (Z.eq_dec (doy + 1) (ylen y)) as [Hl|Hl].
  - rewrite era_next_year by done. clearbody era. destruct (Z.eq_dec y 399) as [->|Hy'].
    + pose proof start_last. assert (start 0 = 0) by reflexivity.
      replace (z + 1) with ((era + 1) * 146097 + start 0 + 0 - 719468) by lia.
      rewrite civil_era by (split; [lia|change (ylen 0) with 365; lia]).
      change (era_date (era + 1) 0 0) with (0 + (era + 1) * 400, 3, 1). do 2 f_equal. lia.
    + replace (z + 1) with (era * 146097 + start (y + 1) + 0 - 719468)
        by (rewrite start_succ by lia; lia).
      rewrite civil_era by (split; [lia|unfold ylen; case_match; lia]).
      change (era_date era (y + 1) 0) with (y + 1 + era * 400, 3, 1). do 2 f_equal. lia.
  - clearbody era. rewrite <- era_next_within by first [by split | lia].
    replace (z + 1) with (era * 146097 + start y + (doy + 1) - 719468) by lia.
    rewrite civil_era by (split; lia). done.
Qed.

(** ** The width of the date column *)

Lemma civil_range z : let '(_, m, d) := civil_from_days z in 1 <= m <= 12 /\ 1 <= d <= 31.
Proof.
  destruct (era_days ((z + 719468) mod 146097)) as (y & doy & He & Hn); [lia|].
  assert (z = (z + 719468) / 146097 * 146097 + start y + doy - 719468) as Hz by lia.
  rewrite Hz, civil_era by done. unfold era_date. destruct He as [_ Hd].
  assert (ylen y <= 366) by (unfold ylen; case_match; lia).
  assert (0 <= mp_of doy <= 11 /\ 1 <= day_of doy <= 31) as [Hmp Hday].
  { destruct (Z.eq_dec doy 365) as [->|]; [by vm_compute|].
    destruct (march_step_spec doy) as (H1 & H2 & _); [lia|]. split; [done|].
    assert (mlen (mp_of doy) <= 31) by (unfold mlen; repeat case_match; lia). lia. }
  split; [|done]. case_match eqn:E; bool_to_prop; lia.
Qed.

Lemma dec_length_4 n : 1000 <= n < 10000 -> length (dec n) = 4%nat.
Proof.
  intros H. unfold dec. cbn [dec_loop].
  rewrite (proj2 (Z.ltb_ge n 10)), (proj2 (Z.ltb_ge (n / 10) 10)),
    (proj2 (Z.ltb_ge (n / 10 / 10) 10)), (proj2 (Z.ltb_lt (n / 10 / 10 / 10) 10)) by lia. done.
Qed.

Lemma pad2_length fill n : 0 <= n < 100 -> length (pad2 fill n) = 2%nat.
Proof.
  intros H. unfold pad2. rewrite length_app, length_replicate.
  assert (length (dec n) = 1%nat \/ length (dec n) = 2%nat) as [-> | ->]; [|done..].
  unfold dec. cbn [dec_loop]. destruct (Z.ltb_spec n 10); [by left|].
  rewrite (proj2 (Z.ltb_lt (n / 10) 10)) by lia. by right.
Qed.

Lemma month_name_length m : 1 <= m <= 12 ->
  length (default [] (MONTH_NAMES !! Z.to_nat (m - 1))) = 3%nat.
Proof.
  intros H. assert (exists k, (k < 12)%nat /\ Z.to_nat (m - 1) = k) as (k & Hk & ->)
    by (eexists; split; [|done]; lia).
  do 12 (destruct k as [|k]; [done|]). lia.
Qed.

(** The year [ls -l] shows for a modification time. *)
Definition shown_year (modified : Z) : Z :=
  fst (fst (civil_from_days (unix_seconds modified / 86400))).

(** for every modification time of the years 1000 to 9999 and every
    [now], the date column of [ls -l] is 12 characters wide, in both of its
    forms; that is what keeps the name column aligned. *)
Theorem format_date_width modified now
    (Hyear : 1000 <= shown_year modified <= 9999) :
  length (format_date modified now) = 12%nat.
Proof.
  unfold format_date, ymdhm_from_unix_secs, shown_year in *.
  pose proof (civil_range (unix_seconds modified / 86400)) as Hr.
  destruct (civil_from_days (unix_seconds modified / 86400)) as [[y m] d]. cbn [fst] in Hyear.
  destruct Hr as [Hm Hd]. cbv zeta. set (sod := unix_seconds modified mod 86400).
  assert (0 <= sod < 86400) as Hsod by (subst sod; lia). clearbody sod.
  case_match; autorewrite with rust_rw; cbn [length]; rewrite month_name_length by done.
  - by rewrite !pad2_length by lia.
  - unfold dec_signed. rewrite (proj2 (Z.ltb_ge y 0)) by lia.
    by rewrite pad2_length, dec_length_4 by lia.
Qed.

Lemma format_date_width_witness :
  length (format_date 1000000000000000000 2000000000000000000) = 12%nat.
Proof. apply format_date_width. vm_compute. intuition congruence. Defined.

(** Outside those years the column is wider: year 10000. *)
Example format_date_wide : length (format_date 253402300800000000000 0) = 13%nat.
Proof. vm_compute. reflexivity. Qed.
