(* ===== verification/CoreFs.v ===== *)
(** * The filesystem utilities ([crates/coreutils/src/cat.rs], [ls.rs])

    [cat], [ls], [render], [ls_long], [format_long] and
    [type_perm_string], written as the source writes them against the
    [Dir]/[File] interface, and what they compute over the mock. *)

From Stdlib Require Import ZArith Lia String.
From S2P Require Import Prelude Error Fs MockFs Calendar.
From stdpp Require Import base numbers list strings gmap sorting.
Open Scope Z_scope.

Definition entry_le (a b : DirEntry) : Prop := bytes_le (de_name a) (de_name b).
#[export] Instance entry_le_dec : RelDecision entry_le.
Proof. intros a b. unfold entry_le. apply _. Defined.

(** [sort_by(|a, b| a.name.cmp(&b.name))]. *)
Definition sort_entries (es : list DirEntry) : list DirEntry := merge_sort entry_le es.

(** ** [cat] *)

Section cat.
Context {S D F : Type} {B : FsBackend S D F}.
(** The sink: [write_all] of a [dyn Write], with the raw OS error if any. *)
Context {W : Type} (write_all : list Z -> W -> W * option Z).

(** Run a filesystem operation beside the sink. *)
Definition beside {A} (m : S -> S * Run A) (so : S * W) : (S * W) * Run A :=
  let (s, r) := m (fst so) in ((s, snd so), r).

Definition put (bytes : list Z) (so : S * W) : (S * W) * Run unit :=
  let (o, e) := write_all bytes (snd so) in
  ((fst so, o),
   match e with
   | None => ret tt
   | Some code => fail (error_new BrokenPipe (Errno code) "write stdout")
   end).

(** [fuel] bounds the rounds of the copy loop. *)
Fixpoint cat_loop (fuel : nat) (f : F) : S * W -> (S * W) * Run unit :=
  match fuel with
  | O => st_lift OutOfFuel
  | Datatypes.S fuel =>
    st! buf := beside (read_ f 8192) in
    match buf with
    | [] => st_lift (ret tt)
    | _ => st! _ := put buf in cat_loop fuel f
    end
  end.

Definition cat (fuel : nat) (d : D) (rel : OsString) : S * W -> (S * W) * Run unit :=
  st! f := beside (open_ d rel OpenOptions_read) in
  fun so => let (so, r) := cat_loop fuel f so in ((drop_file_ f (fst so), snd so), r).

(** ** [ls] *)

Definition ls (d : D) : S -> S * Run (list DirEntry) :=
  st! entries := read_dir_ d in
  st_lift (ret (sort_entries entries)).

Record LongEntry := mkLongEntry {
  le_name : OsString;
  le_type : FileType;
  le_metadata : Metadata;
  le_mode : option UnixMode;
  le_target : option OsString;
}.

Definition long_entry (d : D) (e : DirEntry) : S -> S * Run LongEntry :=
  st! md := metadata_ d (de_name e) in
  st! mode := unix_mode_ d (de_name e) in
  st! target :=
    (if bool_decide (de_type e = FtSymlink)
     then st! t := read_link_ d (de_name e) in st_lift (ret (Some t))
     else st_lift (ret None)) in
  st_lift (ret (mkLongEntry (de_name e) (de_type e) md mode target)).

(** [into_iter().map(..).collect::<Result<Vec<_>>>()]. *)
Fixpoint long_entries (d : D) (es : list DirEntry) : S -> S * Run (list LongEntry) :=
  match es with
  | [] => st_lift (ret [])
  | e :: es' =>
    st! l := long_entry d e in
    st! ls := long_entries d es' in
    st_lift (ret (l :: ls))
  end.

Definition ls_long (d : D) : S -> S * Run (list LongEntry) :=
  st! entries := read_dir_ d in
  long_entries d (sort_entries entries).
End cat.

Definition render (e : DirEntry) : str :=
  let name := from_utf8_lossy (de_name e) in
  match de_type e with FtDir => name ++ [47] | _ => name end.

(** ** The long format *)

Definition bit_set (bits b : Z) : bool := negb (Z.land bits b =? 0).

Definition triplet (bits read_bit write_bit exec_bit : Z) (special : bool) (lower upper : Z) : str :=
  [if bit_set bits read_bit then 114 else 45;
   if bit_set bits write_bit then 119 else 45;
   match special, bit_set bits exec_bit with
   | true, true => lower
   | true, false => upper
   | false, true => 120
   | false, false => 45
   end].

Definition type_char (t : FileType) : Z :=
  match t with FtFile => 45 | FtDir => 100 | FtSymlink => 108 | FtOther => 63 end.

Definition type_perm_string (t : FileType) (m : option UnixMode) : str :=
  type_char t ::
  match m with
  | None => lit "---------"
  | Some mode =>
    let bits := permissions mode in
    triplet bits 256 128 64 (setuid mode) 115 83
    ++ triplet bits 32 16 8 (setgid mode) 115 83
    ++ triplet bits 4 2 1 (sticky mode) 116 84
  end.

Record Rendered := mkRendered {
  r_type_perm : str;
  r_nlink : str;
  r_owner : str;
  r_group : str;
  r_size : str;
  r_date : str;
  r_name : str;
}.

Section format_long.
Context (now : Z) (resolve_user resolve_group : Z -> str).

Definition render_long (e : LongEntry) : Rendered := {|
  r_type_perm := type_perm_string (le_type e) (le_mode e);
  r_nlink := dec (nlink (le_metadata e));
  r_owner := match le_mode e with None => lit "-" | Some m => resolve_user (uid m) end;
  r_group := match le_mode e with None => lit "-" | Some m => resolve_group (gid m) end;
  r_size := dec (len (le_metadata e));
  r_date := format_date (modified (le_metadata e)) now;
  r_name :=
    match le_target e with
    | Some target => from_utf8_lossy (le_name e) ++ lit " -> " ++ from_utf8_lossy target
    | None => from_utf8_lossy (le_name e)
    end;
|}.

(** [map(|r| r.f.len()).max().unwrap_or(0)]. *)
Definition width (f : Rendered -> str) (rs : list Rendered) : nat :=
  foldr (fun r w => (length (f r) `max` w)%nat) 0%nat rs.

Definition line (nw ow gw sw : nat) (r : Rendered) : str :=
  r_type_perm r ++ [32] ++ pad_left nw (r_nlink r) ++ [32] ++ pad_right ow (r_owner r)
  ++ [32] ++ pad_right gw (r_group r) ++ [32] ++ pad_left sw (r_size r)
  ++ [32] ++ r_date r ++ [32] ++ r_name r.

Definition format_long (entries : list LongEntry) : list str :=
  let rendered := map render_long entries in
  map (line (width r_nlink rendered) (width r_owner rendered) (width r_group rendered)
        (width r_size rendered)) rendered.
End format_long.

(** ** What [cat] copies *)

(** The sink of the tests: a [Vec<u8>], which takes every byte. *)
Definition vec_write_all (bs : list Z) (o : list Z) : list Z * option Z := (o ++ bs, None).

Lemma cat_loop_copies f data (Hr : readable f = true) : forall fuel s o pos,
  nodes s !! f_node f = Some (NFile data) -> cursors s !! f_pos f = Some (Z.of_nat pos) ->
  zlen (drop pos data) + 8192 <= 8192 * Z.of_nat fuel ->
  exists s', cat_loop vec_write_all fuel f (s, o) = ((s', o ++ drop pos data), ret tt) /\
    nodes s' = nodes s.
Proof.
  induction fuel as [|fuel IH]; intros s o pos Hn Hp Hf; [lia|].
  destruct (read_spec s f 8192 data (Z.of_nat pos)) as (s1 & E & N1 & C1); try done; try lia.
  cbn [cat_loop]. unfold st_bind, beside. cbn [fst snd read_ mock_backend]. rewrite E.
  rewrite Nat2Z.id in *.
  set (chunk := Z.to_nat 8192) in *. assert (Z.of_nat chunk = 8192) as Hc by lia. clearbody chunk.
  set (rest := drop pos data) in *.
  destruct (take chunk rest) as [|b bs] eqn:Eb.
  - exists s1. split; [|done]. apply (f_equal length) in Eb. rewrite length_take in Eb.
    rewrite (nil_length_inv rest) by (cbn in Eb; lia). by rewrite app_nil_r.
  - rewrite <- Eb.
    destruct (IH s1 (o ++ take chunk rest) (pos + Nat.min (length rest) chunk)%nat) as (s' & E' & N').
    + by rewrite N1.
    + rewrite C1, lookup_insert_eq. f_equal. lia.
    + rewrite <- drop_drop. fold rest. rewrite length_drop.
      assert (length (take chunk rest) <> 0%nat) by (rewrite Eb; done).
      rewrite length_take in *. lia.
    + exists s'. unfold put. cbn [vec_write_all fst snd]. rewrite E'. split; [|by rewrite N', N1].
      rewrite <- drop_drop. fold rest. do 2 f_equal. rewrite <- (app_assoc o). f_equal.
      destruct (Nat.le_ge_cases (length rest) chunk).
      * rewrite Nat.min_l by done. rewrite take_ge, drop_ge by lia. apply app_nil_r.
      * rewrite Nat.min_r by done. apply take_drop.
Qed.

(** [cat] of a file copies exactly its bytes to the sink, in order and
    whatever they are (no decoding), changes no node, and ends: one round per
    8192 bytes and one for the end of the file. *)
Theorem cat_copies_file s d n data out fuel
    (Hok : fs_ok s) (Hd : is_dir s d) (Hn : mock_entry s d n = Some (EFile data))
    (Hfuel : zlen data + 8192 <= 8192 * Z.of_nat fuel) :
  exists s', cat vec_write_all fuel d n (s, out) = ((s', out ++ data), ret tt) /\
    nodes s' = nodes s.
Proof.
  pose proof (proj1 (mock_entry_Some s d n _) Hn) as (l & nd & (es & Hes & Hl) & Hnd & Hx).
  assert (nd = NFile data) as -> by (destruct nd; cbn in Hx; congruence).
  unfold cat, st_bind, beside. cbn [fst snd open_ mock_backend].
  unfold open, child. rewrite Hes, Hl. cbn [OpenOptions_read o_create_new o_truncate o_read].
  unfold new_file. cbv beta iota.
  set (s1 := mkMockFs _ _ _). set (f := mkMockFile _ _ _ _).
  destruct (cat_loop_copies f data eq_refl fuel s1 out 0) as (s' & E & N); [done| |done|].
  - cbn [cursors s1 f_pos f]. apply lookup_insert_eq.
  - exists s'. split; [|exact N]. rewrite E; exact eq_refl.
Qed.

Lemma cat_copies_file_witness :
  let s := fst (with_file 0%nat (lit "f") [104; 255; 10] (snd (root empty_fs))) in
  exists s', cat vec_write_all 2 0%nat (lit "f") (s, []) = ((s', [104; 255; 10]), ret tt) /\
    nodes s' = nodes s.
Proof.
  cbv zeta.
  apply (cat_copies_file (fst (with_file 0%nat (lit "f") [104; 255; 10] (snd (root empty_fs))))
    0%nat (lit "f") [104; 255; 10] [] 2%nat).
  - apply (fs_ok_insert (snd (root empty_fs)) 0 ∅ (lit "f") (NFile [104; 255; 10]) fs_ok_root);
      [done..|by right].
  - by eexists.
  - vm_compute. reflexivity.
  - simpl. lia.
Defined.

(** ** What [ls -l] gathers and prints *)

#[export] Instance entry_le_total : Total entry_le.
Proof. intros a b. apply (total bytes_le). Qed.

(** What [ls_long] should hold of one entry. *)
Definition gathered (s : MockFs) (d : nat) (e : DirEntry) (l : LongEntry) : Prop :=
  le_name l = de_name e /\ le_type l = de_type e /\
  metadata d (de_name e) s = (s, ret (le_metadata l)) /\
  unix_mode d (de_name e) s = (s, ret (le_mode l)) /\
  match le_target l with
  | Some t => de_type e = FtSymlink /\ read_link d (de_name e) s = (s, ret t)
  | None => de_type e <> FtSymlink
  end.

Lemma long_entry_gathers s d e md :
  metadata d (de_name e) s = (s, ret md) -> file_type md = de_type e ->
  exists l, long_entry d e s = (s, ret l) /\ gathered s d e l.
Proof.
  intros Hm Ht. unfold gathered.
  assert (unix_mode d (de_name e) s = (s, ret (Some UnixMode_default)) /\
    (de_type e = FtSymlink -> exists t, read_link d (de_name e) s = (s, ret t))) as [Hu Hl].
  { revert Hm. unfold metadata, unix_mode, read_link, st_bind, child.
    destruct (nodes s !! d) as [[]|]; try done. destruct (_ !! de_name e) as [l|]; [|done].
    intros Hm. split; [done|]. intros Hs. rewrite Hs in Ht.
    destruct (nodes s !! l) as [[]|]; try done; injection Hm as <-; cbn in Ht; try discriminate Ht.
    by eexists. }
  unfold long_entry, st_bind. cbn [metadata_ unix_mode_ read_link_ mock_backend]. rewrite Hm, Hu.
  case_bool_decide as Hs.
  - destruct (Hl Hs) as [t Et]. rewrite Et. eexists. split; [reflexivity|]. cbn [le_name le_type le_metadata le_mode le_target]. auto 10.
  - eexists. split; [reflexivity|].
    cbn [le_name le_type le_metadata le_mode le_target]. auto 10.
Qed.

Lemma long_entries_gather s d es :
  Forall (fun e => exists md, metadata d (de_name e) s = (s, ret md) /\ file_type md = de_type e) es ->
  exists ls, long_entries d es s = (s, ret ls) /\ Forall2 (gathered s d) es ls.
Proof.
  induction 1 as [|e es (md & Hm & Ht) _ (ls & E & HF)]; [by exists []|].
  destruct (long_entry_gathers s d e md Hm Ht) as (l & El & Hl).
  exists (l :: ls). split; [|by constructor].
  cbn [long_entries]. unfold st_bind at 1. rewrite El. unfold st_bind. by rewrite E.
Qed.

(** [ls_long] lists every entry of the directory once, in increasing
    byte order of the names, each with its own metadata and mode and, for a
    symlink and only for one, its target; it cannot fail on a live
    capability. *)
Theorem ls_long_gathers s d (Hok : fs_ok s) (Hd : is_dir s d) :
  exists es ls, snd (read_dir d s) = ret es /\ ls_long d s = (s, ret ls) /\
  Forall2 (gathered s d) (sort_entries es) ls /\
  sort_entries es ≡ₚ es /\ Sorted bytes_le (map le_name ls) /\ NoDup (map le_name ls).
Proof.
  destruct Hd as [dir Hes]. destruct (read_dir_total s d dir Hok Hes) as (es & E & HF).
  destruct (long_entries_gather s d (sort_entries es)) as (ls & El & HG).
  { apply Forall_forall. intros e He. unfold sort_entries in He.
    rewrite merge_sort_Permutation in He. apply list_elem_of_lookup in He as [i Hi].
    destruct (Forall2_lookup_r _ _ _ _ _ HF Hi) as ([n l] & Hnl & Hn & Ht).
    apply list_elem_of_lookup_2, sorted_entries_elem in Hnl. cbn [fst snd] in *.
    unfold metadata, child, st_bind. rewrite Hes, Hn, Hnl.
    destruct (nodes s !! l) as [[]|]; try done; injection Ht as Ht; by eexists. }
  exists es, ls. rewrite E. split; [done|]. split.
  { unfold ls_long, st_bind. cbn [read_dir_ mock_backend]. by rewrite E. }
  assert (map le_name ls = map de_name (sort_entries es)) as Hnames.
  { clear El. induction HG as [|e l es' ls' [H _] _ IH]; [done|]. simpl. by rewrite H, IH. }
  split; [done|]. rewrite Hnames. unfold sort_entries. split; [apply merge_sort_Permutation|]. split.
  - assert (Sorted entry_le (merge_sort entry_le es)) as H by (apply Sorted_merge_sort, _).
    induction H as [|x l _ IH Hx]; constructor; [done|]. destruct Hx; constructor; done.
  - rewrite merge_sort_Permutation.
    assert (map de_name es = map fst (sorted_entries dir)) as ->.
    { clear -HF. induction HF as [|x y xs ys [H _] _ IH]; [done|]. simpl. by rewrite H, IH. }
    unfold sorted_entries. rewrite merge_sort_Permutation. apply NoDup_fst_map_to_list.
Qed.

Lemma ls_long_gathers_witness :
  let s := fst (with_file 0%nat (lit "f") [9] (snd (root empty_fs))) in
  exists es ls, snd (read_dir 0 s) = ret es /\ ls_long 0%nat s = (s, ret ls) /\
  Forall2 (gathered s 0) (sort_entries es) ls /\
  sort_entries es ≡ₚ es /\ Sorted bytes_le (map le_name ls) /\ NoDup (map le_name ls).
Proof.
  cbv zeta. apply (ls_long_gathers (fst (with_file 0%nat (lit "f") [9] (snd (root empty_fs)))) 0%nat).
  - apply (fs_ok_insert (snd (root empty_fs)) 0 ∅ (lit "f") (NFile [9]) fs_ok_root); [done..|by right].
  - by eexists.
Defined.

(** Reading the ten characters of [type_perm_string] back: the type, the
    nine permission bits and the three special bits. *)
Definition read_triplet (t : str) (lower upper : Z) : option (Z * bool) :=
  match t with
  | [r; w; x] =>
    Some ((if r =? 114 then 4 else 0) + (if w =? 119 then 2 else 0) +
            (if (x =? 120) || (x =? lower) then 1 else 0),
          (x =? lower) || (x =? upper))
  | _ => None
  end.

Definition read_type_perm (s : str) : option (Z * (Z * (bool * bool * bool))) :=
  match s with
  | [t; u1; u2; u3; g1; g2; g3; o1; o2; o3] =>
    match read_triplet [u1; u2; u3] 115 83, read_triplet [g1; g2; g3] 115 83,
          read_triplet [o1; o2; o3] 116 84 with
    | Some (u, su), Some (g, sg), Some (o, st) => Some (t, (64 * u + 8 * g + o, (su, sg, st)))
    | _, _, _ => None
    end
  | _ => None
  end.

Definition perm_reads_back (b : Z) (x y z : bool) : bool :=
  bool_decide (read_type_perm (type_perm_string FtFile (Some (mkUnixMode x y z 0 0 b)))
               = Some (45, (b, (x, y, z)))).

Lemma perm_reads_back_all :
  forallb (fun b => perm_reads_back (Z.of_nat b) true true true
    && perm_reads_back (Z.of_nat b) true true false && perm_reads_back (Z.of_nat b) true false true
    && perm_reads_back (Z.of_nat b) true false false && perm_reads_back (Z.of_nat b) false true true
    && perm_reads_back (Z.of_nat b) false true false && perm_reads_back (Z.of_nat b) false false true
    && perm_reads_back (Z.of_nat b) false false false) (seq 0 512) = true.
Proof. vm_compute. reflexivity. Qed.

(** the permission string loses nothing: the type character, the nine
    [rwx] bits and the setuid, setgid and sticky bits can all be read back
    from the ten characters. *)
Theorem type_perm_string_faithful t m (Hp : 0 <= permissions m < 512) :
  read_type_perm (type_perm_string t (Some m))
  = Some (type_char t, (permissions m, (setuid m, setgid m, sticky m))).
Proof.
  destruct m as [x y z u g b]. cbn [permissions setuid setgid sticky] in *.
  assert (perm_reads_back b x y z = true) as H.
  { pose proof perm_reads_back_all as H. rewrite forallb_forall in H.
    specialize (H (Z.to_nat b)). rewrite Z2Nat.id in H by lia.
    rewrite !andb_true_iff in H. destruct x, y, z; apply H; apply in_seq; lia. }
  apply bool_decide_eq_true in H. revert H.
  unfold type_perm_string, read_type_perm. cbn [permissions setuid setgid sticky triplet app].
  repeat (match goal with |- context [match ?x with Some _ => _ | None => _ end] =>
    destruct x as [[? ?]|] end; try discriminate).
  congruence.
Qed.

Lemma type_perm_string_faithful_witness :
  read_type_perm (type_perm_string FtDir (Some (mkUnixMode true false true 0 0 493)))
  = Some (100, (493, (true, false, true))).
Proof. apply (type_perm_string_faithful FtDir (mkUnixMode true false true 0 0 493)). cbn. lia. Defined.

Lemma width_bound f r rs : r ∈ rs -> (char_count (f r) <= width f rs)%nat.
Proof.
  pose proof (char_count_le (f r)).
  induction rs as [|r' rs IH]; intros Hin; [by apply not_elem_of_nil in Hin|].
  cbn [width foldr]. apply elem_of_cons in Hin as [->|Hin]; [lia|]. specialize (IH Hin).
  unfold width in IH. lia.
Qed.

Lemma triplet_chars bits r w x sp lo up : is_cont lo = false -> is_cont up = false ->
  char_count (triplet bits r w x sp lo up) = 3%nat.
Proof.
  intros. unfold triplet.
  destruct (bit_set bits r), (bit_set bits w), (bit_set bits x), sp; unfold char_count;
    repeat (rewrite filter_cons_True by done); done.
Qed.

Lemma type_perm_chars t m : char_count (type_perm_string t m) = 10%nat.
Proof.
  unfold type_perm_string. change (type_char t :: ?x) with ([type_char t] ++ x).
  rewrite char_count_app. destruct m as [m|]; [|by destruct t].
  rewrite !char_count_app, !triplet_chars by done. by destruct t.
Qed.

(** the columns of [format_long] line up: in every line, what precedes
    the date has the same number of characters, for any owner and group
    names. *)
Theorem format_long_aligned now user group entries :
  exists column,
  Forall2 (fun e l => exists prefix,
      l = prefix ++ [32] ++ format_date (modified (le_metadata e)) now ++ [32]
          ++ r_name (render_long now user group e) /\
      char_count prefix = column)
    entries (format_long now user group entries).
Proof.
  unfold format_long. set (rs := map (render_long now user group) entries).
  exists (10 + (1 + (width r_nlink rs + (1 + (width r_owner rs + (1 + (width r_group rs
    + (1 + width r_size rs))))))))%nat.
  apply Forall2_same_length_lookup_2.
  { unfold rs. by rewrite !length_map. }
  intros i e l He Hl. unfold rs at 5 in Hl. rewrite !list_lookup_fmap, He in Hl. injection Hl as <-.
  set (r := render_long now user group e).
  assert (r ∈ rs) as Hin.
  { apply list_elem_of_fmap. exists e. split; [done|]. by eapply list_elem_of_lookup_2. }
  exists (r_type_perm r ++ [32] ++ pad_left (width r_nlink rs) (r_nlink r) ++ [32]
    ++ pad_right (width r_owner rs) (r_owner r) ++ [32] ++ pad_right (width r_group rs) (r_group r)
    ++ [32] ++ pad_left (width r_size rs) (r_size r)). split.
  { unfold line. by rewrite <- !app_assoc. }
  rewrite !char_count_app.
  change (r_type_perm r) with (type_perm_string (le_type e) (le_mode e)). rewrite type_perm_chars.
  by rewrite !(proj1 (padded_column _ _ (width_bound _ _ _ Hin))),
    !(proj2 (padded_column _ _ (width_bound _ _ _ Hin))).
Qed.
