(* ===== verification/Text.v ===== *)
(** * Text: the standard library's string operations the utilities use

    Characters of a [str] (UTF-8 decoding and encoding), whitespace,
    [split] on a string pattern, [parse::<usize>], and [BufRead::lines].
    These are the Rust standard library's documented behaviour, not code of
    the repository. *)

From Stdlib Require Import ZArith Lia String.
From S2P Require Import Prelude.
From stdpp Require Import base numbers list strings.
Open Scope Z_scope.

(** ** Characters *)

(** [str::chars] of well-formed UTF-8. *)
Fixpoint chars (s : str) : list Z :=
  match s with
  | [] => []
  | b0 :: r0 =>
    if b0 <? 128 then b0 :: chars r0
    else match r0 with
    | [] => []
    | b1 :: r1 =>
      if b0 <? 224 then ((b0 - 192) * 64 + (b1 - 128)) :: chars r1
      else match r1 with
      | [] => []
      | b2 :: r2 =>
        if b0 <? 240 then ((b0 - 224) * 4096 + (b1 - 128) * 64 + (b2 - 128)) :: chars r2
        else match r2 with
        | [] => []
        | b3 :: r3 =>
          ((b0 - 240) * 262144 + (b1 - 128) * 4096 + (b2 - 128) * 64 + (b3 - 128)) :: chars r3
        end
      end
    end
  end.

(** [String::push]. *)
Definition encode_char (c : Z) : str :=
  if c <? 128 then [c]
  else if c <? 2048 then [192 + c / 64; 128 + c mod 64]
  else if c <? 65536 then [224 + c / 4096; 128 + c / 64 mod 64; 128 + c mod 64]
  else [240 + c / 262144; 128 + c / 4096 mod 64; 128 + c / 64 mod 64; 128 + c mod 64].

Definition of_chars (cs : list Z) : str := concat (map encode_char cs).

(** The bytes of a decoded character, put back. *)
Lemma encode_2 b0 b1 : 194 <= b0 <= 223 -> is_cont b1 = true ->
  encode_char ((b0 - 192) * 64 + (b1 - 128)) = [b0; b1].
Proof.
  unfold is_cont. intros H0 H1. bool_to_prop. unfold encode_char.
  rewrite (proj2 (Z.ltb_ge _ 128)), (proj2 (Z.ltb_lt _ 2048)) by lia.
  repeat f_equal; Z.to_euclidean_division_equations; lia.
Qed.

Lemma encode_3 b0 b1 b2 : 224 <= b0 <= 239 -> is_cont b1 = true -> is_cont b2 = true ->
  (b0 = 224 -> 160 <= b1) ->
  encode_char ((b0 - 224) * 4096 + (b1 - 128) * 64 + (b2 - 128)) = [b0; b1; b2].
Proof.
  unfold is_cont. intros H0 H1 H2 H3. bool_to_prop. unfold encode_char.
  assert (2048 <= (b0 - 224) * 4096 + (b1 - 128) * 64 + (b2 - 128)).
  { destruct (Z.eq_dec b0 224); lia. }
  rewrite (proj2 (Z.ltb_ge _ 128)), (proj2 (Z.ltb_ge _ 2048)), (proj2 (Z.ltb_lt _ 65536)) by lia.
  repeat f_equal; Z.to_euclidean_division_equations; lia.
Qed.

Lemma encode_4 b0 b1 b2 b3 : 240 <= b0 <= 244 -> is_cont b1 = true -> is_cont b2 = true ->
  is_cont b3 = true -> (b0 = 240 -> 144 <= b1) ->
  encode_char ((b0 - 240) * 262144 + (b1 - 128) * 4096 + (b2 - 128) * 64 + (b3 - 128))
  = [b0; b1; b2; b3].
Proof.
  unfold is_cont. intros H0 H1 H2 H3 H4. bool_to_prop. unfold encode_char.
  assert (65536 <= (b0 - 240) * 262144 + (b1 - 128) * 4096 + (b2 - 128) * 64 + (b3 - 128)).
  { destruct (Z.eq_dec b0 240); lia. }
  rewrite (proj2 (Z.ltb_ge _ 128)), (proj2 (Z.ltb_ge _ 2048)), (proj2 (Z.ltb_ge _ 65536)) by lia.
  repeat f_equal; Z.to_euclidean_division_equations; lia.
Qed.

(** Decoding and encoding again loses nothing. *)
Lemma of_chars_chars s : utf8_valid s = true -> of_chars (chars s) = s.
Proof.
  induction s as [s IH] using (induction_ltof1 _ (@length Z)). unfold ltof in IH.
  destruct s as [|b0 r0]; [done|]. cbn [utf8_valid chars]. unfold of_chars.
  destruct (b0 <? 128) eqn:E0.
  { intros H. cbn [map concat]. unfold encode_char at 1. rewrite E0. cbn [app].
    f_equal. apply IH; [simpl; lia|done]. }
  destruct r0 as [|b1 r1]; [done|]. bool_to_prop.
  destruct ((194 <=? b0) && (b0 <=? 223)) eqn:E1.
  { intros H. bool_to_prop. rewrite (proj2 (Z.ltb_lt b0 224)) by lia. cbn [map concat].
    rewrite encode_2 by (done || lia). cbn [app]. do 2 f_equal. apply IH; [simpl; lia|done]. }
  destruct r1 as [|b2 r2]; [done|].
  destruct ((224 <=? b0) && (b0 <=? 239)) eqn:E2.
  { intros H. bool_to_prop.
    rewrite (proj2 (Z.ltb_ge b0 224)), (proj2 (Z.ltb_lt b0 240)) by lia. cbn [map concat].
    assert (is_cont b1 = true /\ (b0 = 224 -> 160 <= b1)) as [? ?].
    { unfold is_cont in *. repeat case_match; bool_to_prop; rewrite ?andb_true_iff, ?Z.leb_le, ?Z.ltb_lt;
        split; try lia; split; lia. }
    rewrite encode_3 by (done || lia). cbn [app]. do 3 f_equal. apply IH; [simpl; lia|done]. }
  destruct r2 as [|b3 r3]; [done|]. intros H. bool_to_prop.
  rewrite (proj2 (Z.ltb_ge b0 224)), (proj2 (Z.ltb_ge b0 240)) by lia. cbn [map concat].
  assert (is_cont b1 = true /\ (b0 = 240 -> 144 <= b1)) as [? ?].
  { unfold is_cont in *. repeat case_match; bool_to_prop; rewrite ?andb_true_iff, ?Z.leb_le, ?Z.ltb_lt;
      split; try lia; split; lia. }
  rewrite encode_4 by (done || lia). cbn [app]. do 4 f_equal. apply IH; [simpl; lia|done].
Qed.

(** Encoding and decoding again loses nothing either, of Unicode scalar
    values. *)
Definition scalar (c : Z) : Prop := 0 <= c < 55296 \/ 57344 <= c < 1114112.

Definition decodes (bs : str) (c : Z) : Prop := forall rest,
  chars (bs ++ rest) = c :: chars rest /\ utf8_valid (bs ++ rest) = utf8_valid rest.

Lemma is_cont_mod x : is_cont (128 + x mod 64) = true.
Proof. unfold is_cont. pose proof (Z.mod_pos_bound x 64 ltac:(lia)). apply andb_true_iff. rewrite !Z.leb_le. lia. Qed.

Lemma decodes_2 x y : 2 <= x < 32 -> is_cont (128 + y) = true -> decodes [192 + x; 128 + y] (x * 64 + y).
Proof.
  intros Hx Hy rest. cbn [app chars utf8_valid].
  rewrite (proj2 (Z.ltb_ge (192 + x) 128)), (proj2 (Z.ltb_lt (192 + x) 224)), (proj2 (Z.leb_le 194 (192 + x))),
    (proj2 (Z.leb_le (192 + x) 223)), Hy by lia. cbn [andb]. split; [f_equal; lia|done].
Qed.

Lemma decodes_3 x y z : 0 <= x < 16 -> is_cont (128 + y) = true -> is_cont (128 + z) = true ->
  (x = 0 -> 32 <= y) -> (x = 13 -> y < 32) -> decodes [224 + x; 128 + y; 128 + z] (x * 4096 + y * 64 + z).
Proof.
  intros Hx Hy Hz H0 H13 rest. cbn [app chars utf8_valid].
  rewrite (proj2 (Z.ltb_ge (224 + x) 128)), (proj2 (Z.ltb_ge (224 + x) 224)), (proj2 (Z.ltb_lt (224 + x) 240)),
    (proj2 (Z.leb_gt (224 + x) 223)), (proj2 (Z.leb_le 224 (224 + x))), (proj2 (Z.leb_le (224 + x) 239)), Hz by lia.
  rewrite andb_false_r. cbn [andb]. split; [f_equal; lia|]. rewrite andb_true_r. cbv beta iota.
  assert ((if 224 + x =? 224 then (160 <=? 128 + y) && (128 + y <=? 191)
    else if 224 + x =? 237 then (128 <=? 128 + y) && (128 + y <=? 159) else is_cont (128 + y)) = true) as ->; [|done].
  unfold is_cont in *. bool_to_prop. destruct (224 + x =? 224) eqn:E; [|destruct (224 + x =? 237) eqn:E'];
    bool_to_prop; rewrite andb_true_iff, !Z.leb_le; lia.
Qed.

Lemma decodes_4 x y z u : 0 <= x < 5 -> is_cont (128 + y) = true -> is_cont (128 + z) = true ->
  is_cont (128 + u) = true -> (x = 0 -> 16 <= y) -> (x = 4 -> y < 16) ->
  decodes [240 + x; 128 + y; 128 + z; 128 + u] (x * 262144 + y * 4096 + z * 64 + u).
Proof.
  intros Hx Hy Hz Hu H0 H4 rest. cbn [app chars utf8_valid].
  rewrite (proj2 (Z.ltb_ge (240 + x) 128)), (proj2 (Z.ltb_ge (240 + x) 224)), (proj2 (Z.ltb_ge (240 + x) 240)),
    (proj2 (Z.leb_gt (240 + x) 223)), (proj2 (Z.leb_gt (240 + x) 239)), (proj2 (Z.leb_le 240 (240 + x))),
    (proj2 (Z.leb_le (240 + x) 244)), Hz, Hu by lia.
  rewrite !andb_false_r. cbn [andb]. split; [f_equal; lia|]. rewrite !andb_true_r. cbv beta iota.
  assert ((if 240 + x =? 240 then (144 <=? 128 + y) && (128 + y <=? 191)
    else if 240 + x =? 244 then (128 <=? 128 + y) && (128 + y <=? 143) else is_cont (128 + y)) = true) as ->; [|done].
  unfold is_cont in *. bool_to_prop. destruct (240 + x =? 240) eqn:E; [|destruct (240 + x =? 244) eqn:E'];
    bool_to_prop; rewrite andb_true_iff, !Z.leb_le; lia.
Qed.

Lemma encode_char_decodes c : scalar c -> decodes (encode_char c) c.
Proof.
  unfold scalar, encode_char. intros Hc. pose proof is_cont_mod as Hm.
  destruct (c <? 128) eqn:E1; bool_to_prop.
  { intros rest. cbn [app chars utf8_valid]. by rewrite (proj2 (Z.ltb_lt c 128)) by lia. }
  destruct (c <? 2048) eqn:E2; bool_to_prop; [|destruct (c <? 65536) eqn:E3; bool_to_prop].
  - replace c with (c / 64 * 64 + c mod 64) at 3 by (Z.to_euclidean_division_equations; lia).
    apply decodes_2; [Z.to_euclidean_division_equations; lia|auto].
  - replace c with (c / 4096 * 4096 + c / 64 mod 64 * 64 + c mod 64) at 4 by (Z.to_euclidean_division_equations; lia).
    apply decodes_3; auto; Z.to_euclidean_division_equations; lia.
  - replace c with (c / 262144 * 262144 + c / 4096 mod 64 * 4096 + c / 64 mod 64 * 64 + c mod 64) at 5
      by (Z.to_euclidean_division_equations; lia).
    apply decodes_4; auto; Z.to_euclidean_division_equations; lia.
Qed.

Lemma chars_of_chars cs : Forall scalar cs -> chars (of_chars cs) = cs /\ utf8_valid (of_chars cs) = true.
Proof.
  unfold of_chars. induction 1 as [|c cs Hc _ [IH1 IH2]]; [done|]. cbn [map concat].
  destruct (encode_char_decodes c Hc (concat (map encode_char cs))) as [-> ->]. by rewrite IH1.
Qed.

Lemma chars_scalar s : utf8_valid s = true -> Forall (fun b => 0 <= b) s -> Forall scalar (chars s).
Proof.
  induction s as [s IH] using (induction_ltof1 _ (@length Z)). unfold ltof in IH.
  destruct s as [|b0 r0]; [done|]. cbn [utf8_valid chars]. intros H Hb. inversion_clear Hb as [|? ? Hb0 Hr0].
  destruct (b0 <? 128) eqn:E0.
  { constructor; [unfold scalar; bool_to_prop; lia|]. apply IH; [simpl; lia|done..]. }
  destruct r0 as [|b1 r1]; [done|]. inversion_clear Hr0 as [|? ? Hb1 Hr1]. bool_to_prop. unfold scalar in *.
  destruct ((194 <=? b0) && (b0 <=? 223)) eqn:E1.
  { bool_to_prop. rewrite (proj2 (Z.ltb_lt b0 224)) by lia. unfold is_cont in *. bool_to_prop.
    constructor; [lia|]. apply IH; [simpl; lia|done..]. }
  destruct r1 as [|b2 r2]; [done|]. inversion_clear Hr1 as [|? ? Hb2 Hr2].
  destruct ((224 <=? b0) && (b0 <=? 239)) eqn:E2.
  { bool_to_prop. rewrite (proj2 (Z.ltb_ge b0 224)), (proj2 (Z.ltb_lt b0 240)) by lia.
    constructor; [|apply IH; [simpl; lia|done..]]. unfold is_cont in *.
    repeat case_match; bool_to_prop; lia. }
  destruct r2 as [|b3 r3]; [done|]. inversion_clear Hr2 as [|? ? Hb3 Hr3]. bool_to_prop.
  rewrite (proj2 (Z.ltb_ge b0 224)), (proj2 (Z.ltb_ge b0 240)) by lia.
  constructor; [|apply IH; [simpl; lia|done..]]. unfold is_cont in *. repeat case_match; bool_to_prop; lia.
Qed.

Lemma utf8_valid_app s s' : utf8_valid s = true -> Forall (fun b => 0 <= b) s ->
  utf8_valid (s ++ s') = utf8_valid s'.
Proof.
  intros H Hb. rewrite <- (of_chars_chars s H). unfold of_chars.
  induction (chars_scalar s H Hb) as [|c cs Hc _ IH]; [done|]. cbn [map concat].
  rewrite <- app_assoc. destruct (encode_char_decodes c Hc (concat (map encode_char cs) ++ s')) as [_ ->]. done.
Qed.

(** Only the NUL character has a zero byte. *)
Lemma encode_char_nonzero c : 0 < c -> Forall (fun b => b <> 0) (encode_char c).
Proof.
  intros Hc. pose proof (fun x => Z.mod_pos_bound x 64 ltac:(lia)) as Hm.
  pose proof (Hm c). pose proof (Hm (c / 64)). pose proof (Hm (c / 4096)).
  assert (forall d, 0 < d -> 0 <= c / d) as Hd by (intros; apply Z.div_pos; lia).
  pose proof (Hd 64 ltac:(lia)). pose proof (Hd 4096 ltac:(lia)). pose proof (Hd 262144 ltac:(lia)).
  unfold encode_char. repeat case_match; repeat constructor; lia.
Qed.

(** [char::is_whitespace]: the Unicode property White_Space. *)
Definition is_whitespace (c : Z) : bool :=
  ((9 <=? c) && (c <=? 13)) || (c =? 32) || (c =? 133) || (c =? 160) || (c =? 5760)
  || ((8192 <=? c) && (c <=? 8202)) || (c =? 8232) || (c =? 8233) || (c =? 8239)
  || (c =? 8287) || (c =? 12288).

Fixpoint ws_words (cur : list Z) (cs : list Z) : list (list Z) :=
  match cs with
  | [] => if bool_decide (cur = []) then [] else [rev cur]
  | c :: cs' =>
    if is_whitespace c
    then (if bool_decide (cur = []) then [] else [rev cur]) ++ ws_words [] cs'
    else ws_words (c :: cur) cs'
  end.

(** [split_whitespace]. *)
Definition split_whitespace (s : str) : list str := map of_chars (ws_words [] (chars s)).

Fixpoint drop_ws (cs : list Z) : list Z :=
  match cs with
  | c :: cs' => if is_whitespace c then drop_ws cs' else cs
  | [] => []
  end.

(** [trim_end]. *)
Definition trim_end (s : str) : str := of_chars (rev (drop_ws (rev (chars s)))).

(** [split] on a string pattern. A non-empty pattern is searched from the
    left; the empty one matches at every character boundary. *)
Fixpoint split_str_loop (fuel : nat) (pat cur s : str) : list str :=
  match fuel with
  | O => [rev cur ++ s]
  | S fuel =>
    match s with
    | [] => [rev cur]
    | c :: s' =>
      match str_strip_prefix pat s with
      | Some rest => rev cur :: split_str_loop fuel pat [] rest
      | None => split_str_loop fuel pat (c :: cur) s'
      end
    end
  end.

Definition split_str (pat s : str) : list str :=
  match pat with
  | [] => [] :: map encode_char (chars s) ++ [[]]
  | _ => split_str_loop (S (length s)) pat [] s
  end.

(** [join]. *)
Fixpoint join_str (sep : str) (ws : list str) : str :=
  match ws with
  | [] => []
  | [w] => w
  | w :: ws' => w ++ sep ++ join_str sep ws'
  end.

Lemma split_str_loop_ne fuel pat cur s : split_str_loop fuel pat cur s <> [].
Proof.
  revert cur s. induction fuel as [|fuel IH]; intros cur [|c s]; cbn [split_str_loop]; try done.
  destruct (str_strip_prefix _ _); [done|apply IH].
Qed.

Lemma join_split_loop pat : pat <> [] -> forall fuel cur s, (length s < fuel)%nat ->
  join_str pat (split_str_loop fuel pat cur s) = rev cur ++ s.
Proof.
  intros Hp. induction fuel as [|fuel IH]; intros cur s Hf; [lia|].
  destruct s as [|c s]; cbn [split_str_loop]; [by rewrite app_nil_r|]. simpl in Hf.
  destruct (str_strip_prefix pat (c :: s)) as [rest|] eqn:E.
  - apply strip_prefix_Some in E. rewrite E.
    assert (length rest < fuel)%nat.
    { apply (f_equal length) in E. rewrite length_app in E. simpl in E.
      destruct pat; [done|]. simpl in E. lia. }
    pose proof (split_str_loop_ne fuel pat [] rest) as Hne.
    cbn [join_str]. destruct (split_str_loop fuel pat [] rest) as [|w ws] eqn:Es; [done|].
    rewrite <- Es, IH by done. done.
  - rewrite IH by lia. cbn [rev]. by rewrite <- app_assoc.
Qed.

(** Joining the pieces of a split gives the string back. *)
Lemma join_split_str pat s : pat <> [] -> join_str pat (split_str pat s) = s.
Proof.
  intros Hp. unfold split_str. destruct pat as [|p pat]; [done|].
  by rewrite join_split_loop by (done || lia).
Qed.

Example split_str_ex :
  split_str (lit "::") (lit "a::b:::c") = [lit "a"; lit "b"; lit ":c"] /\
  split_str (lit ":") [] = [[]] /\ split_str [] (lit "ab") = [[]; lit "a"; lit "b"; []].
Proof. vm_compute. auto. Qed.

(** ** Numbers *)

Definition is_digit (c : Z) : bool := (48 <=? c) && (c <=? 57).
Definition digits_val (ds : str) : Z := foldl (fun a c => a * 10 + (c - 48)) 0 ds.

(** [str::parse::<usize>] on a 64-bit target. *)
Definition parse_usize (s : str) : option Z :=
  let ds := match s with 43 :: r => r | _ => s end in
  if negb (bool_decide (ds = [])) && forallb is_digit ds && (digits_val ds <? 2 ^ 64)
  then Some (digits_val ds) else None.

Lemma digits_val_snoc ds c : digits_val (ds ++ [c]) = digits_val ds * 10 + (c - 48).
Proof. unfold digits_val. by rewrite foldl_app. Qed.

Lemma dec_loop_digits fuel : forall n acc, 0 <= n < 10 ^ Z.of_nat (S fuel) ->
  exists ds, dec_loop (S fuel) n acc = ds ++ acc /\ ds <> [] /\ forallb is_digit ds = true /\
    digits_val ds = n.
Proof.
  induction fuel as [|fuel IH]; intros n acc Hn;
    pose proof (Z.mod_pos_bound n 10 ltac:(lia)); pose proof (Z.div_mod n 10 ltac:(lia)).
  - change (10 ^ Z.of_nat 1) with 10 in Hn. exists [48 + n mod 10].
    cbn [dec_loop]. destruct (n <? 10); (split; [done|]); (split; [done|]).
    all: rewrite Z.mod_small by lia; unfold digits_val; cbn [forallb foldl]; unfold is_digit;
      rewrite !andb_true_iff, !Z.leb_le; lia.
  - cbn [dec_loop]. destruct (n <? 10) eqn:E; bool_to_prop.
    + exists [48 + n mod 10]. do 2 (split; [done|]). rewrite Z.mod_small by lia.
      unfold digits_val. cbn [forallb foldl]. unfold is_digit. rewrite !andb_true_iff, !Z.leb_le. lia.
    + destruct (IH (n / 10) (48 + n mod 10 :: acc)) as (ds & Ed & Hne & Hd & Hv).
      { rewrite Nat2Z.inj_succ, Z.pow_succ_r in Hn by lia.
        split; [apply Z.div_pos; lia|apply Z.div_lt_upper_bound; lia]. }
      exists (ds ++ [48 + n mod 10]). cbn [dec_loop] in Ed. rewrite Ed, <- app_assoc.
      split; [done|]. split; [by destruct ds|]. rewrite forallb_app, digits_val_snoc, Hd, Hv.
      cbn [forallb andb]. unfold is_digit. rewrite !andb_true_iff, !Z.leb_le. lia.
Qed.

(** A printed [usize] parses back. *)
Lemma parse_usize_dec n : 0 <= n < 2 ^ 64 -> parse_usize (dec n) = Some n.
Proof.
  intros Hn. unfold dec.
  destruct (dec_loop_digits 19 n [] ltac:(change (10 ^ Z.of_nat 20) with 100000000000000000000; lia))
    as (ds & -> & Hne & Hd & Hv). rewrite app_nil_r. unfold parse_usize.
  assert (match ds with 43 :: r => r | _ => ds end = ds) as ->.
  { destruct ds as [|c ds]; [done|]. cbn [forallb] in Hd. unfold is_digit in Hd. bool_to_prop.
    destruct (decide (c = 43)) as [->|Hc]; [lia|]. repeat (case_match; try done). }
  rewrite Hd, Hv, bool_decide_eq_false_2 by done. cbn [negb andb].
  by rewrite (proj2 (Z.ltb_lt n (2 ^ 64))) by lia.
Qed.

Lemma dec_digits n : 0 <= n < 2 ^ 64 -> dec n <> [] /\ forallb is_digit (dec n) = true.
Proof.
  intros Hn. unfold dec.
  destruct (dec_loop_digits 19 n [] ltac:(change (10 ^ Z.of_nat 20) with 100000000000000000000; lia))
    as (ds & -> & Hne & Hd & _). by rewrite app_nil_r.
Qed.

Lemma dec_utf8 n : 0 <= n < 2 ^ 64 -> utf8_valid (dec n) = true.
Proof.
  intros Hn. apply utf8_valid_ascii. destruct (dec_digits n Hn) as [_ Hd].
  rewrite forallb_forall in Hd. apply Forall_forall. intros x Hx%list_elem_of_In%Hd.
  unfold is_digit, is_ascii in *. bool_to_prop. rewrite andb_true_iff, Z.leb_le, Z.ltb_lt. lia.
Qed.

(** Well-formed UTF-8 is not changed by [from_utf8_lossy]. *)
Lemma from_utf8_lossy_valid s : utf8_valid s = true -> from_utf8_lossy s = s.
Proof.
  induction s as [s IH] using (induction_ltof1 _ (@length Z)). unfold ltof in IH.
  destruct s as [|b0 r0]; [done|]. cbn [utf8_valid from_utf8_lossy].
  destruct (b0 <? 128) eqn:E0; [intros; f_equal; apply IH; [simpl; lia|done]|].
  destruct r0 as [|b1 r1]; [done|].
  destruct ((194 <=? b0) && (b0 <=? 223)) eqn:E1.
  { intros [-> H]%andb_prop. do 2 f_equal. apply IH; [simpl; lia|done]. }
  destruct r1 as [|b2 r2]; [done|].
  destruct ((224 <=? b0) && (b0 <=? 239)) eqn:E2.
  { intros [[Hb ->]%andb_prop H]%andb_prop.
    assert (second_ok b0 b1 = true) as ->.
    { unfold second_ok. bool_to_prop. rewrite (proj2 (Z.eqb_neq b0 240)), (proj2 (Z.eqb_neq b0 244)) by lia.
      exact Hb. }
    do 3 f_equal. apply IH; [simpl; lia|done]. }
  destruct r2 as [|b3 r3]; [done|].
  intros [[[[Hr Hb]%andb_prop ->]%andb_prop ->]%andb_prop H]%andb_prop. rewrite Hr.
  assert (second_ok b0 b1 = true) as ->.
  { unfold second_ok. bool_to_prop. rewrite (proj2 (Z.eqb_neq b0 224)), (proj2 (Z.eqb_neq b0 237)) by lia.
    exact Hb. }
  do 4 f_equal. apply IH; [simpl; lia|done].
Qed.

Lemma split_char_ne d s : split_char d s <> [].
Proof. destruct s as [|c s]; [done|]. simpl. destruct (c =? d); [done|]. by destruct (split_char d s). Qed.

Lemma split_str_loop_char d : forall s fuel cur, (length s < fuel)%nat ->
  split_str_loop fuel [d] cur s =
  match split_char d s with w :: ws => (rev cur ++ w) :: ws | [] => [] end.
Proof.
  induction s as [|c s IH]; intros [|fuel] cur Hf; try (simpl in Hf; lia);
    cbn [split_str_loop split_char str_strip_prefix]; [by rewrite app_nil_r|].
  simpl in Hf. rewrite (Z.eqb_sym d c). destruct (c =? d).
  - rewrite app_nil_r, IH by lia. f_equal. by destruct (split_char d s).
  - rewrite IH by lia. cbn [rev]. pose proof (split_char_ne d s).
    destruct (split_char d s); [done|]. by rewrite <- app_assoc.
Qed.

(** A one-character pattern splits as the character does. *)
Lemma split_str_char d s : split_str [d] s = split_char d s.
Proof.
  unfold split_str. rewrite split_str_loop_char by lia. by destruct (split_char d s).
Qed.

Lemma join_str_char d ws : join_str [d] ws = join_char d ws.
Proof. induction ws as [|w [|w' ws] IH]; [done..|]. cbn [join_str join_char] in *. by rewrite IH. Qed.
