(* ===== verification/Cli.v ===== *)
(** * The command-line programs' world

    What the text utilities of [crates/coreutils/src/bin] share: the two
    output streams, process exit, the [?] of [main], argument collection,
    files as byte sources and [BufRead::lines].

    Standard output takes every byte (a closed pipe panics in [println!] and
    is not modelled).  Opening a path is a parameter of each program, as is
    the path translation of the [rpath] crate. *)

From Stdlib Require Import ZArith Lia String.
From S2P Require Import Prelude Text.
From stdpp Require Import base numbers list strings.
Open Scope Z_scope.

(** A [std::io::Error]: ill-formed UTF-8 from [read_line], the source of a
    [fs::copy] that is no regular file, or an error of the operating system. *)
Inductive IoError := InvalidUtf8 | NotRegular | Os (code : Z).

(** What has been printed so far. *)
Record Out := mkOut { stdout : str; stderr : str }.
Definition no_out : Out := mkOut [] [].

(** How a computation of [main] goes on: with a value, with the process
    ending with a status, or with a panic. *)
Inductive Step (A : Type) := Next (a : A) | Exit (status : Z) | Crash.
Arguments Next {A} a.
Arguments Exit {A} status.
Arguments Crash {A}.

Definition IO (A : Type) : Type := Out -> Out * Step A.

Definition io_ret {A} (a : A) : IO A := fun o => (o, Next a).
Definition io_bind {A B} (m : IO A) (k : A -> IO B) : IO B := fun o =>
  match m o with
  | (o, Next a) => k a o
  | (o, Exit n) => (o, Exit n)
  | (o, Crash) => (o, Crash)
  end.
Notation "'io!' x := m 'in' k" := (io_bind m (fun x => k))
  (at level 10, x pattern, m at level 100, k at level 200).

Definition print (s : str) : IO unit := fun o => (mkOut (stdout o ++ s) (stderr o), Next tt).
Definition println (s : str) : IO unit := print (s ++ [10]).
Definition eprintln (s : str) : IO unit := fun o =>
  (mkOut (stdout o) (stderr o ++ s ++ [10]), Next tt).
Definition exit {A} (n : Z) : IO A := fun o => (o, Exit n).
Definition crash {A} : IO A := fun o => (o, Crash).
Definition when (b : bool) (m : IO unit) : IO unit := if b then m else io_ret tt.

Fixpoint for_each {A} (f : A -> IO unit) (l : list A) : IO unit :=
  match l with
  | [] => io_ret tt
  | x :: l' => io! _ := f x in for_each f l'
  end.

(** [for (idx, x) in l.iter().enumerate()]. *)
Fixpoint for_each_idx {A} (f : Z -> A -> IO unit) (i : Z) (l : list A) : IO unit :=
  match l with
  | [] => io_ret tt
  | x :: l' => io! _ := f i x in for_each_idx f (i + 1) l'
  end.

(** [env::args().collect::<Vec<String>>()]: panics on an argument that is not
    Unicode. *)
Definition env_args (args : list OsString) : IO (list str) :=
  if forallb utf8_valid args then io_ret args else crash.

(** [args.contains(&"-x".to_string())]. *)
Definition contains (args : list str) (a : str) : bool := bool_decide (a ∈ args).
Definition is_flag (a : str) : bool := starts_with (lit "-") a.
(** [args.iter().skip(1).filter(|a| !a.starts_with('-'))]. *)
Definition operands (args : list str) : list str :=
  List.filter (fun a => negb (is_flag a)) (drop 1 args).

(** An open file or the standard input: the bytes it yields, and the error
    that ends them, if one does. *)
Record Source := mkSource { src_bytes : list Z; src_error : option IoError }.

(** The lines of a byte sequence, each with whether a newline ends it. *)
Fixpoint raw_lines (bs : list Z) : list (str * bool) :=
  match bs with
  | [] => []
  | c :: bs' =>
    if c =? 10 then ([], true) :: raw_lines bs'
    else match raw_lines bs' with
         | [] => [([c], false)]
         | (w, t) :: ws => (c :: w, t) :: ws
         end
  end.

Fixpoint strip_cr (w : str) : str :=
  match w with
  | [] => []
  | [13] => []
  | c :: w' => c :: strip_cr w'
  end.

Definition line_of (l : str * bool) : IoError + str :=
  let (w, terminated) := l in
  if utf8_valid w then inr (if terminated then strip_cr w else w) else inl InvalidUtf8.

(** [BufRead::lines]. *)
Definition reader_lines (s : Source) : list (IoError + str) :=
  match src_error s with
  | None => map line_of (raw_lines (src_bytes s))
  | Some e => map line_of (List.filter snd (raw_lines (src_bytes s))) ++ [inl e]
  end.

(** [str::lines]. *)
Definition str_lines (s : str) : list str :=
  map (fun l : str * bool => if l.2 then strip_cr l.1 else l.1) (raw_lines s).

Section errors.
Context (debug_io : IoError -> str).

(** The [?] of [main]: the runtime prints the error and exits with 1. *)
Definition try {A} (r : IoError + A) : IO A :=
  match r with
  | inr a => io_ret a
  | inl e => io! _ := eprintln (lit "Error: " ++ debug_io e) in exit 1
  end.

(** [for line in lines { v.push(line?) }]. *)
Fixpoint collect_lines (ls : list (IoError + str)) : IO (list str) :=
  match ls with
  | [] => io_ret []
  | l :: ls' =>
    io! x := try l in
    io! xs := collect_lines ls' in
    io_ret (x :: xs)
  end.
End errors.

(** [main] returned or exited: what it printed and its status; [None] is a
    panic. *)
Definition run (m : IO unit) : Out * option Z :=
  match m no_out with
  | (o, Next _) => (o, Some 0)
  | (o, Exit n) => (o, Some n)
  | (o, Crash) => (o, None)
  end.

(** ** Text files

    The text of a list of lines, and the lines such a text has. *)

Definition unlines (ls : list str) : str := concat (map (fun l => l ++ [10]) ls).

(** A line that [lines] gives back as it was: well-formed, without a line
    feed, and not ending in a carriage return. *)
Definition plain_line (l : str) : Prop :=
  utf8_valid l = true /\ Forall (fun c => c <> 10) l /\ strip_cr l = l.

Lemma raw_lines_app w s : Forall (fun c => c <> 10) w ->
  raw_lines (w ++ 10 :: s) = (w, true) :: raw_lines s.
Proof.
  induction 1 as [|c w Hc _ IH]; [done|]. cbn [app raw_lines].
  by rewrite (proj2 (Z.eqb_neq _ _) Hc), IH.
Qed.

Lemma raw_lines_unlines ls : Forall plain_line ls ->
  raw_lines (unlines ls) = map (fun l => (l, true)) ls.
Proof.
  induction 1 as [|l ls (Hu & Hn & Hs) _ IH]; [done|]. unfold unlines. cbn [map concat].
  rewrite <- app_assoc. cbn [app]. rewrite raw_lines_app by done. by f_equal.
Qed.

(** The lines of a text are its lines. *)
Lemma reader_lines_unlines ls : Forall plain_line ls ->
  reader_lines (mkSource (unlines ls) None) = map inr ls.
Proof.
  intros H. unfold reader_lines. cbn [src_error src_bytes]. rewrite raw_lines_unlines by done.
  rewrite map_map. apply map_ext_Forall. eapply Forall_impl; [exact H|].
  intros l (Hu & Hn & Hs). unfold line_of. by rewrite Hu, Hs.
Qed.

Lemma unlines_app a b : unlines (a ++ b) = unlines a ++ unlines b.
Proof. unfold unlines. by rewrite map_app, concat_app. Qed.

Lemma for_each_println ls o :
  for_each println ls o = (mkOut (stdout o ++ unlines ls) (stderr o), Next tt).
Proof.
  revert o. induction ls as [|l ls IH]; intros [a b]; cbn [for_each].
  - unfold io_ret, unlines. cbn. by rewrite app_nil_r.
  - unfold io_bind, println, print. cbn [stdout stderr]. rewrite IH. cbn [stdout stderr].
    unfold unlines. cbn [map concat]. by rewrite <- !app_assoc.
Qed.

Lemma collect_lines_ok debug_io ls o : collect_lines debug_io (map inr ls) o = (o, Next ls).
Proof.
  revert o. induction ls as [|l ls IH]; intros o; [done|].
  cbn [map collect_lines try]. unfold io_bind, io_ret. by rewrite IH.
Qed.

(** A command line of options only has no operand. *)
Lemma operands_flags prog opts :
  Forall (fun a => is_flag a = true) opts -> operands (prog :: opts) = [].
Proof.
  intros H. unfold operands. change (drop 1 (prog :: opts)) with opts.
  induction H as [|a l Ha _ IH]; [done|]. simpl.
  cbn [List.filter]. by rewrite Ha.
Qed.

Lemma env_args_ok args o : forallb utf8_valid args = true -> env_args args o = (o, Next args).
Proof. unfold env_args. by intros ->. Qed.
