(* ===== verification/LineTools.v ===== *)
(** * The line utilities ([crates/coreutils/src/bin])

    [rhead], [rtail], [rsort], [runiq], [rcut], [rtr], [rwc], [rgrep]'s
    matching loop and [rxargs]: each [main] with its argument parsing, in a
    Module per program, over the world of [Cli].  Parameters: opening a path,
    the [rpath] crate's [posix_to_win32], how an error is displayed, the
    regular expressions of [rusty_regx], and running a command. *)

From Stdlib Require Import ZArith Lia String.
From S2P Require Import Prelude Text Cli.
From stdpp Require Import base numbers list strings gmap sorting.
Open Scope Z_scope.

(** What the programs take from outside. *)
Class World := {
  posix_to_win32 : str -> str;
  open_file : str -> IoError + Source;
  show_io : IoError -> str;
  debug_io : IoError -> str;
}.

(** [rhead] and [rtail] read their arguments alike. *)
Fixpoint parse_n_args (args : list str) (num_lines : Z) (files : list str) : Z * list str :=
  match args with
  | [] => (num_lines, files)
  | a :: rest =>
    match bool_decide (a = lit "-n"), rest with
    | true, v :: rest' => parse_n_args rest' (default 10 (parse_usize v)) files
    | _, _ =>
      if starts_with (lit "-n") a
      then parse_n_args rest (default 10 (parse_usize (drop 2 a))) files
      else if negb (is_flag a) then parse_n_args rest num_lines (files ++ [a])
      else parse_n_args rest num_lines files
    end
  end.

Section tools.
Context {W : World}.

Definition print_lines (ls : list (IoError + str)) : IO unit :=
  for_each (fun line => io! l := try debug_io line in println l) ls.

(** The banner between several files. *)
Definition banner (files : list str) (idx : Z) (f : str) : IO unit :=
  when (1 <? zlen files)
    (io! _ := when (0 <? idx) (println []) in
     println (lit "==> " ++ f ++ lit " <==")).

Definition rhead (args : list OsString) (stdin : Source) : IO unit :=
  io! args := env_args args in
  let '(num_lines, files) := parse_n_args (drop 1 args) 10 [] in
  match files with
  | [] => print_lines (take (Z.to_nat num_lines) (reader_lines stdin))
  | _ =>
    for_each_idx (fun idx f =>
      match open_file (posix_to_win32 f) with
      | inr file =>
        io! _ := banner files idx f in
        print_lines (take (Z.to_nat num_lines) (reader_lines file))
      | inl e => eprintln (lit "rhead: " ++ f ++ lit ": " ++ show_io e)
      end) 0 files
  end.

(** [VecDeque::<String>::with_capacity]: at most [isize::MAX] bytes. *)
Definition with_capacity (n : Z) : IO unit :=
  if n * 24 <=? 2 ^ 63 - 1 then io_ret tt else crash.

Fixpoint ring_stdin (num_lines : Z) (ring : list str) (ls : list (IoError + str)) : IO (list str) :=
  match ls with
  | [] => io_ret ring
  | line :: ls' =>
    io! l := try debug_io line in
    let ring := if zlen ring =? num_lines then tail ring else ring in
    ring_stdin num_lines (ring ++ [l]) ls'
  end.

Fixpoint ring_file (num_lines : Z) (ring : list str) (ls : list (IoError + str)) : IO (list str) :=
  match ls with
  | [] => io_ret ring
  | line :: ls' =>
    io! l := try debug_io line in
    let ring := if (zlen ring =? num_lines) && (0 <? num_lines) then tail ring else ring in
    ring_file num_lines (if 0 <? num_lines then ring ++ [l] else ring) ls'
  end.

Definition rtail (args : list OsString) (stdin : Source) : IO unit :=
  io! args := env_args args in
  let '(num_lines, files) := parse_n_args (drop 1 args) 10 [] in
  match files with
  | [] =>
    io! _ := with_capacity num_lines in
    io! ring := ring_stdin num_lines [] (reader_lines stdin) in
    for_each println ring
  | _ =>
    for_each_idx (fun idx f =>
      match open_file (posix_to_win32 f) with
      | inr file =>
        io! _ := banner files idx f in
        io! _ := with_capacity num_lines in
        io! ring := ring_file num_lines [] (reader_lines file) in
        for_each println ring
      | inl e => eprintln (lit "rtail: " ++ f ++ lit ": " ++ show_io e)
      end) 0 files
  end.

(** ** [rsort], without [-n] *)

(** The lines of the standard input, or of every file in turn. *)
Fixpoint file_lines (files : list str) : IO (list str) :=
  match files with
  | [] => io_ret []
  | f :: files' =>
    io! file := try debug_io (open_file (posix_to_win32 f)) in
    io! ls := collect_lines debug_io (reader_lines file) in
    io! rest := file_lines files' in
    io_ret (ls ++ rest)
  end.

Definition order_lines (reverse : bool) (lines : list str) : list str :=
  let sorted := merge_sort bytes_le lines in
  if reverse then rev sorted else sorted.

Definition rsort_text (args : list OsString) (stdin : Source) : IO unit :=
  io! args := env_args args in
  let reverse := contains args (lit "-r") in
  io! lines :=
    match operands args with
    | [] => collect_lines debug_io (reader_lines stdin)
    | files => file_lines files
    end in
  for_each println (order_lines reverse lines).

(** ** [runiq] *)

Definition print_uniq (line : str) (cur_count : Z) (count duplicates_only unique_only : bool)
    : IO unit :=
  if duplicates_only && (cur_count =? 1) then io_ret tt
  else if unique_only && (1 <? cur_count) then io_ret tt
  else if count then println (pad_left 7 (dec cur_count) ++ [32] ++ line)
  else println line.

Fixpoint uniq_loop (count duplicates_only unique_only : bool) (prev : str) (cur_count : Z)
    (lines : list str) : IO unit :=
  match lines with
  | [] => print_uniq prev cur_count count duplicates_only unique_only
  | line :: lines' =>
    if bool_decide (line = prev)
    then uniq_loop count duplicates_only unique_only prev (cur_count + 1) lines'
    else io! _ := print_uniq prev cur_count count duplicates_only unique_only in
         uniq_loop count duplicates_only unique_only line 1 lines'
  end.

Definition runiq (args : list OsString) (stdin : Source) : IO unit :=
  io! args := env_args args in
  let count := contains args (lit "-c") in
  let duplicates_only := contains args (lit "-d") in
  let unique_only := contains args (lit "-u") in
  io! lines :=
    match operands args with
    | [] => collect_lines debug_io (reader_lines stdin)
    | f :: _ => io! file := try debug_io (open_file (posix_to_win32 f)) in
                collect_lines debug_io (reader_lines file)
    end in
  match lines with
  | [] => io_ret tt
  | l :: lines' => uniq_loop count duplicates_only unique_only l 1 lines'
  end.

(** ** [rcut] *)

Record CutArgs := mkCutArgs { delimiter : str; fields_str : str; cut_files : list str }.

Fixpoint parse_cut_args (args : list str) (c : CutArgs) : CutArgs :=
  let '(mkCutArgs d f fs) := c in
  match args with
  | [] => c
  | a :: rest =>
    match bool_decide (a = lit "-d"), bool_decide (a = lit "-f"), rest with
    | true, _, v :: rest' => parse_cut_args rest' (mkCutArgs v f fs)
    | _, true, v :: rest' => parse_cut_args rest' (mkCutArgs d v fs)
    | _, _, _ =>
      if starts_with (lit "-d") a then parse_cut_args rest (mkCutArgs (drop 2 a) f fs)
      else if starts_with (lit "-f") a then parse_cut_args rest (mkCutArgs d (drop 2 a) fs)
      else if negb (is_flag a) then parse_cut_args rest (mkCutArgs d f (fs ++ [a]))
      else parse_cut_args rest c
    end
  end.

Definition selected_indices (fields : str) : list Z :=
  map (fun idx => if 0 <? idx then idx - 1 else 0)
    (omap parse_usize (split_char 44 fields)).

Definition cut_line (delim : str) (indices : list Z) (line : str) : str :=
  match indices with
  | [] => line
  | _ =>
    let parts := split_str delim line in
    join_str delim (omap (fun idx => parts !! Z.to_nat idx) indices)
  end.

Definition process_lines (delim : str) (indices : list Z) (ls : list (IoError + str)) : IO unit :=
  for_each (fun line => io! l := try debug_io line in println (cut_line delim indices l)) ls.

Definition rcut (args : list OsString) (stdin : Source) : IO unit :=
  io! args := env_args args in
  let c := parse_cut_args (drop 1 args) (mkCutArgs [9] [] []) in
  let indices := selected_indices (fields_str c) in
  match cut_files c with
  | [] => process_lines (delimiter c) indices (reader_lines stdin)
  | files => for_each (fun f =>
      io! file := try debug_io (open_file (posix_to_win32 f)) in
      process_lines (delimiter c) indices (reader_lines file)) files
  end.

(** ** [rtr] *)

(** [Read::read_to_end]. *)
Definition read_to_end (s : Source) : IO (list Z) :=
  match src_error s with
  | None => io_ret (src_bytes s)
  | Some e => try debug_io (inl e)
  end.

Fixpoint tr_map (idx : nat) (set1 set2 : list Z) (m : gmap Z Z) : gmap Z Z :=
  match set1 with
  | [] => m
  | ch1 :: set1' =>
    let ch2 := match set2 !! idx with Some c => c | None => List.last set2 0 end in
    tr_map (S idx) set1' set2 (<[ch1 := ch2]> m)
  end.

Definition tr_char (delete : bool) (set1 : list Z) (m : gmap Z Z) (ch : Z) : list Z :=
  if delete then (if bool_decide (ch ∈ set1) then [] else [ch])
  else match m !! ch with Some r => [r] | None => [ch] end.

Definition rtr (args : list OsString) (stdin : Source) : IO unit :=
  io! args := env_args args in
  let delete := contains args (lit "-d") in
  match operands args with
  | [] => io! _ := eprintln (lit "Usage: rtr [-d] SET1 [SET2]") in exit 1
  | a1 :: rest =>
    let set1 := chars a1 in
    let set2 := match rest with a2 :: _ => chars a2 | [] => [] end in
    let m := if negb delete && negb (bool_decide (set2 = [])) then tr_map 0 set1 set2 ∅ else ∅ in
    io! buffer := read_to_end stdin in
    print (of_chars (concat (map (tr_char delete set1 m) (chars (from_utf8_lossy buffer)))))
  end.

(** ** [rwc] *)

Record Counts := mkCounts { c_lines : Z; c_words : Z; c_bytes : Z }.

Definition count_bytes (buf : list Z) : Counts :=
  let text := from_utf8_lossy buf in
  mkCounts (zlen (str_lines text)) (zlen (split_whitespace text)) (zlen buf).

Definition count_reader (s : Source) : IO Counts :=
  io! buf := read_to_end s in io_ret (count_bytes buf).

Definition counts_line (c : Counts) (l w b : bool) (name : str) : str :=
  trim_end
    ((if l then pad_left 8 (dec (c_lines c)) ++ [32] else [])
     ++ (if w then pad_left 8 (dec (c_words c)) ++ [32] else [])
     ++ (if b then pad_left 8 (dec (c_bytes c)) ++ [32] else []) ++ name).

Definition print_counts (c : Counts) (l w b : bool) (name : str) : IO unit :=
  println (counts_line c l w b name).

Definition add_counts (a b : Counts) : Counts :=
  mkCounts (c_lines a + c_lines b) (c_words a + c_words b) (c_bytes a + c_bytes b).

Fixpoint wc_files (l w b : bool) (files : list str) (total : Counts) : IO Counts :=
  match files with
  | [] => io_ret total
  | f :: files' =>
    match open_file (posix_to_win32 f) with
    | inr file =>
      io! counts := count_reader file in
      io! _ := print_counts counts l w b f in
      wc_files l w b files' (add_counts total counts)
    | inl e =>
      io! _ := eprintln (lit "rwc: " ++ f ++ lit ": " ++ show_io e) in
      wc_files l w b files' total
    end
  end.

Definition rwc (args : list OsString) (stdin : Source) : IO unit :=
  io! args := env_args args in
  let l := contains args (lit "-l") in
  let w := contains args (lit "-w") in
  let b := contains args (lit "-c") || contains args (lit "-m") in
  let none := negb l && negb w && negb b in
  let '(l, w, b) := if none then (true, true, true) else (l, w, b) in
  match operands args with
  | [] => io! counts := count_reader stdin in print_counts counts l w b []
  | files =>
    io! total := wc_files l w b files (mkCounts 0 0 0) in
    when (1 <? zlen files) (print_counts total l w b (lit "total"))
  end.

(** ** [rgrep]'s matching loop *)

Definition grep_line (is_match : str -> bool) (invert line_nums : bool) (filename : str)
    (print_name : bool) (idx : Z) (line : IoError + str) : IO (option IoError) :=
  match line with
  | inl e => io_ret (Some e)
  | inr l =>
    let matched := is_match l in
    io! _ := when (if invert then negb matched else matched)
      (println ((if print_name then filename ++ [58] else [])
                ++ (if line_nums then dec (idx + 1) ++ [58] else []) ++ l)) in
    io_ret None
  end.

(** [search_reader]: the first error of the reader ends it. *)
Fixpoint search_reader (is_match : str -> bool) (invert line_nums : bool) (filename : str)
    (print_name : bool) (idx : Z) (ls : list (IoError + str)) : IO (IoError + unit) :=
  match ls with
  | [] => io_ret (inr tt)
  | line :: ls' =>
    io! e := grep_line is_match invert line_nums filename print_name idx line in
    match e with
    | Some e => io_ret (inl e)
    | None => search_reader is_match invert line_nums filename print_name (idx + 1) ls'
    end
  end.

(** ** [rxargs] *)

(** [Command::new(cmd).args(args).status()]: the exit code, [None] when a
    signal ended it. *)
Definition rxargs (status : str -> list str -> IoError + option Z)
    (args : list OsString) (stdin : Source) : IO unit :=
  io! args := env_args args in
  let '(cmd_name, base_args) :=
    match operands args with [] => (lit "echo", []) | c :: base => (c, base) end in
  io! lines := collect_lines debug_io (reader_lines stdin) in
  match concat (map split_whitespace lines) with
  | [] => io_ret tt
  | items =>
    io! st := try debug_io (status cmd_name (base_args ++ items)) in
    if bool_decide (st = Some 0) then io_ret tt else exit (default 1 st)
  end.
End tools.

(** ** Evaluation *)

#[local] Instance test_world : World := {|
  posix_to_win32 := fun s => s;
  open_file := fun f =>
    if bool_decide (f = lit "abc") then inr (mkSource (unlines [lit "a"; lit "b"; lit "c"]) None)
    else inl (Os 2);
  show_io := fun _ => lit "error";
  debug_io := fun _ => lit "error";
|}.

Example rtail_ex :
  run (rtail [lit "rtail"; lit "-n2"; lit "abc"] (mkSource [] None))
  = (mkOut (unlines [lit "b"; lit "c"]) [], Some 0).
Proof. vm_compute. reflexivity. Qed.

Example rcut_ex :
  run (rcut [lit "rcut"; lit "-d:"; lit "-f"; lit "3,1,9"] (mkSource (lit "a:b:c") None))
  = (mkOut (unlines [lit "c:a"]) [], Some 0).
Proof. vm_compute. reflexivity. Qed.

Example rtr_ex :
  run (rtr [lit "rtr"; lit "abc"; lit "xy"] (mkSource (lit "aabbccdd") None))
  = (mkOut (lit "xxyyyydd") [], Some 0).
Proof. vm_compute. reflexivity. Qed.

(** [0] is taken for the first field. *)
Example rcut_zero : selected_indices (lit "0") = [0].
Proof. reflexivity. Qed.

(** ** [rhead] and [rtail] *)

Section proofs.
Context {W : World}.

Lemma print_lines_ok ls o : print_lines (map inr ls) o =
  (mkOut (stdout o ++ unlines ls) (stderr o), Next tt).
Proof.
  rewrite <- for_each_println. revert o.
  induction ls as [|l ls IH]; intros o; [done|].
  unfold print_lines in *. cbn [map for_each]. unfold io_bind. cbn [try]. unfold io_ret.
  destruct (println l o) as [o' [| |]]; [apply IH|done..].
Qed.

(** The ring keeps the last [n] of what went through it. *)
Definition last_n (n : Z) (ls : list str) : list str := drop (length ls - Z.to_nat n) ls.

Lemma last_n_step n seen l : 0 < n ->
  (if zlen (last_n n seen) =? n then tail (last_n n seen) else last_n n seen) ++ [l]
  = last_n n (seen ++ [l]).
Proof.
  intros Hn. unfold last_n. rewrite length_drop, length_app. cbn [length].
  destruct (Z.eqb_spec (Z.of_nat (length seen - (length seen - Z.to_nat n))) n) as [E|E].
  - assert (length seen - (length seen - Z.to_nat n) = Z.to_nat n)%nat as E' by lia.
    rewrite drop_app_le by lia. f_equal.
    replace (length seen + 1 - Z.to_nat n)%nat with (S (length seen - Z.to_nat n)) by lia.
    remember (length seen - Z.to_nat n)%nat as k. clear -E'.
    revert k E'. induction seen as [|x seen IH]; intros [|k] H; try done; cbn [drop tail].
    apply (IH k). simpl in H. lia.
  - replace (length seen - Z.to_nat n)%nat with 0%nat by lia.
    by replace (length seen + 1 - Z.to_nat n)%nat with 0%nat by lia.
Qed.

Lemma ring_file_last n ls seen o : 0 <= n ->
  ring_file n (last_n n seen) (map inr ls) o = (o, Next (last_n n (seen ++ ls))).
Proof.
  intros Hn. revert seen. induction ls as [|l ls IH]; intros seen; [by rewrite app_nil_r|].
  cbn [map ring_file]. unfold io_bind. cbn [try]. unfold io_ret.
  replace (seen ++ l :: ls) with ((seen ++ [l]) ++ ls) by by rewrite <- app_assoc.
  rewrite <- IH. f_equal. destruct (Z.ltb_spec 0 n) as [Hp|Hz].
  - rewrite andb_true_r. by apply last_n_step.
  - replace n with 0 by lia. unfold last_n. rewrite !Nat.sub_0_r, !drop_all. by destruct (_ && _).
Qed.

Lemma ring_stdin_last n ls seen o : 0 < n ->
  ring_stdin n (last_n n seen) (map inr ls) o = (o, Next (last_n n (seen ++ ls))).
Proof.
  intros Hn. revert seen. induction ls as [|l ls IH]; intros seen; [by rewrite app_nil_r|].
  cbn [map ring_stdin]. unfold io_bind. cbn [try]. unfold io_ret.
  replace (seen ++ l :: ls) with ((seen ++ [l]) ++ ls) by by rewrite <- app_assoc.
  rewrite <- IH. f_equal. by apply last_n_step.
Qed.

(** With no lines wanted the ring never pops what it pushes. *)
Lemma ring_stdin_zero ls seen o : 
  ring_stdin 0 seen (map inr ls) o = (o, Next (seen ++ ls)).
Proof.
  revert seen. induction ls as [|l ls IH]; intros seen; [by rewrite app_nil_r|].
  cbn [map ring_stdin]. unfold io_bind. cbn [try]. unfold io_ret.
  replace (seen ++ l :: ls) with ((seen ++ [l]) ++ ls) by by rewrite <- app_assoc.
  rewrite <- IH. f_equal. by destruct seen.
Qed.

Lemma parse_n_dec n files (Hn : 0 <= n < 2 ^ 64) (Hf : Forall (fun f => is_flag f = false) files) :
  parse_n_args (lit "-n" :: dec n :: files) 10 [] = (n, files).
Proof.
  cbn [parse_n_args]. rewrite bool_decide_eq_true_2 by done. rewrite parse_usize_dec by done.
  cbn [default]. change files with ([] ++ files) at 2. generalize (@nil str) as acc.
  induction Hf as [|f files Hf _ IH]; intros acc; cbn [parse_n_args]; [by rewrite app_nil_r|].
  rewrite bool_decide_eq_false_2 by by intros ->.
  assert (starts_with (lit "-n") f = false) as ->.
  { destruct (starts_with (lit "-n") f) eqn:E; [|done]. unfold starts_with in E.
    destruct (str_strip_prefix (lit "-n") f) as [r|] eqn:Er; [|done].
    apply strip_prefix_Some in Er as ->. by unfold is_flag, starts_with in Hf. }
  rewrite Hf. cbn [negb]. rewrite IH, <- app_assoc. by destruct files.
Qed.

(** [rhead -n n] prints the first [n] lines; [rtail -n n file] prints the
    last [n]; [rtail -n n] on the standard input prints the last [n] too,
    except that for [n = 0] it prints every line; and [rtail] panics when a
    ring of [n] strings would be over [isize::MAX] bytes. *)
Theorem head_tail_lines prog n ls f s stdin
    (Hprog : utf8_valid prog = true) (Hn : 0 <= n < 2 ^ 64) (Hls : reader_lines s = map inr ls)
    (Hf : utf8_valid f = true) (Hflag : is_flag f = false)
    (Hopen : open_file (posix_to_win32 f) = inr s) :
  run (rhead [prog; lit "-n"; dec n] s) = (mkOut (unlines (take (Z.to_nat n) ls)) [], Some 0) /\
  run (rtail [prog; lit "-n"; dec n; f] stdin)
  = (if n * 24 <=? 2 ^ 63 - 1 then (mkOut (unlines (last_n n ls)) [], Some 0) else (no_out, None)) /\
  run (rtail [prog; lit "-n"; dec n] s)
  = (if n * 24 <=? 2 ^ 63 - 1
     then (mkOut (unlines (if n =? 0 then ls else last_n n ls)) [], Some 0) else (no_out, None)).
Proof.
  assert (forallb utf8_valid [prog; lit "-n"; dec n] = true) as Ha.
  { cbn [forallb]. by rewrite Hprog, dec_utf8. }
  assert (forallb utf8_valid [prog; lit "-n"; dec n; f] = true) as Hb.
  { cbn [forallb]. by rewrite Hprog, dec_utf8, Hf. }
  unfold run, rhead, rtail. unfold io_bind at 1. rewrite !env_args_ok by done. cbn [drop].
  rewrite !(parse_n_dec n []) by (done || constructor). split; [|split].
  - rewrite Hls, <- fmap_take. change (inr <$> ?l) with (map (@inr IoError str) l).
    by rewrite print_lines_ok.
  - unfold io_bind at 1. rewrite env_args_ok by done. cbn [drop].
    rewrite parse_n_dec by (done || by constructor). cbn [for_each_idx]. rewrite Hopen.
    unfold banner, when, with_capacity, io_bind. cbn [length Z.ltb]. unfold io_ret.
    change (1 <? Z.of_nat 1) with false. cbv iota.
    destruct (n * 24 <=? 2 ^ 63 - 1); [|done].
    pose proof (ring_file_last n ls [] no_out ltac:(lia)) as H. unfold last_n in H at 1. cbn in H.
    rewrite drop_nil in H. rewrite Hls, H. by rewrite for_each_println.
  - unfold io_bind at 1. rewrite env_args_ok by done. cbn [drop].
    rewrite parse_n_dec by (done || constructor).
    unfold with_capacity, io_bind. unfold io_ret at 1.
    destruct (n * 24 <=? 2 ^ 63 - 1); [|done]. rewrite Hls.
    destruct (Z.eqb_spec n 0) as [->|Hz].
    + rewrite (ring_stdin_zero ls []). by rewrite for_each_println.
    + pose proof (ring_stdin_last n ls [] no_out ltac:(lia)) as H. unfold last_n in H at 1. cbn in H.
      rewrite drop_nil in H. rewrite H. by rewrite for_each_println.
Qed.

(** ** [rsort] *)

Lemma order_lines_perm r ls : order_lines r ls ≡ₚ ls.
Proof.
  unfold order_lines. destruct r; [rewrite <- (Permutation_rev (merge_sort bytes_le ls))|];
    apply merge_sort_Permutation.
Qed.

(** [rsort] prints the lines of the input, each as often as it occurs, in
    increasing byte order, and with [-r] in decreasing order. *)
Theorem rsort_sorts prog opts ls s
    (Hargs : forallb utf8_valid (prog :: opts) = true)
    (Hopts : Forall (fun a => is_flag a = true) opts) (Hprog : prog <> lit "-r")
    (Hls : reader_lines s = map inr ls) :
  exists out, run (rsort_text (prog :: opts) s) = (mkOut (unlines out) [], Some 0) /\ out ≡ₚ ls /\
  StronglySorted (if contains opts (lit "-r") then flip bytes_le else bytes_le) out.
Proof.
  exists (order_lines (contains (prog :: opts) (lit "-r")) ls). split; [|split].
  - unfold run, rsort_text. unfold io_bind at 1. rewrite env_args_ok by done.
    rewrite operands_flags by done.
    unfold io_bind. rewrite Hls, collect_lines_ok. by rewrite for_each_println.
  - apply order_lines_perm.
  - assert (contains (prog :: opts) (lit "-r") = contains opts (lit "-r")) as ->.
    { unfold contains. apply bool_decide_ext. rewrite elem_of_cons. split; [|auto].
      by intros [E|]; [symmetry in E|]. }
    unfold order_lines. pose proof (StronglySorted_merge_sort bytes_le ls) as H.
    destruct (contains _ _); [|exact H]. clear -H.
    induction H as [|x l _ IH Hx]; [constructor|]. cbn [rev].
    revert IH. assert (Forall (fun y => bytes_le x y) (rev l)) as Hr.
    { apply Forall_rev. exact Hx. }
    revert Hr. generalize (rev l) as m. induction m as [|y m IHm]; intros Hr Hm; cbn [app];
      [repeat constructor|].
    apply StronglySorted_inv in Hm as [Hm Hy]. constructor.
    + apply IHm; [by apply Forall_inv_tail in Hr|done].
    + apply Forall_app. split; [done|]. constructor; [|constructor]. by apply Forall_inv in Hr.
Qed.

(** ** [runiq] *)

(** Adjacent groups of different lines. *)
Fixpoint runs (gs : list (str * Z)) : Prop :=
  match gs with
  | g1 :: ((g2 :: _) as gs') => g1.1 <> g2.1 /\ runs gs'
  | _ => True
  end.

Definition ungroup (gs : list (str * Z)) : list str :=
  concat (map (fun g => replicate (Z.to_nat g.2) g.1) gs).

Definition shown_group (count duplicates_only unique_only : bool) (g : str * Z) : list str :=
  if (duplicates_only && (g.2 =? 1)) || (unique_only && (1 <? g.2)) then []
  else [if count then pad_left 7 (dec g.2) ++ [32] ++ g.1 else g.1].

Lemma print_uniq_shown l k c d u o :
  print_uniq l k c d u o = for_each println (shown_group c d u (l, k)) o.
Proof.
  unfold print_uniq, shown_group. cbn [fst snd].
  destruct (d && (k =? 1)); [done|]. destruct (u && (1 <? k)); [done|].
  cbn [orb for_each]. unfold io_bind. by destruct c, (println _ o) as [? [[]| |]].
Qed.

Lemma for_each_app {A} (f : A -> IO unit) a b o :
  for_each f (a ++ b) o = io_bind (for_each f a) (fun _ => for_each f b) o.
Proof.
  revert o. induction a as [|x a IH]; intros o; [done|]. cbn [app for_each].
  unfold io_bind in *. destruct (f x o) as [o' [| |]]; auto.
Qed.

Lemma uniq_loop_runs c d u lines : forall prev k, 1 <= k ->
  exists n gs, k <= n /\ runs ((prev, n) :: gs) /\ Forall (fun g => 1 <= g.2) gs /\
    ungroup ((prev, n) :: gs) = replicate (Z.to_nat k) prev ++ lines /\
    forall o, uniq_loop c d u prev k lines o
      = for_each println (concat (map (shown_group c d u) ((prev, n) :: gs))) o.
Proof.
  induction lines as [|l lines IH]; intros prev k Hk.
  - exists k, []. split; [lia|]. do 2 (split; [done|]). split; [done|]. intros o.
    cbn [uniq_loop map concat]. by rewrite app_nil_r, print_uniq_shown.
  - cbn [uniq_loop]. case_bool_decide as E.
    + subst l. destruct (IH prev (k + 1) ltac:(lia)) as (n & gs & Hn & Hr & Hg & Hu & Ho).
      exists n, gs. split; [lia|]. do 2 (split; [done|]). split; [|done]. rewrite Hu.
      replace (Z.to_nat (k + 1)) with (S (Z.to_nat k)) by lia. cbn [replicate app].
      by rewrite replicate_snoc.
    + destruct (IH l 1 ltac:(lia)) as (n & gs & Hn & Hr & Hg & Hu & Ho).
      exists k, ((l, n) :: gs). split; [lia|]. split; [by split|]. split; [by constructor|].
      split; [unfold ungroup in *; cbn [map concat fst snd] in *; by rewrite Hu|].
      intros o. change (map (shown_group c d u) ((prev, k) :: (l, n) :: gs))
        with (shown_group c d u (prev, k) :: map (shown_group c d u) ((l, n) :: gs)).
      cbn [concat]. rewrite for_each_app. unfold io_bind. rewrite print_uniq_shown.
      destruct (for_each _ _ o) as [o' [[]| |]]; [apply Ho|done..].
Qed.

(** [runiq] splits its input into the maximal runs of equal adjacent
    lines and prints one line per run, in order, with the run's length for
    [-c]; [-d] drops the runs of one, [-u] the longer ones. *)
Theorem runiq_groups prog opts ls s
    (Hargs : forallb utf8_valid (prog :: opts) = true)
    (Hopts : Forall (fun a => is_flag a = true) opts)
    (Hls : reader_lines s = map inr ls) :
  exists gs, ungroup gs = ls /\ runs gs /\ Forall (fun g => 1 <= g.2) gs /\
  run (runiq (prog :: opts) s)
  = (mkOut (unlines (concat (map (shown_group (contains (prog :: opts) (lit "-c"))
       (contains (prog :: opts) (lit "-d")) (contains (prog :: opts) (lit "-u"))) gs))) [], Some 0).
Proof.
  unfold run, runiq. unfold io_bind at 1. rewrite env_args_ok by done.
  set (c := contains _ _). set (d := contains _ _). set (u := contains _ _).
  rewrite operands_flags by done.
  unfold io_bind. rewrite Hls, collect_lines_ok. destruct ls as [|l ls]; [by exists []|].
  destruct (uniq_loop_runs c d u ls l 1 ltac:(lia)) as (n & gs & Hn & Hr & Hg & Hu & Ho).
  exists ((l, n) :: gs). split; [done|]. split; [done|]. split; [by constructor|].
  by rewrite Ho, for_each_println.
Qed.

(** ** [rcut] *)

Lemma selected_indices_dec ks : ks <> [] -> Forall (fun k => 1 <= k < 2 ^ 64) ks ->
  selected_indices (join_char 44 (map dec ks)) = map Z.pred ks.
Proof.
  intros Hne H. unfold selected_indices. rewrite split_join_char.
  - induction H as [|k ks Hk _ IH]; [done|]. cbn [map omap list_omap].
    rewrite parse_usize_dec by lia. cbn [map]. rewrite (proj2 (Z.ltb_lt 0 k)) by lia.
    f_equal. destruct ks; [done|]. by apply IH.
  - by destruct ks.
  - apply Forall_map. eapply Forall_impl; [exact H|]. intros k Hk. cbv beta in Hk.
    destruct (dec_digits k ltac:(lia)) as [_ Hd]. rewrite forallb_forall in Hd.
    apply Forall_forall. intros x Hx%list_elem_of_In%Hd. unfold is_digit in Hx. bool_to_prop. lia.
Qed.

Lemma process_lines_ok d idxs ls o : process_lines d idxs (map inr ls) o =
  (mkOut (stdout o ++ unlines (map (cut_line d idxs) ls)) (stderr o), Next tt).
Proof.
  rewrite <- for_each_println. revert o.
  induction ls as [|l ls IH]; intros o; [done|].
  unfold process_lines in *. cbn [map for_each]. unfold io_bind. cbn [try]. unfold io_ret.
  destruct (println _ o) as [o' [| |]]; [apply IH|done..].
Qed.

(** [rcut -d d -f k1,k2,...] prints of every line the fields
    [k1, k2, ...], numbered from 1, in that order and joined by [d]; a field
    the line does not have is skipped. *)
Theorem rcut_fields prog d ks wss s
    (Hprog : utf8_valid prog = true) (Hd : is_ascii d = true) (Hks : ks <> [])
    (Hk : Forall (fun k => 1 <= k < 2 ^ 64) ks)
    (Hfields : utf8_valid (join_char 44 (map dec ks)) = true)
    (Hws : Forall (fun ws => ws <> [] /\ Forall (Forall (fun c => c <> d)) ws) wss)
    (Hls : reader_lines s = map inr (map (join_str [d]) wss)) :
  run (rcut [prog; lit "-d"; [d]; lit "-f"; join_char 44 (map dec ks)] s)
  = (mkOut (unlines (map (fun ws => join_str [d]
       (omap (fun k => ws !! Z.to_nat (k - 1)) ks)) wss)) [], Some 0).
Proof.
  set (fields := join_char 44 (map dec ks)) in *.
  assert (forallb utf8_valid [prog; lit "-d"; [d]; lit "-f"; fields] = true) as Ha.
  { assert (utf8_valid [d] = true) as Hu by (apply utf8_valid_ascii; repeat constructor; exact Hd).
    cbn [forallb]. by rewrite Hprog, Hfields, Hu. }
  unfold run, rcut. unfold io_bind at 1. rewrite env_args_ok by done.
  change (parse_cut_args _ _) with (mkCutArgs [d] fields []).
  cbn [fields_str cut_files delimiter]. unfold fields. rewrite selected_indices_dec by done.
  rewrite Hls, process_lines_ok. cbn [stdout stderr no_out app]. repeat f_equal.
  rewrite map_map. apply map_ext_Forall. eapply Forall_impl; [exact Hws|].
  intros ws [Hne Hw]. unfold cut_line. destruct ks as [|k ks]; [done|]. cbn [map].
  rewrite (join_str_char d ws), split_str_char, split_join_char by done. f_equal.
  change (Z.pred k :: map Z.pred ks) with (map Z.pred (k :: ks)).
  clear. induction (k :: ks) as [|x xs IH]; [done|]. cbn [map omap list_omap].
  rewrite Z.sub_1_r. destruct (ws !! _); by rewrite IH.
Qed.

(** ** [rwc] *)

Definition newlines (s : str) : Z := zlen (List.filter (fun c => c =? 10) s).

Lemma raw_lines_count s :
  zlen (raw_lines s) = newlines s + (if List.last s 10 =? 10 then 0 else 1).
Proof.
  unfold newlines. induction s as [|c s IH]; [done|]. cbn [raw_lines].
  assert (zlen (List.filter (fun c => c =? 10) (c :: s))
    = (if c =? 10 then 1 else 0) + zlen (List.filter (fun c => c =? 10) s)) as ->
    by (simpl; destruct (c =? 10); simpl; lia).
  assert (List.last (c :: s) 10 = if bool_decide (s = []) then c else List.last s 10) as ->.
  { by destruct s. }
  destruct (c =? 10) eqn:E; cbn [length].
  - case_bool_decide as Hs; [subst s; by rewrite E|lia].
  - case_bool_decide as Hs; [subst s; rewrite E; done|]. revert IH.
    destruct (raw_lines s) as [|[w t] ws] eqn:Er; [|cbn [length]; lia].
    destruct s as [|c' s]; [done|]. exfalso. revert Er. cbn [raw_lines].
    destruct (c' =? 10); [done|]. by destruct (raw_lines s) as [|[? ?] ?].
Qed.

(** on well-formed text [rwc] counts the bytes, and one line per newline
    plus one more when text follows the last of them. *)
Theorem rwc_line_count buf (Hu : utf8_valid buf = true) :
  c_bytes (count_bytes buf) = zlen buf /\
  c_lines (count_bytes buf) = newlines buf + (if List.last buf 10 =? 10 then 0 else 1).
Proof.
  split; [done|]. unfold count_bytes. cbn [c_lines]. rewrite from_utf8_lossy_valid by done.
  unfold str_lines. rewrite length_map. apply raw_lines_count.
Qed.

(** ** [rxargs] *)

(** [rxargs] runs the command once, with the words of the input after the
    command's own operands, and every argument that starts with [-] is left
    out, those meant for the command included; it runs nothing when the input
    has no word. *)
Theorem rxargs_plan status prog args ls s
    (Hargs : forallb utf8_valid (prog :: args) = true) (Hls : reader_lines s = map inr ls) :
  let words := concat (map split_whitespace ls) in
  let '(cmd, base) := match List.filter (fun a => negb (is_flag a)) args with
                      | [] => (lit "echo", []) | c :: base => (c, base) end in
  snd (run (rxargs status (prog :: args) s)) =
  (if bool_decide (words = []) then Some 0
   else match status cmd (base ++ words) with
        | inl _ => Some 1
        | inr (Some n) => Some n
        | inr None => Some 1
        end).
Proof.
  cbv zeta. unfold run, rxargs. unfold io_bind at 1. rewrite env_args_ok by done.
  change (operands (prog :: args)) with (List.filter (fun a => negb (is_flag a)) args).
  destruct (match List.filter (fun a => negb (is_flag a)) args with
            | [] => (lit "echo", []) | c :: base => (c, base) end) as [cmd base].
  unfold io_bind at 1. rewrite Hls, collect_lines_ok.
  destruct (concat (map split_whitespace ls)) as [|w ws]; [done|]. unfold io_bind.
  rewrite bool_decide_eq_false_2 by done.
  destruct (status cmd (base ++ w :: ws)) as [e|[n|]]; cbn [try]; [done| |done].
  unfold io_ret. case_bool_decide as E; [by simplify_eq|done].
Qed.
End proofs.

(** ** Witnesses *)

Lemma head_tail_lines_witness :
  let s := mkSource (unlines [lit "a"; lit "b"; lit "c"]) None in
  run (rhead [lit "p"; lit "-n"; dec 2] s) = (mkOut (unlines [lit "a"; lit "b"]) [], Some 0) /\
  run (rtail [lit "p"; lit "-n"; dec 2; lit "abc"] (mkSource [] None))
  = (if 2 * 24 <=? 2 ^ 63 - 1 then (mkOut (unlines [lit "b"; lit "c"]) [], Some 0)
     else (no_out, None)) /\
  run (rtail [lit "p"; lit "-n"; dec 2] s)
  = (if 2 * 24 <=? 2 ^ 63 - 1
     then (mkOut (unlines [lit "b"; lit "c"]) [], Some 0) else (no_out, None)).
Proof.
  cbv zeta. apply (head_tail_lines (lit "p") 2 [lit "a"; lit "b"; lit "c"] (lit "abc")
    (mkSource (unlines [lit "a"; lit "b"; lit "c"]) None) (mkSource [] None));
    first [lia | reflexivity].
Defined.

Lemma rsort_sorts_witness :
  let s := mkSource (unlines [lit "b"; lit "a"]) None in
  exists out, run (rsort_text [lit "rsort"; lit "-r"] s) = (mkOut (unlines out) [], Some 0) /\
  out ≡ₚ [lit "b"; lit "a"] /\
  StronglySorted (if contains [lit "-r"] (lit "-r") then flip bytes_le else bytes_le) out.
Proof.
  cbv zeta. apply (rsort_sorts (lit "rsort") [lit "-r"] [lit "b"; lit "a"]
    (mkSource (unlines [lit "b"; lit "a"]) None)); try reflexivity; [by repeat constructor|done].
Defined.

Lemma runiq_groups_witness :
  let s := mkSource (unlines [lit "b"; lit "b"; lit "a"]) None in
  exists gs, ungroup gs = [lit "b"; lit "b"; lit "a"] /\ runs gs /\ Forall (fun g => 1 <= g.2) gs /\
  run (runiq [lit "runiq"; lit "-c"] s)
  = (mkOut (unlines (concat (map (shown_group (contains [lit "runiq"; lit "-c"] (lit "-c"))
       (contains [lit "runiq"; lit "-c"] (lit "-d")) (contains [lit "runiq"; lit "-c"] (lit "-u")))
       gs))) [], Some 0).
Proof.
  cbv zeta. apply (runiq_groups (lit "runiq") [lit "-c"] [lit "b"; lit "b"; lit "a"]
    (mkSource (unlines [lit "b"; lit "b"; lit "a"]) None)); try reflexivity. by repeat constructor.
Defined.

Lemma rcut_fields_witness :
  run (rcut [lit "rcut"; lit "-d"; lit ":"; lit "-f"; join_char 44 (map dec [3; 1])]
    (mkSource (lit "a:b:c") None))
  = (mkOut (unlines [lit "c:a"]) [], Some 0).
Proof.
  apply (rcut_fields (lit "rcut") 58 [3; 1] [[lit "a"; lit "b"; lit "c"]]
    (mkSource (lit "a:b:c") None)); try reflexivity; try done.
  - by repeat constructor.
  - repeat constructor; done.
Defined.

Lemma rwc_line_count_witness :
  c_bytes (count_bytes (lit "a b")) = 3 /\ c_lines (count_bytes (lit "a b")) = 1.
Proof. apply (rwc_line_count (lit "a b")). reflexivity. Defined.

Lemma rxargs_plan_witness :
  snd (run (rxargs (fun c a => inr (Some (zlen a))) [lit "rxargs"; lit "ls"; lit "-l"; lit "x"]
    (mkSource (lit "y z") None))) = Some 3.
Proof.
  exact (rxargs_plan (fun c a => inr (Some (zlen a))) (lit "rxargs") [lit "ls"; lit "-l"; lit "x"]
    [lit "y z"] (mkSource (lit "y z") None) eq_refl eq_refl).
Defined.
