(* ===== verification/StdFs.v ===== *)
(** * [std::fs] and [std::path] on a file tree

    What the file utilities of [crates/coreutils/src/bin] use of the standard
    library: Unix paths as strings, and the calls of [std::fs] on a tree of
    directories and regular files, without links, names of any length and a
    working directory nobody removes.  A path is looked up component by
    component; a rename between devices fails.  Opening, writing, renaming and
    removing a file can be refused for reasons that are not in the tree
    (permissions, a full or failing disk), and writing can break off half
    way. *)

From Stdlib Require Import ZArith Lia String.
From S2P Require Import Prelude Sys Text Cli.
From stdpp Require Import base numbers list strings gmap.
Open Scope Z_scope.

(** ** [std::path] *)

Definition SEP := 47.
Definition DOT : OsString := [46].
Definition DOTDOT : OsString := [46; 46].

(** What stands between the separators; [steps] are the pieces the system
    walks along, [comps] leaves out the dots, as [Path::components] does but
    for one at the front. *)
Definition pieces (s : OsString) : list OsString := split_char SEP s.
Definition steps (s : OsString) : list OsString := List.filter (fun c => negb (bool_decide (c = []))) (pieces s).
Definition comps (s : OsString) : list OsString := List.filter (fun c => negb (bool_decide (c = DOT))) (steps s).
Definition absolute (s : OsString) : bool := starts_with [SEP] s.
Definition ends_sep (s : OsString) : bool := bool_decide (last s = Some SEP).
Definition leading_dot (s : OsString) : bool :=
  bool_decide (head (pieces s) = Some DOT).

(** A name of a directory entry. *)
Definition name_ok (n : OsString) : Prop := n <> [] /\ n <> DOT /\ n <> DOTDOT /\ Forall (fun c => c <> SEP) n.

(** [Path::file_name]. *)
Definition file_name (s : OsString) : option OsString :=
  match last (comps s) with Some c => if bool_decide (c = DOTDOT) then None else Some c | None => None end.

(** [Path::join]: an absolute path replaces. *)
Definition join (d n : OsString) : OsString :=
  if absolute n then n else if bool_decide (d = []) then n
  else if ends_sep d then d ++ n else d ++ SEP :: n.

(** [Path::parent], up to repeated separators and inner dots, which lead to
    the same place. *)
Definition parent (s : OsString) : option OsString :=
  match comps s with
  | [] => if absolute s || bool_decide (s = []) then None else Some []
  | cs => Some ((if absolute s then [SEP] else [])
                ++ join_char SEP ((if leading_dot s then [DOT] else []) ++ removelast cs))
  end.

(** ** The tree *)

Abbreviation Path := (list OsString).
Inductive Node := NFile (content : list Z) | NDir.
#[export] Instance Node_eq_dec : EqDecision Node.
Proof. solve_decision. Defined.

(** Everything but the root, by its path from there. *)
Abbreviation Tree := (gmap Path Node).

Definition node_at (t : Tree) (p : Path) : option Node := match p with [] => Some NDir | _ => t !! p end.

(** [p] without the prefix [d]. *)
Fixpoint under (d p : Path) : option Path :=
  match d, p with
  | [], p => Some p
  | a :: d, b :: p => if bool_decide (a = b) then under d p else None
  | _ :: _, [] => None
  end.

Definition child_of (d : Path) (p : Path) : option OsString :=
  match under d p with Some [n] => Some n | _ => None end.
Definition children (t : Tree) (d : Path) : list OsString := omap (child_of d) (map fst (map_to_list t)).

(** What becomes of a call of [std::fs]; [Endless] is the end of the fuel. *)
Inductive Io (A : Type) := Val (a : A) | Raise (e : IoError) | Endless.
Arguments Val {A} a.
Arguments Raise {A} e.
Arguments Endless {A}.

Definition fs_ret {A : Type} (a : A) (t : Tree) : Tree * Io A := (t, Val a).
Definition fs_bind {A B : Type} (m : Tree -> Tree * Io A) (k : A -> Tree -> Tree * Io B) (t : Tree) : Tree * Io B :=
  match m t with
  | (t, Val a) => k a t
  | (t, Raise e) => (t, Raise e)
  | (t, Endless) => (t, Endless)
  end.
Notation "'fs!' x := m 'in' k" := (fs_bind m (fun x => k))
  (at level 10, x pattern, m at level 100, k at level 200).

(** What the system refuses besides: opening a file to read it, opening or
    creating one to write it, the rename of one place to another, the removal
    of a file; and after how many bytes writing some content breaks off. *)
Class Faults := {
  read_refused : Tree -> Path -> option IoError;
  write_refused : Tree -> Path -> option IoError;
  torn : Tree -> Path -> list Z -> option (nat * IoError);
  rename_refused : Tree -> Path -> Path -> option IoError;
  remove_refused : Tree -> Path -> option IoError;
}.
Definition no_faults : Faults := {|
  read_refused _ _ := None; write_refused _ _ := None; torn _ _ _ := None;
  rename_refused _ _ _ := None; remove_refused _ _ := None;
|}.

Section calls.
Context (cwd : Path) (device : Path -> Z) {F : Faults}.
(** The order of a directory's entries is not specified. *)
Context (order : list OsString -> list OsString).

(** A step is taken from a directory only. *)
Fixpoint walk (t : Tree) (cur : Path) (cs : list OsString) : IoError + Path :=
  match cs with
  | [] => inr cur
  | c :: cs =>
    match node_at t cur with
    | Some NDir =>
      walk t (if bool_decide (c = DOT) then cur else if bool_decide (c = DOTDOT) then removelast cur else cur ++ [c]) cs
    | Some (NFile _) => inl (Os ENOTDIR)
    | None => inl (Os ENOENT)
    end
  end.

Definition reach (t : Tree) (s : OsString) : IoError + Path :=
  match s with
  | [] => inl (Os ENOENT)
  | _ => walk t (if absolute s then [] else cwd) (steps s)
  end.

(** A regular file does not go by a path that ends in a separator. *)
Definition locate (t : Tree) (s : OsString) : IoError + Path :=
  match reach t s with
  | inl e => inl e
  | inr p =>
    match node_at t p with
    | Some (NFile _) => if ends_sep s then inl (Os ENOTDIR) else inr p
    | _ => inr p
    end
  end.

(** [fs::metadata(path)], as far as it says what is there. *)
Definition stat (t : Tree) (s : OsString) : option Node :=
  match locate t s with inr p => node_at t p | inl _ => None end.
Definition path_exists (t : Tree) (s : OsString) : bool := bool_decide (is_Some (stat t s)).
Definition path_is_dir (t : Tree) (s : OsString) : bool := bool_decide (stat t s = Some NDir).

Definition at_path {A : Type} (t : Tree) (s : OsString) (k : Path -> option Node -> Tree * Io A) : Tree * Io A :=
  match locate t s with inr p => k p (node_at t p) | inl e => (t, Raise e) end.

Definition create_dir (s : OsString) (t : Tree) : Tree * Io unit :=
  match reach t s with
  | inl e => (t, Raise e)
  | inr p =>
    match node_at t p with
    | Some _ => (t, Raise (Os EEXIST))
    | None => (<[p := NDir]> t, Val tt)
    end
  end.

(** [DirBuilder::create_dir_all]: a failed [mkdir] is fine where there is a
    directory; where the parent is missing that is made first. *)
Definition settle (s : OsString) (t : Tree) (e : IoError) : Tree * Io unit :=
  (t, if path_is_dir t s then Val tt else Raise e).
Fixpoint make_dirs (fuel : nat) (s : OsString) (t : Tree) : Tree * Io unit :=
  match fuel with
  | O => (t, Endless)
  | S fuel =>
    match s with
    | [] => (t, Val tt)
    | _ =>
      match create_dir s t with
      | (t, Raise (Os 2)) =>
        match parent s with
        | None => (t, Raise (Os ENOENT))
        | Some p =>
          fs_bind (make_dirs fuel p) (fun _ t =>
            match create_dir s t with
            | (t, Raise e) => settle s t e
            | r => r
            end) t
        end
      | (t, Raise e) => settle s t e
      | r => r
      end
    end
  end.
Definition create_dir_all (s : OsString) : Tree -> Tree * Io unit := make_dirs (S (S (length (comps s)))) s.

(** The entries, as they are when the directory is opened. *)
Definition read_dir (s : OsString) (t : Tree) : Tree * Io (list OsString) :=
  at_path t s (fun p node =>
    match node with
    | Some NDir => (t, Val (order (children t p)))
    | Some (NFile _) => (t, Raise (Os ENOTDIR))
    | None => (t, Raise (Os ENOENT))
    end).

(** [File::open]: a directory opens, and fails when it is read. *)
Definition open_read (s : OsString) (t : Tree) : Tree * Io Source :=
  at_path t s (fun p node =>
    match node with
    | None => (t, Raise (Os ENOENT))
    | Some x =>
      match read_refused t p, x with
      | Some e, _ => (t, Raise e)
      | None, NDir => (t, Val (mkSource [] (Some (Os EISDIR))))
      | None, NFile bs => (t, Val (mkSource bs None))
      end
    end).

(** Opened for writing, created when missing, not truncated. *)
Definition open_create (s : OsString) (t : Tree) : Tree * Io Path :=
  at_path t s (fun p node =>
    match node, write_refused t p with
    | Some NDir, _ => (t, Raise (Os EISDIR))
    | _, Some e => (t, Raise e)
    | Some (NFile _), None => (t, Val p)
    | None, None => if ends_sep s then (t, Raise (Os EISDIR)) else (<[p := NFile []]> t, Val p)
    end).

(** [fs::copy]: the source is opened, the target is opened and truncated, and
    then what the source holds is copied, as far as the writing goes: nothing,
    when both are one file. *)
Definition copy_content (ps pd : Path) (t : Tree) : Tree * Io unit :=
  match t !! ps with
  | Some (NFile bs) =>
    match torn t pd bs with
    | Some (n, e) => (<[pd := NFile (take n bs)]> t, Raise e)
    | None => (<[pd := NFile bs]> t, Val tt)
    end
  | _ => (t, Val tt)
  end.
Definition copy (src dst : OsString) (t : Tree) : Tree * Io unit :=
  at_path t src (fun ps node =>
    match node with
    | None => (t, Raise (Os ENOENT))
    | Some x =>
      match read_refused t ps, x with
      | Some e, _ => (t, Raise e)
      | None, NDir => (t, Raise NotRegular)
      | None, NFile _ =>
        (fs! pd := open_create dst in fun t => copy_content ps pd (<[pd := NFile []]> t)) t
      end
    end).

(** The tree without what is at [p] and below, and what is at [ps] and below
    alone, put at [pd]. *)
Definition prune (p : Path) (t : Tree) : Tree := filter (fun kv => under p (fst kv) = None) t.
Definition graft_entry (ps pd : Path) (kv : Path * Node) : option (Path * Node) :=
  match under ps (fst kv) with Some q => Some (pd ++ q, snd kv) | None => None end.
Definition graft (ps pd : Path) (t : Tree) : Tree := list_to_map (omap (graft_entry ps pd) (map_to_list t)).
Definition move (ps pd : Path) (t : Tree) : Tree := graft ps pd t ∪ prune pd (prune ps t).

(** Where a path does not end in a name, with the error of removing it. *)
Definition nameless (s : OsString) : option Z :=
  match last (steps s) with
  | None => Some 16
  | Some c => if bool_decide (c = DOT) then Some EINVAL else if bool_decide (c = DOTDOT) then Some ENOTEMPTY else None
  end.

Definition rename (src dst : OsString) (t : Tree) : Tree * Io unit :=
  at_path t src (fun ps snode => at_path t dst (fun pd dnode =>
    match snode with
    | None => (t, Raise (Os ENOENT))
    | Some s =>
      if bool_decide (is_Some (nameless src) \/ is_Some (nameless dst)) then (t, Raise (Os 16))
      else if negb (device ps =? device pd) then (t, Raise (Os EXDEV))
      else if bool_decide (ps = pd) then (t, Val tt)
      else match rename_refused t ps pd, s, dnode with
           | Some e, _, _ => (t, Raise e)
           | None, NFile _, Some NDir => (t, Raise (Os EISDIR))
           | None, NFile _, None => if ends_sep dst then (t, Raise (Os ENOTDIR)) else (move ps pd t, Val tt)
           | None, NFile _, Some (NFile _) => (move ps pd t, Val tt)
           | None, NDir, Some (NFile _) => (t, Raise (Os ENOTDIR))
           | None, NDir, d =>
             if bool_decide (is_Some (under ps pd)) then (t, Raise (Os EINVAL))
             else if bool_decide (d = Some NDir /\ children t pd <> []) then (t, Raise (Os ENOTEMPTY))
             else (move ps pd t, Val tt)
           end
    end)).

Definition remove_file (s : OsString) (t : Tree) : Tree * Io unit :=
  at_path t s (fun p node =>
    match node, remove_refused t p with
    | None, _ => (t, Raise (Os ENOENT))
    | Some NDir, _ => (t, Raise (Os EISDIR))
    | Some (NFile _), Some e => (t, Raise e)
    | Some (NFile _), None => (delete p t, Val tt)
    end).

(** What is in the directory goes first; the directory itself has to have a
    name. *)
Definition remove_dir_all (s : OsString) (t : Tree) : Tree * Io unit :=
  at_path t s (fun p node =>
    match node with
    | None => (t, Raise (Os ENOENT))
    | Some (NFile _) => (t, Raise (Os ENOTDIR))
    | Some NDir =>
      match nameless s with
      | Some e => (filter (fun kv => under p (fst kv) = None \/ fst kv = p) t, Raise (Os e))
      | None => (prune p t, Val tt)
      end
    end).
End calls.

(** Nothing is refused to those who read and write. *)
Definition unrefused `{Faults} : Prop :=
  (forall t p, read_refused t p = None) /\ (forall t p, write_refused t p = None) /\ forall t p bs, torn t p bs = None.

(** ** Subtrees *)

Lemma under_Some d p q : under d p = Some q <-> p = d ++ q.
Proof.
  revert p. induction d as [|a d IH]; intros p; cbn [under app]; [split; congruence|].
  destruct p as [|b p]; [done|]. case_bool_decide as H; [subst; rewrite IH|]; split; congruence.
Qed.
Lemma under_app d q : under d (d ++ q) = Some q.
Proof. by apply under_Some. Qed.
Lemma under_self d : under d d = Some [].
Proof. apply under_Some. by rewrite app_nil_r. Qed.

(** Below neither is the other. *)
Definition apart (p q : Path) : Prop := under p q = None /\ under q p = None.

Lemma apart_sym p q : apart p q -> apart q p.
Proof. unfold apart. tauto. Qed.

Lemma apart_below p q a b : apart p q -> apart (p ++ a) (q ++ b).
Proof.
  intros [H1 H2]. split; apply eq_None_not_Some; intros [x Hx]; apply under_Some in Hx;
    rewrite <- app_assoc in Hx; apply app_eq_app in Hx as [l [[-> _]|[-> _]]];
    rewrite under_app in H1 || rewrite under_app in H2; done.
Qed.
Lemma apart_under p q r : apart p q -> is_Some (under p r) -> under q r = None.
Proof.
  intros H [x Hx]. apply under_Some in Hx as ->. apply eq_None_not_Some. intros [y Hy].
  apply under_Some in Hy. destruct (apart_below p q x y H) as [_ E]. rewrite <- Hy, under_self in E. done.
Qed.
Lemma apart_app p q a : apart p q -> under q (p ++ a) = None.
Proof. intros H. apply (apart_under p q); [done|]. by rewrite under_app. Qed.

Lemma apart_snoc p q n a : apart p q -> under (q ++ [n]) (p ++ a) = None.
Proof.
  intros H. pose proof (apart_below p q a [n] H) as [_ E]. destruct (under (q ++ [n]) (p ++ a)) as [x|] eqn:Ex; [|done].
  apply under_Some in Ex. rewrite <- app_assoc in Ex.
  destruct (apart_below p q a ([n] ++ x) H) as [_ E2]. by rewrite Ex, under_self in E2.
Qed.
Lemma under_snoc_self p n : under (p ++ [n]) p = None.
Proof.
  destruct (under (p ++ [n]) p) as [q|] eqn:E; [|done]. apply under_Some in E.
  apply (f_equal length) in E. rewrite !length_app in E. cbn in E. lia.
Qed.
Lemma under_snoc_cons p m n q : under (p ++ [m]) (p ++ n :: q) = if bool_decide (m = n) then Some q else None.
Proof.
  case_bool_decide as E; [subst; apply under_Some; by rewrite <- app_assoc|].
  destruct (under (p ++ [m]) (p ++ n :: q)) as [x|] eqn:Ex; [|done]. apply under_Some in Ex.
  rewrite <- app_assoc in Ex. apply app_inv_head in Ex. by injection Ex.
Qed.

Lemma lookup_graft ps pd t r :
  graft ps pd t !! r = match under pd r with Some q => t !! (ps ++ q) | None => None end.
Proof.
  unfold graft. apply option_eq. intros n. split.
  - intros H%elem_of_list_to_map_2. apply list_elem_of_omap in H as [[r' n'] [Hr H]].
    apply elem_of_map_to_list in Hr. unfold graft_entry in H. cbn [fst snd] in H.
    destruct (under ps r') as [q|] eqn:E; [|done]. injection H as <- <-. apply under_Some in E as ->.
    by rewrite under_app.
  - destruct (under pd r) as [q|] eqn:E; [|done]. apply under_Some in E as ->. intros H.
    assert (graft_entry ps pd (ps ++ q, n) = Some (pd ++ q, n)) as G
      by (unfold graft_entry; cbn [fst snd]; by rewrite under_app).
    apply elem_of_list_to_map_1'.
    + intros n' H'. apply list_elem_of_omap in H' as [[r' x] [Hr H']]. apply elem_of_map_to_list in Hr.
      unfold graft_entry in H'. cbn [fst snd] in H'. destruct (under ps r') as [q'|] eqn:E; [|done].
      apply under_Some in E as ->. assert (q' = q) as -> by (simplify_eq; done). congruence.
    + apply list_elem_of_omap. exists (ps ++ q, n). by rewrite elem_of_map_to_list.
Qed.

Lemma lookup_prune p t r : prune p t !! r = match under p r with Some _ => None | None => t !! r end.
Proof.
  unfold prune. apply option_eq. intros n. rewrite map_lookup_filter_Some. cbn [fst].
  destruct (under p r); intuition congruence.
Qed.

Lemma elem_children t d n : n ∈ children t d <-> is_Some (t !! (d ++ [n])).
Proof.
  unfold children. rewrite list_elem_of_omap. split.
  - intros (r & Hr & H). change (map fst (map_to_list t)) with ((map_to_list t).*1) in Hr.
    apply list_elem_of_fmap in Hr as ((r' & x) & -> & Hx). cbn [fst] in H.
    unfold child_of in H. destruct (under d r') as [[|m [|]]|] eqn:E; try done. injection H as ->.
    apply under_Some in E as ->. apply elem_of_map_to_list in Hx. by eexists.
  - intros [x Hx]. exists (d ++ [n]). unfold child_of. rewrite under_app. split; [|done].
    change (map fst (map_to_list t)) with ((map_to_list t).*1). apply list_elem_of_fmap. exists (d ++ [n], x). by rewrite elem_of_map_to_list.
Qed.

Lemma NoDup_children t d : NoDup (children t d).
Proof.
  unfold children. pose proof (NoDup_fst_map_to_list t) as H.
  change (map fst (map_to_list t)) with ((map_to_list t).*1).
  induction ((map_to_list t).*1) as [|r l IH]; [constructor|]. apply NoDup_cons in H as [Hr Hl].
  cbn [omap list_omap]. destruct (child_of d r) as [n|] eqn:E; [|by apply IH]. apply NoDup_cons.
  split; [|by apply IH]. intros (r' & Hr' & E')%list_elem_of_omap.
  assert (forall r, child_of d r = Some n -> r = d ++ [n]) as Hc.
  { intros r0. unfold child_of. destruct (under d r0) as [[|m [|]]|] eqn:E0; try done. intros [= ->].
    by apply under_Some. }
  apply Hc in E, E'. by subst.
Qed.

Lemma node_at_ne t p : p <> [] -> node_at t p = t !! p.
Proof. by destruct p. Qed.
Lemma node_at_snoc t p n : node_at t (p ++ [n]) = t !! (p ++ [n]).
Proof. apply node_at_ne. by destruct p. Qed.
Lemma node_at_app t p q : p <> [] -> node_at t (p ++ q) = t !! (p ++ q).
Proof. intros H. apply node_at_ne. by destruct p. Qed.
Lemma apart_ne p q : apart p q -> p <> [] /\ q <> [].
Proof. intros [H1 H2]. split; intros ->; [done|]. destruct p; done. Qed.

(** ** Paths as strings *)

Lemma pieces_snoc s n : Forall (fun c => c <> SEP) n -> pieces (s ++ SEP :: n) = pieces s ++ [n].
Proof.
  intros Hn. unfold pieces. induction s as [|c s IH]; cbn [app split_char].
  - rewrite Z.eqb_refl. by rewrite split_char_none.
  - rewrite IH. destruct (c =? SEP); [done|]. pose proof (split_char_ne SEP s).
    by destruct (split_char SEP s).
Qed.

Lemma steps_join s n : s <> [] -> name_ok n -> steps (join s n) = steps s ++ [n].
Proof.
  intros Hs (Hne & _ & _ & Hn). unfold join.
  assert (absolute n = false) as ->.
  { destruct n as [|c n]; [done|]. unfold absolute, starts_with. cbn [str_strip_prefix].
    by rewrite (proj2 (Z.eqb_neq _ _)) by (apply not_eq_sym; exact (Forall_inv Hn)). }
  rewrite (bool_decide_eq_false_2 (s = [])) by done. unfold ends_sep. case_bool_decide as E.
  - apply last_Some in E as [s' ->]. unfold steps. rewrite <- app_assoc. cbn [app].
    rewrite !pieces_snoc by (done || constructor). rewrite !List.filter_app. cbn [List.filter].
    rewrite (bool_decide_eq_false_2 (n = [])), (bool_decide_eq_true_2 ([] = [])) by done. cbn [negb].
    by rewrite app_nil_r.
  - unfold steps. rewrite pieces_snoc, List.filter_app by done. cbn [List.filter].
    by rewrite (bool_decide_eq_false_2 (n = [])).
Qed.

Lemma absolute_join s n : s <> [] -> name_ok n -> absolute (join s n) = absolute s.
Proof.
  intros Hs (Hne & _ & _ & Hn). unfold join.
  assert (absolute n = false) as ->.
  { destruct n as [|c n]; [done|]. unfold absolute, starts_with. cbn [str_strip_prefix].
    by rewrite (proj2 (Z.eqb_neq _ _)) by (apply not_eq_sym; exact (Forall_inv Hn)). }
  rewrite (bool_decide_eq_false_2 (s = [])) by done. destruct s as [|c s]; [done|].
  unfold absolute, starts_with. destruct (ends_sep (c :: s)); cbn [app str_strip_prefix]; by destruct (SEP =? c).
Qed.

Lemma join_ends s n : s <> [] -> name_ok n -> ends_sep (join s n) = false /\ join s n <> [].
Proof.
  intros Hs (Hne & _ & _ & Hn). unfold join.
  destruct (absolute n); [|rewrite (bool_decide_eq_false_2 (s = [])) by done];
    (split; [|repeat case_match; by destruct s, n]); unfold ends_sep at 1; apply bool_decide_eq_false_2;
    (destruct (exists_last Hne) as (n' & c & ->)); apply Forall_app in Hn as [_ Hc];
    pose proof (Forall_inv Hc) as Hc'; cbn beta in Hc'.
  - rewrite last_snoc. congruence.
  - destruct (ends_sep s).
    + rewrite app_assoc, last_snoc. congruence.
    + rewrite app_comm_cons, app_assoc, last_snoc. congruence.
Qed.

(** A name joined to a path is its last step: it has a name to be removed by. *)
Lemma nameless_join s n : s <> [] -> name_ok n -> nameless (join s n) = None.
Proof.
  intros Hs Hn. unfold nameless. rewrite steps_join, last_snoc by done. destruct Hn as (_ & H1 & H2 & _).
  by rewrite !bool_decide_eq_false_2.
Qed.

Lemma pieces_free s : Forall (Forall (fun c => c <> SEP)) (pieces s).
Proof.
  unfold pieces. induction s as [|c s IH]; cbn [split_char]; [by repeat constructor|].
  destruct (Z.eqb_spec c SEP); [by constructor|]. destruct (split_char SEP s) as [|w ws]; [by repeat constructor|].
  constructor; [|exact (Forall_inv_tail IH)]. constructor; [done|exact (Forall_inv IH)].
Qed.

(** Components: no separator inside, not empty, no dot. *)
Lemma comps_ok s : Forall (fun c => Forall (fun c => c <> SEP) c /\ c <> [] /\ c <> DOT) (comps s).
Proof.
  apply List.Forall_forall. intros c Hc. apply filter_In in Hc as [Hc Hd]. apply filter_In in Hc as [Hc He].
  rewrite negb_true_iff, bool_decide_eq_false in Hd, He. repeat split; [|done|done].
  pose proof (pieces_free s) as H. rewrite List.Forall_forall in H. by apply H.
Qed.

Lemma steps_join_char cs : Forall (fun c => Forall (fun c => c <> SEP) c /\ c <> []) cs ->
  steps (join_char SEP cs) = cs.
Proof.
  intros H. unfold steps, pieces. destruct cs as [|c cs]; [done|]. rewrite split_join_char; [|done|].
  - induction H as [|a l [_ Ha] _ IH]; [done|]. cbn [List.filter].
    rewrite bool_decide_eq_false_2 by done. cbn [negb]. by rewrite IH.
  - eapply Forall_impl; [exact H|]. by intros x [Hx _].
Qed.

Lemma removelast_Forall {A} (P : A -> Prop) l : Forall P l -> Forall P (removelast l).
Proof.
  intros H. destruct l as [|x l]; [done|]. destruct (exists_last (l := x :: l) ltac:(done)) as (l' & y & E).
  rewrite E in H |- *. rewrite removelast_last. by apply Forall_app in H as [H _].
Qed.

Lemma steps_root s : steps (SEP :: s) = steps s.
Proof. done. Qed.

Lemma absolute_join_char cs : Forall (fun c => Forall (fun c => c <> SEP) c /\ c <> []) cs ->
  absolute (join_char SEP cs) = false.
Proof.
  intros H. destruct cs as [|[|b c] cs]; [done|by destruct (Forall_inv H)|].
  destruct (Forall_inv H) as [Hc _]. unfold absolute, starts_with.
  destruct cs; cbn [join_char app str_strip_prefix];
    by rewrite (proj2 (Z.eqb_neq _ _)) by (apply not_eq_sym; exact (Forall_inv Hc)).
Qed.

Lemma parent_comps s p : parent s = Some p -> comps p = removelast (comps s).
Proof.
  unfold parent. pose proof (comps_ok s) as Hok. destruct (comps s) as [|c cs]; [by destruct (_ || _); [|intros [= <-]]|].
  intros [= <-]. change (match cs with [] => [] | _ :: _ => c :: removelast cs end) with (removelast (c :: cs)).
  set (l := removelast (c :: cs)). assert (Forall (fun c => Forall (fun c => c <> SEP) c /\ c <> [] /\ c <> DOT) l)
    as Hl by by apply removelast_Forall.
  set (dots := if leading_dot s then [DOT] else [] : list OsString).
  assert (steps (join_char SEP (dots ++ l)) = dots ++ l) as Es.
  { apply steps_join_char. apply Forall_app. split; [subst dots; destruct (leading_dot s); repeat constructor; done|].
    eapply Forall_impl; [exact Hl|]. by intros ? (? & ? & _). }
  assert (List.filter (fun c => negb (bool_decide (c = DOT))) (dots ++ l) = l) as Ef.
  { rewrite List.filter_app. assert (List.filter (fun c => negb (bool_decide (c = DOT))) dots = []) as ->
      by (subst dots; by destruct (leading_dot s)).
    cbn [app]. clear Es. clearbody l. induction Hl as [|a l' (_ & _ & Ha) _ IH]; [done|]. cbn [List.filter].
    rewrite bool_decide_eq_false_2 by done. cbn [negb]. by rewrite IH. }
  unfold comps. destruct (absolute s); cbn [app]; rewrite ?steps_root, Es; exact Ef.
Qed.

(** ** Looking paths up *)

(** The directories of one tree are directories of the other. *)
Definition dirs_kept (t t1 : Tree) : Prop := forall p, node_at t p = Some NDir -> node_at t1 p = Some NDir.

#[export] Instance dirs_kept_preorder : PreOrder dirs_kept.
Proof. split; [by intros t p|]. intros t1 t2 t3 H1 H2 p H. by apply H2, H1. Qed.

Section lookups.
Context (cwd : Path).
Implicit Types (t : Tree) (p q d : Path) (s : OsString).

Lemma walk_app t a b : forall cur m, walk t cur a = inr m -> walk t cur (a ++ b) = walk t m b.
Proof.
  induction a as [|c a IH]; intros cur m; cbn [walk app]; [by intros [= ->]|].
  destruct (node_at t cur) as [[|]|]; [done| |done]. apply IH.
Qed.

Lemma walk_app_inv t a b : forall cur p, walk t cur (a ++ b) = inr p ->
  exists m, walk t cur a = inr m /\ walk t m b = inr p.
Proof.
  induction a as [|c a IH]; intros cur p; cbn [walk app]; [by exists cur|].
  destruct (node_at t cur) as [[|]|]; [done| |done]. apply IH.
Qed.

Lemma walk_first t cur c cs p : walk t cur (c :: cs) = inr p -> node_at t cur = Some NDir.
Proof. cbn [walk]. by destruct (node_at t cur) as [[|]|]. Qed.

Lemma walk_mono t t1 cs : dirs_kept t t1 -> forall cur p, walk t cur cs = inr p -> walk t1 cur cs = inr p.
Proof.
  intros Hk. induction cs as [|c cs IH]; intros cur p; [done|]. cbn [walk].
  destruct (node_at t cur) as [[|]|] eqn:E; [done| |done]. rewrite (Hk _ E). apply IH.
Qed.

Lemma walk_dots t cs : forall cur p, walk t cur cs = inr p ->
  walk t cur (List.filter (fun c => negb (bool_decide (c = DOT))) cs) = inr p.
Proof.
  induction cs as [|c cs IH]; intros cur p; [done|]. cbn [walk List.filter].
  destruct (node_at t cur) as [[|]|] eqn:E; [done| |done].
  destruct (bool_decide (c = DOT)) eqn:Ed; cbn [negb]; [apply IH|]. cbn [walk]. rewrite E, Ed. apply IH.
Qed.

Lemma reach_mono t t1 s p : dirs_kept t t1 -> reach cwd t s = inr p -> reach cwd t1 s = inr p.
Proof. intros Hk. unfold reach. destruct s; [done|]. by apply walk_mono. Qed.

Lemma locate_reach t s p : locate cwd t s = inr p -> reach cwd t s = inr p.
Proof. unfold locate. repeat case_match; congruence. Qed.
Lemma reach_locate t s p : reach cwd t s = inr p ->
  (node_at t p = Some NDir \/ node_at t p = None \/ ends_sep s = false) -> locate cwd t s = inr p.
Proof. unfold locate. intros ->. intros [-> |[-> | ->]]; [done|done|]. by repeat case_match. Qed.

Lemma locate_ne t s p : reach cwd t s = inr p -> s <> [].
Proof. by intros H ->. Qed.

(** Where a directory is, its entry is found by the joined name. *)
Lemma reach_join t s d n : reach cwd t s = inr d -> node_at t d = Some NDir -> name_ok n ->
  locate cwd t (join s n) = inr (d ++ [n]).
Proof.
  intros Hs Hd Hn. pose proof (locate_ne _ _ _ Hs) as Hne. destruct (join_ends s n Hne Hn) as [He Hj].
  apply reach_locate; [|auto]. unfold reach in *. destruct s as [|c s]; [done|].
  destruct (join (c :: s) n) as [|c' s'] eqn:E; [done|]. rewrite <- E, absolute_join, steps_join by done.
  rewrite (walk_app _ _ _ _ _ Hs). cbn [walk]. rewrite Hd. destruct Hn as (_ & H1 & H2 & _).
  by rewrite !bool_decide_eq_false_2.
Qed.

Lemma stat_dir t s p : reach cwd t s = inr p -> node_at t p = Some NDir -> path_is_dir cwd t s = true.
Proof.
  intros Hs Hp. unfold path_is_dir, stat. rewrite (reach_locate _ _ _ Hs) by auto. rewrite Hp.
  by apply bool_decide_eq_true.
Qed.
Lemma path_is_dir_inv t s : path_is_dir cwd t s = true -> exists p, locate cwd t s = inr p /\ node_at t p = Some NDir.
Proof.
  unfold path_is_dir, stat. rewrite bool_decide_eq_true. destruct (locate cwd t s) as [e|p] eqn:E; [done|].
  intros H. by exists p.
Qed.

(** The parent of a path that can be walked is a directory. *)
Lemma parent_is_dir t s q (p : OsString) : parent s = Some p -> reach cwd t s = inr q ->
  p = [] \/ exists d, reach cwd t p = inr d /\ node_at t d = Some NDir.
Proof.
  intros Hp Hs. pose proof (locate_ne _ _ _ Hs) as Hne. unfold reach in Hs. destruct s as [|c0 s0]; [done|].
  set (s := c0 :: s0) in *. set (base := if absolute s then [] else cwd) in *.
  apply walk_dots in Hs. change (List.filter _ (steps s)) with (comps s) in Hs.
  pose proof (comps_ok s) as Hok. unfold parent in Hp. destruct (comps s) as [|c cs] eqn:Ec.
  { left. by destruct (_ || _) in Hp; [|injection Hp as <-]. }
  assert (c :: cs <> []) as Hcs by done. destruct (exists_last Hcs) as (l & c1 & El).
  rewrite El in Hp, Hs, Hok. rewrite removelast_last in Hp.
  apply walk_app_inv in Hs as (d & Hd & Hlast). apply walk_first in Hlast.
  assert (exists dots, p = (if absolute s then [SEP] else []) ++ join_char SEP (dots ++ l)
    /\ (dots = [] \/ dots = [DOT])) as (dots & Ep & Hdots).
  { destruct (l ++ [c1]) as [|x y] eqn:E; [by destruct l|]. injection Hp as <-. eexists. split; [done|].
    destruct (leading_dot s); auto. }
  apply Forall_app in Hok as [Hok _].
  assert (Forall (fun c => Forall (fun c => c <> SEP) c /\ c <> []) (dots ++ l)) as Hf.
  { apply Forall_app. split; [destruct Hdots as [-> | ->]; [done|]; by repeat constructor|].
    eapply Forall_impl; [exact Hok|]. tauto. }
  assert (walk t base (dots ++ l) = inr d) as Hw.
  { destruct Hdots as [-> | ->]; [done|]. cbn [app walk].
    assert (node_at t base = Some NDir) as ->
      by (destruct l as [|x l]; [by injection Hd as ->|by apply walk_first in Hd]).
    by rewrite (bool_decide_eq_true_2 (DOT = DOT)). }
  subst p base. destruct (absolute s) eqn:Ea; cbn [app].
  - right. exists d. split; [|done]. unfold reach. by rewrite steps_root, steps_join_char.
  - destruct (dots ++ l) as [|x xs] eqn:El'; [by left|]. right. exists d. split; [|done].
    rewrite <- El' in *. unfold reach. rewrite absolute_join_char, steps_join_char by done.
    destruct (join_char SEP (dots ++ l)) eqn:Ej; [|done]. exfalso.
    assert (steps (join_char SEP (dots ++ l)) = dots ++ l) as H by by apply steps_join_char.
    rewrite Ej, El' in H. done.
Qed.
End lookups.

(** ** Making directories *)

Lemma create_dir_all_there cwd t s :
  s = [] \/ (exists d, reach cwd t s = inr d /\ node_at t d = Some NDir) -> create_dir_all cwd s t = (t, Val tt).
Proof.
  intros [-> |(d & Hs & Hd)]; [done|]. unfold create_dir_all. cbn [make_dirs].
  pose proof (locate_ne _ _ _ _ Hs) as Hne. destruct s as [|c s]; [done|]. unfold create_dir. rewrite Hs, Hd.
  cbn [EEXIST]. unfold settle. by rewrite (stat_dir _ _ _ _ Hs Hd).
Qed.

Lemma create_dir_all_new cwd t s p : reach cwd t s = inr p -> node_at t p = None ->
  create_dir_all cwd s t = (<[p := NDir]> t, Val tt).
Proof.
  intros Hs Hp. unfold create_dir_all. cbn [make_dirs]. pose proof (locate_ne _ _ _ _ Hs) as Hne.
  destruct s as [|c s]; [done|]. unfold create_dir. by rewrite Hs, Hp.
Qed.

(** ** Well-formed trees, and one subtree laid over another *)

Definition tree_ok (t : Tree) : Prop :=
  forall p x, t !! p = Some x -> p <> [] /\ Forall name_ok p /\ node_at t (removelast p) = Some NDir.

(** The same of what is below [p]. *)
Definition below_ok (t : Tree) (p : Path) : Prop :=
  forall q, is_Some (t !! (p ++ q)) ->
  Forall name_ok q /\ forall q1 q2, q = q1 ++ q2 -> q2 <> [] -> t !! (p ++ q1) = Some NDir.

Lemma tree_ok_below t p : p <> [] -> tree_ok t -> below_ok t p.
Proof.
  intros Hp Ht q. induction q as [|n q IH] using rev_ind; intros [x Hx].
  { split; [done|]. intros q1 q2 E Hq. by destruct q1, q2. }
  rewrite app_assoc in Hx. destruct (Ht _ _ Hx) as (_ & Hn & Hd). rewrite removelast_last in Hd.
  rewrite node_at_app in Hd by done. destruct (IH ltac:(by eexists)) as [Hq Hdirs]. split.
  - apply Forall_app. split; [done|]. apply Forall_app in Hn as [_ Hn]. by constructor; [exact (Forall_inv Hn)|].
  - intros q1 q2 E Hq2. destruct (exists_last Hq2) as (q2' & m & ->). rewrite app_assoc in E.
    apply app_inj_tail in E as [-> ->]. destruct q2' as [|z zs]; [by rewrite app_nil_r in Hd|].
    by apply (Hdirs q1 (z :: zs)).
Qed.

Definition overlay (ps pd : Path) (t : Tree) : Tree := graft ps pd t ∪ t.

(** Where both trees have something, both have a directory or both a file. *)
Definition fits (t : Tree) (ps pd : Path) : Prop :=
  forall q a b, t !! (ps ++ q) = Some a -> t !! (pd ++ q) = Some b -> (a = NDir <-> b = NDir).

Lemma lookup_overlay ps pd t r :
  overlay ps pd t !! r = match under pd r with
    | Some q => match t !! (ps ++ q) with Some x => Some x | None => t !! r end
    | None => t !! r
    end.
Proof.
  unfold overlay. rewrite lookup_union, lookup_graft. destruct (under pd r) as [q|]; [destruct (t !! (ps ++ q))|];
    destruct (t !! r); done.
Qed.

Lemma overlay_dirs_kept ps pd t : fits t ps pd -> pd <> [] -> dirs_kept t (overlay ps pd t).
Proof.
  intros Hf Hp r. destruct r as [|c r]; [done|]. cbn [node_at]. intros Hr. rewrite lookup_overlay.
  destruct (under pd (c :: r)) as [q|] eqn:E; [|done]. apply under_Some in E.
  destruct (t !! (ps ++ q)) as [a|] eqn:Ea; [|done]. rewrite E in Hr. f_equal. by apply (Hf q a NDir).
Qed.

Lemma insert_dirs_kept t p x : node_at t p <> Some NDir \/ x = NDir -> dirs_kept t (<[p := x]> t).
Proof.
  intros H r Hr. destruct r as [|c r]; [done|]. cbn [node_at] in *. destruct (decide (p = c :: r)) as [-> |Hne].
  - rewrite lookup_insert_eq. destruct H as [H| ->]; [by destruct H|done].
  - by rewrite lookup_insert_ne.
Qed.

(** What holds of a concrete tree is checked entry by entry. *)
Definition each_entry (f : Path -> Node -> bool) (t : Tree) : bool :=
  forallb (fun kv : Path * Node => f kv.1 kv.2) (map_to_list t).
Lemma each_entry_all f t : each_entry f t = true -> forall r x, t !! r = Some x -> f r x = true.
Proof.
  intros Hf r x Hx. unfold each_entry in Hf. rewrite forallb_forall in Hf. apply (Hf (r, x)).
  by apply list_elem_of_In, elem_of_map_to_list.
Qed.

Definition entry_okb (t : Tree) (p : Path) (_ : Node) : bool :=
  negb (bool_decide (p = []))
  && bool_decide (Forall (fun n : OsString => n <> [] /\ n <> DOT /\ n <> DOTDOT /\ Forall (fun c => c <> SEP) n) p)
  && bool_decide (node_at t (removelast p) = Some NDir).
Lemma tree_ok_check t : each_entry (entry_okb t) t = true -> tree_ok t.
Proof.
  intros Ht p x Hx. pose proof (each_entry_all _ _ Ht p x Hx) as E. unfold entry_okb in E.
  rewrite !andb_true_iff, negb_true_iff, bool_decide_eq_false, !bool_decide_eq_true in E. tauto.
Qed.

Definition entry_fitsb (t : Tree) (ps pd : Path) (r : Path) (b : Node) : bool :=
  match under pd r with
  | None => true
  | Some q => match t !! (ps ++ q) with
              | None => true
              | Some a => Bool.eqb (bool_decide (a = NDir)) (bool_decide (b = NDir))
              end
  end.
Lemma fits_check t ps pd : each_entry (entry_fitsb t ps pd) t = true -> fits t ps pd.
Proof.
  intros Ht q a b Ha Hb. pose proof (each_entry_all _ _ Ht _ _ Hb) as E. unfold entry_fitsb in E.
  rewrite under_app, Ha in E. apply eqb_prop in E. rewrite <- (bool_decide_eq_true (a = NDir)).
  by rewrite E, bool_decide_eq_true.
Qed.

Definition entry_depthb (p : Path) (n : nat) (r : Path) (_ : Node) : bool :=
  match under p r with None => true | Some q => (length q <? n)%nat end.
Lemma depth_check t p n : each_entry (entry_depthb p n) t = true ->
  forall q, is_Some (t !! (p ++ q)) -> (length q < n)%nat.
Proof.
  intros Ht q [x Hx]. pose proof (each_entry_all _ _ Ht _ _ Hx) as E. unfold entry_depthb in E.
  rewrite under_app in E. by apply Nat.ltb_lt.
Qed.

(** ** Where a path that is no directory leads *)

Lemma tree_ok_up t p : tree_ok t -> node_at t p = Some NDir -> node_at t (removelast p) = Some NDir.
Proof. intros Ht Hp. destruct p as [|c p]; [done|]. by apply (Ht _ NDir). Qed.

(** The last step was a name, taken from a directory. *)
Lemma reach_named cwd t s p : tree_ok t -> node_at t cwd = Some NDir -> reach cwd t s = inr p -> node_at t p <> Some NDir ->
  nameless s = None /\ exists d n, p = d ++ [n] /\ node_at t d = Some NDir.
Proof.
  intros Ht Hcwd Hs Hp. unfold reach in Hs. destruct s as [|c0 s0]; [done|]. set (s := c0 :: s0) in *.
  unfold nameless. destruct (steps s) as [|c cs] eqn:E.
  { injection Hs as <-. destruct (absolute s); done. }
  assert (c :: cs <> []) as Hcs by done. destruct (exists_last Hcs) as (l & m & El). rewrite El in Hs |- *.
  rewrite last_snoc. apply walk_app_inv in Hs as (d & _ & Hd). pose proof (walk_first _ _ _ _ _ Hd) as Hdir.
  cbn [walk] in Hd. rewrite Hdir in Hd. injection Hd as <-.
  destruct (bool_decide (m = DOT)); [done|]. destruct (bool_decide (m = DOTDOT)); [by destruct Hp; apply tree_ok_up|].
  split; [done|]. by exists d, m.
Qed.

(** Nothing is below what is no directory. *)
Lemma nothing_below t p q : tree_ok t -> p <> [] -> q <> [] -> t !! p <> Some NDir -> t !! (p ++ q) = None.
Proof.
  intros Ht Hp Hq Hn. apply eq_None_not_Some. intros Hx. destruct (tree_ok_below t p Hp Ht q Hx) as [_ Hd].
  specialize (Hd [] q eq_refl Hq). by rewrite app_nil_r in Hd.
Qed.

Lemma dir_above t p n q : tree_ok t -> q <> [] -> is_Some (t !! (p ++ n :: q)) -> t !! (p ++ [n]) = Some NDir.
Proof.
  intros Ht Hq Hx. change (n :: q) with ([n] ++ q) in Hx. rewrite app_assoc in Hx.
  destruct (tree_ok_below t (p ++ [n]) ltac:(by destruct p) Ht q Hx) as [_ Hd].
  specialize (Hd [] q eq_refl Hq). by rewrite app_nil_r in Hd.
Qed.

Lemma move_onto_itself p t : move p p t = t.
Proof.
  apply map_eq. intros r. unfold move. rewrite lookup_union, lookup_graft, !lookup_prune.
  destruct (under p r) as [q|] eqn:E; [apply under_Some in E as ->|]; by destruct (t !! _).
Qed.

(** Moving a file is writing it there and removing it here. *)
Lemma move_file ps pd bs t : tree_ok t -> t !! ps = Some (NFile bs) -> ps <> pd -> pd <> [] -> t !! pd <> Some NDir ->
  (exists d n, pd = d ++ [n] /\ node_at t d = Some NDir) -> delete ps (<[pd := NFile bs]> t) = move ps pd t.
Proof.
  intros Ht Hs Hne Hpd Hd (d & n & Ep & Hdd). assert (ps <> []) as Hps by by destruct (Ht _ _ Hs).
  assert (forall q, q <> [] -> t !! (ps ++ q) = None) as Hbs by (intros; apply nothing_below; [done|done|done|by rewrite Hs]).
  apply map_eq. intros r. unfold move. rewrite lookup_union, lookup_graft, !lookup_prune.
  destruct (decide (r = ps)) as [-> |Hrs].
  { rewrite lookup_delete_eq, under_self. destruct (under pd ps) as [q|] eqn:E; [|done]. apply under_Some in E.
    destruct q as [|m q]; [by rewrite app_nil_r in E|]. rewrite E, nothing_below in Hs by done. done. }
  rewrite lookup_delete_ne by done. destruct (under pd r) as [q|] eqn:E.
  - apply under_Some in E as ->. destruct q as [|m q].
    + by rewrite !app_nil_r, lookup_insert_eq, Hs.
    + rewrite Hbs by done. rewrite lookup_insert_ne.
      * by rewrite nothing_below.
      * intros E. apply (f_equal length) in E. rewrite length_app in E. cbn in E. lia.
  - rewrite lookup_insert_ne by (intros <-; by rewrite under_self in E).
    destruct (under ps r) as [q|] eqn:E2; [|by destruct (t !! r)]. apply under_Some in E2 as ->.
    rewrite Hbs; [done|]. intros ->. by rewrite app_nil_r in Hrs.
Qed.
