(* ===== verification/CoreMain.v ===== *)
(** * The programs over the filesystem interface ([rls], [rcat])

    [main] of [bin/rls.rs] and [bin/rcat.rs] and [native::open_ambient_file]
    of [coreutils/src/lib.rs], over any backend; opening a directory by its
    ambient path is a parameter, [LinuxFd.open_ambient] on Linux and
    [WinFs.open_ambient_dir] on Windows.  What [main] still holds when it
    returns goes with the process. *)

From Stdlib Require Import ZArith Lia String.
From stdpp Require Import base numbers list strings gmap sorting.
From S2P Require Import Prelude Error Text Cli StdFs Fs MockFs Calendar CoreFs.
Open Scope Z_scope.

(** ** How an error is displayed ([platform/src/error.rs]) *)

Definition kind_name (k : ErrorKind) : string :=
  match k with
  | NotFound => "NotFound" | PermissionDenied => "PermissionDenied" | AlreadyExists => "AlreadyExists"
  | NotADirectory => "NotADirectory" | IsADirectory => "IsADirectory" | DirectoryNotEmpty => "DirectoryNotEmpty"
  | InvalidInput => "InvalidInput" | WouldBlock => "WouldBlock" | Interrupted => "Interrupted"
  | BrokenPipe => "BrokenPipe" | Unsupported => "Unsupported" | ConnectionRefused => "ConnectionRefused"
  | ConnectionReset => "ConnectionReset" | ConnectionAborted => "ConnectionAborted" | NotConnected => "NotConnected"
  | AddrInUse => "AddrInUse" | AddrNotAvailable => "AddrNotAvailable" | TimedOut => "TimedOut"
  | FilesystemLoop => "FilesystemLoop" | CrossesDevices => "CrossesDevices" | Other => "Other"
  end.

Definition show_int (z : Z) : str := if z <? 0 then 45 :: dec (- z) else dec z.
Definition show_os (o : OsCode) : str :=
  match o with
  | Errno c => lit "Errno(" ++ show_int c ++ lit ")"
  | Win32 c => lit "Win32(" ++ show_int c ++ lit ")"
  | NoCode => lit "None"
  end.
Definition path_display (p : option OsString) : str :=
  match p with Some p => lit " on " ++ from_utf8_lossy p | None => [] end.
Definition display (e : PlatformError) : str :=
  lit (op e) ++ lit " failed" ++ path_display (path e) ++ lit ": " ++ lit (kind_name (kind e))
  ++ lit " (" ++ show_os (os e) ++ lit ")".

Section mains.
Context {S D F : Type} {B : FsBackend S D F}.
Context (open_dir : OsString -> S -> S * Run D) (drop_dir : D -> S -> S).

(** [path.parent()] or, where that is nothing, the current directory. *)
Definition ambient_parent (path : OsString) : OsString :=
  match StdFs.parent path with Some (c :: d) => c :: d | _ => DOT end.

(** The directory is a temporary: it is dropped once the file is open. *)
Definition open_ambient_file (path : OsString) (opts : OpenOptions) : S -> S * Run F :=
  match StdFs.file_name path with
  | None => st_lift (fail (with_path (error_new InvalidInput NoCode "open_ambient_file: not a file path") path))
  | Some name =>
    st! d := open_dir (ambient_parent path) in
    fun s => let (s, r) := open_ d name opts s in (drop_dir d s, r)
  end.

(** Standard output takes every byte. *)
Definition write_stdout (bs : list Z) (o : Out) : Out * option Z := (mkOut (stdout o ++ bs) (stderr o), None).

(** A process that ends with a status, after a line on standard error. *)
Definition complain (msg : str) (status : Z) (so : S * Out) : (S * Out) * Run Z :=
  ((fst so, mkOut (stdout (snd so)) (stderr (snd so) ++ msg ++ [10])), ret status).

(** [match m { Ok(a) => k(a), Err(e) => { eprintln!("prog: {e}"); FAILURE } }]. *)
Definition or_fail {A} (prog : str) (m : S * Out -> (S * Out) * Run A) (k : A -> S * Out -> (S * Out) * Run Z)
    (so : S * Out) : (S * Out) * Run Z :=
  match m so with
  | (so, ret a) => k a so
  | (so, fail e) => complain (prog ++ lit ": " ++ display e) 1 so
  | (so, Panic) => (so, Panic)
  | (so, OutOfFuel) => (so, OutOfFuel)
  end.

Definition rcat (fuel : nat) (args : list OsString) : S * Out -> (S * Out) * Run Z :=
  match drop 1 args with
  | [] => complain (lit "usage: rcat <file>") 2
  | path :: _ =>
    match StdFs.file_name path with
    | None => complain (lit "rcat: not a file path: " ++ from_utf8_lossy path) 2
    | Some name =>
      or_fail (lit "rcat") (beside (open_dir (ambient_parent path))) (fun dir =>
      or_fail (lit "rcat") (cat write_stdout fuel dir name) (fun _ => st_lift (ret 0)))
    end
  end.

Definition print_all (ls : list str) (so : S * Out) : (S * Out) * Run Z :=
  ((fst so, mkOut (stdout (snd so) ++ unlines ls) (stderr (snd so))), ret 0).

Definition is_l (a : OsString) : bool := bool_decide (a = lit "-l").

Definition rls (now : Z) (user_name group_name : Z -> str) (args : list OsString) : S * Out -> (S * Out) * Run Z :=
  let args := drop 1 args in
  let long := existsb is_l args in
  let arg := default DOT (List.find (fun a => negb (is_l a)) args) in
  or_fail (lit "rls") (beside (open_dir arg)) (fun dir =>
    if long then
      or_fail (lit "rls") (beside (ls_long dir)) (fun entries =>
        print_all (format_long now user_name group_name entries))
    else or_fail (lit "rls") (beside (ls dir)) (fun entries => print_all (map render entries))).

(** ** What they do *)

Lemma or_fail_ok {A} prog (m : S * Out -> (S * Out) * Run A) k so so' a :
  m so = (so', ret a) -> or_fail prog m k so = k a so'.
Proof. unfold or_fail. by intros ->. Qed.

(** The sink of [cat] may be the standard output. *)
Lemma cat_loop_stdout f fuel : forall s o,
  cat_loop write_stdout fuel f (s, o) =
  (let '((s', out), r) := cat_loop vec_write_all fuel f (s, stdout o) in ((s', mkOut out (stderr o)), r)).
Proof.
  induction fuel as [|fuel IH]; intros s [out errs]; [done|]. cbn [cat_loop]. unfold st_bind, beside. cbn [fst snd].
  destruct (read_ f 8192 s) as [s1 [[[|b bs]|e]| |]]; try done.
  unfold put. cbn [write_stdout vec_write_all fst snd Cli.stdout Cli.stderr]. apply IH.
Qed.
Lemma cat_stdout fuel d n s o :
  cat write_stdout fuel d n (s, o) =
  (let '((s', out), r) := cat vec_write_all fuel d n (s, stdout o) in ((s', mkOut out (stderr o)), r)).
Proof.
  unfold cat, st_bind, beside. cbn [fst snd]. destruct (open_ d n OpenOptions_read s) as [s1 [[f|e]| |]];
    [|by destruct o..]. rewrite cat_loop_stdout. by destruct (cat_loop vec_write_all fuel f (s1, stdout o)) as [[s2 out] r].
Qed.
End mains.

(** [rcat PATH], over the mock: the directory part of the path is opened and
    the file's bytes come out as they are, with status 0 and no message; the
    path needs a name, and the fuel is one round per 8192 bytes and one for the
    end. *)
Theorem rcat_prints_file (open_dir : OsString -> MockFs -> MockFs * Run nat) prog path rest name s s1 d data fuel o :
  StdFs.file_name path = Some name -> open_dir (ambient_parent path) s = (s1, ret d) ->
  fs_ok s1 -> MockFs.is_dir s1 d -> mock_entry s1 d name = Some (EFile data) ->
  zlen data + 8192 <= 8192 * Z.of_nat fuel ->
  exists s', rcat open_dir fuel (prog :: path :: rest) (s, o) =
    ((s', mkOut (stdout o ++ data) (stderr o)), ret 0) /\ nodes s' = nodes s1.
Proof.
  intros Hn Ho Hok Hd He Hf. destruct (cat_copies_file s1 d name data (stdout o) fuel Hok Hd He Hf) as (s' & E & N).
  exists s'. split; [|done]. unfold rcat. cbn [drop]. rewrite Hn.
  rewrite (or_fail_ok _ _ _ _ (s1, o) d) by (unfold beside; cbn [fst snd]; by rewrite Ho).
  rewrite (or_fail_ok _ _ _ _ (s', mkOut (stdout o ++ data) (stderr o)) tt); [done|]. by rewrite cat_stdout, E.
Qed.

(** [rls], over any backend: the entries [read_dir] gives, in the byte order
    of their names, one line each, directories with a slash; or status 1 and a
    message when the directory cannot be opened or read. *)
Theorem rls_lists_sorted {S D F} `{FsBackend S D F} (open_dir : OsString -> S -> S * Run D) now u g prog dir s s1 d s2 es o :
  dir <> lit "-l" -> open_dir dir s = (s1, ret d) -> read_dir_ d s1 = (s2, ret es) ->
  exists sorted, Permutation sorted es /\ Sorted entry_le sorted /\
    rls open_dir now u g [prog; dir] (s, o) = ((s2, mkOut (stdout o ++ unlines (map render sorted)) (stderr o)), ret 0).
Proof.
  intros Hl Ho Hr. exists (sort_entries es). split; [apply merge_sort_Permutation|]. split.
  { apply Sorted_merge_sort. intros a b. apply (total bytes_le). }
  unfold rls. cbn [drop existsb List.find]. unfold is_l. rewrite bool_decide_eq_false_2 by done. cbn [orb negb].
  change (default DOT (Some dir)) with dir.
  rewrite (or_fail_ok _ _ _ _ (s1, o) d) by (unfold beside; cbn [fst snd]; by rewrite Ho).
  rewrite (or_fail_ok _ _ _ _ (s2, o) (sort_entries es)); [done|].
  unfold beside, ls, st_bind. cbn [fst snd]. by rewrite Hr.
Qed.

(** A file of three bytes, one of them no text, in the directory that [.]
    opens. *)
Definition fs_ex : MockFs := fst (with_file 0%nat (lit "f") [104; 255; 10] (snd (root empty_fs))).
Definition open_ex (path : OsString) (s : MockFs) : MockFs * Run nat :=
  if bool_decide (path = DOT) then (s, ret 0%nat) else (s, fail (error_new NotFound NoCode "open_dir")).

Lemma rcat_prints_file_witness :
  exists s', rcat open_ex 2 [lit "rcat"; lit "f"] (fs_ex, no_out) =
    ((s', mkOut (stdout no_out ++ [104; 255; 10]) (stderr no_out)), ret 0) /\ nodes s' = nodes fs_ex.
Proof.
  apply (rcat_prints_file open_ex (lit "rcat") (lit "f") [] (lit "f") fs_ex fs_ex 0%nat [104; 255; 10] 2%nat no_out).
  - vm_compute. reflexivity.
  - vm_compute. reflexivity.
  - apply (fs_ok_insert (snd (root empty_fs)) 0 ∅ (lit "f") (NFile [104; 255; 10]) fs_ok_root);
      [done..|by right].
  - by eexists.
  - vm_compute. reflexivity.
  - simpl. lia.
Defined.

Lemma rls_lists_sorted_witness :
  exists sorted, Permutation sorted [mkDirEntry (lit "f") FtFile] /\ Sorted entry_le sorted /\
    rls open_ex 0 dec dec [lit "rls"; DOT] (fs_ex, no_out) =
    ((fs_ex, mkOut (stdout no_out ++ unlines (map render sorted)) (stderr no_out)), ret 0).
Proof.
  apply (rls_lists_sorted open_ex 0 dec dec (lit "rls") DOT fs_ex fs_ex 0%nat fs_ex [mkDirEntry (lit "f") FtFile] no_out);
    [done|vm_compute; reflexivity|vm_compute; reflexivity].
Defined.

Example rcat_errors :
  rcat open_ex 2 [lit "rcat"; lit "x/f"] (fs_ex, no_out) =
    ((fs_ex, mkOut [] (lit "rcat: open_dir failed: NotFound (None)" ++ [10])), ret 1) /\
  rcat open_ex 2 [lit "rcat"; lit ".."] (fs_ex, no_out) =
    ((fs_ex, mkOut [] (lit "rcat: not a file path: .." ++ [10])), ret 2).
Proof. split; vm_compute; reflexivity. Qed.
