(* ===== verification/FileTools.v ===== *)
(** * The file utilities ([crates/coreutils/src/bin])

    [rcp], [rmv], [rrm], [rtouch], [rmkdir] and [rfind]: each [main], over the
    file tree of [StdFs] and the output streams of [Cli].  Parameters: the
    working directory, the device of a path, the order of a directory's
    entries, what the system refuses, the path translations of the [rpath]
    crate, how an error is displayed, and the regular expressions of
    [rusty_regx]. *)

From Stdlib Require Import ZArith Lia String.
From stdpp Require Import base numbers list strings gmap.
From S2P Require Import Prelude Sys Text Cli StdFs.
Open Scope Z_scope.

(** What the programs take from outside. *)
Class Host := {
  cwd : Path;
  device : Path -> Z;
  order : list OsString -> list OsString;
  faults :: Faults;
  to_win32 : str -> OsString;
  to_posix : str -> str;
  show_io : IoError -> str;
  debug_io : IoError -> str;
  (** [Regex::new]: the error as [{:?}] prints it, or what is matched *)
  regex_new : str -> str + (str -> bool);
  order_permutes l : order l ≡ₚ l;
}.

(** ** Programs over a file tree

    [None] is the end of the fuel. *)

Definition Sh (A : Type) : Type := Tree * Out -> (Tree * Out) * option (Step A).

Definition sh_ret {A} (a : A) : Sh A := fun w => (w, Some (Next a)).
Definition sh_bind {A B} (m : Sh A) (k : A -> Sh B) : Sh B := fun w =>
  match m w with
  | (w, Some (Next a)) => k a w
  | (w, Some (Exit n)) => (w, Some (Exit n))
  | (w, Some Crash) => (w, Some Crash)
  | (w, None) => (w, None)
  end.
Notation "'sh!' x := m 'in' k" := (sh_bind m (fun x => k))
  (at level 10, x pattern, m at level 100, k at level 200).

Definition say {A} (m : IO A) : Sh A := fun '(t, o) => let (o, r) := m o in ((t, o), Some r).
Definition look {A} (f : Tree -> A) : Sh A := fun w => (w, Some (Next (f (fst w)))).
Definition fs {A : Type} (m : Tree -> Tree * Io A) : Sh (IoError + A) := fun '(t, o) =>
  match m t with
  | (t, Val a) => ((t, o), Some (Next (inr a)))
  | (t, Raise e) => ((t, o), Some (Next (inl e)))
  | (t, Endless) => ((t, o), None)
  end.

Fixpoint sh_each {A} (f : A -> Sh unit) (l : list A) : Sh unit :=
  match l with
  | [] => sh_ret tt
  | x :: l => sh! _ := f x in sh_each f l
  end.

(** The same with [?] inside. *)
Fixpoint fs_each {A} (f : A -> Tree -> Tree * Io unit) (l : list A) : Tree -> Tree * Io unit :=
  match l with
  | [] => fs_ret tt
  | x :: l => fs! _ := f x in fs_each f l
  end.

Definition fail_with (msg : str) : Sh unit := sh! _ := say (eprintln msg) in say (exit 1).

Section programs.
Context {H : Host}.

(** ** rcp *)

Fixpoint copy_recursive (fuel : nat) (src dst : OsString) : Tree -> Tree * Io unit :=
  match fuel with
  | O => fun t => (t, Endless)
  | S fuel => fun t =>
    if path_is_dir cwd t src then
      (fs! _ := create_dir_all cwd dst in
       fs! names := read_dir cwd order src in
       fs_each (fun n => copy_recursive fuel (join src n) (join dst n)) names) t
    else
      (fs! _ := match parent dst with Some p => create_dir_all cwd p | None => fs_ret tt end in
       copy cwd src dst) t
  end.

(** [dst_path.join(src_path.file_name().unwrap())] below a directory. *)
Definition final_dst (src dst : OsString) : Sh OsString :=
  sh! dir := look (fun t => path_is_dir cwd t dst) in
  if (dir : bool) then match file_name src with Some n => sh_ret (join dst n) | None => say crash end
  else sh_ret dst.

Definition copy_one (fuel : nat) (recursive : bool) (dst : OsString) (src_str : str) : Sh unit :=
  let src := to_win32 src_str in
  sh! there := look (fun t => path_exists cwd t src) in
  if negb there then say (eprintln (lit "rcp: cannot stat '" ++ src_str ++ lit "': No such file or directory"))
  else
    sh! final := final_dst src dst in
    sh! dir := look (fun t => path_is_dir cwd t src) in
    if dir && negb recursive
    then say (eprintln (lit "rcp: -r not specified; omitting directory '" ++ src_str ++ lit "'"))
    else
      sh! r := fs (copy_recursive fuel src final) in
      match r with
      | inl e => say (eprintln (lit "rcp: error copying '" ++ src_str ++ lit "' to '" ++ from_utf8_lossy final
                                ++ lit "': " ++ show_io e))
      | inr _ => sh_ret tt
      end.

Definition rcp (fuel : nat) (args : list OsString) : Sh unit :=
  sh! args := say (env_args args) in
  if zlen args <? 3 then fail_with (lit "Usage: rcp [-r] <source...> <destination>")
  else
    let recursive := contains args (lit "-r") || contains args (lit "-R") in
    let paths := operands args in
    if zlen paths <? 2 then fail_with (lit "rcp: missing destination file operand")
    else
      let dst_str := List.last paths [] in
      let dst := to_win32 dst_str in
      sh! dir := look (fun t => path_is_dir cwd t dst) in
      if (1 <? zlen (removelast paths)) && negb dir
      then fail_with (lit "rcp: target '" ++ dst_str ++ lit "' is not a directory")
      else sh_each (copy_one fuel recursive dst) (removelast paths).

(** ** rmv *)

(** A rename, or else a copy and then the removal of the source. *)
Definition move_to (src_str : str) (src final : OsString) : Sh unit :=
  sh! r := fs (rename cwd device src final) in
  match r with
  | inr _ => sh_ret tt
  | inl _ =>
    sh! r := fs (copy cwd src final) in
    match r with
    | inl e => say (eprintln (lit "rmv: cannot move '" ++ src_str ++ lit "' to '" ++ from_utf8_lossy final
                              ++ lit "': " ++ show_io e))
    | inr _ => sh! _ := fs (remove_file cwd src) in sh_ret tt
    end
  end.

Definition move_one (dst : OsString) (src_str : str) : Sh unit :=
  let src := to_win32 src_str in
  sh! there := look (fun t => path_exists cwd t src) in
  if negb there then say (eprintln (lit "rmv: cannot stat '" ++ src_str ++ lit "': No such file or directory"))
  else
    sh! final := final_dst src dst in
    move_to src_str src final.

Definition rmv (args : list OsString) : Sh unit :=
  sh! args := say (env_args args) in
  let paths := operands args in
  if zlen paths <? 2 then fail_with (lit "Usage: rmv <source...> <destination>")
  else
    let dst_str := List.last paths [] in
    let dst := to_win32 dst_str in
    sh! dir := look (fun t => path_is_dir cwd t dst) in
    if (1 <? zlen (removelast paths)) && negb dir
    then fail_with (lit "rmv: target '" ++ dst_str ++ lit "' is not a directory")
    else sh_each (move_one dst) (removelast paths).

(** ** rrm *)

Definition remove_one (recursive force : bool) (target : str) : Sh unit :=
  let path := to_win32 target in
  sh! there := look (fun t => path_exists cwd t path) in
  if negb there
  then say (when (negb force) (eprintln (lit "rrm: cannot remove '" ++ target ++ lit "': No such file or directory")))
  else
    sh! dir := look (fun t => path_is_dir cwd t path) in
    if (dir : bool) then
      if negb recursive then say (eprintln (lit "rrm: cannot remove '" ++ target ++ lit "': Is a directory"))
      else
        sh! r := fs (remove_dir_all cwd path) in
        match r with
        | inl e => say (when (negb force)
            (eprintln (lit "rrm: cannot remove directory '" ++ target ++ lit "': " ++ show_io e)))
        | inr _ => sh_ret tt
        end
    else
      sh! r := fs (remove_file cwd path) in
      match r with
      | inl e => say (when (negb force)
          (eprintln (lit "rrm: cannot remove file '" ++ target ++ lit "': " ++ show_io e)))
      | inr _ => sh_ret tt
      end.

Definition rrm (args : list OsString) : Sh unit :=
  sh! args := say (env_args args) in
  let recursive := contains args (lit "-r") || contains args (lit "-R") || contains args (lit "-rf") in
  let force := contains args (lit "-f") || contains args (lit "-rf") in
  match operands args with
  | [] => if negb force then fail_with (lit "Usage: rrm [-r] [-f] <file/dir...>") else sh_ret tt
  | targets => sh_each (remove_one recursive force) targets
  end.

(** ** rtouch and rmkdir *)

Definition touch_one (target : str) : Sh unit :=
  sh! r := fs (open_create cwd (to_win32 target)) in
  match r with
  | inr _ => sh_ret tt
  | inl e => say (eprintln (lit "rtouch: cannot touch '" ++ target ++ lit "': " ++ show_io e))
  end.

Definition rtouch (args : list OsString) : Sh unit :=
  sh! args := say (env_args args) in
  match operands args with
  | [] => fail_with (lit "Usage: rtouch <file...>")
  | targets => sh_each touch_one targets
  end.

Definition mkdir_one (create_parents : bool) (target : str) : Sh unit :=
  let path := to_win32 target in
  sh! r := fs (if create_parents then create_dir_all cwd path else create_dir cwd path) in
  match r with
  | inr _ => sh_ret tt
  | inl e => say (eprintln (lit "rmkdir: cannot create directory '" ++ target ++ lit "': " ++ show_io e))
  end.

Definition rmkdir (args : list OsString) : Sh unit :=
  sh! args := say (env_args args) in
  match operands args with
  | [] => fail_with (lit "Usage: rmkdir [-p] <directory...>")
  | targets => sh_each (mkdir_one (contains args (lit "-p"))) targets
  end.

(** ** rfind *)

(** The first letter of [-type] is what counts; [d] is 100 and [f] 102. *)
Definition matches_type (type_filter : option Z) (dir : bool) : bool :=
  match type_filter with
  | Some 100 => dir
  | Some 102 => negb dir
  | _ => true
  end.
Definition matches_name (name_regex : option (str -> bool)) (file_name : str) : bool :=
  match name_regex with Some is_match => is_match file_name | None => true end.

Definition print_path (path : OsString) : Sh unit := say (println (to_posix (from_utf8_lossy path))).

(** One entry of a directory; whether the walk of a directory below fails
    does not matter. *)
Definition visit (name_regex : option (str -> bool)) (type_filter : option Z)
  (descend : OsString -> Sh (IoError + unit)) (dir name : OsString) : Sh unit :=
  let path := join dir name in
  sh! is_dir := look (fun t => path_is_dir cwd t path) in
  sh! _ := (if matches_type type_filter is_dir && matches_name name_regex (from_utf8_lossy name)
            then print_path path else sh_ret tt) in
  if (is_dir : bool) then sh! _ := descend path in sh_ret tt else sh_ret tt.

Fixpoint walk_dir (fuel : nat) (dir : OsString) (name_regex : option (str -> bool)) (type_filter : option Z)
  : Sh (IoError + unit) :=
  match fuel with
  | O => fun w => (w, None)
  | S fuel =>
    sh! there := look (fun t => path_exists cwd t dir) in
    if negb there then sh_ret (inr tt)
    else
      sh! names := fs (read_dir cwd order dir) in
      match names with
      | inl e => sh_ret (inl e)
      | inr names =>
        sh! _ := sh_each (visit name_regex type_filter
          (fun path => walk_dir fuel path name_regex type_filter) dir) names in
        sh_ret (inr tt)
      end
  end.

(** The search path, the pattern and the type, [first] at the index 1. *)
Fixpoint find_args (first : bool) (args : list str) (found : str * option str * option Z)
  : str * option str * option Z :=
  match args with
  | [] => found
  | a :: rest =>
    let '(search_path, name_pattern, type_filter) := found in
    match bool_decide (a = lit "-name"), bool_decide (a = lit "-type"), rest with
    | true, _, v :: rest => find_args false rest (search_path, Some v, type_filter)
    | _, true, v :: rest => find_args false rest (search_path, name_pattern, head (chars v))
    | _, _, _ =>
      if negb (is_flag a) && first then find_args false rest (a, name_pattern, type_filter)
      else find_args false rest found
    end
  end.

(** [pattern.replace('.', "\\.").replace('*', ".*")]. *)
Definition replace_byte (c : Z) (by_ : str) (s : str) : str :=
  concat (map (fun x => if x =? c then by_ else [x]) s).
Definition wildcard (pattern : str) : str :=
  replace_byte 42 (lit ".*") (replace_byte 46 (lit "\.") pattern).

Definition rfind (fuel : nat) (args : list OsString) : Sh unit :=
  sh! args := say (env_args args) in
  let '(search_path, name_pattern, type_filter) := find_args true (drop 1 args) (lit ".", None, None) in
  sh! name_regex :=
    match name_pattern with
    | None => sh_ret None
    | Some pattern =>
      match regex_new (lit "^" ++ wildcard pattern ++ lit "$") with
      | inr is_match => sh_ret (Some is_match)
      | inl e => sh! _ := say (eprintln (lit "Error: " ++ e)) in say (exit 1)
      end
    end in
  let root := to_win32 search_path in
  sh! dir := look (fun t => path_is_dir cwd t root) in
  sh! _ := (if matches_type type_filter dir then print_path root else sh_ret tt) in
  if (dir : bool) then
    sh! r := walk_dir fuel root name_regex type_filter in
    say (try debug_io r)
  else sh_ret tt.
End programs.

(** ** What the programs share *)

Section mains.
Context {H : Host}.
Implicit Types (t : Tree) (o : Out) (ps pd : Path) (src dst : OsString).

Lemma sh_next {A B} (m : Sh A) (k : A -> Sh B) w w' a : m w = (w', Some (Next a)) -> sh_bind m k w = k a w'.
Proof. unfold sh_bind. by intros ->. Qed.

Lemma say_args args t o : forallb utf8_valid args = true -> say (env_args args) (t, o) = ((t, o), Some (Next args)).
Proof. intros Ha. unfold say. by rewrite env_args_ok. Qed.

Lemma fs_val {A} (m : Tree -> Tree * Io A) t t' o a : m t = (t', Val a) -> fs m (t, o) = ((t', o), Some (Next (inr a))).
Proof. unfold fs. by intros ->. Qed.
Lemma fs_raise {A} (m : Tree -> Tree * Io A) t t' o e : m t = (t', Raise e) -> fs m (t, o) = ((t', o), Some (Next (inl e))).
Proof. unfold fs. by intros ->. Qed.

(** Where [final_dst] leads, when the source has a name. *)
Definition target_of t src dst : option OsString :=
  if path_is_dir cwd t dst then join dst <$> file_name src else Some dst.
Lemma final_dst_of t o src dst final : target_of t src dst = Some final ->
  final_dst src dst (t, o) = ((t, o), Some (Next final)).
Proof.
  unfold target_of, final_dst, sh_bind, look. cbn [fst]. destruct (path_is_dir cwd t dst); [|by intros [= ->]].
  destruct (file_name src); [|done]. by intros [= ->].
Qed.

Lemma exists_at t s p x : locate cwd t s = inr p -> node_at t p = Some x -> path_exists cwd t s = true.
Proof. intros E Hx. unfold path_exists, stat. rewrite E, Hx. by apply bool_decide_eq_true. Qed.

(** A located regular file does not go by a name that ends in a separator. *)
Lemma locate_ends t s p bs : locate cwd t s = inr p -> node_at t p = Some (NFile bs) -> ends_sep s = false.
Proof. unfold locate. intros E Hx. destruct (reach cwd t s); [done|]. by repeat case_match; simplify_eq. Qed.

Lemma operands_two prog src dst : is_flag src = false -> is_flag dst = false -> operands [prog; src; dst] = [src; dst].
Proof. intros Hs Hd. unfold operands. cbn. by rewrite Hs, Hd. Qed.
End mains.

(** A host whose directory [mnt] is another device, and a small tree. *)
#[export] Instance host_ex : Host := {
  cwd := [];
  device := fun p => if bool_decide (head p = Some (lit "mnt")) then 1 else 0;
  order := fun l => l;
  faults := no_faults;
  to_win32 := fun s => s;
  to_posix := fun s => s;
  show_io := fun _ => lit "?";
  debug_io := fun _ => lit "?";
  regex_new := fun _ => inr (fun _ => true);
  order_permutes := fun l => reflexivity l;
}.
Definition tree_ex : Tree := list_to_map
  [([lit "a"], NDir); ([lit "a"; lit "f"], NFile [1]); ([lit "a"; lit "s"], NDir);
   ([lit "a"; lit "s"; lit "g"], NFile [2; 3]); ([lit "d"], NDir); ([lit "d"; lit "a"], NDir);
   ([lit "d"; lit "a"; lit "f"], NFile [9]); ([lit "d"; lit "a"; lit "h"], NFile [8]);
   ([lit "e"], NDir); ([lit "mnt"], NDir)].
