(* ===== verification/FileCopy.v ===== *)
(** * Copying and moving ([rcp], [rmv])

    What the recursive copy and the move of [FileTools] do to a tree. *)

From Stdlib Require Import ZArith Lia String.
From stdpp Require Import base numbers list strings gmap.
From S2P Require Import Prelude Sys Text Cli StdFs FileTools.
Open Scope Z_scope.

(** ** A recursive copy lays one subtree over the other *)

Section copying.
Context {H : Host}.
Implicit Types (t : Tree) (ps pd : Path) (src dst : OsString).

(** The content of a file has arrived at [pd], in part, or not at all. *)
Definition content_copied t pd (bs : list Z) (m : Tree * Io unit) : Prop :=
  m = (<[pd := NFile bs]> t, Val tt) \/ (exists n e, torn (<[pd := NFile []]> t) pd bs = Some (n, e) /\ m = (<[pd := NFile (take n bs)]> t, Raise e)) \/
  exists e, m = (t, Raise e).

Lemma copy_file t src dst ps pd bs :
  locate cwd t src = inr ps -> node_at t ps = Some (NFile bs) -> locate cwd t dst = inr pd -> ends_sep dst = false ->
  node_at t pd <> Some NDir -> ps <> pd ->
  content_copied t pd bs (copy cwd src dst t) /\ (unrefused -> copy cwd src dst t = (<[pd := NFile bs]> t, Val tt)).
Proof.
  intros Ls Hps Ld Hde Hn Hne. assert (pd <> []) as Hpd by by intros ->.
  unfold copy, at_path. rewrite Ls, Hps. assert (t !! ps = Some (NFile bs)) as Ht by by destruct ps.
  destruct (read_refused t ps) as [e|] eqn:Er; [split; [right; right; by eexists|intros [Hr _]; by rewrite Hr in Er]|].
  unfold fs_bind, open_create, at_path. rewrite Ld.
  destruct (write_refused t pd) as [e|] eqn:Ew.
  { split; [right; right|intros (_ & Hw & _); by rewrite Hw in Ew]. destruct (node_at t pd) as [[]|]; by eexists. }
  assert (content_copied t pd bs (copy_content ps pd (<[pd := NFile []]> t)) /\
    (unrefused -> copy_content ps pd (<[pd := NFile []]> t) = (<[pd := NFile bs]> t, Val tt))) as Hc.
  { unfold copy_content. rewrite lookup_insert_ne, Ht by done.
    destruct (torn _ pd bs) as [[n e]|] eqn:Eb; rewrite insert_insert_eq; [|by split; [left|]].
    split; [right; left; by exists n, e|]. intros (_ & _ & Hw). by rewrite Hw in Eb. }
  destruct (node_at t pd) as [[old|]|] eqn:E; [exact Hc|done|]. rewrite Hde, insert_insert_eq. exact Hc.
Qed.

Lemma copy_recursive_file fuel t src dst ps pd bs :
  reach cwd t src = inr ps -> ends_sep src = false -> node_at t ps = Some (NFile bs) ->
  reach cwd t dst = inr pd -> ends_sep dst = false -> node_at t pd <> Some NDir -> ps <> pd ->
  content_copied t pd bs (copy_recursive (S fuel) src dst t) /\
  (unrefused -> copy_recursive (S fuel) src dst t = (<[pd := NFile bs]> t, Val tt)).
Proof.
  intros Hs Hse Hps Hd Hde Hn Hne. cbn [copy_recursive].
  pose proof (reach_locate _ _ _ _ Hs (or_intror (or_intror Hse))) as Ls.
  pose proof (reach_locate _ _ _ _ Hd (or_intror (or_intror Hde))) as Ld.
  unfold path_is_dir, stat. rewrite Ls, Hps. rewrite bool_decide_eq_false_2 by done.
  unfold fs_bind. replace (match parent dst with Some p => _ | None => _ end t) with (t, Val tt : Io unit).
  2: { destruct (parent dst) as [p|] eqn:Ep; [|done]. symmetry. apply create_dir_all_there.
       by apply (parent_is_dir _ _ dst pd). }
  by apply copy_file with ps.
Qed.

Lemma fits_below t ps pd n : fits t ps pd -> fits t (ps ++ [n]) (pd ++ [n]).
Proof. intros Hf q a b. rewrite <- !app_assoc. apply Hf. Qed.
Lemma below_ok_below t p n : below_ok t p -> below_ok t (p ++ [n]).
Proof.
  intros Hb q Hq. rewrite <- app_assoc in Hq. destruct (Hb _ Hq) as [Hn Hd]. split; [exact (Forall_inv_tail Hn)|].
  intros q1 q2 -> Hq2. rewrite <- app_assoc. by apply (Hd ([n] ++ q1) q2).
Qed.
Lemma below_ok_same t t1 p : (forall q, t1 !! (p ++ q) = t !! (p ++ q)) -> below_ok t p -> below_ok t1 p.
Proof. intros E Hb q. rewrite E. intros Hq. destruct (Hb q Hq) as [Hn Hd]. split; [done|]. intros. rewrite E. eauto. Qed.

(** Between two entries: what the copy has done so far has not touched the
    source, and has kept every directory. *)
Record Copying t ps pd t1 : Prop := {
  copying_dirs : dirs_kept t t1;
  copying_same r : under pd r = None -> t1 !! r = t !! r;
  copying_target : t1 !! pd = Some NDir;
  copying_fits : fits t1 ps pd;
}.

Lemma copying_source t ps pd t1 q : apart ps pd -> Copying t ps pd t1 -> t1 !! (ps ++ q) = t !! (ps ++ q).
Proof. intros Ha Hc. apply (copying_same _ _ _ _ Hc). by apply apart_app. Qed.

(** What one copy leaves, whole or not. *)
Record Confined t ps pd t1 : Prop := {
  confined_dirs : dirs_kept t t1;
  confined_same r : under pd r = None -> t1 !! r = t !! r;
  confined_fits : fits t1 ps pd;
}.
Lemma confined_nothing t ps pd : fits t ps pd -> Confined t ps pd t.
Proof. intros Hf. split; [by intros r|done|done]. Qed.
Lemma confined_file t ps pd bs bs' : apart ps pd -> t !! ps = Some (NFile bs) -> t !! pd <> Some NDir -> fits t ps pd ->
  Confined t ps pd (<[pd := NFile bs']> t).
Proof.
  intros Ha Hs Hd Hf. pose proof (apart_ne _ _ Ha) as [_ Hpd]. split.
  - apply insert_dirs_kept. left. by rewrite node_at_ne.
  - intros r Hr. apply lookup_insert_ne. intros <-. by rewrite under_self in Hr.
  - intros q a b. rewrite lookup_insert_ne by (intros E; pose proof (apart_app _ _ q Ha) as E2; by rewrite <- E, under_self in E2).
    intros Hq. rewrite lookup_insert_Some. intros [[E <-]|[_ Hb]]; [|by apply (Hf q)].
    rewrite <- (app_nil_r pd) in E at 1. apply app_inv_head in E as <-. rewrite app_nil_r, Hs in Hq. by injection Hq as <-.
Qed.
Lemma copying_confined t ps pd t1 : Copying t ps pd t1 -> Confined t ps pd t1.
Proof. by intros [? ? _ ?]. Qed.

Lemma copying_step t ps pd t1 n t2 : apart ps pd -> Copying t ps pd t1 -> Confined t1 (ps ++ [n]) (pd ++ [n]) t2 ->
  Copying t ps pd t2.
Proof.
  intros Ha Hc Hd. split.
  - etrans; [apply (copying_dirs _ _ _ _ Hc)|apply (confined_dirs _ _ _ _ Hd)].
  - intros r Hr. rewrite (confined_same _ _ _ _ Hd); [by apply (copying_same _ _ _ _ Hc)|].
    destruct (under (pd ++ [n]) r) as [q|] eqn:E; [|done]. apply under_Some in E as ->. by rewrite <- app_assoc, under_app in Hr.
  - rewrite (confined_same _ _ _ _ Hd); [apply (copying_target _ _ _ _ Hc)|apply under_snoc_self].
  - intros q a b Hq Hb. destruct (under (pd ++ [n]) (pd ++ q)) as [q'|] eqn:E.
    + apply under_Some in E. rewrite <- app_assoc in E. apply app_inv_head in E as ->.
      apply (confined_fits _ _ _ _ Hd q'); by rewrite <- app_assoc.
    + rewrite (confined_same _ _ _ _ Hd) in Hb by done.
      rewrite (confined_same _ _ _ _ Hd) in Hq by by apply apart_snoc.
      by apply (copying_fits _ _ _ _ Hc q).
Qed.

Lemma lookup_overlays ps pd ns : apart ps pd -> forall t r,
  foldl (fun t n => overlay (ps ++ [n]) (pd ++ [n]) t) t ns !! r =
  match under pd r with
  | Some (n :: q) => if bool_decide (n ∈ ns) then
      match t !! (ps ++ n :: q) with Some x => Some x | None => t !! r end else t !! r
  | _ => t !! r
  end.
Proof.
  intros Ha. induction ns as [|m ns IH]; intros t r; cbn [foldl].
  { destruct (under pd r) as [[|n q]|]; [done| |done]. by rewrite bool_decide_eq_false_2 by set_solver. }
  rewrite IH. destruct (under pd r) as [[|n q]|] eqn:E; rewrite !lookup_overlay.
  - apply under_Some in E as ->. by rewrite app_nil_r, under_snoc_self.
  - apply under_Some in E as ->. rewrite apart_snoc, under_snoc_cons by done.
    destruct (decide (n = m)) as [-> |Hne].
    + rewrite (bool_decide_eq_true_2 (m = m)), (bool_decide_eq_true_2 (m ∈ m :: ns)) by set_solver.
      rewrite <- (app_assoc ps). cbn [app].
      destruct (t !! (ps ++ m :: q)) eqn:E; by case_bool_decide.
    + rewrite (bool_decide_eq_false_2 (m = n)) by done.
      rewrite (bool_decide_ext (n ∈ m :: ns) (n ∈ ns)); [done|]. rewrite elem_of_cons. tauto.
  - destruct (under (pd ++ [m]) r) as [q|] eqn:E2; [|done]. apply under_Some in E2 as ->.
    by rewrite <- app_assoc, under_app in E.
Qed.
(** What has to hold of the two places. *)
Record Copyable (fuel : nat) t ps pd : Prop := {
  copyable_apart : apart ps pd;
  copyable_below : below_ok t ps;
  copyable_fits : fits t ps pd;
  copyable_depth q : is_Some (t !! (ps ++ q)) -> (length q < fuel)%nat;
}.

Lemma copyable_child fuel t ps pd t1 n : Copyable (S fuel) t ps pd -> Copying t ps pd t1 ->
  Copyable fuel t1 (ps ++ [n]) (pd ++ [n]).
Proof.
  intros [Ha Hb Hf Hl] Hc. split.
  - by apply apart_below.
  - apply below_ok_below, (below_ok_same t); [|done]. intros q. by apply (copying_source t ps pd).
  - by apply fits_below, copying_fits with t.
  - intros q. rewrite <- app_assoc, (copying_source t ps pd) by done. intros Hq. specialize (Hl _ Hq). cbn in Hl. lia.
Qed.

(** What a copying call answers: it changes nothing outside the target, ends,
    and succeeds only when it has laid the whole source over it. *)
Definition copied t ps pd (m : Tree * Io unit) : Prop :=
  Confined t ps pd (fst m) /\ snd m <> Endless /\ (snd m = Val tt -> fst m = overlay ps pd t) /\
  (unrefused -> snd m = Val tt).

Lemma copy_entries fuel t src dst ps pd
  (IH : forall t src dst ps pd x, reach cwd t src = inr ps -> t !! ps = Some x -> (x <> NDir -> ends_sep src = false) ->
     reach cwd t dst = inr pd -> (x <> NDir -> ends_sep dst = false) -> Copyable fuel t ps pd ->
     copied t ps pd (copy_recursive fuel src dst t)) :
  reach cwd t src = inr ps -> t !! ps = Some NDir -> reach cwd t dst = inr pd -> Copyable (S fuel) t ps pd ->
  forall ns t1, Copying t ps pd t1 -> Forall (fun n => is_Some (t !! (ps ++ [n]))) ns ->
  let m := fs_each (fun n => copy_recursive fuel (join src n) (join dst n)) ns t1 in
  Copying t ps pd (fst m) /\ snd m <> Endless /\
  (snd m = Val tt -> fst m = foldl (fun t n => overlay (ps ++ [n]) (pd ++ [n]) t) t1 ns) /\ (unrefused -> snd m = Val tt).
Proof.
  intros Hs Hps Hd Hc. pose proof Hc as [Ha Hb _ _]. pose proof (apart_ne _ _ Ha) as [Hsn Hdn].
  induction ns as [|n ns IHn]; intros t1 H1 Hns; [by split|]. cbn [fs_each foldl].
  pose proof (Forall_inv Hns) as [x Hx]. apply Forall_inv_tail in Hns.
  assert (name_ok n) as Hn by (destruct (Hb [n]) as [Hn _]; [by eexists|]; exact (Forall_inv Hn)).
  pose proof (reach_mono _ _ _ _ _ (copying_dirs _ _ _ _ H1) Hs) as Hs1.
  pose proof (reach_mono _ _ _ _ _ (copying_dirs _ _ _ _ H1) Hd) as Hd1.
  pose proof (copying_source _ _ _ _ [] Ha H1) as E0. rewrite !app_nil_r, Hps in E0.
  pose proof (join_ends src n (locate_ne _ _ _ _ Hs) Hn) as [He1 _].
  pose proof (join_ends dst n (locate_ne _ _ _ _ Hd) Hn) as [He2 _].
  destruct (IH t1 (join src n) (join dst n) (ps ++ [n]) (pd ++ [n]) x) as (Hk & He & Hv & Hu); [| |done| |done|..].
  - apply locate_reach, reach_join; [done|by rewrite node_at_ne|done].
  - by rewrite (copying_source _ _ _ _ _ Ha H1).
  - apply locate_reach, reach_join; [done| |done]. rewrite node_at_ne by done. apply (copying_target _ _ _ _ H1).
  - by apply (copyable_child fuel t).
  - unfold fs_bind. destruct (copy_recursive fuel (join src n) (join dst n) t1) as [t2 a]. cbn [fst snd] in *.
    pose proof (copying_step _ _ _ _ _ _ Ha H1 Hk) as H2. destruct a as [[]|e|]; [|by split_and!|done].
    rewrite <- Hv by done. by apply IHn.
Qed.

Lemma insert_below pd x t n q : <[pd := x]> t !! (pd ++ n :: q) = t !! (pd ++ n :: q).
Proof. apply lookup_insert_ne. intros E. apply (f_equal length) in E. rewrite length_app in E. cbn in E. lia. Qed.

Lemma overlay_file t ps pd bs : t !! ps = Some (NFile bs) -> below_ok t ps ->
  overlay ps pd t = <[pd := NFile bs]> t.
Proof.
  intros Hx Hb. apply map_eq. intros r. rewrite lookup_overlay. destruct (under pd r) as [q|] eqn:E.
  - apply under_Some in E as ->. destruct q as [|n q]; [by rewrite !app_nil_r, Hx, lookup_insert_eq|].
    rewrite insert_below. destruct (t !! (ps ++ n :: q)) as [y|] eqn:E; [|done].
    destruct (Hb (n :: q) (ex_intro _ _ E)) as [_ Hdirs]. specialize (Hdirs [] (n :: q) eq_refl ltac:(done)).
    by rewrite app_nil_r, Hx in Hdirs.
  - symmetry. apply lookup_insert_ne. intros <-. by rewrite under_self in E.
Qed.

Lemma copying_start t ps pd : apart ps pd -> t !! ps = Some NDir -> fits t ps pd ->
  Copying t ps pd (<[pd := NDir]> t).
Proof.
  intros Ha Hx Hf. split.
  - apply insert_dirs_kept. by right.
  - intros r Hr. apply lookup_insert_ne. intros <-. by rewrite under_self in Hr.
  - by rewrite lookup_insert_eq.
  - intros q a b. rewrite lookup_insert_ne by (intros E; pose proof (apart_app _ _ q Ha) as E2;
      by rewrite <- E, under_self in E2).
    destruct q as [|n q]; [|rewrite insert_below; apply Hf].
    rewrite !app_nil_r, Hx, lookup_insert_eq. by intros [= <-] [= <-].
Qed.

(** Every entry laid over is the whole laid over. *)
Lemma overlay_entries t ps pd ns : apart ps pd -> t !! ps = Some NDir -> fits t ps pd -> below_ok t ps ->
  (forall n, n ∈ ns <-> is_Some (t !! (ps ++ [n]))) ->
  foldl (fun t n => overlay (ps ++ [n]) (pd ++ [n]) t) (<[pd := NDir]> t) ns = overlay ps pd t.
Proof.
  intros Ha Hx Hf Hb Hns. pose proof (copying_start t ps pd Ha Hx Hf) as H1.
  apply map_eq. intros r. rewrite lookup_overlays, lookup_overlay by done.
  destruct (under pd r) as [[|n q]|] eqn:E.
  - apply under_Some in E as ->. rewrite !app_nil_r, Hx. apply (copying_target _ _ _ _ H1).
  - rewrite (copying_source _ _ _ _ _ Ha H1). apply under_Some in E as ->. rewrite insert_below.
    case_bool_decide as Hn; [done|]. destruct (t !! (ps ++ n :: q)) as [y|] eqn:E; [|done]. destruct Hn. apply Hns.
    destruct q as [|m q]; [by eexists|]. destruct (Hb _ (ex_intro _ _ E)) as [_ Hdirs].
    rewrite (Hdirs [n] (m :: q)) by done. by eexists.
  - by apply (copying_same _ _ _ _ H1).
Qed.

Lemma copy_recursive_copied fuel : forall t src dst ps pd x,
  reach cwd t src = inr ps -> t !! ps = Some x -> (x <> NDir -> ends_sep src = false) ->
  reach cwd t dst = inr pd -> (x <> NDir -> ends_sep dst = false) -> Copyable fuel t ps pd ->
  copied t ps pd (copy_recursive fuel src dst t).
Proof.
  induction fuel as [|fuel IH]; intros t src dst ps pd x Hs Hx Hse Hd Hde Hc.
  { pose proof (copyable_depth _ _ _ _ Hc []) as Hl. rewrite app_nil_r in Hl. specialize (Hl (ex_intro _ _ Hx)). lia. }
  pose proof Hc as [Ha Hb Hf Hl]. pose proof (apart_ne _ _ Ha) as [Hsn Hdn].
  assert (forall y, t !! pd = Some y -> x = NDir <-> y = NDir) as Hk.
  { intros y Hy. apply (Hf []); by rewrite ?app_nil_r. }
  destruct x as [bs|].
  - assert (t !! pd <> Some NDir) as Hnd by (intros E; destruct (Hk _ E) as [_ E2]; by specialize (E2 eq_refl)).
    destruct (copy_recursive_file fuel t src dst ps pd bs) as [Hcc Hu]; try done;
      [by apply Hse|by rewrite node_at_ne|by apply Hde|by rewrite node_at_ne| |].
    { intros ->. destruct Ha as [Ha _]. by rewrite under_self in Ha. }
    unfold copied. rewrite (overlay_file t ps pd bs) by done. split; [|split; [|split; [|by intros E; rewrite Hu]]].
    + destruct Hcc as [-> |[(n & e & _ & ->)|[e ->]]]; cbn [fst];
        [by apply (confined_file _ _ _ bs)|by apply (confined_file _ _ _ bs)|by apply confined_nothing].
    + by destruct Hcc as [-> |[(n & e & _ & ->)|[e ->]]].
    + by destruct Hcc as [-> |[(n & e & _ & ->)|[e ->]]].
  - pose proof (copying_start t ps pd Ha Hx Hf) as H1. set (t1 := <[pd := NDir]> t) in *.
    assert (create_dir_all cwd dst t = (t1, Val tt)) as Ed.
    { subst t1. destruct (t !! pd) as [y|] eqn:E.
      - assert (y = NDir) as -> by by apply Hk. rewrite create_dir_all_there; [by rewrite insert_id|].
        right. exists pd. by rewrite node_at_ne.
      - apply create_dir_all_new; [done|]. by rewrite node_at_ne. }
    pose proof (copying_source _ _ _ _ [] Ha H1) as E0. rewrite !app_nil_r, Hx in E0.
    pose proof (reach_mono _ _ _ _ _ (copying_dirs _ _ _ _ H1) Hs) as Hs1.
    cbn [copy_recursive]. rewrite (stat_dir _ _ _ _ Hs) by by rewrite node_at_ne.
    unfold fs_bind at 1. rewrite Ed. unfold fs_bind, read_dir, at_path.
    rewrite (reach_locate _ _ _ _ Hs1), node_at_ne, E0 by (rewrite ?node_at_ne by done; auto).
    assert (forall n, n ∈ order (children t1 ps) <-> is_Some (t !! (ps ++ [n]))) as Hch.
    { intros n. by rewrite order_permutes, elem_children, (copying_source _ _ _ _ _ Ha H1). }
    destruct (copy_entries fuel t src dst ps pd IH Hs Hx Hd Hc (order (children t1 ps)) t1 H1) as (Hk1 & He & Hv & Hu);
      [apply Forall_forall; intros n Hn; by apply Hch|].
    split; [by apply copying_confined|]. split; [done|]. split; [|done].
    intros E. rewrite (Hv E). by apply overlay_entries.
Qed.
End copying.

(** ** The program *)

Section programs.
Context {H : Host}.
Implicit Types (t : Tree) (o : Out) (ps pd : Path) (src dst : OsString).

Lemma rcp_one fuel prog src dst t o :
  forallb utf8_valid [prog; lit "-r"; src; dst] = true -> is_flag src = false -> is_flag dst = false ->
  rcp fuel [prog; lit "-r"; src; dst] (t, o) = (sh! _ := copy_one fuel true (to_win32 dst) src in sh_ret tt) (t, o).
Proof.
  intros Hu Hs Hd. unfold rcp. rewrite (sh_next _ _ _ _ _ (say_args _ _ _ Hu)).
  assert (contains [prog; lit "-r"; src; dst] (lit "-r") = true) as ->
    by (unfold contains; apply bool_decide_eq_true; by constructor 2; constructor 1).
  assert (operands [prog; lit "-r"; src; dst] = [src; dst]) as -> by (unfold operands; cbn; by rewrite Hs, Hd). done.
Qed.

Lemma copy_one_known fuel src dst final t o ps x : locate cwd t (to_win32 src) = inr ps -> node_at t ps = Some x ->
  target_of t (to_win32 src) dst = Some final ->
  copy_one fuel true dst src (t, o) =
  (sh! r := fs (copy_recursive fuel (to_win32 src) final) in
   match r with
   | inl e => say (eprintln (lit "rcp: error copying '" ++ src ++ lit "' to '" ++ from_utf8_lossy final
                             ++ lit "': " ++ show_io e))
   | inr _ => sh_ret tt
   end) (t, o).
Proof.
  intros Ls Hx Hf. unfold copy_one. unfold sh_bind at 1. cbn [look fst]. rewrite (exists_at _ _ _ _ Ls Hx). cbn [negb].
  rewrite (sh_next _ _ _ _ _ (final_dst_of _ _ _ _ _ Hf)). unfold sh_bind at 1. cbn [look]. by rewrite andb_false_r.
Qed.

End programs.

(** C21: [rcp -r] of a file or a directory tree, whatever opening and writing the
    system refuses or breaks off: nothing outside the target has changed, and
    when nothing is reported the target holds what the source held, with what
    else was there before.  When the system refuses nothing, nothing is
    reported.  The source has to exist (with a last name, when the target is a
    directory), the place the target stands for has to be reachable, the two
    places have to be apart and hold directories and files at the same paths,
    a file's target must not end in a separator, and the fuel has to exceed
    the depth of the source. *)
Theorem rcp_overlays_tree `{Host} fuel prog src dst final t ps pd x :
  forallb utf8_valid [prog; lit "-r"; src; dst] = true -> is_flag src = false -> is_flag dst = false ->
  tree_ok t -> locate cwd t (to_win32 src) = inr ps -> t !! ps = Some x ->
  target_of t (to_win32 src) (to_win32 dst) = Some final -> reach cwd t final = inr pd ->
  (x = NDir \/ ends_sep final = false) -> apart ps pd -> fits t ps pd ->
  (forall q, is_Some (t !! (ps ++ q)) -> (length q < fuel)%nat) ->
  exists t1 o1, rcp fuel [prog; lit "-r"; src; dst] (t, no_out) = ((t1, o1), Some (Next tt)) /\
    (forall r, under pd r = None -> t1 !! r = t !! r) /\
    (o1 = no_out -> t1 = overlay ps pd t) /\ (unrefused -> o1 = no_out).
Proof.
  intros Hu Hs Hd Ht Ls Hx Hf Rf Hend Ha Hfit Hfuel. pose proof (apart_ne _ _ Ha) as [Hps _].
  assert (node_at t ps = Some x) as Hx' by by rewrite node_at_ne.
  destruct (copy_recursive_copied fuel t (to_win32 src) final ps pd x) as (Hc & He & Hv & Hr); try done.
  { by apply locate_reach. }
  { intros Hn. destruct x as [bs|]; [|done]. by apply (locate_ends t _ ps bs). }
  { intros Hn. destruct Hend as [Hend|Hend]; [by destruct Hn|exact Hend]. }
  { split; [done|by apply tree_ok_below|done|done]. }
  destruct (copy_recursive fuel (to_win32 src) final t) as [t1 a] eqn:E. cbn [fst snd] in *.
  rewrite rcp_one by done. unfold sh_bind. rewrite (copy_one_known _ _ _ final _ _ ps x) by done. destruct a as [[]|e|]; [| |done].
  - rewrite (sh_next _ _ _ _ _ (fs_val _ _ _ _ _ E)). exists t1, no_out. split; [done|].
    split; [apply (confined_same _ _ _ _ Hc)|]. split; [intros _; by apply Hv|done].
  - rewrite (sh_next _ _ _ _ _ (fs_raise _ _ _ _ _ E)). eexists t1, _. split; [reflexivity|].
    split; [apply (confined_same _ _ _ _ Hc)|]. split; [done|]. intros Hn. by specialize (Hr Hn).
Qed.

Lemma rcp_overlays_tree_witness :
  exists t1 o1, rcp 3 [lit "rcp"; lit "-r"; lit "a"; lit "d"] (tree_ex, no_out) = ((t1, o1), Some (Next tt)) /\
    (forall r, under [lit "d"; lit "a"] r = None -> t1 !! r = tree_ex !! r) /\
    (o1 = no_out -> t1 = overlay [lit "a"] [lit "d"; lit "a"] tree_ex) /\ (unrefused -> o1 = no_out).
Proof.
  apply (rcp_overlays_tree 3 (lit "rcp") (lit "a") (lit "d") (lit "d/a") tree_ex [lit "a"] [lit "d"; lit "a"] NDir);
    try (vm_compute; reflexivity).
  - apply tree_ok_check. vm_compute. reflexivity.
  - by left.
  - split; vm_compute; reflexivity.
  - apply fits_check. vm_compute. reflexivity.
  - apply depth_check. vm_compute. reflexivity.
Defined.

(** A disk that is full after one byte of each file: what was copied before the
    first file that does not fit stays, and the error is reported. *)
Definition full_disk : Host := {|
  cwd := cwd; device := device; order := order; order_permutes := order_permutes;
  faults := {| read_refused _ _ := None; write_refused _ _ := None; rename_refused _ _ _ := None; remove_refused _ _ := None;
    torn _ _ bs := match bs with _ :: _ :: _ => Some (1%nat, Os 28) | _ => None end |};
  to_win32 := to_win32; to_posix := to_posix; show_io := show_io; debug_io := debug_io; regex_new := regex_new;
|}.
Example rcp_full_disk :
  let '((t, o), r) := rcp (H := full_disk) 3 [lit "rcp"; lit "-r"; lit "a"; lit "d"] (tree_ex, no_out) in
  t !! [lit "d"; lit "a"; lit "s"; lit "g"] = Some (NFile [2]) /\ t !! [lit "a"; lit "s"; lit "g"] = Some (NFile [2; 3]) /\
  stderr o = lit "rcp: error copying 'a' to 'd/a': ?" ++ [10] /\ r = Some (Next tt).
Proof. vm_compute. repeat split. Qed.

(** The copy has replaced one file, kept another and made the rest. *)
Example rcp_ex :
  let t := overlay [lit "a"] [lit "d"; lit "a"] tree_ex in
  t !! [lit "d"; lit "a"; lit "f"] = Some (NFile [1]) /\ t !! [lit "d"; lit "a"; lit "h"] = Some (NFile [8]) /\
  t !! [lit "d"; lit "a"; lit "s"; lit "g"] = Some (NFile [2; 3]) /\ t !! [lit "a"; lit "f"] = Some (NFile [1]).
Proof. vm_compute. repeat split. Qed.

(** A file copied onto itself is truncated before it is read, and the program
    reports nothing. *)
Example rcp_onto_itself :
  let '((t, o), r) := rcp 3 [lit "rcp"; lit "a/f"; lit "a/f"] (tree_ex, no_out) in
  t !! [lit "a"; lit "f"] = Some (NFile []) /\ o = no_out /\ r = Some (Next tt).
Proof. vm_compute. repeat split. Qed.

(** A source without a name panics when the target is a directory. *)
Example rcp_dotdot_panics : snd (rcp 3 [lit "rcp"; lit "-r"; lit ".."; lit "d"] (tree_ex, no_out)) = Some Crash.
Proof. vm_compute. repeat split. Qed.

(** ** Moving *)

Section moving.
Context {H : Host}.

Lemma rename_answers t src dst ps : locate cwd t src = inr ps ->
  (exists pd, locate cwd t dst = inr pd /\ rename cwd device src dst t = (move ps pd t, Val tt)) \/
  (exists e, rename cwd device src dst t = (t, Raise e)).
Proof.
  intros Ls. unfold rename, at_path. rewrite Ls. destruct (locate cwd t dst) as [e|pd] eqn:Ld; [right; by eexists|].
  repeat case_match; try (right; eexists; reflexivity); left; exists pd; (split; [done|]); try done.
  match goal with E : bool_decide (ps = pd) = true |- _ => apply bool_decide_eq_true in E as -> end.
  by rewrite move_onto_itself.
Qed.

(** A rename that fails is not one of a file onto itself. *)
Lemma rename_itself t src dst p bs : tree_ok t -> node_at t cwd = Some NDir ->
  locate cwd t src = inr p -> node_at t p = Some (NFile bs) -> locate cwd t dst = inr p ->
  rename cwd device src dst t = (t, Val tt).
Proof.
  intros Ht Hcwd Ls Hp Ld. unfold rename, at_path. rewrite Ls, Hp, Ld.
  destruct (reach_named cwd t src p) as [Hn1 _]; [done|done|by apply locate_reach|by rewrite Hp|].
  destruct (reach_named cwd t dst p) as [Hn2 _]; [done|done|by apply locate_reach|by rewrite Hp|].
  rewrite Hn1, Hn2. rewrite bool_decide_eq_false_2 by (intros [[? ?]|[? ?]]; done).
  rewrite Z.eqb_refl. cbn [negb]. by rewrite bool_decide_eq_true_2.
Qed.

(** The target of a copy that came to writing. *)
Definition written_at t dst ps pd (bs : list Z) : Prop :=
  node_at t ps = Some (NFile bs) /\ locate cwd t dst = inr pd /\ ps <> pd /\ node_at t pd <> Some NDir.

Lemma copy_answers t src dst ps : tree_ok t -> node_at t cwd = Some NDir -> locate cwd t src = inr ps ->
  is_Some (node_at t ps) -> (exists e, rename cwd device src dst t = (t, Raise e)) ->
  (exists e, copy cwd src dst t = (t, Raise e)) \/
  (exists pd bs, written_at t dst ps pd bs /\
    ((exists n e, torn (<[pd := NFile []]> t) pd bs = Some (n, e) /\
       copy cwd src dst t = (<[pd := NFile (take n bs)]> t, Raise e)) \/
     copy cwd src dst t = (<[pd := NFile bs]> t, Val tt))).
Proof.
  intros Ht Hcwd Ls [x Hx] [e He]. destruct x as [bs|].
  2: { left. unfold copy, at_path. rewrite Ls, Hx. destruct (read_refused t ps); by eexists. }
  assert (forall e, open_create cwd dst t = (t, Raise e) -> exists e, copy cwd src dst t = (t, Raise e)) as Hbad.
  { intros e' E. unfold copy, at_path. rewrite Ls, Hx. destruct (read_refused t ps); [by eexists|].
    unfold fs_bind. rewrite E. by eexists. }
  unfold open_create, at_path in Hbad. destruct (locate cwd t dst) as [e'|pd] eqn:Ld; [left; by apply (Hbad e')|].
  destruct (decide (node_at t pd = Some NDir)) as [E|Hn].
  { rewrite E in Hbad. left. destruct (write_refused t pd); by eapply Hbad. }
  destruct (ends_sep dst) eqn:Hde.
  { left. destruct (node_at t pd) as [[|]|] eqn:E, (write_refused t pd); try done; try (by eapply Hbad);
      apply (locate_ends _ _ _ _ Ld) in E; congruence. }
  destruct (decide (ps = pd)) as [-> |Hne]; [by rewrite (rename_itself t src dst pd bs) in He|].
  destruct (copy_file t src dst ps pd bs) as [Hc _]; try done.
  destruct Hc as [Hc|[Hc|Hc]]; [right..|by left]; exists pd, bs; (split; [done|]); [by right|by left].
Qed.

Lemma remove_answers t src dst ps pd bs : tree_ok t -> node_at t cwd = Some NDir -> locate cwd t src = inr ps ->
  written_at t dst ps pd bs -> let t1 := <[pd := NFile bs]> t in
  remove_file cwd src t1 = (move ps pd t, Val tt) \/
  exists e, remove_refused t1 ps = Some e /\ remove_file cwd src t1 = (t1, Raise e).
Proof.
  intros Ht Hcwd Ls (Hx & Ld & Hne & Hn) t1. subst t1.
  destruct (reach_named cwd t dst pd) as [_ Hup]; [done|done|by apply locate_reach|done|].
  assert (pd <> []) as Hpd by by intros ->. assert (ps <> []) as Hps by by intros ->.
  assert (node_at (<[pd := NFile bs]> t) ps = Some (NFile bs)) as Hx1
    by (rewrite node_at_ne in Hx |- * by done; by rewrite lookup_insert_ne).
  unfold remove_file, at_path. rewrite (reach_locate _ _ _ ps), Hx1.
  - destruct (remove_refused _ ps) as [e|]; [right; by exists e|left].
    rewrite node_at_ne in Hx, Hn by done. by rewrite move_file.
  - apply (reach_mono _ t); [by apply insert_dirs_kept; left|by apply locate_reach].
  - right. right. by apply (locate_ends t _ ps bs).
Qed.

(** What the program says of a move that failed. *)
Definition not_moved (o : Out) (src : str) (final : OsString) (e : IoError) : Out :=
  mkOut (stdout o) (stderr o ++ (lit "rmv: cannot move '" ++ src ++ lit "' to '" ++ from_utf8_lossy final
    ++ lit "': " ++ show_io e) ++ [10]).

Inductive move_outcome (t : Tree) (o : Out) (src : str) (final : OsString) (ps : Path) : Tree -> Out -> Prop :=
  | move_done pd : locate cwd t final = inr pd -> move_outcome t o src final ps (move ps pd t) o
  | move_failed e : move_outcome t o src final ps t (not_moved o src final e)
  | move_torn e pd bs n : written_at t final ps pd bs -> torn (<[pd := NFile []]> t) pd bs = Some (n, e) ->
      move_outcome t o src final ps (<[pd := NFile (take n bs)]> t) (not_moved o src final e)
  | move_doubled e pd bs : written_at t final ps pd bs -> remove_refused (<[pd := NFile bs]> t) ps = Some e ->
      move_outcome t o src final ps (<[pd := NFile bs]> t) o.

Lemma move_one_answers src dst final t o ps x : tree_ok t -> node_at t cwd = Some NDir ->
  locate cwd t (to_win32 src) = inr ps -> node_at t ps = Some x -> target_of t (to_win32 src) dst = Some final ->
  exists t1 o1, move_one dst src (t, o) = ((t1, o1), Some (Next tt)) /\ move_outcome t o src final ps t1 o1.
Proof.
  intros Ht Hcwd Ls Hx Hf.
  assert (move_one dst src (t, o) = move_to src (to_win32 src) final (t, o)) as ->.
  { unfold move_one. unfold sh_bind at 1. cbn [look fst]. rewrite (exists_at _ _ _ _ Ls Hx). cbn [negb].
    by rewrite (sh_next _ _ _ _ _ (final_dst_of _ _ _ _ _ Hf)). }
  unfold move_to.
  destruct (rename_answers t (to_win32 src) final ps Ls) as [(pd & Ld & E)|E].
  { exists (move ps pd t), o. rewrite (sh_next _ _ _ _ _ (fs_val _ _ _ _ _ E)). split; [done|by constructor]. }
  pose proof (copy_answers _ _ final _ Ht Hcwd Ls (ex_intro _ _ Hx) E) as Hc. destruct E as [e E].
  rewrite (sh_next _ _ _ _ _ (fs_raise _ _ _ _ _ E)).
  destruct Hc as [[e1 Ec]|(pd & bs & Hw & [(n & e1 & Hu & Ec)|Ec])].
  - exists t, (not_moved o src final e1). rewrite (sh_next _ _ _ _ _ (fs_raise _ _ _ _ _ Ec)). split; [done|constructor].
  - eexists _, (not_moved o src final e1). rewrite (sh_next _ _ _ _ _ (fs_raise _ _ _ _ _ Ec)). split; [done|by constructor].
  - rewrite (sh_next _ _ _ _ _ (fs_val _ _ _ _ _ Ec)).
    destruct (remove_answers t (to_win32 src) final ps pd bs Ht Hcwd Ls Hw) as [Er|(e1 & Hr & Er)].
    + rewrite (sh_next _ _ _ _ _ (fs_val _ _ _ _ _ Er)). eexists _, o. split; [done|]. destruct Hw as (_ & Ld & _). by constructor.
    + rewrite (sh_next _ _ _ _ _ (fs_raise _ _ _ _ _ Er)). eexists _, o. split; [done|by apply move_doubled with e1].
Qed.
End moving.

(** C22: [rmv] of one file or directory that exists (with a last name, when the
    target is a directory), on one device or from one to another, whatever the
    system refuses, breaks off or fails to remove, ends with status 0 and has
    done one of four things: moved everything it names to the target, in
    silence; reported an error and changed nothing; reported the error the
    writing broke off with, the source untouched and the target, a file,
    holding only the bytes written until then; or copied the file whole and
    left the source as well, in silence, its removal having been refused.  In
    each of them the whole content is still at the source or at the target. *)
Theorem rmv_moves_or_reports `{Host} prog src dst final t o ps :
  forallb utf8_valid [prog; src; dst] = true -> is_flag src = false -> is_flag dst = false ->
  tree_ok t -> node_at t cwd = Some NDir -> locate cwd t (to_win32 src) = inr ps -> is_Some (node_at t ps) ->
  target_of t (to_win32 src) (to_win32 dst) = Some final ->
  exists t1 o1, rmv [prog; src; dst] (t, o) = ((t1, o1), Some (Next tt)) /\
    move_outcome t o src final ps t1 o1 /\
    (node_at t1 ps = node_at t ps \/ exists pd, locate cwd t final = inr pd /\ t1 = move ps pd t).
Proof.
  intros Hu Hs Hd Ht Hcwd Ls [x Hx] Hf.
  assert (rmv [prog; src; dst] (t, o) = (sh! _ := move_one (to_win32 dst) src in sh_ret tt) (t, o)) as ->.
  { unfold rmv. rewrite (sh_next _ _ _ _ _ (say_args _ _ _ Hu)).
    by rewrite operands_two. }
  destruct (move_one_answers src (to_win32 dst) final t o ps x) as (t1 & o1 & E & Ho); try done.
  exists t1, o1. split; [by rewrite (sh_next _ _ _ _ _ E)|]. split; [done|].
  destruct Ho as [pd Ld|e|e pd bs n (_ & _ & Hne & _) _|e pd bs (_ & _ & Hne & _) _]; [right; by exists pd|left; done|left..];
    (destruct ps as [|c ps]; [done|]; rewrite !node_at_ne by done; by rewrite lookup_insert_ne).
Qed.

Lemma rmv_moves_or_reports_witness :
  exists t1 o1, rmv [lit "rmv"; lit "a/f"; lit "mnt"] (tree_ex, no_out) = ((t1, o1), Some (Next tt)) /\
    move_outcome tree_ex no_out (lit "a/f") (lit "mnt/f") [lit "a"; lit "f"] t1 o1 /\
    (node_at t1 [lit "a"; lit "f"] = node_at tree_ex [lit "a"; lit "f"] \/
     exists pd, locate cwd tree_ex (lit "mnt/f") = inr pd /\ t1 = move [lit "a"; lit "f"] pd tree_ex).
Proof.
  apply (rmv_moves_or_reports (lit "rmv") (lit "a/f") (lit "mnt") (lit "mnt/f") tree_ex no_out [lit "a"; lit "f"]);
    try (vm_compute; reflexivity).
  - apply tree_ok_check. vm_compute. reflexivity.
  - exists (NFile [1]). vm_compute. reflexivity.
Defined.

(** The source's directory is not writable: the rename is refused and so is
    the removal after the copy.  The file is there twice, and nothing is
    said. *)
Definition kept_source : Host := {|
  cwd := cwd; device := device; order := order; order_permutes := order_permutes;
  faults := {| read_refused _ _ := None; write_refused _ _ := None; torn _ _ _ := None;
    rename_refused _ _ _ := Some (Os EACCES); remove_refused _ _ := Some (Os EACCES) |};
  to_win32 := to_win32; to_posix := to_posix; show_io := show_io; debug_io := debug_io; regex_new := regex_new;
|}.
Example rmv_leaves_source :
  let '((t, o), r) := rmv (H := kept_source) [lit "rmv"; lit "a/f"; lit "e"] (tree_ex, no_out) in
  t !! [lit "a"; lit "f"] = Some (NFile [1]) /\ t !! [lit "e"; lit "f"] = Some (NFile [1]) /\ o = no_out /\ r = Some (Next tt).
Proof. vm_compute. repeat split. Qed.

(** A copy to another device that breaks off has already truncated the
    target. *)
Example rmv_truncates_target :
  let t := <[[lit "mnt"; lit "g"] := NFile [7; 7; 7]]> tree_ex in
  let '((t1, o), r) := rmv (H := full_disk) [lit "rmv"; lit "a/s/g"; lit "mnt"] (t, no_out) in
  t1 !! [lit "mnt"; lit "g"] = Some (NFile [2]) /\ t1 !! [lit "a"; lit "s"; lit "g"] = Some (NFile [2; 3]) /\
  stderr o = lit "rmv: cannot move 'a/s/g' to 'mnt/g': ?" ++ [10].
Proof. vm_compute. repeat split. Qed.

(** To another device the file is copied and removed; a directory is left
    where it is, and reported. *)
Example rmv_devices :
  (let '((t, o), r) := rmv [lit "rmv"; lit "a/f"; lit "mnt"] (tree_ex, no_out) in
   bool_decide (t = move [lit "a"; lit "f"] [lit "mnt"; lit "f"] tree_ex) = true /\ o = no_out /\ r = Some (Next tt)) /\
  (let '((t, o), r) := rmv [lit "rmv"; lit "a"; lit "mnt"] (tree_ex, no_out) in
   bool_decide (t = tree_ex) = true /\ stderr o = lit "rmv: cannot move 'a' to 'mnt/a': ?" ++ [10] /\
   r = Some (Next tt)).
Proof. vm_compute. repeat split. Qed.

(** ** A directory copied into itself

    Each directory made is one more to copy: no amount of fuel is enough. *)
Lemma copy_into_itself_endless `{Host} fuel : forall t src dst ps n,
  name_ok n -> reach cwd t src = inr ps -> node_at t ps = Some NDir -> reach cwd t dst = inr (ps ++ [n]) ->
  (forall q, q <> [] -> t !! (ps ++ q) = None) -> exists t', copy_recursive fuel src dst t = (t', Endless).
Proof.
  induction fuel as [|fuel IH]; intros t src dst ps n Hn Hs Hd Hr Hq; [by exists t|].
  set (t1 := <[ps ++ [n] := NDir]> t).
  assert (dirs_kept t t1) as Hk by (apply insert_dirs_kept; by right).
  pose proof (reach_mono _ _ _ _ _ Hk Hs) as Hs1. pose proof (Hk _ Hd) as Hd1.
  pose proof (reach_mono _ _ _ _ _ Hk Hr) as Hr1.
  assert (node_at t1 (ps ++ [n]) = Some NDir) as Hn1 by (rewrite node_at_snoc; subst t1; by rewrite lookup_insert_eq).
  assert (order (children t1 ps) = [n]) as Hch.
  { apply Permutation_singleton_r. rewrite order_permutes. apply NoDup_Permutation; [apply NoDup_children|by apply NoDup_singleton|].
    intros m. rewrite elem_children, list_elem_of_singleton. subst t1. destruct (decide (m = n)) as [-> |Hne].
    - rewrite lookup_insert_eq. split; [done|by eexists].
    - rewrite lookup_insert_ne by (intros E; apply app_inj_tail in E as [_ E]; congruence). rewrite Hq by done.
      split; [by intros [? ?]|done]. }
  cbn [copy_recursive]. rewrite (stat_dir _ _ _ _ Hs Hd). unfold fs_bind at 1.
  rewrite (create_dir_all_new _ _ _ _ Hr) by (rewrite node_at_snoc; by apply Hq). fold t1.
  unfold fs_bind, read_dir, at_path. rewrite (reach_locate _ _ _ _ Hs1 (or_introl Hd1)), Hd1, Hch.
  cbn [fs_each]. unfold fs_bind. destruct (IH t1 (join src n) (join dst n) (ps ++ [n]) n) as [t' E]; [done| | | | |].
  - by apply locate_reach, reach_join.
  - done.
  - by apply locate_reach, reach_join.
  - intros q Hne. rewrite <- app_assoc. destruct q as [|c q]; [done|]. subst t1. rewrite lookup_insert_ne; [by apply Hq|].
    intros E. apply app_inv_head in E. by injection E.
  - exists t'. by rewrite E.
Qed.

(** [rcp -r] of an empty directory into itself, under any name, never ends. *)
Theorem rcp_into_itself_endless `{Host} fuel prog src dst t o ps n :
  forallb utf8_valid [prog; lit "-r"; src; dst] = true -> is_flag src = false -> is_flag dst = false ->
  reach cwd t (to_win32 src) = inr ps -> node_at t ps = Some NDir -> (forall q, q <> [] -> t !! (ps ++ q) = None) ->
  name_ok n -> reach cwd t (to_win32 dst) = inr (ps ++ [n]) ->
  snd (rcp fuel [prog; lit "-r"; src; dst] (t, o)) = None.
Proof.
  intros Hu Hs Hd Hr Hdir Hq Hn Hdst.
  destruct (copy_into_itself_endless fuel t (to_win32 src) (to_win32 dst) ps n) as [t' E]; try done.
  assert (path_is_dir cwd t (to_win32 dst) = false) as Hnd.
  { unfold path_is_dir, stat. rewrite (reach_locate _ _ _ _ Hdst); rewrite node_at_snoc, Hq; auto. }
  rewrite rcp_one by done. unfold sh_bind at 1.
  rewrite (copy_one_known _ _ _ (to_win32 dst) _ _ ps NDir); [|by apply reach_locate; auto|done|by unfold target_of; rewrite Hnd].
  unfold sh_bind, fs. by rewrite E.
Qed.

Lemma rcp_into_itself_endless_witness :
  snd (rcp 1000 [lit "rcp"; lit "-r"; lit "e"; lit "e/f"] (tree_ex, no_out)) = None.
Proof.
  apply (rcp_into_itself_endless 1000 (lit "rcp") (lit "e") (lit "e/f") tree_ex no_out [lit "e"] (lit "f"));
    try (vm_compute; reflexivity).
  - intros q Hq. apply eq_None_not_Some. intros Hx.
    assert (length q < 1)%nat by (revert q Hq Hx; intros q _; apply (depth_check tree_ex [lit "e"] 1); vm_compute; reflexivity).
    destruct q; [done|]. cbn in *. lia.
  - repeat split; try done. by repeat constructor.
Defined.
