(* ===== verification/FileEdit.v ===== *)
(** * Removing and adding ([rrm], [rtouch], [rmkdir])

    What these utilities of [FileTools] do to a tree. *)

From Stdlib Require Import ZArith Lia String.
From stdpp Require Import base numbers list strings gmap.
From S2P Require Import Prelude Sys Text Cli StdFs FileTools.
Open Scope Z_scope.

(** ** Removing *)

Section removing.
Context {H : Host}.
Implicit Types (t : Tree) (p q r : Path).

Lemma subset_dirs_kept t1 t : t1 ⊆ t -> dirs_kept t1 t.
Proof.
  intros Hs p. destruct p as [|c p]; [done|]. cbn [node_at]. intros Hp. by apply (lookup_weaken _ _ _ _ Hp Hs).
Qed.

(** What a smaller tree finds the larger one finds. *)
Lemma locate_subset t1 t s p y : t1 ⊆ t -> locate cwd t1 s = inr p -> node_at t1 p = Some y ->
  locate cwd t s = inr p /\ node_at t p = Some y.
Proof.
  intros Hsub Hl Hy. assert (node_at t p = Some y) as Hy'.
  { destruct p as [|c p]; [done|]. cbn [node_at] in *. by apply (lookup_weaken _ _ _ _ Hy Hsub). }
  split; [|done]. pose proof (reach_mono _ _ _ _ _ (subset_dirs_kept _ _ Hsub) (locate_reach _ _ _ _ Hl)) as Hr.
  apply reach_locate; [done|]. destruct y as [bs|]; [|by left]. right. right. by apply (locate_ends t1 _ p bs).
Qed.

(** [target] may go from the tree, and with it what is below when it is a
    directory and that is asked for. *)
Definition may_go (recursive : bool) t (target : str) r : Prop :=
  exists p q y, locate cwd t (to_win32 target) = inr p /\ node_at t p = Some y /\ r = p ++ q /\
  (if recursive then True else y <> NDir /\ q = []).

Lemma may_go_subset recursive t1 t target r : t1 ⊆ t -> may_go recursive t1 target r -> may_go recursive t target r.
Proof.
  intros Hs (p & q & y & Hl & Hy & -> & Hr). destruct (locate_subset t1 t _ _ _ Hs Hl Hy) as [Hl' Hy'].
  by exists p, q, y.
Qed.

Definition only_gone (recursive : bool) t (targets : list str) t1 : Prop :=
  t1 ⊆ t /\ forall r x, t !! r = Some x -> t1 !! r = Some x \/ exists target, target ∈ targets /\ may_go recursive t target r.

Lemma only_gone_refl recursive t targets : only_gone recursive t targets t.
Proof. split; [done|]. intros r x Hx. by left. Qed.
Lemma only_gone_cons recursive t target targets t1 t2 :
  only_gone recursive t [target] t1 -> only_gone recursive t1 targets t2 -> only_gone recursive t (target :: targets) t2.
Proof.
  intros [Hs1 H1] [Hs2 H2]. split; [by etrans|]. intros r x Hx. destruct (H1 r x Hx) as [Hx1|(g & Hg & Hm)].
  - destruct (H2 r x Hx1) as [Hx2|(g & Hg & Hm)]; [by left|]. right. exists g. split; [by constructor|].
    by apply (may_go_subset _ t1).
  - right. exists g. apply list_elem_of_singleton in Hg as ->. split; [by constructor|done].
Qed.

Lemma only_gone_filter (recursive : bool) t target p y (P : Path * Node -> Prop) `{!forall kv, Decision (P kv)} :
  locate cwd t (to_win32 target) = inr p -> node_at t p = Some y ->
  (forall r x, t !! r = Some x -> ~ P (r, x) -> exists q : Path, r = p ++ q /\ (if recursive then True else y <> NDir /\ q = [])) ->
  only_gone recursive t [target] (filter P t).
Proof.
  intros Hl Hy HP. split; [apply map_filter_subseteq|]. intros r x Hx.
  destruct (decide (P (r, x))) as [Hp|Hp]; [left; by apply map_lookup_filter_Some|]. right. exists target.
  split; [by constructor|]. destruct (HP r x Hx Hp) as (q & -> & Hq). by exists p, q, y.
Qed.

Lemma say_when t o b msg : exists o1, say (when b (eprintln msg)) (t, o) = ((t, o1), Some (Next tt)).
Proof. destruct b; by eexists. Qed.

(** Both ways to remove, whatever they answer. *)
Lemma remove_dir_gone t target p : locate cwd t (to_win32 target) = inr p -> node_at t p = Some NDir ->
  exists t1 (a : Io unit), remove_dir_all cwd (to_win32 target) t = (t1, a) /\ a <> Endless /\ only_gone true t [target] t1.
Proof.
  intros Hl Hy. unfold remove_dir_all, at_path. rewrite Hl, Hy.
  assert (forall r q, under p r = Some q -> exists q, r = p ++ q /\ True) as Hu
    by (intros r q E; apply under_Some in E as ->; by exists q).
  destruct (nameless _) as [e|]; (do 2 eexists; split; [done|]; split; [done|]);
    apply (only_gone_filter true _ _ p NDir); try done; cbn [fst]; intros r x Hx Hn;
    destruct (under p r) as [q|] eqn:E; eauto; destruct Hn; auto.
Qed.

Lemma remove_file_gone recursive t target p bs : locate cwd t (to_win32 target) = inr p -> node_at t p = Some (NFile bs) ->
  exists t1 (a : Io unit), remove_file cwd (to_win32 target) t = (t1, a) /\ a <> Endless /\ only_gone recursive t [target] t1.
Proof.
  intros Hl Hy. unfold remove_file, at_path. rewrite Hl, Hy.
  destruct (remove_refused t p) as [e|]; [exists t, (Raise e); by eauto using only_gone_refl|].
  exists (delete p t), (Val tt). split; [done|]. split; [done|].
  split; [apply delete_subseteq|]. intros r x Hx. destruct (decide (r = p)) as [-> |Hne].
  - right. exists target. split; [by constructor|]. exists p, [], (NFile bs). rewrite app_nil_r. by destruct recursive.
  - left. by rewrite lookup_delete_ne.
Qed.

Lemma remove_one_gone recursive force target t o : exists t1 o1,
  remove_one recursive force target (t, o) = ((t1, o1), Some (Next tt)) /\ only_gone recursive t [target] t1.
Proof.
  unfold remove_one. unfold sh_bind at 1. cbn [look fst]. unfold path_exists, stat.
  destruct (locate cwd t (to_win32 target)) as [e|p] eqn:Hl.
  { rewrite bool_decide_eq_false_2 by by intros []. cbn [negb]. destruct (say_when t o (negb force)
      (lit "rrm: cannot remove '" ++ target ++ lit "': No such file or directory")) as [o1 ->].
    eauto using only_gone_refl. }
  destruct (node_at t p) as [y|] eqn:Hy.
  2: { rewrite bool_decide_eq_false_2 by by intros []. cbn [negb]. destruct (say_when t o (negb force)
      (lit "rrm: cannot remove '" ++ target ++ lit "': No such file or directory")) as [o1 ->].
    eauto using only_gone_refl. }
  rewrite bool_decide_eq_true_2 by by eexists. cbn [negb]. unfold sh_bind at 1. cbn [look fst]. unfold path_is_dir, stat.
  rewrite Hl, Hy. destruct y as [bs|].
  - rewrite bool_decide_eq_false_2 by done. destruct (remove_file_gone recursive t target p bs Hl Hy) as (t1 & [[]|e|] & E & Hne & Hg); [| |done].
    + rewrite (sh_next _ _ _ _ _ (fs_val _ _ _ _ _ E)). by exists t1, o.
    + rewrite (sh_next _ _ _ _ _ (fs_raise _ _ _ _ _ E)). destruct (say_when t1 o (negb force)
        (lit "rrm: cannot remove file '" ++ target ++ lit "': " ++ show_io e)) as [o1 ->]. by exists t1, o1.
  - rewrite bool_decide_eq_true_2 by done. destruct recursive; cbn [negb]; [|eauto using only_gone_refl].
    destruct (remove_dir_gone t target p Hl Hy) as (t1 & [[]|e|] & E & Hne & Hg); [| |done].
    + rewrite (sh_next _ _ _ _ _ (fs_val _ _ _ _ _ E)). by exists t1, o.
    + rewrite (sh_next _ _ _ _ _ (fs_raise _ _ _ _ _ E)). destruct (say_when t1 o (negb force)
        (lit "rrm: cannot remove directory '" ++ target ++ lit "': " ++ show_io e)) as [o1 ->]. by exists t1, o1.
Qed.

Lemma remove_each_gone recursive force targets : forall t o, exists t1 o1,
  sh_each (remove_one recursive force) targets (t, o) = ((t1, o1), Some (Next tt)) /\ only_gone recursive t targets t1.
Proof.
  induction targets as [|target targets IH]; intros t o; [exists t, o; split; [done|apply only_gone_refl]|].
  cbn [sh_each]. destruct (remove_one_gone recursive force target t o) as (t1 & o1 & E & H1).
  rewrite (sh_next _ _ _ _ _ E). destruct (IH t1 o1) as (t2 & o2 & E2 & H2). exists t2, o2.
  split; [done|]. by apply only_gone_cons with t1.
Qed.
End removing.

(** [rrm] removes nothing but what its operands name, in the tree it was
    started on: a file, or with [-r] (or [-R], [-rf]) a directory and what is
    below it; nothing else is changed or made, whatever fails in between.
    With an operand it ends with status 0, even where it has reported
    failures. *)
Theorem rrm_confined `{Host} args t o : forallb utf8_valid args = true -> operands args <> [] ->
  exists t1 o1, rrm args (t, o) = ((t1, o1), Some (Next tt)) /\ t1 ⊆ t /\
  forall r x, t !! r = Some x -> t1 !! r = Some x \/
    exists target p q y, target ∈ operands args /\ locate cwd t (to_win32 target) = inr p /\
      node_at t p = Some y /\ r = p ++ q /\
      (contains args (lit "-r") || contains args (lit "-R") || contains args (lit "-rf") = true \/ y <> NDir /\ q = []).
Proof.
  intros Hu Hne. unfold rrm. rewrite (sh_next _ _ _ _ _ (say_args _ _ _ Hu)).
  set (recursive := contains args (lit "-r") || _ || _). destruct (operands args) as [|g gs] eqn:E; [done|].
  destruct (remove_each_gone recursive (contains args (lit "-f") || contains args (lit "-rf")) (g :: gs) t o)
    as (t1 & o1 & -> & Hs & Hg).
  exists t1, o1. split; [done|]. split; [done|]. intros r x Hx. destruct (Hg r x Hx) as [Hk|(g' & Hin & Hm)]; [by left|].
  right. destruct Hm as (p & q & y & Hl & Hy & -> & Hr). exists g', p, q, y. destruct recursive; auto 10.
Qed.

Lemma rrm_confined_witness :
  exists t1 o1, rrm [lit "rrm"; lit "a"; lit "d/a/f"] (tree_ex, no_out) = ((t1, o1), Some (Next tt)) /\ t1 ⊆ tree_ex /\
  forall r x, tree_ex !! r = Some x -> t1 !! r = Some x \/
    exists target p q y, target ∈ operands [lit "rrm"; lit "a"; lit "d/a/f"] /\
      locate cwd tree_ex (to_win32 target) = inr p /\ node_at tree_ex p = Some y /\ r = p ++ q /\
      (contains [lit "rrm"; lit "a"; lit "d/a/f"] (lit "-r") || contains [lit "rrm"; lit "a"; lit "d/a/f"] (lit "-R")
       || contains [lit "rrm"; lit "a"; lit "d/a/f"] (lit "-rf") = true \/ y <> NDir /\ q = []).
Proof. apply (rrm_confined [lit "rrm"; lit "a"; lit "d/a/f"] tree_ex no_out); [vm_compute; reflexivity|by vm_compute]. Defined.

(** The directory stays without [-r], the file goes. *)
Example rrm_ex :
  let '((t, o), r) := rrm [lit "rrm"; lit "a"; lit "d/a/f"] (tree_ex, no_out) in
  bool_decide (t = delete [lit "d"; lit "a"; lit "f"] tree_ex) = true /\ r = Some (Next tt) /\
  stderr o = lit "rrm: cannot remove 'a': Is a directory" ++ [10].
Proof. vm_compute. repeat split. Qed.

(** ** Touching and making

    Both only add: files that are empty, directories. *)
Section adding.
Context {H : Host}.

Definition only_added (x : Node) (t t1 : Tree) : Prop :=
  t ⊆ t1 /\ forall p y, t !! p = None -> t1 !! p = Some y -> y = x.

#[export] Instance only_added_preorder x : PreOrder (only_added x).
Proof.
  split; [intros t; split; [done|congruence]|]. intros t1 t2 t3 [H1 H2] [H3 H4]. split; [by etrans|].
  intros p y Hp Hy. destruct (t2 !! p) as [z|] eqn:E; [|by apply (H4 p)]. rewrite (lookup_weaken _ _ _ _ E H3) in Hy.
  injection Hy as <-. by apply (H2 p).
Qed.

Lemma only_added_insert x t p : t !! p = None -> only_added x t (<[p := x]> t).
Proof.
  intros Hp. split; [by apply insert_subseteq|]. intros q y Hq Hy. destruct (decide (p = q)) as [-> |Hne].
  - rewrite lookup_insert_eq in Hy. congruence.
  - rewrite lookup_insert_ne in Hy by done. congruence.
Qed.

(** How an answer adds, for the tree it comes with. *)
Definition adds {A : Type} (x : Node) (t : Tree) (a : Tree * Io A) : Prop := exists t1 r, a = (t1, r) /\ r <> Endless /\ only_added x t t1.
Lemma adds_answer {A : Type} (x : Node) (t t1 : Tree) (r : Io A) : r <> Endless -> only_added x t t1 -> adds x t (t1, r).
Proof. intros Hr Ha. by exists t1, r. Qed.
Lemma adds_nothing {A : Type} (x : Node) (t : Tree) (r : Io A) : r <> Endless -> adds x t (t, r).
Proof. intros Hr. by apply adds_answer. Qed.

Lemma open_create_adds s t : adds (NFile []) t (open_create cwd s t).
Proof.
  unfold open_create, at_path. destruct (locate cwd t s) as [e|p]; [by apply adds_nothing|].
  destruct (node_at t p) as [[bs|]|] eqn:E, (write_refused t p); try (by apply adds_nothing).
  destruct (ends_sep s); [by apply adds_nothing|]. apply adds_answer; [done|].
  apply only_added_insert. by destruct p.
Qed.

Lemma create_dir_adds s t : adds NDir t (create_dir cwd s t).
Proof.
  unfold create_dir. destruct (reach cwd t s) as [e|p]; [by apply adds_nothing|].
  destruct (node_at t p) as [x|] eqn:E; [by apply adds_nothing|]. apply adds_answer; [done|].
  apply only_added_insert. by destruct p.
Qed.

Lemma settle_adds x s t0 t e : only_added x t0 t -> adds x t0 (settle cwd s t e).
Proof. intros Ha. unfold settle. apply adds_answer; [by destruct (path_is_dir _ _ _)|done]. Qed.

Lemma make_dirs_adds fuel : forall s t, (S (length (comps s)) < fuel)%nat -> adds NDir t (make_dirs cwd fuel s t).
Proof.
  induction fuel as [|fuel IH]; intros s t Hf; [lia|]. cbn [make_dirs].
  destruct s as [|c0 s0]; [by apply adds_nothing|]. set (s := c0 :: s0) in *.
  destruct (create_dir_adds s t) as (t1 & r & E & Hne & Ha). rewrite E.
  destruct r as [[]|e|]; [by apply adds_answer| |done].
  destruct e as [| |code]; [by apply settle_adds..|]. destruct (decide (code = 2)) as [-> |Hc].
  2: { replace (match code with 2 => _ | _ => _ end) with (settle cwd s t1 (Os code)); [by apply settle_adds|].
       by destruct code as [|[[]|[]|]|]. }
  destruct (parent s) as [p|] eqn:Ep; [|by apply adds_answer].
  assert (adds NDir t1 (make_dirs cwd fuel p t1)) as (t2 & r2 & E2 & Hne2 & Ha2).
  { destruct (comps s) as [|c cs] eqn:Ec.
    - unfold parent in Ep. rewrite Ec in Ep. destruct (_ || _) in Ep; [done|]. injection Ep as <-.
      destruct fuel; [cbn in Hf; lia|]. by apply adds_nothing.
    - apply IH. rewrite (parent_comps s p Ep), Ec, removelast_firstn_len, length_firstn. cbn in Hf |- *. lia. }
  unfold fs_bind. rewrite E2. assert (only_added NDir t t2) as Ha3 by by etrans.
  destruct r2 as [[]|e2|]; [|by apply adds_answer|done].
  destruct (create_dir_adds s t2) as (t3 & r3 & E3 & Hne3 & Ha4). rewrite E3.
  assert (only_added NDir t t3) by by etrans.
  destruct r3 as [[]|e3|]; [by apply adds_answer|by apply settle_adds|done].
Qed.

Lemma adds_each {A : Type} (x : Node) (f : A -> Sh unit) l :
  (forall a t o, exists t1 o1, f a (t, o) = ((t1, o1), Some (Next tt)) /\ only_added x t t1) ->
  forall t o, exists t1 o1, sh_each f l (t, o) = ((t1, o1), Some (Next tt)) /\ only_added x t t1.
Proof.
  intros Hf. induction l as [|a l IH]; intros t o; [by exists t, o|]. cbn [sh_each].
  destruct (Hf a t o) as (t1 & o1 & E1 & H1). rewrite (sh_next _ _ _ _ _ E1).
  destruct (IH t1 o1) as (t2 & o2 & E2 & H2). exists t2, o2. split; [done|]. by etrans.
Qed.

Lemma adds_report {A : Type} (x : Node) (m : Tree -> Tree * Io A) (k : IoError -> str) t o :
  adds x t (m t) ->
  exists t1 o1, (sh! r := fs m in match r with inr _ => sh_ret tt | inl e => say (eprintln (k e)) end) (t, o)
    = ((t1, o1), Some (Next tt)) /\ only_added x t t1.
Proof.
  intros (t1 & r & E & Hne & Ha). destruct r as [a|e|]; [| |done].
  - rewrite (sh_next _ _ _ _ _ (fs_val _ _ _ _ _ E)). by exists t1, o.
  - rewrite (sh_next _ _ _ _ _ (fs_raise _ _ _ _ _ E)). by do 2 eexists.
Qed.
End adding.

(** [rtouch] and [rmkdir], with and without [-p], come to an end with status 0
    and never lose or change what is there: [rtouch] adds empty files, [rmkdir]
    directories, whatever is reported on the way. *)
Theorem touch_and_mkdir_only_add `{Host} args t o : forallb utf8_valid args = true -> operands args <> [] ->
  (exists t1 o1, rtouch args (t, o) = ((t1, o1), Some (Next tt)) /\ t ⊆ t1 /\
    forall p x, t !! p = None -> t1 !! p = Some x -> x = NFile []) /\
  (exists t1 o1, rmkdir args (t, o) = ((t1, o1), Some (Next tt)) /\ t ⊆ t1 /\
    forall p x, t !! p = None -> t1 !! p = Some x -> x = NDir).
Proof.
  intros Hu Hne. unfold rtouch, rmkdir. rewrite !(sh_next _ _ _ _ _ (say_args _ _ _ Hu)).
  destruct (operands args) as [|g gs]; [done|]. split; apply adds_each; intros target t0 o0.
  - apply (adds_report (NFile []) _ _ t0 o0), open_create_adds.
  - apply (adds_report NDir _ _ t0 o0). destruct (contains args (lit "-p")); [|apply create_dir_adds].
    apply make_dirs_adds. lia.
Qed.

Lemma touch_and_mkdir_only_add_witness :
  (exists t1 o1, rtouch [lit "x"; lit "-p"; lit "a/f"; lit "n/m"] (tree_ex, no_out) = ((t1, o1), Some (Next tt)) /\ tree_ex ⊆ t1 /\
    forall p x, tree_ex !! p = None -> t1 !! p = Some x -> x = NFile []) /\
  (exists t1 o1, rmkdir [lit "x"; lit "-p"; lit "a/f"; lit "n/m"] (tree_ex, no_out) = ((t1, o1), Some (Next tt)) /\ tree_ex ⊆ t1 /\
    forall p x, tree_ex !! p = None -> t1 !! p = Some x -> x = NDir).
Proof.
  apply (touch_and_mkdir_only_add [lit "x"; lit "-p"; lit "a/f"; lit "n/m"] tree_ex no_out); [vm_compute; reflexivity|by vm_compute].
Defined.

Example mkdir_ex :
  let '((t, o), r) := rmkdir [lit "rmkdir"; lit "-p"; lit "n/./m//k/"; lit "a/f"] (tree_ex, no_out) in
  t !! [lit "n"] = Some NDir /\ t !! [lit "n"; lit "m"; lit "k"] = Some NDir /\
  stderr o = lit "rmkdir: cannot create directory 'a/f': ?" ++ [10] /\ r = Some (Next tt).
Proof. vm_compute. repeat split. Qed.
