(* ===== verification/TreeWalk.v ===== *)
(** * Programs that walk a directory tree

    [rfind] and [rgrep] both visit each entry of a directory, print something
    for it and walk into it when it is a directory.  A [Walker] says what such
    a program promises; its walk then prints for every entry below its root
    once. *)

From Stdlib Require Import ZArith Lia String.
From stdpp Require Import base numbers list strings gmap.
From S2P Require Import Prelude Sys Text Cli StdFs FileTools.
Open Scope Z_scope.

(** What a program printed, on top of what was there. *)
Definition printed (o : Out) (ls : list str) : Out := mkOut (stdout o ++ unlines ls) (stderr o).
Lemma printed_nil o : printed o [] = o.
Proof. destruct o. unfold printed, unlines. cbn. by rewrite app_nil_r. Qed.
Lemma printed_app o a b : printed (printed o a) b = printed o (a ++ b).
Proof. unfold printed. cbn. by rewrite unlines_app, app_assoc. Qed.

(** The path of the entry at [q], as a walk from [root] writes it. *)
Definition path_from (root : OsString) (q : Path) : OsString := foldl join root q.

(** The entries of [p] by a first name in [ns], each once. *)
Definition lists (t : Tree) (p : Path) (ns : list OsString) (qs : list Path) : Prop :=
  NoDup qs /\ forall q, q ∈ qs <-> exists n q', q = n :: q' /\ n ∈ ns /\ is_Some (t !! (p ++ q)).

Lemma lists_nil t p : lists t p [] [].
Proof. split; [constructor|]. intros q. split; [by intros ?%elem_of_nil|]. by intros (? & ? & _ & ?%elem_of_nil & _). Qed.

(** One entry, what is below it, and the other entries. *)
Lemma lists_cons t p n ns below qs : n ∉ ns -> is_Some (t !! (p ++ [n])) -> NoDup below ->
  (forall q, q ∈ below <-> q <> [] /\ is_Some (t !! ((p ++ [n]) ++ q))) -> lists t p ns qs ->
  lists t p (n :: ns) ([n] :: map (cons n) below ++ qs).
Proof.
  intros Hn Hx Hnb Hb [Hnq Hq].
  assert (forall q, q ∈ map (cons n) below <-> exists q', q = n :: q' /\ q' <> [] /\ is_Some (t !! (p ++ q))) as Hbelow.
  { intros q. change (map (cons n) below) with (cons n <$> below). rewrite list_elem_of_fmap. split.
    - intros (q' & -> & [Hne Hw]%Hb). exists q'. by rewrite <- app_assoc in Hw.
    - intros (q' & -> & Hne & Hw). exists q'. split; [done|]. apply Hb. by rewrite <- app_assoc. }
  split.
  - apply NoDup_cons. split.
    { intros [Hin|Hin]%elem_of_app.
      - apply Hbelow in Hin as (q' & E & Hne & _). by injection E as <-.
      - apply Hq in Hin as (m & q' & E & Hm & _). by injection E as <- <-. }
    apply NoDup_app. split; [by apply (NoDup_fmap_2 (cons n))|split; [|done]].
    intros q (q' & -> & _ & _)%Hbelow Hin. apply Hq in Hin as (m & q2 & E & Hm & _). by injection E as <- <-.
  - intros q. rewrite elem_of_cons, elem_of_app, Hbelow, Hq. split.
    + intros [->|[(q' & -> & Hne & Hw)|(m & q' & -> & Hm & Hw)]].
      * exists n, []. split; [done|]. split; [by constructor|done].
      * exists n, q'. split; [done|]. split; [by constructor|done].
      * exists m, q'. split; [done|]. split; [by constructor|done].
    + intros (m & q' & -> & [-> |Hm]%elem_of_cons & Hw); [|right; right; by exists m, q'].
      destruct q' as [|c q']; [by left|]. right. left. by exists (c :: q').
Qed.

Lemma entries_below t p ns qs : tree_ok t -> lists t p ns qs -> (forall n, n ∈ ns <-> is_Some (t !! (p ++ [n]))) ->
  forall q, q ∈ qs <-> q <> [] /\ is_Some (t !! (p ++ q)).
Proof.
  intros Ht [_ Hq] Hns q. rewrite Hq. split; [by intros (n & q' & -> & _ & Hx)|].
  intros [Hne Hx]. destruct q as [|n q]; [done|]. exists n, q. split; [done|]. split; [|done]. apply Hns.
  destruct q as [|c q]; [done|]. rewrite (dir_above t p n (c :: q)) by done. by eexists.
Qed.

(** A loop with [?]. *)
Fixpoint sh_try {A} (f : A -> Sh (IoError + unit)) (l : list A) : Sh (IoError + unit) :=
  match l with
  | [] => sh_ret (inr tt)
  | x :: l =>
    sh! r := f x in
    match r with inl e => sh_ret (inl e) | inr _ => sh_try f l end
  end.

Section walking.
Context {H : Host}.
Implicit Types (t : Tree) (o : Out) (p q : Path) (dir n : OsString).

(** Without an error, and the tree as it was. *)
Abbreviation fine t o := ((t, o), Some (Next (inr tt : IoError + unit))).

(** [walk] lists a directory and calls [visit] for each entry, which prints
    [emit] and then walks a directory. *)
Class Walker (walk : nat -> OsString -> Sh (IoError + unit)) (visit : nat -> OsString -> OsString -> Sh (IoError + unit))
    (emit : OsString -> OsString -> Node -> list str) : Prop := {
  visit_file fuel dir p t o n bs : reach cwd t dir = inr p -> node_at t p = Some NDir -> name_ok n ->
    t !! (p ++ [n]) = Some (NFile bs) ->
    visit fuel dir n (t, o) = fine t (printed o (emit (join dir n) n (NFile bs)));
  visit_dir fuel dir p t o n o2 : reach cwd t dir = inr p -> node_at t p = Some NDir -> name_ok n ->
    t !! (p ++ [n]) = Some NDir ->
    walk fuel (join dir n) (t, printed o (emit (join dir n) n NDir)) = fine t o2 -> visit fuel dir n (t, o) = fine t o2;
  walk_visits fuel dir p t o o2 : reach cwd t dir = inr p -> node_at t p = Some NDir ->
    sh_try (visit fuel dir) (order (children t p)) (t, o) = fine t o2 -> walk (S fuel) dir (t, o) = fine t o2;
}.

Context (walk : nat -> OsString -> Sh (IoError + unit)) (visit : nat -> OsString -> OsString -> Sh (IoError + unit)).
Context (emit : OsString -> OsString -> Node -> list str) {W : Walker walk visit emit}.

(** What is printed for the entry at [q] below [p]. *)
Definition emitted t p dir q : list str :=
  match last q, t !! (p ++ q) with
  | Some n, Some x => emit (path_from dir q) n x
  | _, _ => []
  end.

Lemma emitted_below t p dir n q : q <> [] -> emitted t p dir (n :: q) = emitted t (p ++ [n]) (join dir n) q.
Proof. intros Hq. unfold emitted. rewrite <- app_assoc. by destruct q. Qed.

Definition Walks fuel : Prop := forall dir p t o, tree_ok t -> reach cwd t dir = inr p -> node_at t p = Some NDir ->
  (forall q, is_Some (t !! (p ++ q)) -> (length q < fuel)%nat) -> fuel <> O ->
  exists qs, NoDup qs /\ (forall q, q ∈ qs <-> q <> [] /\ is_Some (t !! (p ++ q))) /\
  walk fuel dir (t, o) = fine t (printed o (concat (map (emitted t p dir) qs))).

Lemma visit_prints fuel dir p t o n x : Walks fuel -> tree_ok t -> reach cwd t dir = inr p -> node_at t p = Some NDir ->
  (forall q, is_Some (t !! (p ++ q)) -> (length q < S fuel)%nat) -> t !! (p ++ [n]) = Some x ->
  exists below, NoDup below /\ (forall q, q ∈ below <-> q <> [] /\ is_Some (t !! ((p ++ [n]) ++ q))) /\
    visit fuel dir n (t, o) = fine t (printed o (concat (map (emitted t p dir) ([n] :: map (cons n) below)))).
Proof.
  intros IH Ht Hr Hp Hl Hx. destruct (Ht _ _ Hx) as (_ & Hn & _). apply Forall_app in Hn as [_ Hn].
  apply Forall_inv in Hn.
  assert (emitted t p dir [n] = emit (join dir n) n x) as E0 by (unfold emitted; cbn [last]; by rewrite Hx).
  destruct x as [bs|].
  - exists []. split; [constructor|]. split; [|by rewrite (visit_file _ _ p _ _ _ bs), <- E0; cbn; rewrite ?app_nil_r].
    intros q. split; [by intros ?%elem_of_nil|]. intros [Hne [y Hy]].
    rewrite nothing_below in Hy; [done|done|by destruct p|done|by rewrite Hx].
  - destruct (IH (join dir n) (p ++ [n]) t (printed o (emit (join dir n) n NDir))) as (qs & Hnd & Hq & E).
    + done.
    + by apply locate_reach, reach_join.
    + by rewrite node_at_snoc.
    + intros q. rewrite <- app_assoc. intros Hq. specialize (Hl _ Hq). cbn in Hl. lia.
    + specialize (Hl [n] ltac:(by eexists)). cbn in Hl. lia.
    + exists qs. split; [done|]. split; [done|]. apply (visit_dir _ _ p); try done. rewrite E, printed_app, <- E0.
      cbn [map concat]. rewrite map_map. do 5 f_equal. apply map_ext_in. intros q Hin%list_elem_of_In.
      symmetry. by apply emitted_below, Hq.
Qed.

Lemma visits_print fuel dir p t : Walks fuel -> tree_ok t -> reach cwd t dir = inr p -> node_at t p = Some NDir ->
  (forall q, is_Some (t !! (p ++ q)) -> (length q < S fuel)%nat) -> forall ns o, NoDup ns ->
  Forall (fun n => is_Some (t !! (p ++ [n]))) ns -> exists qs, lists t p ns qs /\
  sh_try (visit fuel dir) ns (t, o) = fine t (printed o (concat (map (emitted t p dir) qs))).
Proof.
  intros IH Ht Hr Hp Hl. induction ns as [|n ns IHn]; intros o Hnd Hns.
  { exists []. split; [apply lists_nil|]. cbn. by rewrite printed_nil. }
  apply NoDup_cons in Hnd as [Hn Hnd]. destruct (Forall_inv Hns) as [x Hx]. apply Forall_inv_tail in Hns.
  destruct (visit_prints fuel dir p t o n x) as (below & Hnb & Hb & E); [done..|].
  set (done_ := [n] :: map (cons n) below) in *.
  destruct (IHn (printed o (concat (map (emitted t p dir) done_)))) as (qs & Hq & E2); [done..|].
  exists (done_ ++ qs). split; [apply (lists_cons t p n ns below qs); [done|by eexists|done..]|]. cbn [sh_try].
  rewrite (sh_next _ _ _ _ _ E), E2, printed_app. by rewrite map_app, concat_app.
Qed.

Lemma walk_prints fuel : Walks fuel.
Proof.
  induction fuel as [|fuel IH]; intros dir p t o Ht Hr Hp Hl Hf; [done|].
  assert (forall n, n ∈ order (children t p) <-> is_Some (t !! (p ++ [n]))) as Hch
    by (intros n; by rewrite order_permutes, elem_children).
  assert (NoDup (order (children t p))) as Hnd by (rewrite order_permutes; apply NoDup_children).
  destruct (visits_print fuel dir p t IH Ht Hr Hp Hl (order (children t p)) o Hnd) as (qs & Hq & E).
  { apply Forall_forall. intros n. apply Hch. }
  exists qs. split; [apply Hq|]. split; [by apply (entries_below t p _ qs Ht Hq)|]. by apply (walk_visits _ _ p).
Qed.
End walking.
