(* ===== verification/FileWalk.v ===== *)
(** * Finding ([rfind])

    What [rfind] of [FileTools] prints of a tree. *)

From Stdlib Require Import ZArith Lia String.
From stdpp Require Import base numbers list strings gmap.
From S2P Require Import Prelude Sys Text Cli StdFs FileTools TreeWalk.
Open Scope Z_scope.

Section finding.
Context {H : Host} (name_regex : option (str -> bool)) (type_filter : option Z).
Implicit Types (t : Tree) (p q : Path).

Definition matching (n : OsString) (x : Node) : bool :=
  matches_type type_filter (bool_decide (x = NDir)) && matches_name name_regex (from_utf8_lossy n).

(** Whether the entry at [q] below [p] is one to print, and its line. *)
Definition wanted t p q : bool :=
  match last q, t !! (p ++ q) with Some n, Some x => matching n x | _, _ => false end.
Definition line_from (root : OsString) (q : Path) : str := to_posix (from_utf8_lossy (path_from root q)).

Lemma print_path_at t o path : print_path path (t, o) = ((t, printed o [to_posix (from_utf8_lossy path)]), Some (Next tt)).
Proof. unfold printed, unlines. cbn. by rewrite app_nil_r. Qed.

(** The walk as one of [TreeWalk]. *)
Definition find_walk (fuel : nat) (dir : OsString) : Sh (IoError + unit) := walk_dir fuel dir name_regex type_filter.
Definition find_visit (fuel : nat) (dir n : OsString) : Sh (IoError + unit) :=
  sh! _ := visit name_regex type_filter (find_walk fuel) dir n in sh_ret (inr tt).
Definition find_emit (path n : OsString) (x : Node) : list str :=
  if matching n x then [to_posix (from_utf8_lossy path)] else [].

Lemma visit_known t o dir p n x descend : reach cwd t dir = inr p -> node_at t p = Some NDir -> name_ok n ->
  t !! (p ++ [n]) = Some x ->
  visit name_regex type_filter descend dir n (t, o) =
  (if bool_decide (x = NDir) then sh! _ := descend (join dir n) in sh_ret tt else sh_ret tt)
    (t, printed o (find_emit (join dir n) n x)).
Proof.
  intros Hr Hp Hn Hx. pose proof (reach_join _ _ _ _ n Hr Hp Hn) as Lj.
  assert (path_is_dir cwd t (join dir n) = bool_decide (x = NDir)) as Ed.
  { unfold path_is_dir, stat. rewrite Lj, node_at_snoc, Hx. apply bool_decide_ext. split; [by intros [= ->]|by intros ->]. }
  unfold visit. unfold sh_bind at 1. cbn [look fst]. rewrite Ed. fold (matching n x). unfold find_emit.
  rewrite (sh_next _ _ _ (t, printed o (if matching n x then [to_posix (from_utf8_lossy (join dir n))] else [])) tt); [done|].
  destruct (matching n x); [apply print_path_at|by rewrite printed_nil].
Qed.

Lemma find_visits t o dir descend ns o2 :
  sh_try (fun n => sh! _ := visit name_regex type_filter descend dir n in sh_ret (inr tt)) ns (t, o)
    = ((t, o2), Some (Next (inr tt))) ->
  sh_each (visit name_regex type_filter descend dir) ns (t, o) = ((t, o2), Some (Next tt)).
Proof.
  generalize (t, o). induction ns as [|n ns IH]; intros w; cbn [sh_try sh_each].
  { intros E. by injection E as ->. }
  unfold sh_bind. destruct (visit _ _ _ _ _ w) as [w1 [[[]|s|]|]]; try done. apply IH.
Qed.

#[export] Instance find_walker : Walker find_walk find_visit find_emit.
Proof.
  split.
  - intros fuel dir p t o n bs Hr Hp Hn Hx. unfold find_visit. unfold sh_bind.
    by rewrite (visit_known t o dir p n (NFile bs)).
  - intros fuel dir p t o n o2 Hr Hp Hn Hx E. unfold find_visit. unfold sh_bind at 1.
    rewrite (visit_known t o dir p n NDir) by done. rewrite bool_decide_eq_true_2 by done.
    by rewrite (sh_next _ _ _ _ _ E).
  - intros fuel dir p t o o2 Hr Hp E. apply find_visits in E. unfold find_walk. cbn [walk_dir].
    unfold sh_bind at 1. cbn [look fst].
    pose proof (reach_locate _ _ _ _ Hr (or_introl Hp)) as Lr. rewrite (exists_at _ _ _ _ Lr Hp). cbn [negb].
    assert (read_dir cwd order dir t = (t, Val (order (children t p)))) as Er
      by (unfold read_dir, at_path; by rewrite Lr, Hp).
    rewrite (sh_next _ _ _ _ _ (fs_val _ _ _ _ _ Er)). by rewrite (sh_next _ _ _ _ _ E).
Qed.

Lemma find_lines t p dir qs :
  concat (map (emitted find_emit t p dir) qs) = map (line_from dir) (List.filter (wanted t p) qs).
Proof.
  induction qs as [|q qs IH]; [done|]. cbn [map concat List.filter]. rewrite IH. unfold emitted, wanted, find_emit.
  destruct (last q) as [n|]; [|done]. destruct (t !! (p ++ q)) as [x|]; [|done]. by destruct (matching n x).
Qed.
End finding.

(** C23: [rfind] of a directory prints the directory itself when its type is asked
    for, whatever its name, and below it each entry whose type and name match,
    exactly once, by its path from there; it changes nothing and ends with
    status 0.  The fuel has to exceed the depth of the tree. *)
Theorem rfind_lists `{Host} fuel args path pattern type_filter name_regex t p :
  forallb utf8_valid args = true -> find_args true (drop 1 args) (lit ".", None, None) = (path, pattern, type_filter) ->
  match pattern with
  | None => name_regex = None
  | Some s => exists is_match, regex_new (lit "^" ++ wildcard s ++ lit "$") = inr is_match /\ name_regex = Some is_match
  end ->
  tree_ok t -> reach cwd t (to_win32 path) = inr p -> node_at t p = Some NDir ->
  (forall q, is_Some (t !! (p ++ q)) -> (length q < fuel)%nat) -> fuel <> O ->
  exists qs, NoDup qs /\ (forall q, q ∈ qs <-> wanted name_regex type_filter t p q = true) /\
  rfind fuel args (t, no_out) = ((t, printed no_out
    ((if matches_type type_filter true then [to_posix (from_utf8_lossy (to_win32 path))] else [])
     ++ map (line_from (to_win32 path)) qs)), Some (Next tt)).
Proof.
  intros Hu Ha Hre Ht Hr Hp Hl Hf. set (root := to_win32 path) in *.
  set (here := if matches_type type_filter true then [to_posix (from_utf8_lossy root)] else []).
  destruct (walk_prints (find_walk name_regex type_filter) _ _ fuel root p t (printed no_out here) Ht Hr Hp Hl Hf)
    as (qs & Hn & Hq & E).
  exists (List.filter (wanted name_regex type_filter t p) qs).
  split; [by apply NoDup_ListNoDup, List.NoDup_filter, NoDup_ListNoDup|]. split.
  { intros q. rewrite !list_elem_of_In, filter_In, <- list_elem_of_In, Hq. unfold wanted. split; [by intros [_ Hw]|].
    intros Hw. split; [|done]. destruct (last q) eqn:El; [|done]. destruct (t !! _) eqn:Ex; [|done].
    split; [by intros -> |by eexists]. }
  unfold rfind. rewrite (sh_next _ _ _ _ _ (say_args _ _ _ Hu)), Ha.
  rewrite (sh_next _ _ _ (t, no_out) name_regex).
  2: { destruct pattern as [s|]; [|by subst]. by destruct Hre as (f & -> & ->). }
  fold root. unfold sh_bind at 1. cbn [look fst]. rewrite (stat_dir _ _ _ _ Hr Hp).
  rewrite (sh_next _ _ _ (t, printed no_out here) tt).
  2: { subst here. destruct (matches_type type_filter true); [apply print_path_at|by rewrite printed_nil]. }
  unfold find_walk in E. rewrite (sh_next _ _ _ _ _ E), find_lines. by rewrite <- printed_app.
Qed.

Lemma rfind_lists_witness :
  exists qs, NoDup qs /\ (forall q, q ∈ qs <-> wanted None (Some 102) tree_ex [lit "a"] q = true) /\
  rfind 3 [lit "rfind"; lit "a"; lit "-type"; lit "f"] (tree_ex, no_out) = ((tree_ex, printed no_out
    ((if matches_type (Some 102) true then [to_posix (from_utf8_lossy (to_win32 (lit "a")))] else [])
     ++ map (line_from (to_win32 (lit "a"))) qs)), Some (Next tt)).
Proof.
  apply (rfind_lists 3 [lit "rfind"; lit "a"; lit "-type"; lit "f"] (lit "a") None (Some 102) None tree_ex [lit "a"]);
    try (vm_compute; reflexivity).
  - apply tree_ok_check. vm_compute. reflexivity.
  - apply depth_check. vm_compute. reflexivity.
  - discriminate.
Defined.

Example rfind_ex :
  let '((t, o), r) := rfind 3 [lit "rfind"; lit "a"; lit "-type"; lit "f"] (tree_ex, no_out) in
  (stdout o = unlines [lit "a/f"; lit "a/s/g"] \/ stdout o = unlines [lit "a/s/g"; lit "a/f"]) /\
  r = Some (Next tt) /\ wildcard (lit "*.rs") = lit ".*\.rs" /\ wildcard (lit "a+b") = lit "a+b".
Proof. vm_compute. repeat split. auto. Qed.
