(* ===== verification/FileGrep.v ===== *)
(** * Searching ([rgrep])

    [search_dir] and [main] of [rgrep] over the file tree, with the matching
    loop of [LineTools].  [str::to_lowercase] and the way [main] prints a
    text as an error are parameters, beside those of [FileTools]. *)

From Stdlib Require Import ZArith Lia String.
From stdpp Require Import base numbers list strings gmap.
From S2P Require Import Prelude Sys Text Cli LineTools StdFs FileTools TreeWalk.
Open Scope Z_scope.

Section rgrep.
Context {H : Host} (to_lowercase : str -> str) (debug_str : str -> str).

(** The flags and the pattern of one run. *)
Record Search := mkSearch { re : str -> bool; invert : bool; line_nums : bool }.

Definition search (s : Search) (filename : str) (print_name : bool) (reader : Source) : Sh (IoError + unit) :=
  say (search_reader (re s) (invert s) (line_nums s) filename print_name 0 (reader_lines reader)).

(** One entry; a file that cannot be opened, or read to its end, is passed
    over. *)
Definition grep_visit (s : Search) (descend : OsString -> Sh (IoError + unit)) (dir name : OsString)
  : Sh (IoError + unit) :=
  let path := join dir name in
  sh! is_dir := look (fun t => path_is_dir cwd t path) in
  if (is_dir : bool) then descend path
  else
    sh! file := fs (open_read cwd path) in
    match file with
    | inl _ => sh_ret (inr tt)
    | inr file =>
      sh! _ := search s (to_posix (from_utf8_lossy path)) true file in
      sh_ret (inr tt)
    end.

Fixpoint search_dir (s : Search) (fuel : nat) (dir : OsString) : Sh (IoError + unit) :=
  match fuel with
  | O => fun w => (w, None)
  | S fuel =>
    sh! is_dir := look (fun t => path_is_dir cwd t dir) in
    if negb is_dir then sh_ret (inr tt)
    else
      sh! names := fs (read_dir cwd order dir) in
      match names with
      | inl e => sh_ret (inl e)
      | inr names => sh_try (grep_visit s (search_dir s fuel) dir) names
      end
  end.

(** The [?] of [main]. *)
Definition or_die (m : Sh (IoError + unit)) : Sh unit := sh! r := m in say (try debug_io r).

Definition search_operand (s : Search) (fuel : nat) (recursive print_name : bool) (f : str) : Sh unit :=
  let path := to_win32 f in
  sh! is_dir := look (fun t => path_is_dir cwd t path) in
  if (is_dir : bool) then
    if recursive then or_die (search_dir s fuel path)
    else say (eprintln (lit "rgrep: " ++ f ++ lit ": Is a directory"))
  else
    sh! file := fs (open_read cwd path) in
    match file with
    | inr file => or_die (search s f print_name file)
    | inl e => say (eprintln (lit "rgrep: " ++ f ++ lit ": " ++ show_io e))
    end.

Definition rgrep (fuel : nat) (args : list OsString) (stdin : Source) : Sh unit :=
  sh! args := say (env_args args) in
  let recursive := contains args (lit "-r") || contains args (lit "-R") in
  match operands args with
  | [] => fail_with (lit "Usage: rgrep [-i] [-v] [-n] [-r] PATTERN [FILE...]")
  | pattern_str :: files =>
    let final_pattern := if contains args (lit "-i") then to_lowercase pattern_str else pattern_str in
    match regex_new final_pattern with
    | inl e => fail_with (lit "Error: " ++ debug_str (lit "Invalid regex '" ++ pattern_str ++ lit "': " ++ e))
    | inr is_match =>
      let s := mkSearch is_match (contains args (lit "-v")) (contains args (lit "-n")) in
      match files with
      | [] => if recursive then or_die (search_dir s fuel (lit "."))
              else or_die (search s [] false stdin)
      | _ => sh_each (search_operand s fuel recursive ((1 <? zlen files) || recursive)) files
      end
    end
  end.

(** ** What is printed for one file *)

(** The lines up to the first that is no text. *)
Fixpoint readable_lines (ls : list (IoError + str)) : list str :=
  match ls with inr l :: ls => l :: readable_lines ls | _ => [] end.

(** The lines that match, or with [-v] the others, behind the name and the
    number that are asked for. *)
Definition selected (s : Search) (filename : str) (print_name : bool) (start : Z) (ls : list str) : list str :=
  concat (imap (fun i l =>
    if xorb (invert s) (re s l)
    then [(if print_name then filename ++ [58] else [])
          ++ (if line_nums s then dec (start + Z.of_nat i + 1) ++ [58] else []) ++ l]
    else []) ls).

Lemma selected_cons s f pn start l ls : selected s f pn start (l :: ls) =
  (if xorb (invert s) (re s l)
   then [(if pn then f ++ [58] else []) ++ (if line_nums s then dec (start + 1) ++ [58] else []) ++ l] else [])
  ++ selected s f pn (start + 1) ls.
Proof.
  unfold selected. rewrite imap_cons. cbn [concat]. rewrite Z.add_0_r. f_equal. f_equal. apply imap_ext.
  intros i x _. cbn [compose]. by replace (start + 1 + Z.of_nat i) with (start + Z.of_nat (S i)) by lia.
Qed.

Lemma search_reader_prints s f pn ls : forall idx o, exists r,
  search_reader (re s) (invert s) (line_nums s) f pn idx ls o =
  (printed o (selected s f pn idx (readable_lines ls)), Next r).
Proof.
  induction ls as [|[e|l] ls IH]; intros idx o; cbn [search_reader readable_lines].
  - exists (inr tt). by rewrite printed_nil.
  - exists (inl e). by rewrite printed_nil.
  - rewrite selected_cons, <- printed_app.
    set (here := if xorb _ _ then _ else _ : list str).
    assert (grep_line (re s) (invert s) (line_nums s) f pn idx (inr l) o = (printed o here, Next None)) as E.
    { subst here. unfold grep_line, io_bind, when.
      replace (if invert s then negb (re s l) else re s l) with (xorb (invert s) (re s l)) by by destruct (invert s), (re s l).
      destruct (xorb _ _); [|by rewrite printed_nil]. unfold println, print, printed, unlines. cbn [map concat].
      by rewrite app_nil_r. }
    unfold io_bind at 1. rewrite E. apply IH.
Qed.

Definition found_in (s : Search) (filename : str) (print_name : bool) (bs : list Z) : list str :=
  selected s filename print_name 0 (readable_lines (reader_lines (mkSource bs None))).

Lemma search_prints s f pn bs t o : exists r,
  search s f pn (mkSource bs None) (t, o) = ((t, printed o (found_in s f pn bs)), Some (Next r)).
Proof.
  unfold search, say, found_in.
  destruct (search_reader_prints s f pn (reader_lines (mkSource bs None)) 0 o) as [r ->]. by exists r.
Qed.

(** ** A recursive search *)

Definition grep_emit (s : Search) (path n : OsString) (x : Node) : list str :=
  match x with NFile bs => found_in s (to_posix (from_utf8_lossy path)) true bs | NDir => [] end.

Lemma is_dir_known (t : Tree) dir p n x : reach cwd t dir = inr p -> node_at t p = Some NDir -> name_ok n ->
  t !! (p ++ [n]) = Some x -> path_is_dir cwd t (join dir n) = bool_decide (x = NDir).
Proof.
  intros Hr Hp Hn Hx. pose proof (reach_join _ _ _ _ n Hr Hp Hn) as Lj. unfold path_is_dir, stat.
  rewrite Lj, node_at_snoc, Hx. apply bool_decide_ext. split; [by intros [= ->]|by intros ->].
Qed.

Lemma grep_walker s (Hread : forall t p, read_refused t p = None) :
  Walker (search_dir s) (fun fuel => grep_visit s (search_dir s fuel)) (grep_emit s).
Proof.
  split.
  - intros fuel dir p t o n bs Hr Hp Hn Hx. unfold grep_visit. unfold sh_bind at 1. cbn [look fst].
    rewrite (is_dir_known t dir p n (NFile bs)) by done. rewrite bool_decide_eq_false_2 by done.
    assert (open_read cwd (join dir n) t = (t, Val (mkSource bs None))) as Eo
      by (unfold open_read, at_path; by rewrite (reach_join _ _ _ _ n Hr Hp Hn), node_at_snoc, Hx, Hread).
    rewrite (sh_next _ _ _ _ _ (fs_val _ _ _ _ _ Eo)).
    destruct (search_prints s (to_posix (from_utf8_lossy (join dir n))) true bs t o) as [r E].
    by rewrite (sh_next _ _ _ _ _ E).
  - intros fuel dir p t o n o2 Hr Hp Hn Hx. cbn [grep_emit]. rewrite printed_nil. intros E.
    unfold grep_visit. unfold sh_bind at 1. cbn [look fst].
    rewrite (is_dir_known t dir p n NDir) by done. by rewrite bool_decide_eq_true_2.
  - intros fuel dir p t o o2 Hr Hp E. cbn [search_dir]. unfold sh_bind at 1. cbn [look fst].
    rewrite (stat_dir _ _ _ _ Hr Hp). cbn [negb].
    assert (read_dir cwd order dir t = (t, Val (order (children t p)))) as Er
      by (unfold read_dir, at_path; by rewrite (reach_locate _ _ _ _ Hr (or_introl Hp)), Hp).
    by rewrite (sh_next _ _ _ _ _ (fs_val _ _ _ _ _ Er)).
Qed.

(** What the recursive search prints for the entry at [q] below the root. *)
Definition grep_lines (s : Search) (t : Tree) (p : Path) (root : OsString) (q : Path) : list str :=
  match t !! (p ++ q) with
  | Some (NFile bs) => found_in s (to_posix (from_utf8_lossy (path_from root q))) true bs
  | _ => []
  end.

Lemma grep_emitted s t p root q : q <> [] -> emitted (grep_emit s) t p root q = grep_lines s t p root q.
Proof.
  intros Hq. unfold emitted, grep_lines. destruct (exists_last Hq) as (q' & n & ->). rewrite last_snoc.
  by destruct (t !! _) as [[|]|].
Qed.

Definition is_file (t : Tree) (p : Path) (q : Path) : bool :=
  match t !! (p ++ q) with Some (NFile _) => true | _ => false end.
Lemma grep_all s t p root qs : Forall (fun q => q <> []) qs ->
  concat (map (emitted (grep_emit s) t p root) qs) = concat (map (grep_lines s t p root) (List.filter (is_file t p) qs)).
Proof.
  induction 1 as [|q qs Hq _ IH]; [done|]. cbn [map concat List.filter]. rewrite grep_emitted, IH by done.
  unfold is_file at 2, grep_lines at 1. destruct (t !! (p ++ q)) as [[bs|]|] eqn:E; [|done..].
  cbn [map concat]. unfold grep_lines at 2. by rewrite E.
Qed.
End rgrep.

(** [rgrep -r PATTERN DIR] prints, for each regular file below the directory
    once, its lines that match (with [-v] those that do not) behind the file's
    path, and with [-n] the line's number, when none is refused to it; of a file that is no text it prints
    what comes before.  No other line, no error, status 0, and nothing
    changes. *)
Theorem rgrep_recursive `{Host} to_lowercase debug_str fuel args stdin pattern dir is_match t p :
  forallb utf8_valid args = true -> operands args = [pattern; dir] ->
  contains args (lit "-r") || contains args (lit "-R") = true -> contains args (lit "-i") = false ->
  regex_new pattern = inr is_match -> (forall t p, read_refused t p = None) ->
  tree_ok t -> reach cwd t (to_win32 dir) = inr p -> node_at t p = Some NDir ->
  (forall q, is_Some (t !! (p ++ q)) -> (length q < fuel)%nat) -> fuel <> O ->
  exists qs, NoDup qs /\ (forall q, q ∈ qs <-> q <> [] /\ exists bs, t !! (p ++ q) = Some (NFile bs)) /\
  rgrep to_lowercase debug_str fuel args stdin (t, no_out) =
    ((t, printed no_out (concat (map
       (grep_lines (mkSearch is_match (contains args (lit "-v")) (contains args (lit "-n"))) t p (to_win32 dir)) qs))),
     Some (Next tt)).
Proof.
  intros Hu Ho Hrec Hi Hre Hread Ht Hr Hp Hl Hf. set (root := to_win32 dir) in *.
  set (s := mkSearch is_match (contains args (lit "-v")) (contains args (lit "-n"))).
  destruct (walk_prints _ _ _ (W := grep_walker s Hread) fuel root p t no_out Ht Hr Hp Hl Hf) as (qs & Hn & Hq & E).
  exists (List.filter (is_file t p) qs). split; [by apply NoDup_ListNoDup, List.NoDup_filter, NoDup_ListNoDup|]. split.
  { intros q. rewrite !list_elem_of_In, filter_In, <- list_elem_of_In, Hq. unfold is_file.
    destruct (t !! (p ++ q)) as [[bs|]|]; split; try (by intros [_ ?]); try (by intros (_ & ? & ?)).
    - intros [[Hne _] _]. split; [done|]. by exists bs.
    - intros [Hne _]. split; [|done]. split; [done|by eexists]. }
  rewrite <- grep_all by (apply Forall_forall; intros q Hin; by apply Hq).
  unfold rgrep. rewrite (sh_next _ _ _ _ _ (say_args _ _ _ Hu)), Ho, Hrec, Hi, Hre. cbn [sh_each].
  rewrite (sh_next _ _ _ (t, printed no_out (concat (map (emitted (grep_emit s) t p root) qs))) tt); [done|].
  unfold search_operand. unfold sh_bind at 1. cbn [look fst]. fold root. rewrite (stat_dir _ _ _ _ Hr Hp).
  unfold or_die. by rewrite (sh_next _ _ _ _ _ E).
Qed.

Definition grep_ex : list OsString := [lit "rgrep"; lit "-r"; lit "x"; lit "a"].
Lemma rgrep_recursive_witness :
  exists qs, NoDup qs /\ (forall q, q ∈ qs <-> q <> [] /\ exists bs, tree_ex !! ([lit "a"] ++ q) = Some (NFile bs)) /\
  rgrep (fun s => s) (fun s => s) 3 grep_ex (mkSource [] None) (tree_ex, no_out) =
    ((tree_ex, printed no_out (concat (map
       (grep_lines (mkSearch (fun _ => true) (contains grep_ex (lit "-v")) (contains grep_ex (lit "-n"))) tree_ex [lit "a"]
          (to_win32 (lit "a"))) qs))), Some (Next tt)).
Proof.
  apply (rgrep_recursive (fun s => s) (fun s => s) 3 grep_ex (mkSource [] None) (lit "x") (lit "a") (fun _ => true) tree_ex
    [lit "a"]); try (vm_compute; reflexivity).
  - apply tree_ok_check. vm_compute. reflexivity.
  - apply depth_check. vm_compute. reflexivity.
  - discriminate.
Defined.

(** A file is searched up to the line that is no text; the match of the line
    after it is not seen. *)
Example rgrep_ex :
  let t := <[[lit "n"] := NFile (lit "ab" ++ [10; 255; 10] ++ lit "ab" ++ [10])]> tree_ex in
  let '((_, o), r) := rgrep (fun s => s) (fun s => s) 3 [lit "rgrep"; lit "-n"; lit "ab"; lit "n"; lit "a"] (mkSource [] None) (t, no_out) in
  stdout o = lit "n:1:ab" ++ [10] /\ stderr o = lit "Error: ?" ++ [10] /\ r = Some (Exit 1).
Proof. vm_compute. repeat split. Qed.
