(* ===== verification/Process.v ===== *)
(** * Processes ([crates/platform/src/process.rs], [platform-mock/src/process.rs])

    The spawn specification and its builder, decoded exit statuses, the
    child/spawner interface, the portable [wait_any], and the scripted mock
    spawner with its children and pipe ends. *)

From Stdlib Require Import ZArith Lia String.
From S2P Require Import Prelude Error.
From stdpp Require Import base numbers list strings gmap.
Open Scope Z_scope.

(** ** Types *)

Inductive EnvSpec :=
  | EnvInherit
  | EnvExplicit (vars : gmap (list Z) OsString).

(** [Stdio::File] owns an open file; here, the file's identity. *)
Inductive Stdio := StdInherit | StdNull | StdPipe | StdFile (file : nat).

Inductive GroupSpec := GroupInherit | NewGroup | JoinGroup (pgid : Z).

Record Command := mkCommand {
  program : OsString;
  argv : list OsString;
  cwd : OsString;
  c_env : EnvSpec;
  c_stdin : Stdio;
  c_stdout : Stdio;
  c_stderr : Stdio;
  c_group : GroupSpec;
  detached : bool;
}.

Definition Command_new (program cwd : OsString) : Command :=
  mkCommand program [] cwd EnvInherit StdInherit StdInherit StdInherit GroupInherit false.
Definition arg (a : OsString) (c : Command) : Command :=
  mkCommand (program c) (argv c ++ [a]) (cwd c) (c_env c) (c_stdin c) (c_stdout c) (c_stderr c)
    (c_group c) (detached c).
Definition args (l : list OsString) (c : Command) : Command :=
  mkCommand (program c) (argv c ++ l) (cwd c) (c_env c) (c_stdin c) (c_stdout c) (c_stderr c)
    (c_group c) (detached c).
Definition env (e : EnvSpec) (c : Command) : Command :=
  mkCommand (program c) (argv c) (cwd c) e (c_stdin c) (c_stdout c) (c_stderr c)
    (c_group c) (detached c).
Definition group (g : GroupSpec) (c : Command) : Command :=
  mkCommand (program c) (argv c) (cwd c) (c_env c) (c_stdin c) (c_stdout c) (c_stderr c)
    g (detached c).
Definition detach (c : Command) : Command :=
  mkCommand (program c) (argv c) (cwd c) (c_env c) (c_stdin c) (c_stdout c) (c_stderr c)
    (c_group c) true.
(** [cmd.stdout = ...]: the fields are public. *)
Definition set_stdout (o : Stdio) (c : Command) : Command :=
  mkCommand (program c) (argv c) (cwd c) (c_env c) (c_stdin c) o (c_stderr c)
    (c_group c) (detached c).

Inductive ExitStatus := Code (c : Z) | Signaled (sig : Z) | Stopped (sig : Z) | Continued.
#[export] Instance ExitStatus_eq_dec : EqDecision ExitStatus.
Proof. solve_decision. Defined.

Definition success (s : ExitStatus) : bool := match s with Code 0 => true | _ => false end.

Inductive Signal := Term | Int | Hup | Quit | Kill | Stop | Cont.
#[export] Instance Signal_eq_dec : EqDecision Signal.
Proof. solve_decision. Defined.

(** [events::SignalEvent]. *)
Inductive SignalEvent := Interrupt | Terminate | Hangup.

(** ** The interface of a backend, as its clients use it *)

Class Processes (S C : Type) := {
  spawn_ : Command -> S -> S * Run C;
  wait_ : C -> S -> S * Run ExitStatus;
  try_wait_ : C -> S -> S * Run (option ExitStatus);
  kill_single_ : C -> Signal -> S -> S * Run unit;
  wait_any_ : list C -> option Z -> S -> S * Run (option nat);
  take_signal_ : S -> S * option SignalEvent;
}.

(** ** The portable [wait_any] *)

Definition TICK : Z := 10000000.  (* 10 ms, in ns *)

Section wait_any.
Context {S C : Type} (try_wait : C -> S -> S * Run (option ExitStatus)).
(** [Instant::now] and [thread::sleep]. *)
Context (clock : S -> Z) (sleep : Z -> S -> S).

(** One pass over the children: the first that has terminated. *)
Fixpoint scan (i : nat) (children : list C) (s : S) : S * Run (option nat) :=
  match children with
  | [] => (s, ret None)
  | c :: children' =>
    (st! r := try_wait c in
     match r with
     | Some _ => st_lift (ret (Some i))
     | None => scan (Datatypes.S i) children'
     end) s
  end.

Fixpoint wait_any_loop (fuel : nat) (start : Z) (children : list C) (timeout : option Z) (s : S)
    : S * Run (option nat) :=
  match fuel with
  | Datatypes.O => (s, OutOfFuel)
  | Datatypes.S fuel =>
    (st! found := scan 0 children in
     match found with
     | Some i => st_lift (ret (Some i))
     | None => fun s =>
       let elapsed := clock s - start in
       match timeout with
       | Some limit =>
         if limit <=? elapsed then (s, ret None)
         else wait_any_loop fuel start children timeout (sleep (Z.min TICK (limit - elapsed)) s)
       | None => wait_any_loop fuel start children timeout (sleep TICK s)
       end
     end) s
  end.

Definition wait_any (fuel : nat) (children : list C) (timeout : option Z) (s : S)
    : S * Run (option nat) :=
  match children with
  | [] => (s, fail (error_new InvalidInput NoCode "wait_any"))
  | _ => wait_any_loop fuel (clock s) children timeout s
  end.

(** What polling and sleeping promise: time does not go back, a poll answers,
    a child that has reported its status keeps reporting one, and a sleep
    lasts at least as long as it is asked to. *)
Context (done_at : C -> S -> Prop).
Class WaitLaws := {
  poll_answers c s : exists s' r, try_wait c s = (s', ret r) /\ clock s <= clock s' /\
    (is_Some r <-> done_at c s) /\ (forall c', done_at c' s -> done_at c' s');
  sleep_lasts d s : clock s + d <= clock (sleep d s);
}.
Context {L : WaitLaws}.

Lemma scan_spec children : forall i s, exists s', clock s <= clock s' /\
  (forall c, done_at c s -> done_at c s') /\
  ((exists k c, scan i children s = (s', ret (Some (i + k)%nat)) /\ children !! k = Some c /\
      exists s1 st s2, try_wait c s1 = (s2, ret (Some st)))
   \/ scan i children s = (s', ret None) /\ Forall (fun c => ~ done_at c s) children).
Proof.
  induction children as [|c children IH]; intros i s.
  { exists s. split; [lia|]. split; [done|]. by right. }
  cbn [scan]. destruct (poll_answers c s) as (s1 & r & E & Ht & Hr & Hk).
  rewrite (st_bind_ret _ _ _ _ _ E). destruct r as [st|].
  - exists s1. split; [done|]. split; [done|]. left. exists 0%nat, c.
    rewrite Nat.add_0_r. split; [done|]. split; [done|]. by exists s, st, s1.
  - destruct (IH (Datatypes.S i) s1) as (s' & Ht' & Hk' & H). exists s'. split; [lia|]. split; [auto|].
    destruct H as [(k & c' & E' & Hc & H)|[E' H]]; [left|right].
    + exists (Datatypes.S k), c'. rewrite Nat.add_succ_r. by split.
    + split; [done|]. constructor.
      * intros Hd. apply Hr in Hd as [? ?]. done.
      * eapply Forall_impl; [exact H|]. intros c' Hc' Hd. apply Hc'. auto.
Qed.

(** The rounds a timeout of [limit] can take. *)
Definition rounds (limit : Z) : nat := Z.to_nat (limit / TICK + 2).

Lemma wait_any_loop_spec limit start children : forall fuel s,
  limit - (clock s - start) <= TICK * (Z.of_nat fuel - 1) -> (0 < fuel)%nat ->
  exists s' r, wait_any_loop fuel start children (Some limit) s = (s', ret r) /\
  clock s <= clock s' /\
  match r with
  | Some k => exists c, children !! k = Some c /\ exists s1 st s2, try_wait c s1 = (s2, ret (Some st))
  | None => limit <= clock s' - start
  end.
Proof.
  assert (0 < TICK) as HT by (unfold TICK; lia).
  induction fuel as [|fuel IH]; intros s Hf H0; [lia|]. cbn [wait_any_loop].
  destruct (scan_spec children 0 s) as (s1 & Ht & _ & [(k & c & E & Hc & H)|[E _]]);
    rewrite (st_bind_ret _ _ _ _ _ E).
  - exists s1, (Some k). split; [done|]. split; [lia|]. by exists c.
  - destruct (limit <=? clock s1 - start) eqn:El; bool_to_prop.
    { exists s1, None. split; [done|]. split; [lia|done]. }
    set (d := Z.min TICK (limit - (clock s1 - start))).
    pose proof (sleep_lasts d s1) as Hs. destruct fuel as [|fuel].
    { lia. }
    destruct (IH (sleep d s1)) as (s' & r & E' & Hc & H); [unfold d, TICK in *; lia|lia|].
    exists s', r. split; [done|]. split; [unfold d in *; lia|done].
Qed.
End wait_any.

Lemma wait_any_total {S C} try_wait clock sleep done_at
    {L : @WaitLaws S C try_wait clock sleep done_at} children limit s fuel
    (Hne : children <> []) (Hlimit : 0 <= limit) (Hfuel : (rounds limit <= fuel)%nat) :
  exists s' r, wait_any try_wait clock sleep fuel children (Some limit) s = (s', ret r) /\
  clock s <= clock s' /\
  match r with
  | Some k => exists c, children !! k = Some c /\ exists s1 st s2, try_wait c s1 = (s2, ret (Some st))
  | None => limit <= clock s' - clock s /\ Forall (fun c => ~ done_at c s) children
  end.
Proof.
  assert (0 < TICK) as HT by (unfold TICK; lia).
  assert (TICK * (limit / TICK) <= limit < TICK * (limit / TICK) + TICK) as Hd.
  { pose proof (Z.mod_pos_bound limit TICK ltac:(lia)). pose proof (Z.div_mod limit TICK ltac:(lia)). lia. }
  assert (0 <= limit / TICK) by (apply Z.div_pos; lia).
  assert (limit / TICK + 2 <= Z.of_nat fuel) as Hf by (unfold rounds in Hfuel; lia).
  destruct (wait_any_loop_spec try_wait clock sleep done_at limit (clock s) children fuel s)
    as (s' & r & E & Hc & H'); [nia|lia|].
  assert (wait_any try_wait clock sleep fuel children (Some limit) s = (s', ret r)) as E'.
  { rewrite <- E. by destruct children. }
  exists s', r. split; [done|]. split; [done|]. destruct r as [k|]; [done|]. split; [done|].
  destruct fuel as [|fuel]; [lia|]. cbn [wait_any_loop] in E.
  destruct (scan_spec try_wait clock sleep done_at children 0 s)
    as (s1 & _ & _ & [(k & c & Es & _)|[_ Hn]]); [|done].
  rewrite (st_bind_ret _ _ _ _ _ Es) in E. discriminate E.
Qed.

(** C35: the portable [wait_any] with a timeout always returns, after at most
    [timeout / 10ms + 2] rounds of polling: either a child that has a status,
    or nothing once the time is over; a child that had terminated before the
    call is enough for an answer even with a timeout of zero. *)
Theorem wait_any_returns {S C} try_wait clock sleep done_at
    {L : @WaitLaws S C try_wait clock sleep done_at} children limit s fuel
    (Hne : children <> []) (Hlimit : 0 <= limit) (Hfuel : (rounds limit <= fuel)%nat) :
  exists s' r, wait_any try_wait clock sleep fuel children (Some limit) s = (s', ret r) /\
  clock s <= clock s' /\
  match r with
  | Some k => exists c, children !! k = Some c /\ exists s1 st s2, try_wait c s1 = (s2, ret (Some st))
  | None => limit <= clock s' - clock s /\ Forall (fun c => ~ done_at c s) children
  end.
Proof. by apply wait_any_total. Qed.

(** ** The scripted backend *)

Record Script := mkScript { script_status : ExitStatus; script_stdout : list Z }.

Inductive StdioKind := KInherit | KNull | KPipe | KFile.
Definition stdio_kind (s : Stdio) : StdioKind :=
  match s with
  | StdInherit => KInherit | StdNull => KNull | StdPipe => KPipe | StdFile _ => KFile
  end.

Record SpawnRecord := mkSpawnRecord {
  sr_program : OsString; sr_argv : list OsString; sr_cwd : OsString; sr_env : EnvSpec;
  sr_stdin : StdioKind; sr_stdout : StdioKind; sr_stderr : StdioKind; sr_group : GroupSpec;
}.
Definition spawn_record (c : Command) : SpawnRecord :=
  mkSpawnRecord (program c) (argv c) (cwd c) (c_env c) (stdio_kind (c_stdin c))
    (stdio_kind (c_stdout c)) (stdio_kind (c_stderr c)) (c_group c).

Record MemPipe := mkMemPipe { p_data : list Z; p_pos : Z }.

(** [self.data.len() - self.pos] panics below zero. *)
Definition pipe_read (cap : Z) (p : MemPipe) : MemPipe * Run (list Z) :=
  if zlen (p_data p) <? p_pos p then (p, Panic)
  else
    let n := Z.min cap (zlen (p_data p) - p_pos p) in
    (mkMemPipe (p_data p) (p_pos p + n), ret (take (Z.to_nat n) (drop (Z.to_nat (p_pos p)) (p_data p)))).
Definition pipe_write (buf : list Z) (p : MemPipe) : MemPipe * Run Z := (p, ret (zlen buf)).
Definition mem_pipe (data : list Z) : MemPipe := mkMemPipe data 0.

Record MockSpawner := mkMockSpawner {
  scripts : gmap (list Z) Script;
  spawned : list SpawnRecord;
  adopted : list Z;
  live_pids : gset Z;
  zombie_pids : gset Z;
}.
Definition MockSpawner_new : MockSpawner := mkMockSpawner ∅ [] [] ∅ ∅.

Definition script_with_output (prog : OsString) (status : ExitStatus) (out : list Z)
    (m : MockSpawner) : MockSpawner :=
  mkMockSpawner (<[prog := mkScript status out]> (scripts m)) (spawned m) (adopted m)
    (live_pids m) (zombie_pids m).
Definition script (prog : OsString) (status : ExitStatus) : MockSpawner -> MockSpawner :=
  script_with_output prog status [].

Record MockChild := mkMockChild {
  m_status : ExitStatus;
  own_group : bool;
  m_stdin : option MemPipe;
  m_stdout : option MemPipe;
  m_stderr : option MemPipe;
}.

Definition mock_kill_tree (c : MockChild) (sig : Signal) : Run unit :=
  if own_group c then ret tt else fail (error_new Unsupported NoCode "kill_tree").
Definition mock_kill_single (c : MockChild) (sig : Signal) : Run unit := ret tt.
Definition mock_wait (c : MockChild) : Run ExitStatus := ret (m_status c).
Definition mock_try_wait (c : MockChild) : Run (option ExitStatus) := ret (Some (m_status c)).
Definition mock_wait_job : MockChild -> Run ExitStatus := mock_wait.
Definition mock_try_wait_job : MockChild -> Run (option ExitStatus) := mock_try_wait.

(** [Option::take] on the child's pipe slots. *)
Definition take_stdin (c : MockChild) : MockChild * option MemPipe :=
  (mkMockChild (m_status c) (own_group c) None (m_stdout c) (m_stderr c), m_stdin c).
Definition take_stdout (c : MockChild) : MockChild * option MemPipe :=
  (mkMockChild (m_status c) (own_group c) (m_stdin c) None (m_stderr c), m_stdout c).
Definition take_stderr (c : MockChild) : MockChild * option MemPipe :=
  (mkMockChild (m_status c) (own_group c) (m_stdin c) (m_stdout c) None, m_stderr c).

Definition piped (s : Stdio) (data : list Z) : option MemPipe :=
  match s with StdPipe => Some (mem_pipe data) | _ => None end.

Definition mock_spawn (cmd : Command) (m : MockSpawner) : MockSpawner * Run MockChild :=
  match detached cmd, c_group cmd with
  | true, JoinGroup _ =>
    (m, fail (error_new InvalidInput NoCode "spawn: detach cannot join an existing group"))
  | _, _ =>
    let m := mkMockSpawner (scripts m) (spawned m ++ [spawn_record cmd]) (adopted m)
               (live_pids m) (zombie_pids m) in
    match scripts m !! program cmd with
    | None => (m, fail (with_path (error_new NotFound NoCode "spawn") (program cmd)))
    | Some sc =>
      (m, ret (mkMockChild (script_status sc)
                 (match c_group cmd with GroupInherit => false | _ => true end)
                 (piped (c_stdin cmd) []) (piped (c_stdout cmd) (script_stdout sc))
                 (piped (c_stderr cmd) [])))
    end
  end.

Definition mock_resolve (prog : OsString) (m : MockSpawner) : Run OsString :=
  if bool_decide (is_Some (scripts m !! prog)) then ret prog
  else fail (with_path (error_new NotFound NoCode "resolve") prog).
Definition mock_adopt (pid : Z) (m : MockSpawner) : MockSpawner * Run unit :=
  (mkMockSpawner (scripts m) (spawned m) (adopted m ++ [pid]) (live_pids m) (zombie_pids m), ret tt).
Definition mock_is_alive (pid : Z) (m : MockSpawner) : Run bool := ret (bool_decide (pid ∈ live_pids m)).
Definition mock_is_zombie (pid : Z) (m : MockSpawner) : Run bool :=
  ret (bool_decide (pid ∈ zombie_pids m)).

(** Reading a pipe to its end, [cap] bytes at a time. *)
Fixpoint drain (fuel : nat) (cap : Z) (p : MemPipe) : MemPipe * Run (list Z) :=
  match fuel with
  | O => (p, OutOfFuel)
  | S fuel =>
    (st! b := pipe_read cap in
     match b with
     | [] => st_lift (ret [])
     | _ => st! rest := drain fuel cap in st_lift (ret (b ++ rest))
     end) p
  end.

Lemma drain_all cap data : 0 < cap -> forall fuel pos, 0 <= pos <= zlen data ->
  zlen data - pos < cap * (Z.of_nat fuel - 1) + 1 ->
  drain fuel cap (mkMemPipe data pos) = (mkMemPipe data (zlen data), ret (drop (Z.to_nat pos) data)).
Proof.
  intros Hc. induction fuel as [|fuel IH]; intros pos Hp Hf; [nia|].
  cbn [drain]. unfold st_bind at 1, pipe_read. cbn [p_data p_pos].
  rewrite (proj2 (Z.ltb_ge (zlen data) pos)) by lia. set (n := Z.min cap (zlen data - pos)).
  set (rest := drop (Z.to_nat pos) data).
  assert (zlen rest = zlen data - pos) as Hl by (unfold rest; rewrite length_drop; lia).
  destruct (take (Z.to_nat n) rest) as [|b bs] eqn:E.
  - apply (f_equal length) in E. rewrite length_take in E. cbn [length] in E.
    assert (n = 0) as Hn by (unfold n in *; lia). rewrite Hn.
    assert (pos = zlen data) as Hpos by (unfold n in *; lia).
    rewrite (nil_length_inv rest) by (unfold n in *; lia). by rewrite Z.add_0_r, Hpos.
  - rewrite <- E. assert (0 < n).
    { destruct (Z.ltb_spec 0 n); [done|]. replace (Z.to_nat n) with 0%nat in E by lia. done. }
    rewrite Nat2Z.inj_succ in Hf. assert (0 < Z.of_nat fuel) by (unfold n in *; nia).
    assert (cap <= cap * Z.of_nat fuel) by nia.
    unfold st_bind. rewrite (IH (pos + n)); [|unfold n in *; lia|unfold n in *; lia].
    unfold st_lift. rewrite Z2Nat.inj_add, <- drop_drop by lia. fold rest. by rewrite take_drop.
Qed.

(** the contract of the scripted spawner.  Only a detached child that
    joins a group is refused, before anything is recorded; every other
    request is recorded with its fields, found or not, and a scripted
    program's child reports the script's status to every kind of wait, hands
    out its standard output once, if it was piped, from which reading to the
    end gives the script's bytes, and accepts [kill_tree] just when it has a
    group of its own. *)
Theorem mock_spawn_contract cmd m :
  match detached cmd, c_group cmd with
  | true, JoinGroup _ => exists e, mock_spawn cmd m = (m, fail e) /\ kind e = InvalidInput
  | _, _ => exists m', spawned m' = spawned m ++ [spawn_record cmd] /\ scripts m' = scripts m /\
    match scripts m !! program cmd with
    | None => exists e, mock_spawn cmd m = (m', fail e) /\ kind e = NotFound /\ path e = Some (program cmd)
    | Some sc => exists c, mock_spawn cmd m = (m', ret c) /\
      mock_wait c = ret (script_status sc) /\ mock_try_wait c = ret (Some (script_status sc)) /\
      (forall sig, mock_kill_tree c sig = ret tt <-> c_group cmd <> GroupInherit) /\
      snd (take_stdout (fst (take_stdout c))) = None /\
      match snd (take_stdout c) with
      | Some p => c_stdout cmd = StdPipe /\ forall cap fuel, 0 < cap ->
          zlen (script_stdout sc) < cap * (Z.of_nat fuel - 1) + 1 ->
          snd (drain fuel cap p) = ret (script_stdout sc)
      | None => c_stdout cmd <> StdPipe
      end
    end
  end.
Proof.
  unfold mock_spawn. destruct cmd as [pr av cw en si so se gr de]. cbn [detached c_group program c_stdout].
  destruct de, gr as [| |pg]; try (eexists; split; [reflexivity|done]).
  all: match goal with |- context [mkMockSpawner ?sc ?l ?a ?b ?c] =>
      exists (mkMockSpawner sc l a b c) end;
    (split; [reflexivity|]); (split; [reflexivity|]); cbn [scripts];
    destruct (scripts m !! pr) as [sc|] eqn:E; rewrite ?E; [|eexists; (split; [reflexivity|done])];
    eexists; (split; [reflexivity|]); do 2 (split; [reflexivity|]);
    (split; [intros sig; unfold mock_kill_tree; cbn; split; congruence|]);
    (split; [reflexivity|]); cbn; destruct so; cbn; try done; (split; [done|]);
    intros cap fuel Hc Hf; unfold mem_pipe;
    by rewrite (drain_all cap (script_stdout sc) Hc fuel 0 ltac:(lia) ltac:(lia)).
Qed.

(** The mock accepts a detached child that leads a new group. *)
Example mock_accepts_detached_new_group :
  let m := script (lit "w") (Code 0) MockSpawner_new in
  exists m' c, mock_spawn (detach (group NewGroup (Command_new (lit "w") (lit "/")))) m = (m', ret c).
Proof. eexists _, _. vm_compute. reflexivity. Qed.

(** ** A clock and children that end at given times

    The world [wait_any] is tried in: the state is the clock, a child is the
    time it ends and the status it ends with. *)

Record SimChild := mkSimChild { ends_at : Z; ends_with : ExitStatus }.
Definition sim_try_wait (c : SimChild) (now : Z) : Z * Run (option ExitStatus) :=
  (now, ret (if ends_at c <=? now then Some (ends_with c) else None)).
Definition sim_done (c : SimChild) (now : Z) : Prop := ends_at c <= now.
Definition sim_sleep (d now : Z) : Z := now + d.

#[export] Instance sim_laws : WaitLaws sim_try_wait (fun now => now) sim_sleep sim_done.
Proof.
  split; [|intros; unfold sim_sleep; lia]. intros c s. unfold sim_try_wait, sim_done.
  destruct (Z.leb_spec (ends_at c) s); eexists s, _; (split; [reflexivity|]).
  - split; [lia|]. split; [|done]. split; [done|by eexists].
  - split; [lia|]. split; [|done]. split; [by intros [? ?]|lia].
Qed.

Example wait_any_ex :
  let children := [mkSimChild 95000000 (Code 1); mkSimChild 33000000 (Code 2)] in
  wait_any sim_try_wait (fun now => now) sim_sleep 12 children (Some 100000000) 5
  = (40000005, ret (Some 1%nat)).
Proof. vm_compute. reflexivity. Qed.

Lemma wait_any_returns_witness :
  let children := [mkSimChild 95000000 (Code 1); mkSimChild 33000000 (Code 2)] in
  exists s' r, wait_any sim_try_wait (fun now => now) sim_sleep 4 children (Some 20000000) 5 = (s', ret r) /\
  5 <= s' /\
  match r with
  | Some k => exists c, children !! k = Some c /\
      exists s1 st s2, sim_try_wait c s1 = (s2, ret (Some st))
  | None => 20000000 <= s' - 5 /\ Forall (fun c => ~ sim_done c 5) children
  end.
Proof.
  cbv zeta. apply (wait_any_returns sim_try_wait (fun now => now) sim_sleep sim_done
    [mkSimChild 95000000 (Code 1); mkSimChild 33000000 (Code 2)] 20000000 5 4);
    [done|lia|vm_compute; lia].
Defined.
