(* ===== verification/Runners.v ===== *)
(** * The process utilities ([crates/coreutils/src/bin])

    [rrun], [rtee] and [rpar]: how an exit status becomes an exit code, the
    copy loop of [rtee], and [rpar]'s completion-order loop over [wait_any],
    written against the interface of [Process]. *)

From Stdlib Require Import ZArith Lia String.
From S2P Require Import Prelude Error Process Cli Calendar.
From stdpp Require Import base numbers list strings.
Open Scope Z_scope.

(** [ExitCode::from((code & 0xff) as u8)], or [128 + n] for a signal; the
    job-control statuses are [unreachable!]. *)
Definition exit_code (s : ExitStatus) : option Z :=
  match s with
  | Code code => Some (wrap 8 (Z.land code 255))
  | Signaled sig => Some (wrap 8 (128 + Z.land sig 127))
  | Stopped _ | Continued => None
  end.

(** ** [rrun] *)

Section rrun.
Context {S C : Type} {P : Processes S C}.
(** [std::env::current_dir], [eprintln!], and how an error is displayed. *)
Context (current_dir : S -> IoError + OsString) (eprint : str -> S -> S).
Context (show_err : PlatformError -> str) (show_io : IoError -> str).

(** The consuming wait and the process's exit code. *)
Definition finish (prog : string) (child : C) (s : S) : S * Run Z :=
  match wait_ child s with
  | (s, ret st) => (s, or_panic (exit_code st))
  | (s, fail e) => (eprint (lit prog ++ lit ": " ++ show_err e) s, ret 1)
  | (s, Panic) => (s, Panic)
  | (s, OutOfFuel) => (s, OutOfFuel)
  end.

(** [argv] without the program's own name. *)
Definition rrun (argv : list OsString) (s : S) : S * Run Z :=
  match argv with
  | [] => (eprint (lit "usage: rrun <program> [args...]") s, ret 2)
  | program :: rest =>
    match current_dir s with
    | inl e => (eprint (lit "rrun: cannot determine cwd: " ++ show_io e) s, ret 1)
    | inr cwd =>
      match spawn_ (args rest (Command_new program cwd)) s with
      | (s, ret child) => finish "rrun" child s
      | (s, fail e) => (eprint (lit "rrun: " ++ show_err e) s, ret 127)
      | (s, Panic) => (s, Panic)
      | (s, OutOfFuel) => (s, OutOfFuel)
      end
    end
  end.
End rrun.

(** ** [rtee] *)

Section rtee.
Context {S C F : Type} {P : Processes S C}.
(** [File::read] and [File::write] of the pipe and of the output file,
    [write_all] on the standard output ([false]: it failed), taking the
    child's pipe, and opening the output file. *)
Context (read : F -> Z -> S -> S * Run (list Z)) (write : F -> list Z -> S -> S * Run Z).
Context (stdout_write_all : list Z -> S -> S * bool).
Context (take_stdout : C -> S -> S * option F).
Context (open_ambient_file : OsString -> S -> S * Run F).
Context (current_dir : S -> IoError + OsString) (eprint : str -> S -> S).
Context (show_err : PlatformError -> str) (show_io : IoError -> str).

Fixpoint write_all (fuel : nat) (file : F) (buf : list Z) : S -> S * Run unit :=
  match fuel with
  | O => st_lift OutOfFuel
  | Datatypes.S fuel =>
    match buf with
    | [] => st_lift (ret tt)
    | _ =>
      st! n := write file buf in
      if zlen buf <? n then st_lift Panic
      else write_all fuel file (drop (Z.to_nat n) buf)
    end
  end.

(** The loop; [Some code] is an early return from [main]. *)
Fixpoint tee_loop (fuel : nat) (pipe file : F) (s : S) : S * Run (option Z) :=
  match fuel with
  | O => (s, OutOfFuel)
  | Datatypes.S fuel =>
    match read pipe 8192 s with
    | (s, ret []) => (s, ret None)
    | (s, ret chunk) =>
      let (s, ok) := stdout_write_all chunk s in
      if negb ok then (s, ret None)
      else match write_all (Datatypes.S (length chunk)) file chunk s with
           | (s, ret _) => tee_loop fuel pipe file s
           | (s, fail e) => (eprint (lit "rtee: write: " ++ show_err e) s, ret (Some 1))
           | (s, Panic) => (s, Panic)
           | (s, OutOfFuel) => (s, OutOfFuel)
           end
    | (s, fail e) => (eprint (lit "rtee: read: " ++ show_err e) s, ret (Some 1))
    | (s, Panic) => (s, Panic)
    | (s, OutOfFuel) => (s, OutOfFuel)
    end
  end.

Definition rtee (fuel : nat) (argv : list OsString) (s : S) : S * Run Z :=
  match argv with
  | file_arg :: dashes :: program :: rest =>
    if bool_decide (dashes = lit "--") then
      match current_dir s with
      | inl e => (eprint (lit "rtee: cannot determine cwd: " ++ show_io e) s, ret 1)
      | inr cwd =>
        match open_ambient_file file_arg s with
        | (s, ret out_file) =>
          match spawn_ (set_stdout StdPipe (args rest (Command_new program cwd))) s with
          | (s, ret child) =>
            match take_stdout child s with
            | (s, None) => (eprint (lit "rtee: child stdout was not piped") s, ret 1)
            | (s, Some pipe) =>
              (st! early := tee_loop fuel pipe out_file in
               match early with
               | Some code => st_lift (ret code)
               | None => finish eprint show_err "rtee" child
               end) s
            end
          | (s, fail e) => (eprint (lit "rtee: " ++ show_err e) s, ret 127)
          | (s, Panic) => (s, Panic)
          | (s, OutOfFuel) => (s, OutOfFuel)
          end
        | (s, fail e) => (eprint (lit "rtee: " ++ show_err e) s, ret 1)
        | (s, Panic) => (s, Panic)
        | (s, OutOfFuel) => (s, OutOfFuel)
        end
      end
    else (eprint (lit "usage: rtee <file> -- cmd [args...]") s, ret 2)
  | _ => (eprint (lit "usage: rtee <file> -- cmd [args...]") s, ret 2)
  end.
End rtee.

(** ** [rpar] *)

(** [slice::split] on a predicate. *)
Fixpoint split_on {A} (p : A -> bool) (l : list A) : list (list A) :=
  match l with
  | [] => [[]]
  | x :: l' =>
    if p x then [] :: split_on p l'
    else match split_on p l' with
         | [] => [[x]]
         | w :: ws => (x :: w) :: ws
         end
  end.

(** [Vec::swap_remove]: the last element takes the place; [None] is the
    panic of an index out of range. *)
Definition swap_remove {A} (i : nat) (l : list A) : option (A * list A) :=
  match l !! i, last l with
  | Some x, Some z =>
    Some (x, if bool_decide (S i = length l) then removelast l else <[i := z]> (removelast l))
  | _, _ => None
  end.

Definition status_line (label : str) (st : ExitStatus) : option str :=
  match st with
  | Code c => Some (lit "[" ++ label ++ lit "] exited " ++ dec_signed c)
  | Signaled n => Some (lit "[" ++ label ++ lit "] killed by signal " ++ dec_signed n)
  | _ => None
  end.

Section rpar.
Context {S C : Type} {P : Processes S C}.
Context (install : S -> S * Result unit).
Context (current_dir : S -> IoError + OsString).
Context (println eprint : str -> S -> S).
Context (show_err : PlatformError -> str) (show_io : IoError -> str).

Definition TICK_200 : Z := 200000000.

(** Spawning: the labels and children started, and whether one failed. *)
Fixpoint start_all (cwd : OsString) (commands : list (list OsString)) (labels : list str)
    (children : list C) (failed : bool) (s : S) : S * Run (list str * list C * bool) :=
  match commands with
  | [] => (s, ret (labels, children, failed))
  | [] :: _ => (s, Panic)
  | (program :: rest) :: commands' =>
    match spawn_ (args rest (Command_new program cwd)) s with
    | (s, ret child) =>
      start_all cwd commands' (labels ++ [from_utf8_lossy program]) (children ++ [child]) failed s
    | (s, fail e) =>
      start_all cwd commands' labels children true (eprint (lit "rpar: " ++ show_err e) s)
    | (s, Panic) => (s, Panic)
    | (s, OutOfFuel) => (s, OutOfFuel)
    end
  end.

Fixpoint kill_all (children : list C) (s : S) : S :=
  match children with
  | [] => s
  | c :: children' => kill_all children' (fst (kill_single_ c Kill s))
  end.
Fixpoint wait_all (children : list C) (s : S) : S :=
  match children with
  | [] => s
  | c :: children' => wait_all children' (fst (wait_ c s))
  end.

Definition interrupted_code (e : SignalEvent) : Z :=
  match e with Interrupt => 130 | _ => 143 end.

(** Report one finished child; the new value of [failed]. *)
Definition report_child (label : str) (child : C) (failed : bool) (s : S) : S * Run bool :=
  match wait_ child s with
  | (s, ret st) =>
    match status_line label st with
    | Some l => (println l s, ret (failed || negb (success st)))
    | None => (s, Panic)
    end
  | (s, fail e) => (eprint (lit "rpar: " ++ label ++ lit ": " ++ show_err e) s, ret true)
  | (s, Panic) => (s, Panic)
  | (s, OutOfFuel) => (s, OutOfFuel)
  end.

Fixpoint par_loop (fuel : nat) (labels : list str) (children : list C) (failed : bool) (s : S)
    : S * Run Z :=
  match fuel with
  | O => (s, OutOfFuel)
  | Datatypes.S fuel =>
    match children with
    | [] => (s, ret (if failed then 1 else 0))
    | _ =>
      let (s, event) := take_signal_ s in
      match event with
      | Some event =>
        let s := eprint (lit "rpar: interrupted; stopping " ++ dec (zlen children)
                         ++ lit " running command(s)") s in
        (wait_all children (kill_all children s), ret (interrupted_code event))
      | None =>
        match wait_any_ children (Some TICK_200) s with
        | (s, ret None) => par_loop fuel labels children failed s
        | (s, ret (Some idx)) =>
          match swap_remove idx labels, swap_remove idx children with
          | Some (label, labels), Some (child, children) =>
            (st! failed := report_child label child failed in
             par_loop fuel labels children failed) s
          | _, _ => (s, Panic)
          end
        | (s, fail e) => (eprint (lit "rpar: " ++ show_err e) s, ret 1)
        | (s, Panic) => (s, Panic)
        | (s, OutOfFuel) => (s, OutOfFuel)
        end
      end
    end
  end.

Definition rpar (fuel : nat) (argv : list OsString) (s : S) : S * Run Z :=
  match List.filter (fun c => negb (bool_decide (c = [])))
          (split_on (fun a => bool_decide (a = lit "--")) argv) with
  | [] => (eprint (lit "usage: rpar cmd [args...] [-- cmd [args...]]...") s, ret 2)
  | commands =>
    match current_dir s with
    | inl e => (eprint (lit "rpar: cannot determine cwd: " ++ show_io e) s, ret 1)
    | inr cwd =>
      (st! started := start_all cwd commands [] [] false in
       let '(labels, children, failed) := started in
       fun s =>
       let s := match install s with
                | (s, Err e) => eprint (lit "rpar: " ++ show_err e) s
                | (s, Ok _) => s
                end in
       par_loop fuel labels children failed s) s
    end
  end.
End rpar.

(** ** Exit codes *)

(** an exit code is a byte and zero only for a success: a plain exit keeps
    its low eight bits (so [256] looks like a success), a death by signal [n]
    is [128 + n] for [n < 128], and a status that is not terminal panics. *)
Theorem exit_code_spec st (Hst : match st with Code c => in_i 32 c | Signaled n => 1 <= n < 128 | _ => True end) :
  match st, exit_code st with
  | Code c, Some x => x = c mod 256 /\ in_u 8 x
  | Signaled n, Some x => x = 128 + n /\ in_u 8 x
  | (Stopped _ | Continued), None => True
  | _, _ => False
  end.
Proof.
  destruct st as [c|n|n|]; cbn [exit_code]; try done.
  - change 255 with (Z.ones 8). rewrite Z.land_ones by lia.
    assert (in_u 8 (c mod 2 ^ 8)) as Hu by (apply Z.mod_pos_bound; lia).
    by rewrite wrap_small.
  - change 127 with (Z.ones 7). rewrite Z.land_ones by lia. change (2 ^ 7) with 128.
    rewrite Z.mod_small by lia.
    assert (in_u 8 (128 + n)) as Hu by (unfold in_u; change (2 ^ 8) with 256; lia).
    by rewrite wrap_small.
Qed.

Lemma exit_code_spec_witness : match exit_code (Code (-1)) with
  | Some x => x = (-1) mod 256 /\ in_u 8 x | None => False end.
Proof. apply (exit_code_spec (Code (-1))). vm_compute. split; congruence. Defined.

(** ** [rtee] copies *)

Section tee_copies.
Context {S F : Type}.
Context (read : F -> Z -> S -> S * Run (list Z)) (write : F -> list Z -> S -> S * Run Z).
Context (stdout_write_all : list Z -> S -> S * bool).
Context (eprint : str -> S -> S) (show_err : PlatformError -> str).
Context (pipe file : F).
(** What the pipe will still deliver, what the standard output has taken, and
    what the file holds. *)
Context (pending shown content : S -> list Z).

(** A pipe delivers its bytes in order and is empty only at its end; the
    standard output takes every byte; a write takes at least one byte, and
    the prefix it reports. *)
Class TeeLaws := {
  pipe_delivers s : exists s' chunk, read pipe 8192 s = (s', ret chunk) /\
    pending s = chunk ++ pending s' /\ (chunk = [] -> pending s = []) /\
    shown s' = shown s /\ content s' = content s;
  stdout_takes bs s : exists s', stdout_write_all bs s = (s', true) /\
    shown s' = shown s ++ bs /\ pending s' = pending s /\ content s' = content s;
  write_takes bs s : bs <> [] -> exists s' n, write file bs s = (s', ret n) /\ 1 <= n <= zlen bs /\
    content s' = content s ++ take (Z.to_nat n) bs /\ pending s' = pending s /\ shown s' = shown s;
}.
Context {L : TeeLaws}.

Lemma write_all_complete fuel : forall bs s, (length bs < fuel)%nat ->
  exists s', write_all write fuel file bs s = (s', ret tt) /\
  content s' = content s ++ bs /\ pending s' = pending s /\ shown s' = shown s.
Proof.
  induction fuel as [|fuel IH]; intros bs s Hf; [lia|]. cbn [write_all].
  destruct bs as [|b bs]; [exists s; by rewrite app_nil_r|].
  destruct (write_takes (b :: bs) s) as (s1 & n & E & Hn & Hc & Hp & Hs); [done|].
  rewrite (st_bind_ret _ _ _ _ _ E), (proj2 (Z.ltb_ge _ _)) by lia.
  destruct (IH (drop (Z.to_nat n) (b :: bs)) s1) as (s' & E' & Hc' & Hp' & Hs').
  { rewrite length_drop. lia. }
  exists s'. split; [done|]. rewrite Hc', Hc, <- app_assoc, take_drop. by rewrite Hp', Hs'.
Qed.

Lemma tee_loop_copies fuel : forall s, (length (pending s) < fuel)%nat ->
  exists s', tee_loop read write stdout_write_all eprint show_err fuel pipe file s = (s', ret None) /\
  shown s' = shown s ++ pending s /\ content s' = content s ++ pending s /\ pending s' = [].
Proof.
  induction fuel as [|fuel IH]; intros s Hf; [lia|]. cbn [tee_loop].
  destruct (pipe_delivers s) as (s1 & chunk & E & Hp & Hz & Hs & Hc). rewrite E.
  destruct chunk as [|b bs].
  - exists s1. rewrite Hp in *. specialize (Hz eq_refl). cbn [app] in *. rewrite Hz, !app_nil_r.
    by rewrite Hs, Hc.
  - destruct (stdout_takes (b :: bs) s1) as (s2 & E2 & Hs2 & Hp2 & Hc2). rewrite E2. cbn [negb].
    destruct (write_all_complete (Datatypes.S (length (b :: bs))) (b :: bs) s2 ltac:(lia))
      as (s3 & E3 & Hc3 & Hp3 & Hs3). rewrite E3.
    rewrite Hp, length_app in Hf. cbn [length] in Hf.
    destruct (IH s3) as (s' & E' & Hs' & Hc' & Hp'); [rewrite Hp3, Hp2; lia|].
    exists s'. split; [done|]. rewrite Hs', Hc', Hs3, Hs2, Hc3, Hc2, Hs, Hc, Hp3, Hp2, Hp.
    by rewrite <- !app_assoc.
Qed.
End tee_copies.

(** [rtee]'s loop drains the child's pipe to its end and copies every byte,
    in order, to the standard output and to the file alike, however short the
    pipe's reads and the file's writes are. *)
Theorem tee_copies_all {S F} read write stdout_write_all eprint show_err (pipe file : F)
    (pending shown content : S -> list Z)
    {L : TeeLaws read write stdout_write_all pipe file pending shown content} s fuel
    (Hfuel : (length (pending s) < fuel)%nat) :
  exists s', tee_loop read write stdout_write_all eprint show_err fuel pipe file s = (s', ret None) /\
  shown s' = shown s ++ pending s /\ content s' = content s ++ pending s /\ pending s' = [].
Proof. by apply tee_loop_copies. Qed.

(** A pipe of three-byte reads and a file of two-byte writes. *)
Record TeeSim := mkTeeSim { t_pending : list Z; t_shown : list Z; t_content : list Z }.
Definition sim_read (_ : unit) (_ : Z) (s : TeeSim) : TeeSim * Run (list Z) :=
  (mkTeeSim (drop 3 (t_pending s)) (t_shown s) (t_content s), ret (take 3 (t_pending s))).
Definition sim_write (_ : unit) (bs : list Z) (s : TeeSim) : TeeSim * Run Z :=
  (mkTeeSim (t_pending s) (t_shown s) (t_content s ++ take 2 bs), ret (Z.min 2 (zlen bs))).
Definition sim_stdout (bs : list Z) (s : TeeSim) : TeeSim * bool :=
  (mkTeeSim (t_pending s) (t_shown s ++ bs) (t_content s), true).

#[export] Instance sim_tee_laws :
  TeeLaws sim_read sim_write sim_stdout tt tt t_pending t_shown t_content.
Proof.
  split.
  - intros [p w c]. eexists _, _. split; [reflexivity|]. cbn [t_pending t_shown t_content].
    split; [by rewrite take_drop|]. by destruct p.
  - intros bs [p w c]. by eexists.
  - intros bs [p w c] Hne. eexists _, _. split; [reflexivity|]. cbn [t_pending t_shown t_content].
    destruct bs as [|x bs]; [done|]. cbn [length]. split; [lia|]. split; [|done].
    f_equal. destruct bs as [|y bs]; [done|]. cbn [length].
    replace (Z.to_nat (Z.min 2 (Z.of_nat (S (S (length bs)))))) with 2%nat by lia. done.
Qed.

Lemma tee_copies_all_witness :
  exists s', tee_loop sim_read sim_write sim_stdout (fun _ s => s) (fun _ => []) 8 tt tt
    (mkTeeSim (lit "abcdefg") [] [33]) = (s', ret None) /\
  t_shown s' = lit "abcdefg" /\ t_content s' = [33] ++ lit "abcdefg" /\ t_pending s' = [].
Proof.
  apply (tee_copies_all sim_read sim_write sim_stdout (fun _ s => s) (fun _ => []) tt tt
    t_pending t_shown t_content (mkTeeSim (lit "abcdefg") [] [33]) 8). cbn. lia.
Defined.

(** A file whose writes take no byte: the loop never ends. *)
Lemma write_all_zero {S F} (write : F -> list Z -> S -> S * Run Z) file b bs s
    (Hw : write file (b :: bs) s = (s, ret 0)) fuel :
  write_all write fuel file (b :: bs) s = (s, OutOfFuel).
Proof.
  induction fuel as [|fuel IH]; [done|]. cbn [write_all]. by rewrite (st_bind_ret _ _ _ _ _ Hw).
Qed.

(** ** [rpar] reports every child once *)

Lemma swap_remove_Some {A} i (l : list A) : (i < length l)%nat ->
  exists x l', swap_remove i l = Some (x, l') /\ l ≡ₚ x :: l'.
Proof.
  intros Hi. destruct (lookup_lt_is_Some_2 l i Hi) as [x Hx].
  destruct l as [|z l _] using rev_ind; [simpl in Hi; lia|].
  rewrite length_app in Hi. cbn [length] in Hi.
  unfold swap_remove. rewrite Hx, last_snoc, length_app, removelast_last. cbn [length].
  exists x, (if bool_decide (S i = (length l + 1)%nat) then l else <[i := z]> l). split; [done|].
  case_bool_decide as E.
  - rewrite lookup_app_r in Hx by lia. replace (i - length l)%nat with 0%nat in Hx by lia.
    cbn in Hx. simplify_eq. by rewrite Permutation_app_comm.
  - rewrite lookup_app_l in Hx by lia. rewrite (insert_take_drop l i z) by lia.
    pose proof (take_drop_middle l i x Hx) as Hl. revert Hl.
    generalize (take i l), (drop (S i) l). intros u v <-. rewrite <- app_assoc. cbn [app].
    rewrite <- Permutation_middle. constructor. rewrite <- (Permutation_middle u v z), app_assoc.
    exact (Permutation_app_comm (u ++ v) [z]).
Qed.

Lemma swap_remove_map {A B} (f : A -> B) i l :
  swap_remove i (map f l)
  = match swap_remove i l with Some (x, l') => Some (f x, map f l') | None => None end.
Proof.
  unfold swap_remove. rewrite length_map, list_lookup_fmap, fmap_last.
  destruct (l !! i) as [x|]; [|done]. destruct (last l) as [z|]; [|done]. cbn [fmap option_fmap option_map].
  assert (removelast (map f l) = map f (removelast l)) as ->.
  { clear. induction l as [|y l IH]; [done|]. destruct l; [done|]. cbn [map removelast] in *. by rewrite <- IH. }
  case_bool_decide; [done|]. change (map f (<[i:=z]> (removelast l))) with (f <$> <[i:=z]> (removelast l)).
  by rewrite list_fmap_insert.
Qed.

Section par_reports.
Context {S C : Type} {P : Processes S C}.
Context (println eprint : str -> S -> S) (show_err : PlatformError -> str).
(** What has been printed, a bound on the ticks the children still take, the
    status each child ends with, and the children this is about. *)
Context (printed : S -> list str) (patience : S -> nat).
Context (status_of : C -> ExitStatus) (known : C -> Prop).

(** No signal arrives; [wait_any] on known children answers with one of them
    or uses up patience; the consuming wait gives the child's terminal
    status; printing appends a line. *)
Class ParLaws := {
  no_signal s : take_signal_ s = (s, None);
  wait_any_answers children s : children <> [] -> Forall known children ->
    exists s' r, wait_any_ children (Some TICK_200) s = (s', ret r) /\ printed s' = printed s /\
    match r with
    | Some i => (i < length children)%nat /\ (patience s' <= patience s)%nat
    | None => (patience s' < patience s)%nat
    end;
  wait_gives c s : known c -> exists s', wait_ c s = (s', ret (status_of c)) /\
    printed s' = printed s /\ (patience s' <= patience s)%nat;
  known_terminal c : known c -> match status_of c with Code _ | Signaled _ => True | _ => False end;
  println_prints l s : printed (println l s) = printed s ++ [l] /\
    (patience (println l s) <= patience s)%nat;
}.
Context {L : ParLaws}.

Definition report_of (p : str * C) : str := default [] (status_line p.1 (status_of p.2)).

Lemma report_child_spec label c failed s : known c ->
  exists s', report_child println eprint show_err label c failed s
    = (s', ret (failed || negb (success (status_of c)))) /\
  printed s' = printed s ++ [report_of (label, c)] /\ (patience s' <= patience s)%nat.
Proof.
  intros Hk. unfold report_child. destruct (wait_gives c s Hk) as (s1 & E & Hp & Ht). rewrite E.
  pose proof (known_terminal c Hk) as Hterm. unfold report_of. cbn [fst snd].
  destruct (status_of c) as [n|n|n|]; cbn [status_line default]; try done.
  all: eexists; (split; [reflexivity|]);
    match goal with |- context [println ?l ?s] => destruct (println_prints l s) as [-> ?] end;
    (split; [by rewrite Hp|lia]).
Qed.

Lemma par_loop_reports fuel : forall ps failed s,
  Forall (fun p => known p.2) ps -> (length ps + patience s < fuel)%nat ->
  exists s' ps', ps' ≡ₚ ps /\
  par_loop println eprint show_err fuel (map fst ps) (map snd ps) failed s
    = (s', ret (if failed || negb (forallb (fun p => success (status_of p.2)) ps) then 1 else 0)) /\
  printed s' = printed s ++ map report_of ps'.
Proof.
  induction fuel as [|fuel IH]; intros ps failed s Hk Hf; [lia|]. cbn [par_loop].
  destruct ps as [|p0 ps0]; [exists s, []; split; [done|]; cbn; by rewrite orb_false_r, app_nil_r|].
  set (ps := p0 :: ps0) in *. cbn [ps map]. change (snd p0 :: map snd ps0) with (map snd ps).
  change (fst p0 :: map fst ps0) with (map fst ps). rewrite no_signal.
  destruct (wait_any_answers (map snd ps) s) as (s1 & r & E & Hp & Hr);
    [done|by apply Forall_map|]. rewrite E. destruct r as [i|].
  - destruct Hr as [Hi Ht]. rewrite length_map in Hi.
    destruct (swap_remove_Some i ps Hi) as ([label c] & ps1 & Es & Hperm).
    rewrite !swap_remove_map, Es. cbn [fst snd].
    assert (Forall (fun p => known p.2) ((label, c) :: ps1)) as Hk1 by by rewrite <- Hperm.
    destruct (report_child_spec label c failed s1) as (s2 & E2 & Hp2 & Ht2); [by apply Forall_inv in Hk1|].
    rewrite (st_bind_ret _ _ _ _ _ E2).
    destruct (IH ps1 (failed || negb (success (status_of c))) s2) as (s' & ps' & Hperm' & E' & Hp').
    { by apply Forall_inv_tail in Hk1. }
    { pose proof (Permutation_length Hperm) as Hl. cbn [length] in Hl. lia. }
    exists s', ((label, c) :: ps'). split; [by rewrite Hperm', Hperm|]. split.
    + rewrite E'. do 3 f_equal.
      assert (forallb (fun p => success (status_of p.2)) ps
        = success (status_of c) && forallb (fun p => success (status_of p.2)) ps1) as ->.
      { change (success (status_of c) && _) with (forallb (fun p : str * C => success (status_of p.2)) ((label, c) :: ps1)).
        clear -Hperm. induction Hperm as [|x l l' _ IH|x y l|l1 l2 l3 _ IH1 _ IH2]; [done| | |congruence].
        - cbn [forallb]. by rewrite IH.
        - cbn [forallb]. by rewrite !andb_assoc, (andb_comm (success (status_of y.2))). }
      by destruct failed, (success (status_of c)), (forallb _ ps1).
    + rewrite Hp', Hp2, Hp. cbn [map]. by rewrite <- app_assoc.
  - destruct (IH ps failed s1) as (s' & ps' & Hperm' & E' & Hp'); [done|lia|].
    exists s', ps'. split; [done|]. split; [done|]. by rewrite Hp', Hp.
Qed.
End par_reports.

(** C28: when no signal arrives, [rpar]'s loop ends with every child reported
    exactly once, under its own label and with its own status, and exits with
    0 just when nothing failed to start and every child succeeded; the
    [swap_remove]s keep labels and children in step. *)
Theorem rpar_reports_all {S C} {P : Processes S C} println eprint show_err printed patience
    status_of known {L : ParLaws println printed patience status_of known} ps failed s fuel
    (Hknown : Forall (fun p : str * C => known p.2) ps)
    (Hfuel : (length ps + patience s < fuel)%nat) :
  exists s' ps', ps' ≡ₚ ps /\
  par_loop println eprint show_err fuel (map fst ps) (map snd ps) failed s
    = (s', ret (if failed || negb (forallb (fun p => success (status_of p.2)) ps) then 1 else 0)) /\
  printed s' = printed s ++ map (report_of status_of) ps'.
Proof. by apply (par_loop_reports println eprint show_err printed patience status_of known). Qed.

(** The clock world of [Process], with an output. *)
Definition SimWorld : Type := Z * list str.
Definition sim_wait (c : SimChild) (w : SimWorld) : SimWorld * Run ExitStatus :=
  ((Z.max w.1 (ends_at c), w.2), ret (ends_with c)).
Definition sim_wait_any (children : list SimChild) (t : option Z) (w : SimWorld)
    : SimWorld * Run (option nat) :=
  let (now, r) := wait_any sim_try_wait (fun now => now) sim_sleep (rounds (default 0 t)) children t w.1 in
  ((now, w.2), r).
#[export] Instance sim_processes : Processes SimWorld SimChild := {|
  spawn_ cmd w := (w, ret (mkSimChild (w.1 + 1) (Code 0)));
  wait_ := sim_wait;
  try_wait_ c w := let (now, r) := sim_try_wait c w.1 in ((now, w.2), r);
  kill_single_ c sig w := (w, ret tt);
  wait_any_ := sim_wait_any;
  take_signal_ w := (w, None);
|}.
Definition sim_println (l : str) (w : SimWorld) : SimWorld := (w.1, w.2 ++ [l]).
Definition sim_known (horizon : Z) (c : SimChild) : Prop :=
  ends_at c <= horizon /\ match ends_with c with Code _ | Signaled _ => True | _ => False end.

Lemma sim_par_laws horizon :
  ParLaws sim_println snd (fun w => Z.to_nat (horizon - w.1)) ends_with (sim_known horizon).
Proof.
  split; try done.
  - intros children [now out] Hne Hk. cbn [wait_any_ sim_processes]. unfold sim_wait_any. cbn [fst snd].
    change (default 0 (Some TICK_200)) with TICK_200.
    destruct (wait_any_total sim_try_wait (fun now => now) sim_sleep sim_done children TICK_200 now
      (rounds TICK_200) Hne) as (now' & r & E & Hc & H); [done|done|].
    rewrite E. exists (now', out), r. split; [done|]. split; [done|].
    destruct r as [i|].
    + destruct H as (c & Hi & _). split; [by apply lookup_lt_Some in Hi|]. cbn [fst]. lia.
    + destruct H as [Ht Hd]. destruct children as [|c cs]; [done|]. apply Forall_inv in Hd, Hk.
      unfold sim_done in Hd. destruct Hk as [Hk _]. cbn [fst]. unfold TICK_200 in Ht. lia.
  - intros c [now out] _. cbn [wait_ sim_processes]. unfold sim_wait. eexists. split; [reflexivity|].
    split; [done|]. cbn [fst]. lia.
  - by intros c [_ ?].
Qed.

Lemma rpar_reports_all_witness :
  let ps := [(lit "a", mkSimChild 9 (Code 0)); (lit "b", mkSimChild 3 (Signaled 9))] in
  exists s' ps', ps' ≡ₚ ps /\
  par_loop sim_println (fun _ s => s) (fun _ => []) 20 (map fst ps) (map snd ps) false (0, [])
    = (s', ret (if false || negb (forallb (fun p : str * SimChild => success (ends_with p.2)) ps) then 1 else 0)) /\
  s'.2 = [] ++ map (report_of ends_with) ps'.
Proof.
  cbv zeta. apply (rpar_reports_all sim_println (fun _ s => s) (fun _ => []) snd
    (fun w : SimWorld => Z.to_nat (9 - w.1)) ends_with (sim_known 9)
    (L := sim_par_laws 9)
    [(lit "a", mkSimChild 9 (Code 0)); (lit "b", mkSimChild 3 (Signaled 9))]
    false (0, []) 20).
  - repeat constructor; cbn; lia.
  - vm_compute. lia.
Defined.

(** The loop evaluated: completion order, not spawn order. *)
Example rpar_ex :
  let ps := [(lit "a", mkSimChild 900000000 (Code 0)); (lit "b", mkSimChild 30000000 (Signaled 9))] in
  let '(w, r) := par_loop sim_println (fun _ s => s) (fun _ => []) 20 (map fst ps) (map snd ps) false (0, []) in
  (w.2, r) = ([lit "[b] killed by signal 9"; lit "[a] exited 0"], ret 1).
Proof. vm_compute. reflexivity. Qed.
