(* ===== verification/TrustAnchors.v ===== *)
(** * Trust anchors ([crates/platform-linux/src/sys/trust_anchors.rs])

    Base64, the extraction of [CERTIFICATE] blocks from PEM text, and the
    probing of the system's stores.  The operating system's files are a
    record of functions; what a file holds is its bytes. *)

From Stdlib Require Import ZArith Lia String.
From S2P Require Import Prelude Error Text.
From stdpp Require Import base numbers list strings.
Open Scope Z_scope.

(** [str::find]: the first position of a pattern. *)
Fixpoint str_find (pat s : str) : option nat :=
  if starts_with pat s then Some 0%nat
  else match s with
       | [] => None
       | _ :: s' => S <$> str_find pat s'
       end.

(** ** Base64 *)

Definition sextet (c : Z) : option Z :=
  if (65 <=? c) && (c <=? 90) then Some (c - 65)
  else if (97 <=? c) && (c <=? 122) then Some (c - 97 + 26)
  else if (48 <=? c) && (c <=? 57) then Some (c - 48 + 52)
  else if c =? 43 then Some 62
  else if c =? 47 then Some 63
  else None.

(** [u8::is_ascii_whitespace]: space, tab, line feed, form feed, return. *)
Definition is_ascii_whitespace (c : Z) : bool :=
  (c =? 32) || (c =? 9) || (c =? 10) || (c =? 12) || (c =? 13).

(** The loop of [b64_decode]: [acc] is a [u32], [<<] drops its high bits. *)
Fixpoint b64_loop (input : list Z) (acc bits : Z) (out : list Z) : option (list Z) :=
  match input with
  | [] => Some out
  | c :: input' =>
    if c =? 61 then Some out
    else if is_ascii_whitespace c then b64_loop input' acc bits out
    else match sextet c with
         | None => None
         | Some v =>
           let acc := Z.lor (wrap 32 (Z.shiftl acc 6)) v in
           let bits := bits + 6 in
           if 8 <=? bits
           then let bits := bits - 8 in
                b64_loop input' acc bits (out ++ [wrap 8 (Z.shiftr acc bits)])
           else b64_loop input' acc bits out
         end
  end.

Definition b64_decode (input : list Z) : option (list Z) := b64_loop input 0 0 [].

(** ** PEM *)

Definition BEGIN : str := lit "-----BEGIN CERTIFICATE-----".
Definition END_ : str := lit "-----END CERTIFICATE-----".

(** [fuel] bounds the blocks; each takes at least [BEGIN] from the text. *)
Fixpoint pem_loop (fuel : nat) (rest : str) (out : list (list Z)) : option (list (list Z)) :=
  match fuel with
  | O => None
  | S fuel =>
    match str_find BEGIN rest with
    | None => Some out
    | Some start =>
      let after_begin := drop (start + length BEGIN) rest in
      match str_find END_ after_begin with
      | None => Some out
      | Some end_ =>
        let out := match b64_decode (take end_ after_begin) with
                   | Some der => if bool_decide (der = []) then out else out ++ [der]
                   | None => out
                   end in
        pem_loop fuel (drop (end_ + length END_) after_begin) out
      end
    end
  end.

Definition pem_to_ders (text : str) : list (list Z) :=
  default [] (pem_loop (S (length text)) text []).

(** ** The stores *)

Record System := mkSystem {
  var_os : str -> option OsString;
  (** [fs::read], the bytes a path's file holds *)
  read_file : OsString -> option (list Z);
  exists_ : OsString -> bool;
  is_dir : OsString -> bool;
  (** [fs::read_dir]: paths and whether each is a directory *)
  read_dir : OsString -> option (list (OsString * bool));
}.

Definition BUNDLE_PATHS : list str :=
  [lit "/etc/ssl/certs/ca-certificates.crt"; lit "/etc/pki/tls/certs/ca-bundle.crt";
   lit "/etc/ssl/ca-bundle.pem"; lit "/etc/pki/tls/cacert.pem"; lit "/etc/ssl/cert.pem"].
Definition DIR_PATHS : list str := [lit "/etc/ssl/certs"; lit "/etc/pki/tls/certs"].

Definition no_anchors (detail : string) : PlatformError := error_new NotFound NoCode detail.
Definition non_empty (anchors : list (list Z)) (detail : string) : Result (list (list Z)) :=
  match anchors with [] => Err (no_anchors detail) | _ => Ok anchors end.

(** [read_to_string] fails on bytes that are not UTF-8. *)
Definition read_bundle (s : System) (path : OsString) : list (list Z) :=
  match read_file s path with
  | Some bytes => if utf8_valid bytes then pem_to_ders bytes else []
  | None => []
  end.

Definition read_dir_anchors (s : System) (path : OsString) : list (list Z) :=
  match read_dir s path with
  | None => []
  | Some entries =>
    concat (map (fun e : OsString * bool => if e.2 then [] else read_bundle s e.1) entries)
  end.

(** The operator's file or directory, else the first bundle that exists, else
    the first directory. *)
Definition probe (bundles dirs : list str) (no_bundle no_dir : string) (s : System) : Result (list (list Z)) :=
  match var_os s (lit "SSL_CERT_FILE") with
  | Some file => non_empty (read_bundle s file) "SSL_CERT_FILE names no usable certificates"
  | None =>
    match var_os s (lit "SSL_CERT_DIR") with
    | Some dir => non_empty (read_dir_anchors s dir) "SSL_CERT_DIR names no usable certificates"
    | None =>
      match List.find (exists_ s) bundles with
      | Some path => non_empty (read_bundle s path) no_bundle
      | None =>
        match List.find (is_dir s) dirs with
        | Some path => non_empty (read_dir_anchors s path) no_dir
        | None => Err (no_anchors "no OS trust store found (no SSL_CERT_FILE/SSL_CERT_DIR, no known bundle or directory)")
        end
      end
    end
  end.

Definition load_anchors : System -> Result (list (list Z)) :=
  probe BUNDLE_PATHS DIR_PATHS "distro CA bundle held no usable certificates"
    "distro CA directory held no usable certificates".

Example b64_ex :
  b64_decode (lit "TWFu") = Some (lit "Man") /\ b64_decode (lit "TQ==") = Some (lit "M") /\
  b64_decode (lit "TW*u") = None.
Proof. vm_compute. auto. Qed.

(** ** Decoding undoes encoding *)

Definition alphabet (v : Z) : Z :=
  if v <? 26 then 65 + v else if v <? 52 then 97 + (v - 26) else if v <? 62 then 48 + (v - 52)
  else if v =? 62 then 43 else 47.

(** The standard encoding, with padding. *)
Fixpoint b64_encode (bs : list Z) : list Z :=
  match bs with
  | [] => []
  | [b0] => [alphabet (b0 / 4); alphabet (b0 mod 4 * 16); 61; 61]
  | [b0; b1] =>
    [alphabet (b0 / 4); alphabet (b0 mod 4 * 16 + b1 / 16); alphabet (b1 mod 16 * 4); 61]
  | b0 :: b1 :: b2 :: bs' =>
    alphabet (b0 / 4) :: alphabet (b0 mod 4 * 16 + b1 / 16)
    :: alphabet (b1 mod 16 * 4 + b2 / 64) :: alphabet (b2 mod 64) :: b64_encode bs'
  end.

Lemma sextet_alphabet v : 0 <= v < 64 ->
  sextet (alphabet v) = Some v /\ is_ascii_whitespace (alphabet v) = false /\ (alphabet v =? 61) = false.
Proof.
  intros Hv.
  assert (forallb (fun n => let v := Z.of_nat n in
    bool_decide (sextet (alphabet v) = Some v) && negb (is_ascii_whitespace (alphabet v))
    && negb (alphabet v =? 61)) (seq 0 64) = true) as H by (vm_compute; reflexivity).
  rewrite forallb_forall in H. specialize (H (Z.to_nat v)). rewrite Z2Nat.id in H by lia.
  rewrite !andb_true_iff, !negb_true_iff, bool_decide_eq_true in H.
  destruct H as [[? ?] ?]; [apply in_seq; lia|done].
Qed.

(** Shifting in six bits: the low bits that matter. *)
Lemma shift_in acc v k : 0 <= v < 64 -> 0 <= k <= 26 ->
  Z.lor (wrap 32 (Z.shiftl acc 6)) v mod 2 ^ (k + 6) = acc mod 2 ^ k * 64 + v.
Proof.
  intros Hv Hk. unfold wrap.
  assert (Z.lor (Z.shiftl acc 6 mod 2 ^ 32) v = Z.shiftl acc 6 mod 2 ^ 32 + v) as ->.
  { symmetry. apply Z.add_nocarry_lor. apply Z.bits_inj'. intros n Hn.
    rewrite Z.land_spec, Z.bits_0. destruct (Z.lt_ge_cases n 6).
    - rewrite Z.mod_pow2_bits_low, Z.shiftl_spec_low by lia. done.
    - rewrite <- (Z.mod_small v (2 ^ 6)), (Z.mod_pow2_bits_high v) by lia. apply andb_false_r. }
  rewrite Z.shiftl_mul_pow2 by lia. change (2 ^ 6) with 64.
  rewrite Z.pow_add_r by lia. change (2 ^ 6) with 64.
  assert (2 ^ 32 = 2 ^ (26 - k) * (2 ^ k * 64)) as E.
  { change 64 with (2 ^ 6). rewrite <- !Z.pow_add_r by lia. f_equal. lia. }
  assert (0 < 2 ^ k) by (apply Z.pow_pos_nonneg; lia).
  assert (0 < 2 ^ (26 - k)) by (apply Z.pow_pos_nonneg; lia).
  rewrite <- Z.add_mod_idemp_l by lia. rewrite Z.mod_mod_divide by (exists (2 ^ (26 - k)); lia).
  rewrite Z.add_mod_idemp_l by lia. set (m := 2 ^ k) in *.
  pose proof (Z.mod_pos_bound acc m ltac:(lia)). pose proof (Z.div_mod acc m ltac:(lia)).
  symmetry. apply Z.mod_unique with (q := acc / m); [left; lia|]. nia.
Qed.

(** One alphabet character through the loop. *)
Definition push6 (acc v : Z) : Z := Z.lor (wrap 32 (Z.shiftl acc 6)) v.

Lemma push6_low acc v k : 0 <= v < 64 -> 0 <= k <= 26 ->
  push6 acc v mod 2 ^ (k + 6) = acc mod 2 ^ k * 64 + v.
Proof. apply shift_in. Qed.

Lemma b64_step v rest acc bits out : 0 <= v < 64 ->
  b64_loop (alphabet v :: rest) acc bits out =
  if 8 <=? bits + 6
  then b64_loop rest (push6 acc v) (bits - 2) (out ++ [wrap 8 (Z.shiftr (push6 acc v) (bits - 2))])
  else b64_loop rest (push6 acc v) (bits + 6) out.
Proof.
  intros Hv. destruct (sextet_alphabet v Hv) as (Hs & Hw & He). cbn [b64_loop].
  rewrite He, Hw, Hs. replace (bits + 6 - 8) with (bits - 2) by lia. done.
Qed.

Lemma b64_first v rest acc out : 0 <= v < 64 ->
  b64_loop (alphabet v :: rest) acc 0 out = b64_loop rest (push6 acc v) 6 out.
Proof. intros. by rewrite b64_step. Qed.

Lemma b64_next j v rest acc out : 0 <= v < 64 -> 0 <= j ->
  b64_loop (alphabet v :: rest) acc (j + 2) out =
  b64_loop rest (push6 acc v) j (out ++ [wrap 8 (Z.shiftr (push6 acc v) j)]).
Proof.
  intros. rewrite b64_step, (proj2 (Z.leb_le 8 _)) by lia. by replace (j + 2 - 2) with j by lia.
Qed.

Lemma top_byte a j : 0 <= j -> wrap 8 (Z.shiftr a j) = a mod 2 ^ (j + 8) / 2 ^ j.
Proof.
  intros Hj. unfold wrap. rewrite Z.shiftr_div_pow2 by lia. rewrite Z.pow_add_r by lia.
  assert (0 < 2 ^ j) by (apply Z.pow_pos_nonneg; lia).
  rewrite Z.rem_mul_r by lia. rewrite (Z.mul_comm (2 ^ j)), Z.div_add by lia.
  rewrite (Z.div_small (a mod 2 ^ j)) by (apply Z.mod_pos_bound; lia). lia.
Qed.

(** The low [j] bits, of the low [k]. *)
Lemma low_low a j k : 0 <= j <= k -> a mod 2 ^ j = (a mod 2 ^ k) mod 2 ^ j.
Proof.
  intros Hj. symmetry. apply Z.mod_mod_divide. exists (2 ^ (k - j)).
  rewrite <- Z.pow_add_r by lia. f_equal. lia.
Qed.

Section quad.
Variables (acc s0 s1 s2 s3 : Z).
Hypotheses (H0 : 0 <= s0 < 64) (H1 : 0 <= s1 < 64) (H2 : 0 <= s2 < 64) (H3 : 0 <= s3 < 64).
Let a1 := push6 acc s0.
Let a2 := push6 a1 s1.
Let a3 := push6 a2 s2.
Let a4 := push6 a3 s3.

Lemma quad_a2 : a2 mod 2 ^ 12 = s0 * 64 + s1.
Proof.
  clear a3 a4 H2 H3 s2 s3.
  change 12 with (6 + 6). unfold a2. rewrite push6_low by lia. f_equal. f_equal.
  change 6 with (0 + 6). unfold a1. rewrite push6_low by lia. rewrite Z.mod_1_r. lia.
Qed.

Lemma quad_byte0 : wrap 8 (Z.shiftr a2 4) = (s0 * 64 + s1) / 16.
Proof.
  clear a3 a4 H2 H3 s2 s3. rewrite top_byte by lia. change (4 + 8) with 12. by rewrite quad_a2. Qed.

Lemma quad_a3 : a3 mod 2 ^ 10 = (s1 mod 16) * 64 + s2.
Proof.
  clear a4 H3 s3.
  change 10 with (4 + 6). unfold a3. rewrite push6_low by lia. f_equal. f_equal.
  rewrite (low_low a2 4 12), quad_a2 by lia. change (2 ^ 4) with 16.
  Z.to_euclidean_division_equations. lia.
Qed.

Lemma quad_byte1 : wrap 8 (Z.shiftr a3 2) = ((s1 mod 16) * 64 + s2) / 4.
Proof.
  clear a4 H3 s3. rewrite top_byte by lia. change (2 + 8) with 10. by rewrite quad_a3. Qed.

Lemma quad_byte2 : wrap 8 (Z.shiftr a4 0) = (s2 mod 4) * 64 + s3.
Proof.
  rewrite top_byte by lia. change (0 + 8) with (2 + 6). unfold a4. rewrite push6_low by lia.
  rewrite (low_low a3 2 10), quad_a3 by lia. change (2 ^ 2) with 4. change (2 ^ 0) with 1.
  rewrite Z.div_1_r. Z.to_euclidean_division_equations. lia.
Qed.

Lemma quad_loop rest out :
  b64_loop (alphabet s0 :: alphabet s1 :: alphabet s2 :: alphabet s3 :: rest) acc 0 out =
  b64_loop rest a4 0 (out ++ [(s0 * 64 + s1) / 16; ((s1 mod 16) * 64 + s2) / 4; (s2 mod 4) * 64 + s3]).
Proof.
  rewrite b64_first by done. rewrite (b64_next 4), (b64_next 2), (b64_next 0) by done.
  fold a1 a2 a3 a4. rewrite quad_byte0, quad_byte1, quad_byte2, <- !app_assoc. done.
Qed.
End quad.

(** Ignoring the ASCII whitespace first changes nothing. *)
Definition strip_ws (s : list Z) : list Z := List.filter (fun c => negb (is_ascii_whitespace c)) s.

Lemma b64_loop_ws input : forall acc bits out,
  b64_loop input acc bits out = b64_loop (strip_ws input) acc bits out.
Proof.
  induction input as [|c input IH]; intros acc bits out; [done|].
  unfold strip_ws. simpl. fold (strip_ws input). destruct (is_ascii_whitespace c) eqn:Ew.
  - destruct (c =? 61) eqn:Ec; [bool_to_prop; subst c; done|]. cbn [negb]. apply IH.
  - cbn [negb b64_loop]. rewrite Ew. destruct (c =? 61); [done|].
    destruct (sextet c); [|done]. case_match; apply IH.
Qed.

Lemma bytes_cons b bs : Forall (in_u 8) (b :: bs) -> 0 <= b < 256 /\ Forall (in_u 8) bs.
Proof. intros H. split; [exact (Forall_inv H)|exact (Forall_inv_tail H)]. Qed.

Lemma b64_loop_encode bs : Forall (in_u 8) bs -> forall acc out,
  b64_loop (b64_encode bs) acc 0 out = Some (out ++ bs).
Proof.
  induction bs as [bs IH] using (induction_ltof1 _ (@length Z)). unfold ltof in IH.
  intros Hb acc out.
  destruct bs as [|b0 [|b1 [|b2 bs]]]; cbn [b64_encode].
  - by rewrite app_nil_r.
  - apply bytes_cons in Hb as [Hb _].
    rewrite b64_first, (b64_next 4) by (lia || (Z.to_euclidean_division_equations; lia)).
    cbn [b64_loop Z.eqb Pos.eqb].
    rewrite (quad_byte0 acc (b0 / 4) (b0 mod 4 * 16)) by (Z.to_euclidean_division_equations; lia).
    do 3 f_equal. Z.to_euclidean_division_equations. lia.
  - apply bytes_cons in Hb as [Hb0 Hb]. apply bytes_cons in Hb as [Hb1 _].
    rewrite b64_first, (b64_next 4), (b64_next 2) by (lia || (Z.to_euclidean_division_equations; lia)).
    cbn [b64_loop Z.eqb Pos.eqb].
    rewrite (quad_byte0 acc (b0 / 4) (b0 mod 4 * 16 + b1 / 16)),
      (quad_byte1 acc (b0 / 4) (b0 mod 4 * 16 + b1 / 16) (b1 mod 16 * 4))
      by (Z.to_euclidean_division_equations; lia).
    rewrite <- app_assoc. cbn [app]. do 2 f_equal.
    f_equal; [|f_equal]; Z.to_euclidean_division_equations; lia.
  - apply bytes_cons in Hb as [Hb0 Hb]. apply bytes_cons in Hb as [Hb1 Hb].
    apply bytes_cons in Hb as [Hb2 Hb].
    rewrite quad_loop by (Z.to_euclidean_division_equations; lia).
    rewrite IH by (simpl; lia || done). rewrite <- app_assoc. cbn [app]. do 2 f_equal.
    f_equal; [|f_equal; [|f_equal]]; Z.to_euclidean_division_equations; lia.
Qed.

(** base64 decoding gives back the bytes that were encoded, however the
    text is broken into lines or padded with ASCII whitespace. *)
Theorem b64_roundtrip bs text (Hb : Forall (in_u 8) bs) (Htext : strip_ws text = b64_encode bs) :
  b64_decode text = Some bs.
Proof. unfold b64_decode. by rewrite b64_loop_ws, Htext, b64_loop_encode. Qed.

Lemma b64_roundtrip_witness : b64_decode (lit "MII BCg= =") = Some [48; 130; 1; 10].
Proof.
  apply (b64_roundtrip [48; 130; 1; 10] (lit "MII BCg= =")); [|vm_compute; reflexivity].
  apply bytes_ok. vm_compute. reflexivity.
Defined.

(** ** A bundle of blocks *)

Definition dashless (s : str) : Prop := Forall (fun c => c <> 45) s.

Lemma str_find_after pat w rest : hd_error pat = Some 45 -> dashless w ->
  str_find pat (w ++ pat ++ rest) = Some (length w).
Proof.
  intros Hp. destruct pat as [|p pat]; [done|]. injection Hp as ->.
  induction 1 as [|c w Hc _ IH].
  - cbn [app length]. change (45 :: pat ++ rest) with ((45 :: pat) ++ rest).
    assert (starts_with (45 :: pat) ((45 :: pat) ++ rest) = true) as H
      by (unfold starts_with; by rewrite strip_prefix_app).
    cbn [app str_find] in *. by rewrite H.
  - cbn [app str_find length]. unfold starts_with. cbn [str_strip_prefix].
    rewrite (proj2 (Z.eqb_neq 45 c)) by done. cbn [app] in IH. by rewrite IH.
Qed.

Lemma str_find_dashless pat w : hd_error pat = Some 45 -> dashless w -> str_find pat w = None.
Proof.
  intros Hp. destruct pat as [|p pat]; [done|]. injection Hp as ->.
  induction 1 as [|c w Hc _ IH]; [done|]. cbn [str_find]. unfold starts_with. cbn [str_strip_prefix].
  rewrite (proj2 (Z.eqb_neq 45 c)) by done. by rewrite IH.
Qed.

(** What precedes a block, and the block's body. *)
Definition block_text (b : str * str) : str := b.1 ++ BEGIN ++ b.2 ++ END_.

Definition block_der (b : str * str) : option (list Z) :=
  match b64_decode b.2 with
  | Some der => if bool_decide (der = []) then None else Some der
  | None => None
  end.

Lemma pem_loop_blocks blocks tail : dashless tail ->
  Forall (fun b => dashless b.1 /\ dashless b.2) blocks ->
  forall fuel out, (length blocks < fuel)%nat ->
  pem_loop fuel (concat (map block_text blocks) ++ tail) out = Some (out ++ omap block_der blocks).
Proof.
  intros Ht H. induction H as [|[junk body] blocks [Hj Hb] _ IH]; intros [|fuel] out Hf;
    try (simpl in Hf; lia); cbn [pem_loop map concat].
  - rewrite (str_find_dashless BEGIN) by done. by rewrite app_nil_r.
  - cbn [fst snd] in *.
    change (block_text (junk, body)) with (junk ++ BEGIN ++ body ++ END_).
    rewrite <- !app_assoc, (str_find_after BEGIN) by done.
    rewrite <- drop_drop. rewrite drop_app_length, drop_app_length.
    rewrite (str_find_after END_) by done.
    rewrite <- drop_drop, drop_app_length, drop_app_length, take_app_length.
    rewrite IH by (simpl in Hf; lia). 
    change (omap block_der ((junk, body) :: blocks)) with
      (match block_der (junk, body) with
       | Some y => y :: omap block_der blocks | None => omap block_der blocks end).
    assert (block_der (junk, body) = match b64_decode body with
      | Some der => if bool_decide (der = []) then None else Some der | None => None end) as -> by done.
    destruct (b64_decode body) as [der|]; [|done]. case_bool_decide; [done|].
    by rewrite <- app_assoc.
Qed.

Lemma blocks_fuel blocks tail :
  (length blocks < S (length (concat (map block_text blocks) ++ tail)))%nat.
Proof.
  rewrite length_app. induction blocks as [|[j b] blocks IH]; [simpl; lia|].
  cbn [map concat length]. unfold block_text at 1. rewrite !length_app. cbn [fst snd].
  change (length BEGIN) with 27%nat. lia.
Qed.

(** [pem_to_ders] finds every certificate block of a bundle, in order,
    whatever text stands between them, and a block whose base64 is damaged or
    empty costs only itself. *)
Theorem pem_bundle blocks tail
    (Hb : Forall (fun b => dashless b.1 /\ dashless b.2) blocks) (Ht : dashless tail) :
  pem_to_ders (concat (map block_text blocks) ++ tail) = omap block_der blocks.
Proof. unfold pem_to_ders. rewrite pem_loop_blocks; [done..|]. apply blocks_fuel. Qed.

Lemma pem_bundle_witness :
  pem_to_ders (concat (map block_text [(lit "# root", lit "TWFu"); ([10], lit "T*Fu"); ([10], lit "TQ==")])
    ++ [10]) = [lit "Man"; lit "M"].
Proof.
  apply (pem_bundle [(lit "# root", lit "TWFu"); ([10], lit "T*Fu"); ([10], lit "TQ==")] [10]).
  - repeat constructor; vm_compute; congruence.
  - repeat constructor; vm_compute; congruence.
Defined.

(** A block that lost its end marker costs the next one too: the search for
    the end runs into the next block, whose certificate is not returned. *)
Example missing_end_costs_the_next :
  pem_to_ders (BEGIN ++ lit "TWFu" ++ [10] ++ BEGIN ++ lit "TQ==" ++ END_) = [].
Proof. vm_compute. reflexivity. Qed.

(** ** The probing policy *)

(** One byte that is not UTF-8 anywhere in a bundle costs all of it. *)
Lemma bundle_not_utf8 s path bytes :
  read_file s path = Some bytes -> utf8_valid bytes = false -> read_bundle s path = [].
Proof. unfold read_bundle. by intros -> ->. Qed.

(** What decides over what. *)
Definition decided_by (bundles dirs : list str) (s : System) (anchors : list (list Z)) : Prop :=
  match var_os s (lit "SSL_CERT_FILE"), var_os s (lit "SSL_CERT_DIR") with
  | Some file, _ => anchors = read_bundle s file
  | None, Some dir => anchors = read_dir_anchors s dir
  | None, None =>
    (exists before path after, bundles = before ++ path :: after /\ exists_ s path = true /\
      Forall (fun p => exists_ s p = false) before /\ anchors = read_bundle s path) \/
    (Forall (fun p => exists_ s p = false) bundles /\
      exists path, path ∈ dirs /\ is_dir s path = true /\ anchors = read_dir_anchors s path)
  end.

Lemma probe_exclusive bundles dirs no_bundle no_dir s :
  probe bundles dirs no_bundle no_dir s <> Ok [] /\
  (forall anchors, probe bundles dirs no_bundle no_dir s = Ok anchors -> decided_by bundles dirs s anchors).
Proof.
  unfold decided_by.
  assert (forall l d, non_empty l d <> Ok []) as Hn by by intros [].
  assert (forall l d a, non_empty l d = Ok a -> a = l) as He by (intros [] d a H; by simplify_eq/=).
  assert (forall (f : str -> bool) l,
    match List.find f l with
    | Some p => exists before after, l = before ++ p :: after /\ f p = true /\
        Forall (fun p => f p = false) before
    | None => Forall (fun p => f p = false) l
    end) as Hfind.
  { intros f l. induction l as [|x l IH]; [constructor|]. simpl. destruct (f x) eqn:E.
    - exists [], l. by repeat split.
    - destruct (List.find f l) as [p|]; [|by constructor].
      destruct IH as (b & a & -> & Hp & Hb). exists (x :: b), a. repeat split; [done|]. by constructor. }
  unfold probe. pose proof (Hfind (exists_ s) bundles) as Hbundle.
  pose proof (Hfind (is_dir s) dirs) as Hdir.
  destruct (var_os s (lit "SSL_CERT_FILE")) as [file|]; [split; [apply Hn|intros a; apply He]|].
  destruct (var_os s (lit "SSL_CERT_DIR")) as [dir|]; [split; [apply Hn|intros a; apply He]|].
  destruct (List.find (exists_ s) bundles) as [path|].
  { split; [apply Hn|]. intros a Ha%He. left. destruct Hbundle as (b & a' & ? & ? & ?). by exists b, path, a'. }
  destruct (List.find (is_dir s) dirs) as [path|]; [|by split].
  split; [apply Hn|]. intros a Ha%He. right. split; [done|]. exists path.
  destruct Hdir as (b & a' & -> & ? & ?). split; [|done]. apply elem_of_app. right. by left.
Qed.

(** [load_anchors] never succeeds with no anchor; the operator's
    [SSL_CERT_FILE], then [SSL_CERT_DIR], decide alone when they are set, and
    a distribution bundle that exists decides over any directory. *)
Theorem load_anchors_exclusive s :
  load_anchors s <> Ok [] /\
  (forall anchors, load_anchors s = Ok anchors -> decided_by BUNDLE_PATHS DIR_PATHS s anchors).
Proof. apply probe_exclusive. Qed.
