(* ===== verification/Terminal.v ===== *)
(** * Terminals ([crates/platform/src/term.rs], [platform-mock/src/term.rs],
    [coreutils/src/term_report.rs], [coreutils/src/bin/rterm.rs])

    The terminal interface, the scripted terminal that implements it, and its
    reference consumers [report], [with_raw] and [rterm]. *)

From Stdlib Require Import ZArith Lia String.
From S2P Require Import Prelude Error.
From stdpp Require Import base numbers list strings.
Open Scope Z_scope.

Inductive TermStream := Stdin | Stdout | Stderr.
Record WinSize := mkWinSize { rows : Z; cols : Z }.

(** ** The interface *)

Class Terminal (S : Type) := {
  is_tty_ : TermStream -> S -> bool;
  window_size_ : S -> Result WinSize;
  enter_raw_ : S -> S * Run unit;
  leave_raw_ : S -> S * Run unit;
  is_raw_ : S -> bool;
  poll_readable_ : option Z -> S -> S * Run bool;
  read_chunk_ : Z -> S -> S * Run (list Z);
  set_echo_ : bool -> S -> S * Run bool;
}.

(** ** The scripted terminal *)

Record MockTerminal := mkMockTerminal {
  stdin_tty : bool;
  stdout_tty : bool;
  stderr_tty : bool;
  size : option WinSize;
  raw : bool;
  raw_transitions : Z;
  echo : bool;
  pending : list Z;
}.

Definition MockTerminal_new : MockTerminal :=
  mkMockTerminal false false false None false 0 true [].
Definition interactive (r c : Z) : MockTerminal :=
  mkMockTerminal true true true (Some (mkWinSize r c)) false 0 true [].
Definition set_tty (stream : TermStream) (tty : bool) (t : MockTerminal) : MockTerminal :=
  let '(mkMockTerminal i o e sz r n ec p) := t in
  match stream with
  | Stdin => mkMockTerminal tty o e sz r n ec p
  | Stdout => mkMockTerminal i tty e sz r n ec p
  | Stderr => mkMockTerminal i o tty sz r n ec p
  end.
Definition push_input (bytes : list Z) (t : MockTerminal) : MockTerminal :=
  let '(mkMockTerminal i o e sz r n ec p) := t in mkMockTerminal i o e sz r n ec (p ++ bytes).
Definition force_raw (b : bool) (t : MockTerminal) : MockTerminal :=
  let '(mkMockTerminal i o e sz r n ec p) := t in mkMockTerminal i o e sz b n ec p.

Definition not_a_tty (opn : string) : PlatformError := error_new Other NoCode opn.

Definition is_tty (stream : TermStream) (t : MockTerminal) : bool :=
  match stream with Stdin => stdin_tty t | Stdout => stdout_tty t | Stderr => stderr_tty t end.
Definition window_size (t : MockTerminal) : Result WinSize :=
  ok_or_else (size t) (not_a_tty "window_size").
(** [raw_transitions += 1] on a [u32] panics on overflow in a debug build. *)
Definition enter_raw (t : MockTerminal) : MockTerminal * Run unit :=
  let '(mkMockTerminal i o e sz r n ec p) := t in
  if negb i then (t, fail (not_a_tty "enter_raw"))
  else if r then (t, ret tt)
  else if n + 1 <? 2 ^ 32 then (mkMockTerminal i o e sz true (n + 1) ec p, ret tt)
  else (mkMockTerminal i o e sz true n ec p, Panic).
Definition leave_raw (t : MockTerminal) : MockTerminal * Run unit := (force_raw false t, ret tt).
Definition poll_readable (_ : option Z) (t : MockTerminal) : MockTerminal * Run bool :=
  (t, ret (negb (bool_decide (pending t = [])))).
Definition read_chunk (cap : Z) (t : MockTerminal) : MockTerminal * Run (list Z) :=
  let '(mkMockTerminal i o e sz r n ec p) := t in
  let k := Z.to_nat (Z.min (zlen p) cap) in
  (mkMockTerminal i o e sz r n ec (drop k p), ret (take k p)).
Definition set_echo (on : bool) (t : MockTerminal) : MockTerminal * Run bool :=
  let '(mkMockTerminal i o e sz r n ec p) := t in
  if negb i then (t, fail (not_a_tty "set_echo"))
  else (mkMockTerminal i o e sz r n on p, ret ec).

#[export] Instance mock_terminal : Terminal MockTerminal := {|
  is_tty_ := is_tty;
  window_size_ := window_size;
  enter_raw_ := enter_raw;
  leave_raw_ := leave_raw;
  is_raw_ := raw;
  poll_readable_ := poll_readable;
  read_chunk_ := read_chunk;
  set_echo_ := set_echo;
|}.

(** ** The consumers *)

Section consumers.
Context {S : Type} {T : Terminal S}.

Definition report_stream (name : string) (stream : TermStream) (s : S) : str :=
  lit name ++ lit ": " ++ (if is_tty_ stream s then lit "tty" else lit "not a tty") ++ [10].

Definition report (s : S) : str :=
  report_stream "stdin" Stdin s ++ report_stream "stdout" Stdout s ++ report_stream "stderr" Stderr s
  ++ match window_size_ s with
     | Ok (mkWinSize r c) => lit "size: " ++ dec r ++ lit " rows x " ++ dec c ++ lit " cols"
     | Err _ => lit "size: unavailable (no terminal attached)"
     end ++ [10].

(** A body that panics unwinds past the restore. *)
Definition with_raw {A} (body : S -> S * Run A) : S -> S * Run A :=
  st! _ := enter_raw_ in
  fun s =>
    match body s with
    | (s, Done out) =>
      match leave_raw_ s with
      | (s, Done restored) => (s, Done (let? val := out in let? _ := restored in Ok val))
      | (s, Panic) => (s, Panic)
      | (s, OutOfFuel) => (s, OutOfFuel)
      end
    | (s, Panic) => (s, Panic)
    | (s, OutOfFuel) => (s, OutOfFuel)
    end.

(** [rterm --raw-probe]: poll, then read one chunk of up to 64 bytes. *)
Definition raw_probe : S -> S * Run (list Z) :=
  with_raw
    (st! readable := poll_readable_ None in
     if negb readable then st_lift (fail (error_new Other NoCode "poll_readable"))
     else read_chunk_ 64).

(** [{bytes:02x?}]. *)
Definition debug_bytes (bs : list Z) : str :=
  lit "[" ++ concat (match bs with
                     | [] => []
                     | b :: bs => hex2 b :: map (fun b => lit ", " ++ hex2 b) bs
                     end) ++ lit "]".

(** [rterm --echo-probe]: the echo state after the probe, and whether it
    ran; [read_line] is the time in between. *)
Definition echo_probe (read_line : S -> S) : S -> S * Run unit :=
  st! prev := set_echo_ false in
  fun s => let (s, _) := set_echo_ prev (read_line s) in (s, ret tt).

(** [rterm]: what it prints to the standard output and the exit code. *)
Definition rterm (do_raw do_echo : bool) (read_line : S -> S) (line_len : Z) (s : S)
    : S * Run (str * Z) :=
  let out := report s in
  let echo out s :=
    if do_echo then
      match echo_probe read_line s with
      | (s, Done (Ok _)) =>
        (s, ret (out ++ lit "echo probe: read " ++ dec line_len ++ lit " byte(s), echo restored" ++ [10], 0))
      | (s, Done (Err _)) => (s, ret (out, 1))
      | (s, Panic) => (s, Panic)
      | (s, OutOfFuel) => (s, OutOfFuel)
      end
    else (s, ret (out, 0)) in
  if do_raw then
    match raw_probe s with
    | (s, Done (Ok bytes)) =>
      echo (out ++ lit "raw probe: read " ++ dec (zlen bytes) ++ lit " byte(s): "
            ++ debug_bytes bytes ++ [10]) s
    | (s, Done (Err _)) => (s, ret (out, 1))
    | (s, Panic) => (s, Panic)
    | (s, OutOfFuel) => (s, OutOfFuel)
    end
  else echo out s.
End consumers.

Example report_ex : report (interactive 24 80) =
  lit "stdin: tty" ++ [10] ++ lit "stdout: tty" ++ [10] ++ lit "stderr: tty" ++ [10]
  ++ lit "size: 24 rows x 80 cols" ++ [10].
Proof. vm_compute. reflexivity. Qed.

Example rterm_ex : snd (rterm true true (fun t => t) 3 (push_input (lit "X") (interactive 24 80))) =
  ret (report (interactive 24 80) ++ lit "raw probe: read 1 byte(s): [58]" ++ [10]
       ++ lit "echo probe: read 3 byte(s), echo restored" ++ [10], 0).
Proof. vm_compute. reflexivity. Qed.

(** ** Raw mode is given back *)

(** What the restore relies on: leaving raw mode leaves it, entering it is
    refused or enters it. *)
Class TerminalLaws (S : Type) (T : Terminal S) := {
  leaves s : exists s' r, leave_raw_ s = (s', Done r) /\ (is_ok r = true -> is_raw_ s' = false);
  enters s s' : enter_raw_ s = (s', ret tt) -> is_raw_ s' = true;
  refuses s s' e : enter_raw_ s = (s', fail e) -> is_raw_ s' = is_raw_ s;
}.

#[export] Instance mock_terminal_laws : TerminalLaws MockTerminal mock_terminal.
Proof.
  split.
  - intros t. eexists _, _. split; [reflexivity|]. intros _. by destruct t.
  - intros [i o e sz r n ec p] s'. cbn. destruct i, r; try done; [by intros [= <-]|].
    destruct (n + 1 <? _); by intros [= <-].
  - intros [i o e sz r n ec p] s' er. cbn. destruct i, r; try done; try (by intros [= <-]).
    destruct (n + 1 <? _); done.
Qed.

Lemma with_raw_cases {S} {T : Terminal S} {L : TerminalLaws S T} {A} (body : S -> S * Run A) s :
  match enter_raw_ s with
  | (s1, ret _) =>
    is_raw_ s1 = true /\
    match body s1 with
    | (s2, Done out) => exists s3 restored, leave_raw_ s2 = (s3, Done restored) /\
        (is_ok restored = true -> is_raw_ s3 = false) /\
        with_raw body s = (s3, Done (match out, restored with
                                     | Err e, _ => Err e
                                     | Ok _, Err e => Err e
                                     | Ok v, Ok _ => Ok v
                                     end))
    | (s2, Panic) => with_raw body s = (s2, Panic)
    | (s2, OutOfFuel) => with_raw body s = (s2, OutOfFuel)
    end
  | (s1, fail e) => with_raw body s = (s1, fail e) /\ is_raw_ s1 = is_raw_ s
  | (s1, Panic) => with_raw body s = (s1, Panic)
  | (s1, OutOfFuel) => with_raw body s = (s1, OutOfFuel)
  end.
Proof.
  unfold with_raw, st_bind. destruct (enter_raw_ s) as [s1 [[[]|e]| |]] eqn:E; try done.
  - split; [by apply (enters s)|]. destruct (body s1) as [s2 [out| |]]; try done.
    destruct (leaves s2) as (s3 & r & -> & Hr). exists s3, r. split; [done|]. split; [done|].
    by destruct out, r.
  - split; [done|]. by apply (refuses s _ e).
Qed.

(** [with_raw] runs its body in raw mode and, when the body returns a
    value or an error, the terminal is out of raw mode afterwards (unless the
    restore itself reports a failure); the body's error wins over the
    restore's; and without a terminal the body does not run. *)
Theorem with_raw_restores {S} {T : Terminal S} {L : TerminalLaws S T} {A} (body : S -> S * Run A) s :
  match enter_raw_ s with
  | (s1, ret _) =>
    is_raw_ s1 = true /\
    match body s1 with
    | (s2, Done out) => exists s3 restored, leave_raw_ s2 = (s3, Done restored) /\
        (is_ok restored = true -> is_raw_ s3 = false) /\
        with_raw body s = (s3, Done (match out, restored with
                                     | Err e, _ => Err e
                                     | Ok _, Err e => Err e
                                     | Ok v, Ok _ => Ok v
                                     end))
    | (s2, Panic) => with_raw body s = (s2, Panic)
    | (s2, OutOfFuel) => with_raw body s = (s2, OutOfFuel)
    end
  | (s1, fail e) => with_raw body s = (s1, fail e) /\ is_raw_ s1 = is_raw_ s
  | (s1, Panic) => with_raw body s = (s1, Panic)
  | (s1, OutOfFuel) => with_raw body s = (s1, OutOfFuel)
  end.
Proof. apply with_raw_cases. Qed.

(** Over the scripted terminal: any body, any error, the terminal comes back
    out of raw mode. *)
Lemma mock_with_raw_leaves {A} (body : MockTerminal -> MockTerminal * Run A) t t' r :
  with_raw body t = (t', Done r) -> stdin_tty t = true -> raw t' = false.
Proof.
  intros H Ht. pose proof (with_raw_cases body t) as W. revert W.
  destruct t as [i o e sz rw n ec p]. cbn in Ht. subst i. cbn [enter_raw_ mock_terminal enter_raw negb].
  destruct rw; [|destruct (n + 1 <? 2 ^ 32)]; try (intros W; rewrite H in W; discriminate W);
    intros [_ W]; destruct (body _) as [s2 [out| |]]; try (rewrite H in W; discriminate W);
    destruct W as (s3 & rs & Hl & Hr & Hw); rewrite H in Hw; injection Hw as -> _;
    apply Hr; cbn in Hl; injection Hl as _ <-; done.
Qed.

Lemma with_raw_restores_witness :
  match enter_raw_ (interactive 24 80) with
  | (s1, ret _) =>
    is_raw_ s1 = true /\
    match read_chunk_ 1 s1 with
    | (s2, Done out) => exists s3 restored, leave_raw_ s2 = (s3, Done restored) /\
        (is_ok restored = true -> is_raw_ s3 = false) /\
        with_raw (read_chunk_ 1) (interactive 24 80)
        = (s3, Done (match out, restored with
                     | Err e, _ => Err e
                     | Ok _, Err e => Err e
                     | Ok v, Ok _ => Ok v
                     end))
    | (s2, Panic) => with_raw (read_chunk_ 1) (interactive 24 80) = (s2, Panic)
    | (s2, OutOfFuel) => with_raw (read_chunk_ 1) (interactive 24 80) = (s2, OutOfFuel)
    end
  | (s1, fail e) => with_raw (read_chunk_ 1) (interactive 24 80) = (s1, fail e) /\
      is_raw_ s1 = is_raw_ (interactive 24 80)
  | (s1, Panic) => with_raw (read_chunk_ 1) (interactive 24 80) = (s1, Panic)
  | (s1, OutOfFuel) => with_raw (read_chunk_ 1) (interactive 24 80) = (s1, OutOfFuel)
  end.
Proof. apply (with_raw_restores (read_chunk_ 1) (interactive 24 80)). Defined.
