(* ===== verification/MockDevices.v ===== *)
(** * The small mocks ([crates/platform-mock/src])

    [tun.rs], [pty.rs], [signals.rs] and [security.rs]: scripted packet and
    byte queues, the single-slot signal source, the deterministic random
    stream, the credential store and the trust-anchor store. *)

From Stdlib Require Import ZArith Lia String.
From S2P Require Import Prelude Error Process Terminal.
From stdpp Require Import base numbers list strings gmap.
Open Scope Z_scope.

(** ** Scripted queues: the tunnel device and the pty master *)

Record MockTunDevice := mkMockTunDevice {
  tun_name : str;
  tun_ipv4 : Z;
  prefix_len : Z;
  mtu : Z;
  tun_inbound : list (list Z);
  tun_written : list (list Z);
}.

Definition tun_create (name : str) (ipv4 prefix_len mtu : Z) : MockTunDevice :=
  mkMockTunDevice name ipv4 prefix_len mtu [] [].
Definition tun_queue_inbound (packet : list Z) (d : MockTunDevice) : MockTunDevice :=
  mkMockTunDevice (tun_name d) (tun_ipv4 d) (prefix_len d) (mtu d) (tun_inbound d ++ [packet])
    (tun_written d).
Definition tun_read (cap : Z) (d : MockTunDevice) : MockTunDevice * Run (list Z) :=
  match tun_inbound d with
  | packet :: rest =>
    (mkMockTunDevice (tun_name d) (tun_ipv4 d) (prefix_len d) (mtu d) rest (tun_written d),
     ret (take (Z.to_nat cap) packet))
  | [] => (d, ret [])
  end.
Definition tun_write (buf : list Z) (d : MockTunDevice) : MockTunDevice * Run Z :=
  (mkMockTunDevice (tun_name d) (tun_ipv4 d) (prefix_len d) (mtu d) (tun_inbound d)
     (tun_written d ++ [buf]), ret (zlen buf)).

Record MockPtyMaster := mkMockPtyMaster {
  pty_inbound : list (list Z);
  pty_written : list (list Z);
  pty_size : WinSize;
}.

Definition pty_new (size : WinSize) : MockPtyMaster := mkMockPtyMaster [] [] size.
(** The child is the trivial one: its waits answer [Code 0]. *)
Definition pty_spawn (cmd : Command) (size : WinSize) : Run (MockPtyMaster * ExitStatus) :=
  match c_group cmd with
  | JoinGroup _ => fail (error_new InvalidInput NoCode
      "Pty::spawn: GroupSpec::JoinGroup is incompatible with a fresh pty session")
  | _ => ret (pty_new size, Code 0)
  end.
Definition pty_queue_inbound (bytes : list Z) (m : MockPtyMaster) : MockPtyMaster :=
  mkMockPtyMaster (pty_inbound m ++ [bytes]) (pty_written m) (pty_size m).
Definition pty_read (cap : Z) (m : MockPtyMaster) : MockPtyMaster * Run (list Z) :=
  match pty_inbound m with
  | bytes :: rest =>
    (mkMockPtyMaster rest (pty_written m) (pty_size m), ret (take (Z.to_nat cap) bytes))
  | [] => (m, ret [])
  end.
Definition pty_write (buf : list Z) (m : MockPtyMaster) : MockPtyMaster * Run Z :=
  (mkMockPtyMaster (pty_inbound m) (pty_written m ++ [buf]) (pty_size m), ret (zlen buf)).
Definition pty_resize (size : WinSize) (m : MockPtyMaster) : MockPtyMaster * Run unit :=
  (mkMockPtyMaster (pty_inbound m) (pty_written m) size, ret tt).

(** A queued chunk longer than the buffer loses its tail. *)
Lemma pty_read_truncates cap bytes m : 0 <= cap < zlen bytes -> pty_inbound m = [bytes] ->
  let (m', r) := pty_read cap m in
  exists got, r = ret got /\ zlen got = cap /\ snd (pty_read cap m') = ret [].
Proof.
  intros Hc Hm. unfold pty_read. rewrite Hm. eexists. split; [reflexivity|].
  split; [rewrite length_take; lia|done].
Qed.

(** ** Signals *)

Definition code_of (e : SignalEvent) : Z :=
  match e with Interrupt => 1 | Terminate => 2 | Hangup => 3 end.
Definition event_of (code : Z) : option SignalEvent :=
  if code =? 1 then Some Interrupt else if code =? 2 then Some Terminate
  else if code =? 3 then Some Hangup else None.
(** The slot of a [MockSignalSource]. *)
Definition raise (e : SignalEvent) (slot : Z) : Z := code_of e.
Definition take_signal (slot : Z) : Z * option SignalEvent := (0, event_of slot).

Lemma event_code e : event_of (code_of e) = Some e.
Proof. by destruct e. Qed.

(** a burst of events coalesces to its last one, which [take] consumes:
    the next [take] finds nothing. *)
Theorem signals_coalesce events slot :
  let '(slot1, e1) := take_signal (foldl (fun s e => raise e s) slot events) in
  e1 = match last events with Some e => Some e | None => event_of slot end /\
  snd (take_signal slot1) = None.
Proof.
  unfold take_signal. split; [|done]. revert slot.
  induction events as [|e events IH]; intros slot; [done|]. cbn [foldl]. rewrite IH.
  unfold raise. destruct events as [|e' events]; [apply event_code|].
  rewrite last_cons_cons. destruct (last (e' :: events)) eqn:E; [done|].
  by apply last_None in E.
Qed.

(** ** The random stream *)

Definition csprng_seed : Z := 11400714819323198485.  (* 0x9E37_79B9_7F4A_7C15 *)

Definition xorshift (x : Z) : Z :=
  let x := Z.lxor x (wrap 64 (Z.shiftl x 13)) in
  let x := Z.lxor x (Z.shiftr x 7) in
  Z.lxor x (wrap 64 (Z.shiftl x 17)).

(** [next_u64]: the new state and the number. *)
Definition next_u64 (state : Z) : Z * Z :=
  let x := xorshift state in (x, wrap 64 (x * 2685821657736338717)).  (* 0x2545_F491_4F6C_DD1D *)

(** [fill_random] over [chunks_mut(8)]; [fuel] bounds the chunks. *)
Fixpoint fill_random (fuel : nat) (len : nat) (state : Z) : Z * list Z :=
  match fuel, len with
  | S fuel, S _ =>
    let (state, n) := next_u64 state in
    let (state, rest) := fill_random fuel (len - 8) state in
    (state, take len (le_bytes 8 n) ++ rest)
  | _, _ => (state, [])
  end.

Lemma testbit_above x w n : in_u w x -> 0 <= w <= n -> Z.testbit x n = false.
Proof.
  intros [H0 H] Hn. rewrite <- (Z.mod_small x (2 ^ w)) by done. by rewrite Z.mod_pow2_bits_high.
Qed.

Lemma xor_shl_nonzero x k : 0 < k -> in_u 64 x -> x <> 0 ->
  Z.lxor x (wrap 64 (Z.shiftl x k)) <> 0.
Proof.
  intros Hk Hx Hne E. apply Z.lxor_eq in E. apply Hne. apply Z.bits_inj'. intros n Hn.
  rewrite Z.bits_0. revert n Hn.
  assert (forall (m : nat) n, 0 <= n < Z.of_nat m -> Z.testbit x n = false) as H.
  { induction m as [|m IH]; intros n Hn; [lia|]. destruct (Z.le_gt_cases 64 n) as [Hl|Hl].
    { apply (testbit_above x 64); [done|lia]. }
    rewrite E. unfold wrap. rewrite Z.mod_pow2_bits_low by lia.
    destruct (Z.lt_ge_cases n k); [by rewrite Z.shiftl_spec_low by lia|].
    rewrite Z.shiftl_spec by lia. apply IH. lia. }
  intros n Hn. apply (H (S (Z.to_nat n))). lia.
Qed.

Lemma xor_shr_nonzero x k : 0 < k -> in_u 64 x -> x <> 0 -> Z.lxor x (Z.shiftr x k) <> 0.
Proof.
  intros Hk Hx Hne E. apply Z.lxor_eq in E.
  assert (Z.log2 x = Z.log2 x - k \/ Z.shiftr x k = 0) as [H|H]; [|lia|congruence].
  destruct (Z.eq_dec (Z.shiftr x k) 0) as [H|H]; [by right|left].
  assert (0 <= x) by (unfold in_u in Hx; lia). rewrite E at 1. rewrite Z.log2_shiftr by lia.
  destruct (Z.le_gt_cases k (Z.log2 x)); [lia|]. exfalso. apply H.
  apply Z.shiftr_eq_0; lia.
Qed.

Lemma lxor_in_u w a b : 0 <= w -> in_u w a -> in_u w b -> in_u w (Z.lxor a b).
Proof.
  intros Hw Ha Hb. assert (0 <= Z.lxor a b) by (apply Z.lxor_nonneg; unfold in_u in *; lia).
  split; [done|]. destruct (Z.eq_dec (Z.lxor a b) 0) as [->|]; [apply Z.pow_pos_nonneg; lia|].
  destruct (Z.lt_ge_cases (Z.lxor a b) (2 ^ w)) as [|Hge]; [done|]. exfalso.
  apply Z.log2_le_pow2 in Hge; [|lia].
  pose proof (Z.bit_log2 (Z.lxor a b) ltac:(lia)) as Hbit. rewrite Z.lxor_spec in Hbit.
  rewrite (testbit_above a w), (testbit_above b w) in Hbit by (done || lia). done.
Qed.

Lemma xorshift_ok x : in_u 64 x -> x <> 0 -> in_u 64 (xorshift x) /\ xorshift x <> 0.
Proof.
  intros Hx Hne. unfold xorshift.
  set (y := Z.lxor x (wrap 64 (Z.shiftl x 13))).
  assert (in_u 64 y /\ y <> 0) as [Hy Hy0].
  { split; [apply lxor_in_u; [lia|done|apply wrap_in_u; lia]|by apply xor_shl_nonzero]. }
  set (z := Z.lxor y (Z.shiftr y 7)).
  assert (in_u 64 z /\ z <> 0) as [Hz Hz0].
  { split; [|by apply xor_shr_nonzero]. apply lxor_in_u; [lia|done|]. unfold in_u in *.
    rewrite Z.shiftr_div_pow2 by lia. split; [apply Z.div_pos; lia|].
    apply Z.div_lt_upper_bound; lia. }
  split; [apply lxor_in_u; [lia|done|apply wrap_in_u; lia]|by apply xor_shl_nonzero].
Qed.

(** [fill_random] fills the whole buffer with bytes, whatever its length,
    and its generator is never stuck at zero: a nonzero state stays nonzero
    and in range. *)
Theorem fill_random_fills len : forall fuel state, in_u 64 state -> state <> 0 ->
  (len <= 8 * fuel)%nat ->
  let (state', bytes) := fill_random fuel len state in
  length bytes = len /\ Forall byte_ok bytes /\ in_u 64 state' /\ state' <> 0.
Proof.
  induction len as [len IH] using (well_founded_induction lt_wf). intros fuel state Hs Hne Hf.
  destruct fuel as [|fuel]; [replace len with 0%nat by lia; split; [done|]; split; [constructor|done]|].
  destruct len as [|len]; [split; [done|]; split; [constructor|done]|]. cbn [fill_random]. unfold next_u64.
  destruct (xorshift_ok state Hs Hne) as [Hx Hx0].
  pose proof (IH (S len - 8)%nat ltac:(lia) fuel _ Hx Hx0 ltac:(lia)) as H.
  destruct (fill_random fuel (S len - 8) (xorshift state)) as [state' rest].
  destruct H as (Hl & Hb & Hs' & Hs0). split; [|split; [|done]].
  - rewrite length_app, length_take, length_le_bytes, Hl. lia.
  - apply Forall_app. split; [|done]. apply Forall_take, le_bytes_ok.
Qed.

Lemma fill_random_fills_witness :
  let (state', bytes) := fill_random 2 11 csprng_seed in
  length bytes = 11%nat /\ Forall byte_ok bytes /\ in_u 64 state' /\ state' <> 0.
Proof.
  apply (fill_random_fills 11 2 csprng_seed); [unfold in_u, csprng_seed; lia|done|lia].
Defined.

(** ** Stores *)

Inductive SandboxStatus := Enforced | NotEnforced | Unsupported_.
Definition confine_filesystem (readable writable : list OsString) : Run SandboxStatus := ret Unsupported_.
Definition block_inet_sockets : Run SandboxStatus := ret Unsupported_.

Abbreviation CredentialMap := (gmap (list Z * list Z) (list Z)).
Definition cred_get (service account : str) (s : CredentialMap) : Run (option (list Z)) :=
  ret (s !! (service, account)).
Definition cred_set (service account : str) (secret : list Z) (s : CredentialMap)
    : CredentialMap * Run unit := (<[(service, account) := secret]> s, ret tt).

Definition default_anchors : list (list Z) := [[48; 130; 1; 10]].
Definition mock_load_anchors (anchors : list (list Z)) : Run (list (list Z)) :=
  match anchors with
  | [] => fail (error_new NotFound NoCode "mock trust store is empty")
  | _ => ret anchors
  end.

(** The store is a map: the last secret set under a pair is the one read. *)
Lemma cred_set_get sv ac sv' ac' secret s :
  cred_get sv' ac' (fst (cred_set sv ac secret s))
  = if bool_decide ((sv', ac') = (sv, ac)) then ret (Some secret) else cred_get sv' ac' s.
Proof.
  unfold cred_get, cred_set. simpl. case_bool_decide as E.
  - by rewrite E, lookup_insert_eq.
  - by rewrite lookup_insert_ne.
Qed.
