(* ===== verification/MockNet.v ===== *)
(** * The in-memory network ([crates/platform-mock/src/net.rs])

    TCP, Unix-domain and UDP sockets over in-process channels.  A channel of
    bytes has one sender and one receiver, each dropped with the stream that
    owns it; a listener's channel lives while the listener does, and the
    process-global registries map bound addresses to channels.  An operation
    is one step; [Blocked] is a [recv] that waits for another party. *)

From Stdlib Require Import ZArith Lia String.
From S2P Require Import Prelude Error.
From stdpp Require Import base numbers list strings gmap.
Open Scope Z_scope.

(** [SocketAddr]: the octets of the IP address, and the port. *)
Abbreviation SocketAddr := (list Z * Z)%type.
Definition LOCALHOST : list Z := [127; 0; 0; 1].

Record Chan := mkChan { queue : list (list Z); tx_alive : bool; rx_alive : bool }.

(** One end of a stream; [A] is the address type. *)
Record End (A : Type) := mkEnd {
  tx : nat;
  rx : nat;
  local : A;
  peer : A;
  read_buf : list Z;
  read_pos : Z;
  read_timeout : option Z;
}.
Arguments mkEnd {A}.
Arguments tx {A}.
Arguments rx {A}.
Arguments local {A}.
Arguments peer {A}.
Arguments read_buf {A}.
Arguments read_pos {A}.
Arguments read_timeout {A}.

Abbreviation TcpEnd := (End SocketAddr).
Abbreviation UnixEnd := (End (option (list Z))).

Record Net := mkNet {
  chans : gmap nat Chan;
  tcp_registry : gmap (list Z * Z) nat;
  tcp_queues : gmap nat (list (TcpEnd * SocketAddr));
  unix_registry : gmap (list Z) nat;
  unix_queues : gmap nat (list (UnixEnd * option (list Z)));
  udp_registry : gmap (list Z * Z) nat;
  udp_queues : gmap nat (list (list Z * SocketAddr));
  next_port : Z;
  next_id : nat;
}.

Inductive Out (A : Type) := Ready (r : Result A) | Blocked.
Arguments Ready {A} r.
Arguments Blocked {A}.
Abbreviation good x := (Ready (Ok x)).
Abbreviation bad e := (Ready (Err e)).

Definition nerr (k : ErrorKind) (opn : string) : PlatformError := error_new k NoCode opn.

Definition empty_net : Net := mkNet ∅ ∅ ∅ ∅ ∅ ∅ ∅ 40000 0.

Definition set_chans (c : gmap nat Chan) (s : Net) : Net :=
  mkNet c (tcp_registry s) (tcp_queues s) (unix_registry s) (unix_queues s)
    (udp_registry s) (udp_queues s) (next_port s) (next_id s).
Definition set_tcp (r : gmap (list Z * Z) nat) (q : gmap nat (list (TcpEnd * SocketAddr))) (s : Net) : Net :=
  mkNet (chans s) r q (unix_registry s) (unix_queues s) (udp_registry s) (udp_queues s)
    (next_port s) (next_id s).
Definition set_unix (r : gmap (list Z) nat) (q : gmap nat (list (UnixEnd * option (list Z)))) (s : Net) : Net :=
  mkNet (chans s) (tcp_registry s) (tcp_queues s) r q (udp_registry s) (udp_queues s)
    (next_port s) (next_id s).
Definition set_udp (r : gmap (list Z * Z) nat) (q : gmap nat (list (list Z * SocketAddr))) (s : Net) : Net :=
  mkNet (chans s) (tcp_registry s) (tcp_queues s) (unix_registry s) (unix_queues s) r q
    (next_port s) (next_id s).

(** [NEXT.fetch_add(1)] on an [AtomicU16] wraps. *)
Definition next_ephemeral_port (s : Net) : Z * Net :=
  (next_port s,
   mkNet (chans s) (tcp_registry s) (tcp_queues s) (unix_registry s) (unix_queues s)
     (udp_registry s) (udp_queues s) (wrap 16 (next_port s + 1)) (next_id s)).

Definition fresh (s : Net) : nat * Net :=
  (next_id s,
   mkNet (chans s) (tcp_registry s) (tcp_queues s) (unix_registry s) (unix_queues s)
     (udp_registry s) (udp_queues s) (next_port s) (S (next_id s))).

(** [mpsc::channel] for bytes. *)
Definition channel (s : Net) : nat * Net :=
  let (c, s) := fresh s in (c, set_chans (<[c := mkChan [] true true]> (chans s)) s).

(** ** Streams *)

Section stream.
Context {A : Type}.

(** The chunk [recv] gives, [None] at the end of the stream. *)
Inductive Recv := Chunk (c : list Z) | Closed | Wait.

Definition recv (c : nat) (s : Net) : Net * Recv :=
  match chans s !! c with
  | Some (mkChan (chunk :: q) t r) => (set_chans (<[c := mkChan q t r]> (chans s)) s, Chunk chunk)
  | Some (mkChan [] true r) => (s, Wait)
  | Some (mkChan [] false r) => (s, Closed)
  | None => (s, Closed)
  end.

(** The copy out of the stream's buffer. *)
Definition serve (cap : Z) (e : End A) (buf : list Z) (pos : Z) : End A * list Z :=
  let n := Z.min cap (zlen buf - pos) in
  (mkEnd (tx e) (rx e) (local e) (peer e) buf (pos + n) (read_timeout e),
   take (Z.to_nat n) (drop (Z.to_nat pos) buf)).

Definition read (cap : Z) (e : End A) (s : Net) : End A * Net * Out (list Z) :=
  if zlen (read_buf e) <=? read_pos e then
    match recv (rx e) s with
    | (s, Chunk chunk) => let (e, bs) := serve cap e chunk 0 in (e, s, good bs)
    | (s, Closed) => (e, s, good [])
    | (s, Wait) =>
      match read_timeout e with
      | Some _ => (e, s, bad (nerr WouldBlock "read"))
      | None => (e, s, Blocked)
      end
    end
  else let (e, bs) := serve cap e (read_buf e) (read_pos e) in (e, s, good bs).

Definition write (buf : list Z) (e : End A) (s : Net) : Net * Out Z :=
  match chans s !! tx e with
  | Some (mkChan q t true) =>
    (set_chans (<[tx e := mkChan (q ++ [buf]) t true]> (chans s)) s, good (zlen buf))
  | _ => (s, bad (nerr BrokenPipe "write"))
  end.

Definition set_read_timeout (t : option Z) (e : End A) : End A :=
  mkEnd (tx e) (rx e) (local e) (peer e) (read_buf e) (read_pos e) t.

(** Dropping a stream drops its sender and its receiver. *)
Definition drop_end (e : End A) (s : Net) : Net :=
  let close f c s := match chans s !! c with
                     | Some ch => set_chans (<[c := f ch]> (chans s)) s
                     | None => s
                     end in
  close (fun ch => mkChan (queue ch) false (rx_alive ch)) (tx e)
    (close (fun ch => mkChan [] (tx_alive ch) false) (rx e) s).

(** The two ends of a connection, server first. *)
Definition connect_pair (server_local server_peer client_local client_peer : A) (s : Net)
    : End A * End A * Net :=
  let (c2s, s) := channel s in
  let (s2c, s) := channel s in
  (mkEnd s2c c2s server_local server_peer [] 0 None,
   mkEnd c2s s2c client_local client_peer [] 0 None, s).
End stream.

(** ** TCP *)

Record TcpListener := mkTcpListener { l_addr : SocketAddr; l_queue : nat }.

(** The tail of [tcp_connect], with the listener's sender in hand: the
    listener may have been dropped since it was looked up. *)
Definition tcp_connect_to (q : nat) (addr : SocketAddr) (s : Net) : Net * Out TcpEnd :=
  let (port, s) := next_ephemeral_port s in
  let client_addr := (LOCALHOST, port) in
  match tcp_queues s !! q with
  | None => (s, bad (nerr ConnectionRefused "connect"))
  | Some waiting =>
    let '(server_end, client_end, s) := connect_pair addr client_addr client_addr addr s in
    (set_tcp (tcp_registry s) (<[q := waiting ++ [(server_end, client_addr)]]> (tcp_queues s)) s,
     good client_end)
  end.

Definition tcp_connect (addr : SocketAddr) (s : Net) : Net * Out TcpEnd :=
  match tcp_registry s !! addr with
  | None => (s, bad (nerr ConnectionRefused "connect"))
  | Some q => tcp_connect_to q addr s
  end.

Definition bind_addr (addr : SocketAddr) (s : Net) : SocketAddr * Net :=
  if snd addr =? 0 then let (port, s) := next_ephemeral_port s in ((fst addr, port), s) else (addr, s).

Definition tcp_listen (addr : SocketAddr) (s : Net) : Net * Out TcpListener :=
  let (addr, s) := bind_addr addr s in
  match tcp_registry s !! addr with
  | Some _ => (s, bad (nerr AddrInUse "listen"))
  | None =>
    let (q, s) := fresh s in
    (set_tcp (<[addr := q]> (tcp_registry s)) (<[q := []]> (tcp_queues s)) s,
     good (mkTcpListener addr q))
  end.

Definition tcp_accept (l : TcpListener) (s : Net) : Net * Out (TcpEnd * SocketAddr) :=
  match tcp_queues s !! l_queue l with
  | Some (p :: waiting) =>
    (set_tcp (tcp_registry s) (<[l_queue l := waiting]> (tcp_queues s)) s, good p)
  | _ => if bool_decide (tcp_registry s !! l_addr l = Some (l_queue l)) then (s, Blocked)
         else (s, bad (nerr Other "accept"))
  end.

(** [Drop]: the address is free again, and the connections nobody accepted
    are closed. *)
Definition drop_tcp_listener (l : TcpListener) (s : Net) : Net :=
  let waiting := default [] (tcp_queues s !! l_queue l) in
  let s := set_tcp (delete (l_addr l) (tcp_registry s)) (delete (l_queue l) (tcp_queues s)) s in
  foldr (fun p s => drop_end (fst p) s) s waiting.

(** ** Unix-domain sockets *)

Record UnixListener := mkUnixListener { u_path : list Z; u_queue : nat }.

Definition unix_connect_to (q : nat) (path : list Z) (s : Net) : Net * Out UnixEnd :=
  match unix_queues s !! q with
  | None => (s, bad (nerr ConnectionRefused "connect"))
  | Some waiting =>
    let '(server_end, client_end, s) := connect_pair (Some path) None None (Some path) s in
    (set_unix (unix_registry s) (<[q := waiting ++ [(server_end, None)]]> (unix_queues s)) s,
     good client_end)
  end.

Definition unix_connect (path : list Z) (s : Net) : Net * Out UnixEnd :=
  match unix_registry s !! path with
  | None => (s, bad (nerr ConnectionRefused "connect"))
  | Some q => unix_connect_to q path s
  end.

Definition unix_listen (path : list Z) (s : Net) : Net * Out UnixListener :=
  match unix_registry s !! path with
  | Some _ => (s, bad (nerr AddrInUse "listen"))
  | None =>
    let (q, s) := fresh s in
    (set_unix (<[path := q]> (unix_registry s)) (<[q := []]> (unix_queues s)) s,
     good (mkUnixListener path q))
  end.

Definition unix_accept (l : UnixListener) (s : Net) : Net * Out (UnixEnd * option (list Z)) :=
  match unix_queues s !! u_queue l with
  | Some (p :: waiting) =>
    (set_unix (unix_registry s) (<[u_queue l := waiting]> (unix_queues s)) s, good p)
  | _ => if bool_decide (unix_registry s !! u_path l = Some (u_queue l)) then (s, Blocked)
         else (s, bad (nerr Other "accept"))
  end.

Definition drop_unix_listener (l : UnixListener) (s : Net) : Net :=
  let waiting := default [] (unix_queues s !! u_queue l) in
  let s := set_unix (delete (u_path l) (unix_registry s)) (delete (u_queue l) (unix_queues s)) s in
  foldr (fun p s => drop_end (fst p) s) s waiting.

(** ** UDP *)

Record UdpSocket := mkUdpSocket { d_local : SocketAddr; d_queue : nat }.

Definition udp_bind (addr : SocketAddr) (s : Net) : Net * Out UdpSocket :=
  let (addr, s) := bind_addr addr s in
  match udp_registry s !! addr with
  | Some _ => (s, bad (nerr AddrInUse "udp_bind"))
  | None =>
    let (q, s) := fresh s in
    (set_udp (<[addr := q]> (udp_registry s)) (<[q := []]> (udp_queues s)) s,
     good (mkUdpSocket addr q))
  end.

Definition udp_send_to (buf : list Z) (addr : SocketAddr) (u : UdpSocket) (s : Net) : Net * Out Z :=
  match udp_registry s !! addr with
  | Some q =>
    match udp_queues s !! q with
    | Some waiting =>
      (set_udp (udp_registry s) (<[q := waiting ++ [(buf, d_local u)]]> (udp_queues s)) s,
       good (zlen buf))
    | None => (s, good (zlen buf))
    end
  | None => (s, good (zlen buf))
  end.

Definition udp_recv_from (cap : Z) (u : UdpSocket) (s : Net) : Net * Out (list Z * SocketAddr) :=
  match udp_queues s !! d_queue u with
  | Some ((data, from) :: waiting) =>
    (set_udp (udp_registry s) (<[d_queue u := waiting]> (udp_queues s)) s,
     good (take (Z.to_nat cap) data, from))
  | _ => if bool_decide (udp_registry s !! d_local u = Some (d_queue u)) then (s, Blocked)
         else (s, bad (nerr Other "recv_from"))
  end.

Definition drop_udp (u : UdpSocket) (s : Net) : Net :=
  set_udp (delete (d_local u) (udp_registry s)) (delete (d_queue u) (udp_queues s)) s.

(** The source's echo test, evaluated. *)
Example echo_ex :
  let '(s, l) := tcp_listen (LOCALHOST, 0) empty_net in
  match l with
  | good l =>
    let '(s, c) := tcp_connect (l_addr l) s in
    match c with
    | good client =>
      let '(s, a) := tcp_accept l s in
      match a with
      | good (server, _) =>
        let '(s, _) := write (lit "ping") client s in
        let '(server, s, got) := read 16 server s in
        (got, peer client) = (good (lit "ping"), l_addr l)
      | _ => False
      end
    | _ => False
    end
  | _ => False
  end.
Proof. vm_compute. reflexivity. Qed.

(** ** Streams carry their bytes in order *)

Section stream_proofs.
Context {A : Type}.
Implicit Types (e cl sv : End A) (s : Net).

(** What an end has still to read. *)
Definition unread (e : End A) (s : Net) : list Z :=
  drop (Z.to_nat (read_pos e)) (read_buf e)
  ++ match chans s !! rx e with Some ch => concat (queue ch) | None => [] end.

(** Two live ends of one connection. *)
Record linked (cl sv : End A) (s : Net) : Prop := {
  link_cs : rx sv = tx cl;
  link_sc : rx cl = tx sv;
  link_ne : tx cl <> tx sv;
  open_cs : exists q, chans s !! tx cl = Some (mkChan q true true);
  open_sc : exists q, chans s !! tx sv = Some (mkChan q true true);
  pos_cl : 0 <= read_pos cl;
  pos_sv : 0 <= read_pos sv;
}.

Lemma linked_sym cl sv s : linked cl sv s -> linked sv cl s.
Proof. intros []. by split. Qed.

Lemma serve_spec cap e buf pos : 0 <= cap -> 0 <= pos ->
  let (e', bs) := serve cap e buf pos in
  bs ++ drop (Z.to_nat (read_pos e')) (read_buf e') = drop (Z.to_nat pos) buf /\
  tx e' = tx e /\ rx e' = rx e /\ 0 <= read_pos e'.
Proof.
  intros Hc Hp. unfold serve. cbn [read_pos read_buf tx rx].
  set (n := Z.min cap (zlen buf - pos)).
  destruct (Z.le_gt_cases 0 n) as [Hn|Hn].
  - split; [|split; [done|split; [done|lia]]].
    rewrite Z2Nat.inj_add, <- drop_drop by lia. apply take_drop.
  - assert (zlen buf < pos) by (unfold n in Hn; lia).
    rewrite (drop_ge buf (Z.to_nat pos)) by lia. rewrite take_nil.
    split; [|split; [done|split; [done|unfold n; lia]]]. cbn [app]. apply drop_ge. unfold n. lia.
Qed.

(** A read takes a prefix of what was unread and touches nothing of the other
    direction; an outcome that is not bytes changes nothing. *)
Lemma stream_read_spec cap e cl sv s : linked cl sv s -> e = sv -> 0 <= cap ->
  let '(e', s', r) := read cap e s in
  let got := match r with good bs => bs | _ => [] end in
  linked cl e' s' /\ unread e s = got ++ unread e' s' /\ unread cl s' = unread cl s.
Proof.
  intros Hl -> Hc. destruct Hl as [H1 H2 H3 [q1 Hq1] [q2 Hq2] Hp1 Hp2].
  unfold read. destruct (zlen (read_buf sv) <=? read_pos sv) eqn:E; bool_to_prop.
  - unfold recv. rewrite H1, Hq1. destruct q1 as [|chunk q1].
    + cbn [negb]. assert (linked cl sv s) by (split; eauto).
      destruct (read_timeout sv); (split; [done|split; done]).
    + pose proof (serve_spec cap sv chunk 0 Hc ltac:(lia)) as Hs.
      destruct (serve cap sv chunk 0) as [e' bs]. destruct Hs as (Hs & Ht & Hr & Hp).
      cbn in Hs. split; [|split].
      * split; cbn [chans set_chans]; [by rewrite Hr|by rewrite Ht|by rewrite Ht| | |done|done].
        -- eexists. apply lookup_insert_eq.
        -- rewrite Ht. exists q2. by rewrite lookup_insert_ne.
      * unfold unread. cbn [chans set_chans]. rewrite Hr, H1, lookup_insert_eq, Hq1. cbn [queue concat].
        rewrite (drop_ge (read_buf sv)) by lia. cbn [app]. rewrite app_assoc. f_equal. symmetry. exact Hs.
      * unfold unread. cbn [chans set_chans]. by rewrite H2, lookup_insert_ne.
  - pose proof (serve_spec cap sv (read_buf sv) (read_pos sv) Hc Hp2) as Hs.
    destruct (serve cap sv _ _) as [e' bs]. destruct Hs as (Hs & Ht & Hr & Hp). split; [|split].
    + split; [by rewrite Hr|by rewrite Ht|by rewrite Ht|by eexists|rewrite Ht; by eexists|done|done].
    + unfold unread. rewrite Hr, app_assoc. by rewrite Hs.
    + done.
Qed.

(** A write on a live connection takes everything and queues it for the
    peer. *)
Lemma stream_write_spec buf cl sv s : linked cl sv s ->
  let '(s', r) := write buf cl s in
  r = good (zlen buf) /\ linked cl sv s' /\ unread sv s' = unread sv s ++ buf /\
  unread cl s' = unread cl s.
Proof.
  intros [H1 H2 H3 [q1 Hq1] [q2 Hq2] Hp1 Hp2]. unfold write. rewrite Hq1.
  split; [done|]. split; [|split].
  - split; try done; cbn [chans set_chans].
    + eexists. apply lookup_insert_eq.
    + exists q2. by rewrite lookup_insert_ne.
  - unfold unread. cbn [chans set_chans]. rewrite H1, lookup_insert_eq, Hq1. cbn [queue].
    rewrite concat_app. cbn [concat]. by rewrite app_nil_r, app_assoc.
  - unfold unread. cbn [chans set_chans]. by rewrite H2, lookup_insert_ne.
Qed.

(** A conversation: what each side reads, in order. *)
Inductive Act := CWrite (buf : list Z) | SWrite (buf : list Z) | CRead (cap : Z) | SRead (cap : Z).

Definition got {B} (r : Out (list B)) : list B := match r with good bs => bs | _ => [] end.

Fixpoint converse (acts : list Act) (cl sv : End A) (s : Net)
    : End A * End A * Net * (list Z * list Z) :=
  match acts with
  | [] => (cl, sv, s, ([], []))
  | CWrite buf :: acts => converse acts cl sv (fst (write buf cl s))
  | SWrite buf :: acts => converse acts cl sv (fst (write buf sv s))
  | CRead cap :: acts =>
    let '(cl, s, r) := read cap cl s in
    let '(st, (c, v)) := converse acts cl sv s in (st, (got r ++ c, v))
  | SRead cap :: acts =>
    let '(sv, s, r) := read cap sv s in
    let '(st, (c, v)) := converse acts cl sv s in (st, (c, got r ++ v))
  end.

Definition c_wrote (acts : list Act) : list Z :=
  concat (map (fun a => match a with CWrite b => b | _ => [] end) acts).
Definition s_wrote (acts : list Act) : list Z :=
  concat (map (fun a => match a with SWrite b => b | _ => [] end) acts).
Definition caps_ok (acts : list Act) : Prop :=
  Forall (fun a => match a with CRead c | SRead c => 0 <= c | _ => True end) acts.

Lemma converse_spec acts : forall cl sv s, linked cl sv s -> caps_ok acts ->
  let '(cl', sv', s', (c, v)) := converse acts cl sv s in
  linked cl' sv' s' /\ v ++ unread sv' s' = unread sv s ++ c_wrote acts /\
  c ++ unread cl' s' = unread cl s ++ s_wrote acts.
Proof.
  induction acts as [|a acts IH]; intros cl sv s Hl Hc.
  { cbn. by rewrite !app_nil_r. }
  pose proof (Forall_inv Hc) as Ha. apply Forall_inv_tail in Hc.
  destruct a as [buf|buf|cap|cap]; cbn [converse].
  - pose proof (stream_write_spec buf cl sv s Hl) as H. destruct (write buf cl s) as [s1 r].
    destruct H as (_ & Hl1 & Hv & Hcl). cbn [fst].
    pose proof (IH cl sv s1 Hl1 Hc) as H. destruct (converse acts cl sv s1) as [[[cl' sv'] s'] [c v]].
    destruct H as (? & Hv' & Hc'). split; [done|]. rewrite Hv', Hc', Hv, Hcl.
    unfold c_wrote, s_wrote. cbn [map concat app]. by rewrite <- app_assoc.
  - pose proof (stream_write_spec buf sv cl s (linked_sym _ _ _ Hl)) as H. destruct (write buf sv s) as [s1 r].
    destruct H as (_ & Hl1%linked_sym & Hv & Hcl). cbn [fst].
    pose proof (IH cl sv s1 Hl1 Hc) as H. destruct (converse acts cl sv s1) as [[[cl' sv'] s'] [c v]].
    destruct H as (? & Hv' & Hc'). split; [done|]. rewrite Hv', Hc', Hv, Hcl.
    unfold c_wrote, s_wrote. cbn [map concat app]. by rewrite <- app_assoc.
  - pose proof (stream_read_spec cap cl sv cl s (linked_sym _ _ _ Hl) eq_refl Ha) as H.
    destruct (read cap cl s) as [[cl1 s1] r]. destruct H as (Hl1%linked_sym & Hv & Hcl).
    pose proof (IH cl1 sv s1 Hl1 Hc) as H. destruct (converse acts cl1 sv s1) as [[[cl' sv'] s'] [c v]].
    destruct H as (? & Hv' & Hc'). split; [done|]. rewrite <- app_assoc, Hv', Hc', Hv, Hcl.
    unfold c_wrote, s_wrote. cbn [map concat app]. split; [done|]. by rewrite <- app_assoc.
  - pose proof (stream_read_spec cap sv cl sv s Hl eq_refl Ha) as H.
    destruct (read cap sv s) as [[sv1 s1] r]. destruct H as (Hl1 & Hv & Hcl).
    pose proof (IH cl sv1 s1 Hl1 Hc) as H. destruct (converse acts cl sv1 s1) as [[[cl' sv'] s'] [c v]].
    destruct H as (? & Hv' & Hc'). split; [done|]. rewrite <- app_assoc, Hv', Hc', Hv, Hcl.
    unfold c_wrote, s_wrote. cbn [map concat app]. split; [|done]. by rewrite <- app_assoc.
Qed.

Lemma connect_pair_linked a b c d s :
  let '(sv, cl, s') := connect_pair (A := A) a b c d s in
  linked cl sv s' /\ unread cl s' = [] /\ unread sv s' = [].
Proof.
  unfold connect_pair, channel, fresh. cbn.
  assert (next_id s <> S (next_id s)) by lia. split; [|split].
  - split; cbn; try done; try lia.
    + eexists. rewrite lookup_insert_ne by done. apply lookup_insert_eq.
    + eexists. apply lookup_insert_eq.
  - unfold unread. cbn. by rewrite lookup_insert_eq.
  - unfold unread. cbn. rewrite lookup_insert_ne by done. by rewrite lookup_insert_eq.
Qed.
End stream_proofs.

(** a client that connects to a listener is what the listener accepts
    next, with the addresses of the two ends crossed; and whatever the two
    then write and read, in any interleaving and chunking, each side reads
    the other's bytes in order: what it has read followed by what it has
    still to read is what the other wrote. *)
Theorem tcp_conversation l acts s
    (Hreg : tcp_registry s !! l_addr l = Some (l_queue l))
    (Hq : tcp_queues s !! l_queue l = Some []) (Hcaps : caps_ok acts) :
  exists s1 s2 client server,
  tcp_connect (l_addr l) s = (s1, good client) /\
  tcp_accept l s1 = (s2, good (server, local client)) /\
  peer client = l_addr l /\ local server = l_addr l /\ peer server = local client /\
  let '(client', server', s', (c, v)) := converse acts client server s2 in
  v ++ unread server' s' = c_wrote acts /\ c ++ unread client' s' = s_wrote acts.
Proof.
  unfold tcp_connect. rewrite Hreg. unfold tcp_connect_to, next_ephemeral_port. cbn [tcp_queues].
  rewrite Hq. set (s0 := mkNet _ _ _ _ _ _ _ _ _). set (ca := (LOCALHOST, next_port s)).
  pose proof (connect_pair_linked (l_addr l) ca ca (l_addr l) s0) as Hl.
  destruct (connect_pair (l_addr l) ca ca (l_addr l) s0) as [[sv cl] s1] eqn:E.
  destruct Hl as (Hl & Hc & Hv). cbn [app].
  assert (local cl = ca /\ peer cl = l_addr l /\ local sv = l_addr l /\ peer sv = ca) as (H1 & H2 & H3 & H4).
  { unfold connect_pair in E. cbn in E. injection E as <- <- _. done. }
  set (s2 := set_tcp _ _ s1).
  assert (tcp_accept l s2 = (set_tcp (tcp_registry s2) (<[l_queue l := []]> (tcp_queues s2)) s2,
    good (sv, ca))) as Ea.
  { unfold tcp_accept. cbn [s2 tcp_queues set_tcp]. by rewrite lookup_insert_eq. }
  exists s2, (set_tcp (tcp_registry s2) (<[l_queue l := []]> (tcp_queues s2)) s2), cl, sv.
  rewrite H1. split; [done|]. split; [exact Ea|]. do 3 (split; [done|]).
  set (s3 := set_tcp _ _ s2).
  assert (linked cl sv s3 /\ unread cl s3 = [] /\ unread sv s3 = []) as (Hl3 & Hc3 & Hv3).
  { destruct Hl as [? ? ? ? ? ? ?]. by split. }
  pose proof (converse_spec acts cl sv s3 Hl3 Hcaps) as H.
  destruct (converse acts cl sv s3) as [[[cl' sv'] s'] [c v]]. destruct H as (_ & Hv' & Hc').
  rewrite Hv3 in Hv'. rewrite Hc3 in Hc'. done.
Qed.

Lemma tcp_conversation_witness :
  let s := fst (tcp_listen (LOCALHOST, 80) empty_net) in
  let l := mkTcpListener (LOCALHOST, 80) 0 in
  let acts := [CWrite (lit "ping"); SRead 2; SWrite (lit "pong"); CWrite (lit "!"); SRead 8; CRead 1] in
  exists s1 s2 client server,
  tcp_connect (l_addr l) s = (s1, good client) /\
  tcp_accept l s1 = (s2, good (server, local client)) /\
  peer client = l_addr l /\ local server = l_addr l /\ peer server = local client /\
  let '(client', server', s', (c, v)) := converse acts client server s2 in
  v ++ unread server' s' = lit "ping!" /\ c ++ unread client' s' = lit "pong".
Proof.
  cbv zeta. apply (tcp_conversation (mkTcpListener (LOCALHOST, 80) 0)
    [CWrite (lit "ping"); SRead 2; SWrite (lit "pong"); CWrite (lit "!"); SRead 8; CRead 1]
    (fst (tcp_listen (LOCALHOST, 80) empty_net))); [reflexivity..|].
  repeat constructor; lia.
Defined.

(** an address has one listener at a time: a second [tcp_listen] on it
    fails and changes nothing else, while a connection finds the first; once
    the listener is dropped connections are refused, nothing can be accepted
    from it, and the address can be listened on again. *)
Theorem listener_lifecycle addr s (Hport : snd addr <> 0) (Hfree : tcp_registry s !! addr = None) :
  exists s1 l, tcp_listen addr s = (s1, good l) /\ l_addr l = addr /\
  tcp_listen addr s1 = (s1, bad (nerr AddrInUse "listen")) /\
  (exists s2 client, tcp_connect addr s1 = (s2, good client)) /\
  let s3 := drop_tcp_listener l s1 in
  tcp_connect addr s3 = (s3, bad (nerr ConnectionRefused "connect")) /\
  tcp_accept l s3 = (s3, bad (nerr Other "accept")) /\
  exists s4 l', tcp_listen addr s3 = (s4, good l').
Proof.
  assert (forall s', bind_addr addr s' = (addr, s')) as Hb.
  { intros s'. unfold bind_addr. by rewrite (proj2 (Z.eqb_neq _ _) Hport). }
  unfold tcp_listen. rewrite Hb, Hfree. unfold fresh. cbv beta iota.
  set (s1 := set_tcp _ _ _). exists s1, (mkTcpListener addr (next_id s)). do 2 (split; [done|]).
  assert (tcp_registry s1 !! addr = Some (next_id s)) as Hr1 by apply lookup_insert_eq.
  assert (tcp_queues s1 !! next_id s = Some []) as Hq1 by apply lookup_insert_eq.
  split; [by rewrite Hb, Hr1|]. split.
  { unfold tcp_connect. rewrite Hr1. unfold tcp_connect_to, next_ephemeral_port. cbn [tcp_queues].
    rewrite Hq1. destruct (connect_pair _ _ _ _ _) as [[sv cl] s2]. by eexists _, _. }
  unfold drop_tcp_listener. cbn [l_queue l_addr]. rewrite Hq1. cbn [default foldr].
  set (s3 := set_tcp _ _ s1). cbn [default from_option id]. change (foldr _ s3 []) with s3.
  assert (tcp_registry s3 !! addr = None) as Hr3 by apply lookup_delete_eq.
  assert (tcp_queues s3 !! next_id s = None) as Hq3 by apply lookup_delete_eq.
  split; [unfold tcp_connect; by rewrite Hr3|]. split.
  - unfold tcp_accept. cbn [l_queue l_addr]. rewrite Hq3, Hr3. by rewrite bool_decide_eq_false_2.
  - rewrite Hb, Hr3. by eexists _, _.
Qed.

Lemma listener_lifecycle_witness :
  exists s1 l, tcp_listen (LOCALHOST, 80) empty_net = (s1, good l) /\ l_addr l = (LOCALHOST, 80) /\
  tcp_listen (LOCALHOST, 80) s1 = (s1, bad (nerr AddrInUse "listen")) /\
  (exists s2 client, tcp_connect (LOCALHOST, 80) s1 = (s2, good client)) /\
  let s3 := drop_tcp_listener l s1 in
  tcp_connect (LOCALHOST, 80) s3 = (s3, bad (nerr ConnectionRefused "connect")) /\
  tcp_accept l s3 = (s3, bad (nerr Other "accept")) /\
  exists s4 l', tcp_listen (LOCALHOST, 80) s3 = (s4, good l').
Proof. apply (listener_lifecycle (LOCALHOST, 80) empty_net); [done|reflexivity]. Defined.

(** Two behaviours a socket does not have: an empty write reads as the end
    of the stream, with data behind it; and the wrapped port counter gives
    out port 0. *)
Lemma empty_write_reads_as_eof {A} cap (cl sv : End A) q s :
  read_buf sv = [] -> read_pos sv = 0 -> 0 <= cap ->
  chans s !! rx sv = Some (mkChan ([] :: q) true true) ->
  exists e s', read cap sv s = (e, s', good []) /\
    chans s' !! rx sv = Some (mkChan q true true).
Proof.
  intros Hb Hp Hc Hq. unfold read. rewrite Hb, Hp. cbn [length Z.of_nat Z.leb Z.compare].
  unfold recv. rewrite Hq. cbn. eexists _, _. split.
  - f_equal. f_equal. f_equal. by destruct (Z.to_nat _).
  - apply lookup_insert_eq.
Qed.

Lemma ephemeral_port_zero s ip : next_port s = 0 -> tcp_registry s !! (ip, 0) = None ->
  exists s' l, tcp_listen (ip, 0) s = (s', good l) /\ l_addr l = (ip, 0).
Proof.
  intros Hp Hr. unfold tcp_listen, bind_addr, next_ephemeral_port. cbn [snd fst Z.eqb].
  rewrite Hp. cbn [tcp_registry]. rewrite Hr. by eexists _, _.
Qed.

Lemma ports_wrap s : next_port s = 65535 -> next_port (snd (next_ephemeral_port s)) = 0.
Proof. intros H. cbn. by rewrite H. Qed.
