(* ===== verification/Winargv.v ===== *)
(** * Windows command-line construction ([crates/winargv/src/lib.rs]) and the
    splitting model of its fuzz oracle
    ([fuzz/fuzz_targets/winargv_roundtrip.rs]).

    Wide units are [Z]s in [0, 2^16).  [Quoting] holds the builder, [Split]
    the oracle's parser, [Cmd] and [Posix] the two reference readings the
    batch and POSIX quoters are judged against; the theorems say that what
    the builder writes is read back unchanged. *)

From Stdlib Require Import ZArith Lia String.
From S2P Require Import Prelude Error.
From stdpp Require Import base numbers list strings.
Open Scope Z_scope.

Definition QUOTE : Z := 34.
Definition BACKSLASH : Z := 92.
Definition SPACE : Z := 32.
Definition TAB : Z := 9.

Inductive Target := Executable | Batch.

#[export] Instance Target_eq_dec : EqDecision Target.
Proof. solve_decision. Defined.

Definition ascii_lower (u : Z) : Z :=
  if (65 <=? u) && (u <=? 90) then u + 32 else u.

Definition classify (program : list Z) : Target :=
  if (length program <? 4)%nat then Executable
  else
    let tail := drop (length program - 4) program in
    let lower := ascii_lower <$> tail in
    if bool_decide (lower = lit ".bat") || bool_decide (lower = lit ".cmd")
    then Batch else Executable.

Definition refuse (what : string) : PlatformError :=
  error_new InvalidInput NoCode what.

Module Quoting.
Definition needs_quote (arg : list Z) : bool :=
  match arg with [] => true | _ => false end
  || existsb (fun u => (u =? SPACE) || (u =? TAB) || (u =? QUOTE)) arg.

(** The [for &u in arg] loop; the state is [(backslashes, out)]. *)
Fixpoint quote_loop (arg : list Z) (backslashes : nat) (out : list Z) : nat * list Z :=
  match arg with
  | [] => (backslashes, out)
  | u :: arg' =>
    if u =? BACKSLASH then quote_loop arg' (S backslashes) (out ++ [u])
    else
      let out := if u =? QUOTE
                 then out ++ replicate (S backslashes) BACKSLASH else out in
      quote_loop arg' 0 (out ++ [u])
  end.

Definition quote_arg_into (arg out : list Z) : list Z :=
  let quote := needs_quote arg in
  let out := if quote then out ++ [QUOTE] else out in
  let '(backslashes, out) := quote_loop arg 0 out in
  if quote then out ++ replicate backslashes BACKSLASH ++ [QUOTE] else out.

Definition batch_refused (u : Z) : bool :=
  (u =? 0) || (u =? 13) || (u =? 10) || (u =? 37).

Fixpoint batch_loop (arg out : list Z) : list Z :=
  match arg with
  | [] => out
  | u :: arg' =>
    let out := if u =? QUOTE then out ++ [QUOTE] else out in
    batch_loop arg' (out ++ [u])
  end.

Definition quote_batch_arg_into (arg out : list Z) : Result (list Z) :=
  if existsb batch_refused arg
  then Err (refuse "winargv: unrepresentable batch argument")
  else Ok (batch_loop arg (out ++ [QUOTE]) ++ [QUOTE]).

Fixpoint quote_args (target : Target) (args : list (list Z)) (out : list Z)
    : Result (list Z) :=
  match args with
  | [] => Ok out
  | arg :: args' =>
    let out := out ++ [SPACE] in
    let? out := match target with
                | Executable => Ok (quote_arg_into arg out)
                | Batch => quote_batch_arg_into arg out
                end in
    quote_args target args' out
  end.

Definition contains0 (us : list Z) : bool := existsb (Z.eqb 0) us.

Definition build_command_line_wide (program : list Z) (args : list (list Z))
    : Result (list Z) :=
  match program with
  | [] => Err (refuse "winargv: empty program")
  | _ =>
    if contains0 program || existsb contains0 args
    then Err (refuse "winargv: embedded NUL")
    else quote_args (classify program) args (quote_arg_into program [])
  end.
End Quoting.

(** The fuzz oracle's model of the MSVCRT / [CommandLineToArgvW] rules; the
    position [i] of the source is the remaining suffix here. *)
Module Split.
(** [while i < line.len() && line[i] == BACKSLASH]. *)
Fixpoint span_backslashes (line : list Z) : nat * list Z :=
  match line with
  | u :: line' =>
    if u =? BACKSLASH
    then let '(n, rest) := span_backslashes line' in (S n, rest)
    else (O, line)
  | [] => (O, [])
  end.

Fixpoint until_quote (line : list Z) : list Z * list Z :=
  match line with
  | [] => ([], [])
  | u :: line' =>
    if u =? QUOTE then ([], line')
    else let '(p, rest) := until_quote line' in (u :: p, rest)
  end.

Fixpoint until_blank (line : list Z) : list Z * list Z :=
  match line with
  | [] => ([], [])
  | u :: line' =>
    if (u =? SPACE) || (u =? TAB) then ([], line)
    else let '(p, rest) := until_blank line' in (u :: p, rest)
  end.

Definition split_program (line : list Z) : list Z * list Z :=
  match line with
  | u :: line' => if u =? QUOTE then until_quote line' else until_blank line
  | [] => until_blank line
  end.

Fixpoint split_args (fuel : nat) (line : list Z) (in_quotes in_arg : bool)
    (current : list Z) (out : list (list Z)) : option (list (list Z)) :=
  match line with
  | [] => Some (if in_arg then out ++ [current] else out)
  | u :: line' =>
    match fuel with
    | O => None
    | S fuel =>
      if u =? BACKSLASH then
        let '(n, rest) := span_backslashes line in
        match rest with
        | q :: rest' =>
          if q =? QUOTE then
            let current := current ++ replicate (Nat.div2 n) BACKSLASH in
            if Nat.odd n
            then split_args fuel rest' in_quotes true (current ++ [QUOTE]) out
            else split_args fuel rest' (negb in_quotes) true current out
          else split_args fuel rest in_quotes true (current ++ replicate n BACKSLASH) out
        | [] => split_args fuel rest in_quotes true (current ++ replicate n BACKSLASH) out
        end
      else if u =? QUOTE then split_args fuel line' (negb in_quotes) true current out
      else if ((u =? SPACE) || (u =? TAB)) && negb in_quotes then
        if in_arg then split_args fuel line' in_quotes false [] (out ++ [current])
        else split_args fuel line' in_quotes in_arg current out
      else split_args fuel line' in_quotes true (current ++ [u]) out
    end
  end.

(** Every iteration consumes a unit, so [length line] is fuel enough. *)
Definition model_split (line : list Z) : option (list (list Z)) :=
  let '(program, rest) := split_program line in
  split_args (length rest) rest false false [] [program].
End Split.

Module Posix.
Definition shell_meta (c : Z) : bool :=
  existsb (Z.eqb c)
    (lit " " ++ [9; 10] ++ lit "'" ++ [34] ++ lit "\$`&|;<>(){}*?[]!~#").

Fixpoint posix_loop (arg out : list Z) : list Z :=
  match arg with
  | [] => out
  | c :: arg' =>
    if c =? 39 then posix_loop arg' (out ++ lit "'\''")
    else posix_loop arg' (out ++ [c])
  end.

Definition posix_quote_arg (arg : list Z) : list Z :=
  match arg with
  | [] => lit "''"
  | _ =>
    if negb (existsb shell_meta arg) then arg
    else posix_loop arg (lit "'") ++ lit "'"
  end.
End Posix.

Import Quoting Split Posix.

Example classify_ex :
  classify (lit "cmd") = Executable /\ classify (lit "xbat") = Executable /\
  classify (lit "a.bat") = Batch /\ classify (lit "A.CmD") = Batch.
Proof. vm_compute. auto. Qed.

Example quote_ex :
  build_command_line_wide (lit "prog.exe") [lit "a\\" ++ [QUOTE] ++ lit "b"; []; lit "C:\a b\"]
  = Ok (lit "prog.exe " ++ [QUOTE] ++ lit "a\\\\\" ++ [QUOTE] ++ lit "b" ++ [QUOTE] ++
        [SPACE; QUOTE; QUOTE; SPACE; QUOTE] ++ lit "C:\a b\\" ++ [QUOTE]).
Proof. vm_compute. reflexivity. Qed.

Example split_ex :
  model_split (lit "prog.exe " ++ [QUOTE] ++ lit "a\\\\\" ++ [QUOTE] ++ lit "b" ++ [QUOTE] ++
        [SPACE; QUOTE; QUOTE; SPACE; QUOTE] ++ lit "C:\a b\\" ++ [QUOTE])
  = Some [lit "prog.exe"; lit "a\\" ++ [QUOTE] ++ lit "b"; []; lit "C:\a b\"].
Proof. vm_compute. reflexivity. Qed.

(** ** The quoting loop in closed form *)

(** Not starting with a backslash. *)
Definition no_bs_head (l : list Z) : Prop :=
  match l with [] => True | u :: _ => u <> BACKSLASH end.

(** What the loop appends, and the backslash count it ends with. *)
Fixpoint esc (arg : list Z) (bs : nat) : list Z :=
  match arg with
  | [] => []
  | u :: arg' =>
    if u =? BACKSLASH then u :: esc arg' (S bs)
    else (if u =? QUOTE then replicate (S bs) BACKSLASH else []) ++ u :: esc arg' 0
  end.

Fixpoint trailing (arg : list Z) (bs : nat) : nat :=
  match arg with
  | [] => bs
  | u :: arg' => if u =? BACKSLASH then trailing arg' (S bs) else trailing arg' 0
  end.

Lemma quote_loop_esc arg bs out :
  quote_loop arg bs out = (trailing arg bs, out ++ esc arg bs).
Proof.
  revert bs out. induction arg as [|u arg IH]; intros; cbn [quote_loop esc trailing].
  - by rewrite app_nil_r.
  - case_match; rewrite IH; f_equal.
    + by rewrite <- app_assoc.
    + case_match; simpl; rewrite <- ?app_assoc; done.
Qed.

Lemma quote_arg_into_esc arg out :
  quote_arg_into arg out =
  out ++ (if needs_quote arg
          then QUOTE :: esc arg 0 ++ replicate (trailing arg 0) BACKSLASH ++ [QUOTE]
          else esc arg 0).
Proof.
  unfold quote_arg_into. rewrite quote_loop_esc. case_match; simpl;
    rewrite <- ?app_assoc; done.
Qed.

Lemma span_spec l n rest :
  span_backslashes l = (n, rest) -> l = replicate n BACKSLASH ++ rest /\ no_bs_head rest.
Proof.
  revert n rest. induction l as [|u l IH]; intros n rest; cbn [span_backslashes].
  - intros [= <- <-]. done.
  - case_match eqn:E.
    + destruct (span_backslashes l) as [m r]. intros [= <- <-].
      bool_to_prop. subst u. destruct (IH m r) as [-> ?]; done.
    + intros [= <- <-]. split; [done|]. by apply Z.eqb_neq.
Qed.

Lemma span_replicate n rest :
  no_bs_head rest -> span_backslashes (replicate n BACKSLASH ++ rest) = (n, rest).
Proof.
  intros Hr. induction n as [|n IH]; cbn [replicate app span_backslashes].
  - destruct rest as [|u r]; [done|]. cbn [span_backslashes]. simpl in Hr.
    by rewrite (proj2 (Z.eqb_neq u BACKSLASH)).
  - by rewrite Z.eqb_refl, IH.
Qed.

Lemma esc_run n rest bs :
  esc (replicate n BACKSLASH ++ rest) bs = replicate n BACKSLASH ++ esc rest (n + bs).
Proof.
  revert bs. induction n as [|n IH]; intros; [done|].
  cbn [replicate app esc]. rewrite Z.eqb_refl, IH. by rewrite Nat.add_succ_r.
Qed.

Lemma trailing_run n rest bs :
  trailing (replicate n BACKSLASH ++ rest) bs = trailing rest (n + bs).
Proof.
  revert bs. induction n as [|n IH]; intros; [done|].
  cbn [replicate app trailing]. rewrite Z.eqb_refl, IH. by rewrite Nat.add_succ_r.
Qed.

Lemma esc_no_quote arg bs :
  Forall (fun u => u <> QUOTE) arg -> esc arg bs = arg.
Proof.
  intros Ha. revert bs. induction Ha as [|u arg Hu _ IH]; intros; [done|].
  cbn [esc]. case_match; rewrite IH; [done|].
  by rewrite (proj2 (Z.eqb_neq u QUOTE)).
Qed.

(** ** One step of the argument splitter *)

Section split_steps.
Implicit Types (line tail cur : list Z) (out : list (list Z)).

Lemma split_bs_quote fuel n tail q b cur out :
  (0 < n)%nat ->
  split_args (S fuel) (replicate n BACKSLASH ++ QUOTE :: tail) q b cur out =
  if Nat.odd n
  then split_args fuel tail q true ((cur ++ replicate (Nat.div2 n) BACKSLASH) ++ [QUOTE]) out
  else split_args fuel tail (negb q) true (cur ++ replicate (Nat.div2 n) BACKSLASH) out.
Proof.
  intros Hn. destruct n as [|n]; [lia|].
  cbn [split_args replicate app]. rewrite Z.eqb_refl.
  change (BACKSLASH :: replicate n BACKSLASH ++ QUOTE :: tail)
    with (replicate (S n) BACKSLASH ++ QUOTE :: tail).
  rewrite span_replicate by done. by rewrite Z.eqb_refl.
Qed.

Lemma split_bs_lit fuel n tail q b cur out :
  (0 < n)%nat -> no_bs_head tail -> hd 0 tail <> QUOTE ->
  split_args (S fuel) (replicate n BACKSLASH ++ tail) q b cur out =
  split_args fuel tail q true (cur ++ replicate n BACKSLASH) out.
Proof.
  intros Hn Ht Hq. destruct n as [|n]; [lia|].
  cbn [split_args replicate app]. rewrite Z.eqb_refl.
  change (BACKSLASH :: replicate n BACKSLASH ++ tail)
    with (replicate (S n) BACKSLASH ++ tail).
  rewrite span_replicate by done.
  destruct tail as [|u tail]; [done|]. simpl in Hq.
  by rewrite (proj2 (Z.eqb_neq u QUOTE)).
Qed.

Lemma split_char fuel u tail q b cur out :
  u <> BACKSLASH -> u <> QUOTE -> (q = true \/ (u <> SPACE /\ u <> TAB)) ->
  split_args (S fuel) (u :: tail) q b cur out =
  split_args fuel tail q true (cur ++ [u]) out.
Proof.
  intros Hb Hq Hs. cbn [split_args].
  rewrite (proj2 (Z.eqb_neq u BACKSLASH)), (proj2 (Z.eqb_neq u QUOTE)) by done.
  destruct Hs as [-> | [? ?]].
  - by rewrite andb_false_r.
  - by rewrite (proj2 (Z.eqb_neq u SPACE)), (proj2 (Z.eqb_neq u TAB)) by done.
Qed.
End split_steps.

Lemma replicate_twice n : replicate n BACKSLASH ++ replicate n BACKSLASH = replicate (n + n) BACKSLASH.
Proof. by rewrite replicate_add. Qed.

Lemma div2_double n : Nat.div2 (n + n) = n /\ Nat.odd (n + n) = false.
Proof.
  replace (n + n)%nat with (2 * n)%nat by lia. split; [apply Nat.div2_double|].
  rewrite Nat.odd_mul. done.
Qed.

Lemma div2_double_S n : Nat.div2 (S (n + n)) = n /\ Nat.odd (S (n + n)) = true.
Proof.
  replace (n + n)%nat with (2 * n)%nat by lia. split; [apply Nat.div2_succ_double|].
  by rewrite Nat.odd_succ, Nat.even_mul.
Qed.

(** A quoted body is read back as the argument, and closes its quote. *)
Lemma split_quoted_body arg : forall fuel tail b cur out,
  (length (esc arg 0 ++ replicate (trailing arg 0) BACKSLASH ++ QUOTE :: tail) <= fuel)%nat ->
  exists fuel', (length tail <= fuel')%nat /\
    split_args fuel (esc arg 0 ++ replicate (trailing arg 0) BACKSLASH ++ QUOTE :: tail)
      true b cur out =
    split_args fuel' tail false true (cur ++ arg) out.
Proof.
  induction arg as [arg IH] using (induction_ltof1 _ length).
  intros fuel tail b cur out.
  destruct (span_backslashes arg) as [n rest] eqn:Hs.
  apply span_spec in Hs as [Harg Hrest].
  destruct rest as [|u rest].
  - (* the argument is a run of backslashes *)
    rewrite Harg, esc_run, trailing_run. cbn [esc trailing]. rewrite Nat.add_0_r.
    rewrite !app_nil_r, (app_assoc (replicate n _)), replicate_twice.
    autorewrite with rust_rw. intros Hf. destruct fuel as [|fuel]; [lia|].
    exists fuel. split; [simpl in Hf; lia|].
    destruct n as [|n].
    + simpl. by rewrite app_nil_r.
    + rewrite split_bs_quote by lia. by destruct (div2_double (S n)) as [-> ->].
  - (* a run, then a unit that is not a backslash *)
    simpl in Hrest. pose proof (proj2 (Z.eqb_neq u BACKSLASH) Hrest) as Eu.
    assert (ltof _ length rest arg) as Hlt.
    { unfold ltof. rewrite Harg. autorewrite with rust_rw. simpl. lia. }
    rewrite Harg, esc_run, trailing_run. cbn [esc trailing]. rewrite Eu, Nat.add_0_r.
    destruct (u =? QUOTE) eqn:Eq.
    + bool_to_prop. subst u. rewrite <- !app_assoc. cbn [app].
      rewrite app_assoc, <- replicate_add.
      replace (n + S n)%nat with (S (n + n)) by lia.
      autorewrite with rust_rw. intros Hf. destruct fuel as [|fuel]; [lia|].
      rewrite split_bs_quote by lia. destruct (div2_double_S n) as [-> ->].
      destruct (IH rest Hlt fuel tail true ((cur ++ replicate n BACKSLASH) ++ [QUOTE]) out)
        as (f' & ? & ->).
      { autorewrite with rust_rw. simpl in Hf. lia. }
      exists f'. split; [done|]. f_equal. by rewrite <- !app_assoc.
    + bool_to_prop. cbn [app]. rewrite <- app_assoc. cbn [app].
      autorewrite with rust_rw. intros Hf.
      assert (exists fuel1, (length (esc rest 0 ++ replicate (trailing rest 0) BACKSLASH
          ++ QUOTE :: tail) < fuel1)%nat /\
        split_args fuel (replicate n BACKSLASH ++ u :: esc rest 0 ++
          replicate (trailing rest 0) BACKSLASH ++ QUOTE :: tail) true b cur out =
        split_args fuel1 (u :: esc rest 0 ++ replicate (trailing rest 0) BACKSLASH
          ++ QUOTE :: tail) true (b || negb (Nat.eqb n 0)) (cur ++ replicate n BACKSLASH) out)
        as (fuel1 & Hf1 & ->).
      { autorewrite with rust_rw. simpl in Hf. destruct n as [|n].
        - exists fuel. rewrite orb_false_r, app_nil_r. split; [simpl; lia|done].
        - destruct fuel as [|fuel]; [lia|]. exists fuel. split; [simpl in *; lia|].
          rewrite split_bs_lit by (done || lia). by rewrite orb_true_r. }
      destruct fuel1 as [|fuel1]; [lia|].
      rewrite split_char by auto.
      destruct (IH rest Hlt fuel1 tail true ((cur ++ replicate n BACKSLASH) ++ [u]) out)
        as (f' & ? & ->); [lia|].
      exists f'. split; [done|]. f_equal. by rewrite <- !app_assoc.
Qed.

(** ** Whole arguments *)

Definition plain_unit (u : Z) : Prop := u <> SPACE /\ u <> TAB /\ u <> QUOTE.

Lemma needs_quote_false arg :
  needs_quote arg = false -> arg <> [] /\ Forall plain_unit arg.
Proof.
  unfold needs_quote. rewrite orb_false_iff. intros [H1 H2].
  split; [by intros ->|]. apply existsb_false_Forall in H2.
  eapply Forall_impl; [exact H2|]. intros u Hu. unfold plain_unit.
  rewrite !orb_false_iff, !Z.eqb_neq in Hu. tauto.
Qed.

Lemma plain_no_quote arg : Forall plain_unit arg -> Forall (fun u => u <> QUOTE) arg.
Proof. intros H. eapply Forall_impl; [exact H|]. unfold plain_unit. tauto. Qed.

Definition arg_end (tail : list Z) : Prop := tail = [] \/ hd 0 tail = SPACE.

Lemma arg_end_ok tail : arg_end tail -> no_bs_head tail /\ hd 0 tail <> QUOTE.
Proof. intros [-> | H]; [done|]. destruct tail; simpl in *; [done|]. by subst. Qed.

Lemma split_plain_arg arg : forall fuel tail b cur out,
  Forall plain_unit arg -> arg_end tail -> arg <> [] ->
  (length (arg ++ tail) <= fuel)%nat ->
  exists fuel', (length tail <= fuel')%nat /\
    split_args fuel (arg ++ tail) false b cur out =
    split_args fuel' tail false true (cur ++ arg) out.
Proof.
  induction arg as [arg IH] using (induction_ltof1 _ length).
  intros fuel tail b cur out Hp Ht Hne.
  destruct (arg_end_ok tail Ht) as [Htb Htq].
  destruct (span_backslashes arg) as [n rest] eqn:Hs.
  apply span_spec in Hs as [Harg Hrest]. rewrite Harg in Hp.
  apply Forall_app in Hp as [_ Hp]. rewrite Harg.
  destruct n as [|n]; [|destruct fuel as [|fuel]].
  - destruct rest as [|u rest]; [by rewrite Harg in Hne|].
    apply Forall_cons in Hp as [(Hu1 & Hu2 & Hu3) Hp]. simpl in Hrest.
    cbn [replicate app]. intros Hf. destruct fuel as [|fuel]; [simpl in Hf; lia|].
    rewrite split_char by auto. destruct rest as [|v rest'] eqn:Er.
    + exists fuel. split; [simpl in Hf; lia|done].
    + destruct (IH (v :: rest')) with (fuel := fuel) (tail := tail) (b := true)
        (cur := cur ++ [u]) (out := out) as (f' & ? & ->); try done.
      { unfold ltof. rewrite Harg. simpl. lia. }
      { simpl in *. lia. }
      exists f'. split; [done|]. by rewrite <- app_assoc.
  - autorewrite with rust_rw. lia.
  - rewrite <- app_assoc. autorewrite with rust_rw. intros Hf.
    destruct rest as [|u rest].
    + rewrite split_bs_lit by (done || lia). exists fuel. simpl in *.
      rewrite app_nil_r. split; [lia|done].
    + pose proof (Forall_inv Hp) as (_ & _ & Hu).
      rewrite split_bs_lit; [|lia|done|done].
      destruct (IH (u :: rest)) with (fuel := fuel) (tail := tail) (b := true)
        (cur := cur ++ replicate (S n) BACKSLASH) (out := out) as (f' & ? & ->); try done.
      { unfold ltof. rewrite Harg. autorewrite with rust_rw. lia. }
      { autorewrite with rust_rw. simpl in *. lia. }
      exists f'. split; [done|]. by rewrite <- app_assoc.
Qed.

(** The text of one quoted argument and of an argument list. *)
Definition arg_text (arg : list Z) : list Z := quote_arg_into arg [].
Definition args_text (args : list (list Z)) : list Z :=
  concat ((fun a => SPACE :: arg_text a) <$> args).

Lemma quote_arg_into_app arg out : quote_arg_into arg out = out ++ arg_text arg.
Proof. unfold arg_text. by rewrite !quote_arg_into_esc. Qed.

Lemma split_one_arg arg fuel tail out :
  arg_end tail -> (length (arg_text arg ++ tail) <= fuel)%nat ->
  exists fuel', (length tail <= fuel')%nat /\
    split_args fuel (arg_text arg ++ tail) false false [] out =
    split_args fuel' tail false true arg out.
Proof.
  intros Ht. unfold arg_text. rewrite quote_arg_into_esc. cbn [app].
  destruct (needs_quote arg) eqn:Hq.
  - cbn [app]. rewrite <- !app_assoc. cbn [app]. intros Hf.
    destruct fuel as [|fuel]; [simpl in Hf; lia|]. cbn [split_args].
    change (QUOTE =? BACKSLASH) with false. change (QUOTE =? QUOTE) with true.
    apply (split_quoted_body arg fuel tail true [] out). simpl in Hf. lia.
  - apply needs_quote_false in Hq as [Hne Hp].
    rewrite esc_no_quote by auto using plain_no_quote.
    intros Hf. by apply (split_plain_arg arg fuel tail false [] out).
Qed.

Lemma args_text_end args : arg_end (args_text args).
Proof. destruct args; [by left | by right]. Qed.

Lemma split_args_text args : forall fuel b cur out,
  (b = false -> cur = []) -> (length (args_text args) <= fuel)%nat ->
  split_args fuel (args_text args) false b cur out =
  Some ((if b then out ++ [cur] else out) ++ args).
Proof.
  induction args as [|arg args IH]; intros fuel b cur out Hb Hf.
  - destruct fuel; simpl; by rewrite app_nil_r.
  - change (args_text (arg :: args)) with (SPACE :: arg_text arg ++ args_text args) in *.
    destruct fuel as [|fuel]; [simpl in Hf; lia|]. cbn [split_args].
    change (SPACE =? BACKSLASH) with false. change (SPACE =? QUOTE) with false.
    change ((SPACE =? SPACE) || (SPACE =? TAB)) with true. cbn [andb negb].
    assert (length (arg_text arg ++ args_text args) <= fuel)%nat by (simpl in Hf; lia).
    destruct b; [|rewrite Hb by done].
    + destruct (split_one_arg arg fuel (args_text args) (out ++ [cur])) as (f' & ? & ->);
        auto using args_text_end.
      rewrite IH by done. f_equal. by rewrite <- app_assoc.
    + destruct (split_one_arg arg fuel (args_text args) out) as (f' & ? & ->);
        auto using args_text_end.
      rewrite IH by done. f_equal. by rewrite <- app_assoc.
Qed.

(** ** The program token *)

(** The program token is read back exactly when it holds no quote and does
    not end in a backslash while needing quotes: the simple rule that reads
    it knows no escapes. *)
Definition program_ok (program : list Z) : Prop :=
  Forall (fun u => u <> QUOTE) program /\
  (needs_quote program = true -> trailing program 0 = O).

Lemma until_quote_spec p rest :
  Forall (fun u => u <> QUOTE) p -> until_quote (p ++ QUOTE :: rest) = (p, rest).
Proof.
  induction 1 as [|u p Hu _ IH]; [done|]. cbn [app until_quote].
  by rewrite (proj2 (Z.eqb_neq u QUOTE)), IH.
Qed.

Lemma until_blank_spec p rest :
  Forall plain_unit p -> arg_end rest -> until_blank (p ++ rest) = (p, rest).
Proof.
  intros Hp Hr. induction Hp as [|u p (H1 & H2 & _) _ IH]; cbn [app until_blank].
  - destruct Hr as [-> | Hr]; [done|]. destruct rest as [|u r]; [done|].
    simpl in Hr. by subst u.
  - by rewrite (proj2 (Z.eqb_neq u SPACE)), (proj2 (Z.eqb_neq u TAB)), IH.
Qed.

Lemma split_program_text program rest :
  program_ok program -> arg_end rest ->
  split_program (arg_text program ++ rest) = (program, rest).
Proof.
  intros [Hq Ht] Hr. unfold arg_text. rewrite quote_arg_into_esc, esc_no_quote by done.
  destruct (needs_quote program) eqn:Hn.
  - rewrite Ht by done. cbn [app replicate]. rewrite <- app_assoc.
    by apply until_quote_spec.
  - apply needs_quote_false in Hn as [Hne Hp]. cbn [app].
    destruct program as [|u p]; [done|]. cbn [split_program app].
    rewrite (proj2 (Z.eqb_neq u QUOTE)) by (by destruct (Forall_inv Hp) as (_ & _ & ?)).
    by apply (until_blank_spec (u :: p)).
Qed.

Lemma quote_args_executable args out :
  quote_args Executable args out = Ok (out ++ args_text args).
Proof.
  revert out. induction args as [|arg args IH]; intros; cbn [quote_args].
  - by rewrite app_nil_r.
  - rewrite IH, quote_arg_into_app. f_equal. by rewrite <- !app_assoc.
Qed.

Definition no_nul (us : list Z) : Prop := Forall (fun u => u <> 0) us.

Lemma contains0_false us : no_nul us -> contains0 us = false.
Proof.
  intros H. apply existsb_false_Forall. eapply Forall_impl; [exact H|].
  intros u Hu. apply Z.eqb_neq. congruence.
Qed.

Lemma contains0_args_false args : Forall no_nul args -> existsb contains0 args = false.
Proof.
  intros H. apply existsb_false_Forall. eapply Forall_impl; [exact H|].
  apply contains0_false.
Qed.

Lemma build_no_nul program args :
  program <> [] -> no_nul program -> Forall no_nul args ->
  build_command_line_wide program args =
  quote_args (classify program) args (arg_text program).
Proof.
  intros Hne Hp Ha. unfold build_command_line_wide. destruct program; [done|].
  by rewrite contains0_false, contains0_args_false.
Qed.

(** ** Reading a batch line the way [cmd.exe] does *)

Module Cmd.
(** [cmd] toggles its quote state at every quote; the scan returns the
    final state and the units seen outside quotes, which are the ones its
    metacharacters act on. *)
Fixpoint cmd_scan (inside : bool) (l : list Z) : bool * list Z :=
  match l with
  | [] => (inside, [])
  | u :: l' =>
    if u =? QUOTE then cmd_scan (negb inside) l'
    else let '(f, o) := cmd_scan inside l' in (f, if inside then o else u :: o)
  end.

(** A quoted body in which a doubled quote stands for one. *)
Fixpoint cmd_body (l : list Z) : option (list Z * list Z) :=
  match l with
  | [] => None
  | u :: l' =>
    if u =? QUOTE then
      match l' with
      | v :: l'' =>
        if v =? QUOTE
        then match cmd_body l'' with Some (b, r) => Some (QUOTE :: b, r) | None => None end
        else Some ([], l')
      | [] => Some ([], [])
      end
    else match cmd_body l' with Some (b, r) => Some (u :: b, r) | None => None end
  end.

(** The arguments of a line of [SPACE]-separated quoted bodies. *)
Fixpoint cmd_args (fuel : nat) (l : list Z) : option (list (list Z)) :=
  match l, fuel with
  | [], _ => Some []
  | s :: q :: l', S fuel =>
    if (s =? SPACE) && (q =? QUOTE) then
      match cmd_body l' with
      | Some (b, r) => match cmd_args fuel r with Some bs => Some (b :: bs) | None => None end
      | None => None
      end
    else None
  | _, _ => None
  end.
End Cmd.
Import Cmd.

Fixpoint double_quotes (arg : list Z) : list Z :=
  match arg with
  | [] => []
  | u :: arg' => (if u =? QUOTE then [QUOTE] else []) ++ u :: double_quotes arg'
  end.

Definition batch_text (args : list (list Z)) : list Z :=
  concat ((fun a => SPACE :: QUOTE :: double_quotes a ++ [QUOTE]) <$> args).

Lemma batch_loop_double arg out : batch_loop arg out = out ++ double_quotes arg.
Proof.
  revert out. induction arg as [|u arg IH]; intros; cbn [batch_loop double_quotes].
  - by rewrite app_nil_r.
  - rewrite IH. case_match; simpl; by rewrite <- ?app_assoc.
Qed.

Definition batch_safe (arg : list Z) : Prop := Forall (fun u => batch_refused u = false) arg.

Lemma quote_args_batch args out :
  Forall batch_safe args -> quote_args Batch args out = Ok (out ++ batch_text args).
Proof.
  intros Ha. revert out.
  induction Ha as [|arg args H _ IH]; intros; cbn [quote_args].
  - by rewrite app_nil_r.
  - unfold quote_batch_arg_into. rewrite (proj2 (existsb_false_Forall _ _) H).
    rewrite batch_loop_double, IH. f_equal. unfold batch_text at 2. simpl.
    by rewrite <- !app_assoc.
Qed.

Lemma quote_args_batch_err args out :
  ~ Forall batch_safe args ->
  quote_args Batch args out = Err (refuse "winargv: unrepresentable batch argument").
Proof.
  revert out. induction args as [|arg args IH]; intros out Ha; [by destruct Ha|].
  cbn [quote_args]. unfold quote_batch_arg_into.
  destruct (existsb batch_refused arg) eqn:E; [done|].
  apply IH. intros H. apply Ha. constructor; [|done]. by apply existsb_false_Forall.
Qed.

Lemma cmd_scan_double arg rest :
  cmd_scan true (double_quotes arg ++ QUOTE :: rest) = cmd_scan false rest.
Proof.
  induction arg as [|u arg IH]; [done|]. cbn [double_quotes].
  destruct (u =? QUOTE) eqn:E; cbn [app cmd_scan negb].
  - change (QUOTE =? QUOTE) with true. by rewrite E.
  - rewrite E, IH. by destruct (cmd_scan false rest).
Qed.

Lemma cmd_body_double arg rest :
  hd 0 rest <> QUOTE -> cmd_body (double_quotes arg ++ QUOTE :: rest) = Some (arg, rest).
Proof.
  intros Hr. induction arg as [|u arg IH].
  - cbn [double_quotes app cmd_body]. change (QUOTE =? QUOTE) with true.
    destruct rest as [|v rest]; [done|]. simpl in Hr.
    by rewrite (proj2 (Z.eqb_neq v QUOTE)).
  - cbn [double_quotes]. destruct (u =? QUOTE) eqn:E; cbn [app cmd_body].
    + change (QUOTE =? QUOTE) with true. rewrite E, IH. apply Z.eqb_eq in E. by subst.
    + by rewrite E, IH.
Qed.

Lemma cmd_scan_text args :
  cmd_scan false (batch_text args) = (false, replicate (length args) SPACE).
Proof.
  induction args as [|arg args IH]; [done|].
  change (batch_text (arg :: args)) with
    (SPACE :: QUOTE :: (double_quotes arg ++ [QUOTE]) ++ batch_text args).
  rewrite <- app_assoc. cbn [app cmd_scan negb].
  change (SPACE =? QUOTE) with false. change (QUOTE =? QUOTE) with true.
  by rewrite cmd_scan_double, IH.
Qed.

Lemma cmd_args_text args fuel :
  (length args <= fuel)%nat -> cmd_args fuel (batch_text args) = Some args.
Proof.
  revert fuel. induction args as [|arg args IH]; intros fuel Hf; [by destruct fuel|].
  destruct fuel as [|fuel]; [simpl in Hf; lia|].
  change (batch_text (arg :: args)) with
    (SPACE :: QUOTE :: (double_quotes arg ++ [QUOTE]) ++ batch_text args).
  rewrite <- app_assoc. cbn [app cmd_args].
  change ((SPACE =? SPACE) && (QUOTE =? QUOTE)) with true.
  rewrite cmd_body_double by (by destruct args).
  rewrite IH; [done|]. simpl in Hf. lia.
Qed.

Lemma batch_text_safe args : Forall batch_safe args -> batch_safe (batch_text args).
Proof.
  induction 1 as [|arg args H _ IH]; [constructor|].
  unfold batch_text. cbn [fmap list_fmap concat].
  repeat constructor; try done. apply Forall_app. split; [|exact IH].
  apply Forall_app. split; [|by repeat constructor].
  induction H as [|u arg Hu _ IHa]; [constructor|]. cbn [double_quotes].
  apply Forall_app. split; [case_match; by repeat constructor|]. by constructor.
Qed.

(** ** Reading a POSIX shell word *)

Module Shell.
(** Characters that are not literal when unquoted, the single quote,
    backslash and blanks aside. *)
Definition sh_special (c : Z) : bool :=
  existsb (Z.eqb c) ([10; 34] ++ lit "|&;<>()$`*?[]#~!{}").

(** The fields of a line: unquoted text, single quotes and backslash
    escapes; [None] for anything with another meaning to the shell or
    left unterminated. [current] is the field being read, if any. *)
Fixpoint sh_fields (l : list Z) (quoted : bool) (current : option (list Z))
    (out : list (list Z)) : option (list (list Z)) :=
  let field := default [] current in
  match l with
  | [] =>
    if quoted then None
    else Some (match current with Some f => out ++ [f] | None => out end)
  | c :: l' =>
    if quoted then
      if c =? 39 then sh_fields l' false (Some field) out
      else sh_fields l' true (Some (field ++ [c])) out
    else if c =? 39 then sh_fields l' true (Some field) out
    else if c =? 92 then
      match l' with
      | d :: l'' => if d =? 10 then None else sh_fields l'' false (Some (field ++ [d])) out
      | [] => None
      end
    else if (c =? 32) || (c =? 9) then
      sh_fields l' false None (match current with Some f => out ++ [f] | None => out end)
    else if sh_special c then None
    else sh_fields l' false (Some (field ++ [c])) out
  end.
End Shell.
Import Shell.

Fixpoint posix_esc (arg : list Z) : list Z :=
  match arg with
  | [] => []
  | c :: arg' => (if c =? 39 then lit "'\''" else [c]) ++ posix_esc arg'
  end.

Lemma posix_loop_esc arg out : posix_loop arg out = out ++ posix_esc arg.
Proof.
  revert out. induction arg as [|c arg IH]; intros; cbn [posix_loop posix_esc].
  - by rewrite app_nil_r.
  - case_match; rewrite IH; by rewrite <- app_assoc.
Qed.

Lemma sh_fields_esc arg f out :
  sh_fields (posix_esc arg ++ [39]) true (Some f) out = Some (out ++ [f ++ arg]).
Proof.
  revert f. induction arg as [|c arg IH]; intros f.
  - simpl. by rewrite app_nil_r.
  - cbn [posix_esc]. destruct (c =? 39) eqn:E.
    + apply Z.eqb_eq in E. subst c. simpl. rewrite IH. by rewrite <- app_assoc.
    + cbn [app sh_fields]. rewrite E. simpl. rewrite IH. by rewrite <- app_assoc.
Qed.

(** Every character the reference reads specially is in the quoter's list. *)
Lemma sh_plain c :
  shell_meta c = false ->
  (c =? 39) = false /\ (c =? 92) = false /\ ((c =? 32) || (c =? 9)) = false /\
  sh_special c = false.
Proof.
  unfold shell_meta, sh_special. simpl. rewrite !orb_false_iff. tauto.
Qed.

Lemma sh_fields_plain arg f out :
  Forall (fun c => shell_meta c = false) arg ->
  sh_fields arg false (Some f) out = Some (out ++ [f ++ arg]).
Proof.
  intros H. revert f. induction H as [|c arg Hc _ IH]; intros f.
  - simpl. by rewrite app_nil_r.
  - destruct (sh_plain c Hc) as (E1 & E2 & E3 & E4). cbn [sh_fields].
    rewrite E1, E2, E3, E4. simpl. rewrite IH. by rewrite <- app_assoc.
Qed.

(** ** Lines that were built *)

Lemma split_executable program args :
  program_ok program -> model_split (arg_text program ++ args_text args) = Some (program :: args).
Proof.
  intros Hp. unfold model_split.
  rewrite split_program_text by (done || apply args_text_end). by rewrite split_args_text.
Qed.

(** Which programs come back. *)
Lemma trailing_last arg : forall bs, trailing arg bs = O <-> last arg <> Some BACKSLASH /\ (arg = [] -> bs = O).
Proof.
  induction arg as [|u arg IH]; intros bs; cbn [trailing]; [cbn; intuition congruence|].
  destruct (u =? BACKSLASH) eqn:E; bool_to_prop; rewrite IH; destruct arg as [|v arg];
    rewrite ?last_cons_cons; cbn [last]; intuition congruence.
Qed.

Lemma program_ok_last program : program_ok program <->
  Forall (fun u => u <> QUOTE) program /\ (needs_quote program = true -> last program <> Some BACKSLASH).
Proof. unfold program_ok. rewrite (trailing_last program 0). tauto. Qed.

Lemma split_args_prefix fuel : forall line q b cur out res,
  split_args fuel line q b cur out = Some res -> exists tail, res = out ++ tail.
Proof.
  induction fuel as [|fuel IH]; intros [|u line] q b cur out res; try done.
  1,2: cbn [split_args]; destruct b; intros [= <-]; [by eexists|exists []; by rewrite app_nil_r].
  cbn [split_args]. destruct (span_backslashes (u :: line)) as [n rest].
  repeat case_match; intros Hs; apply IH in Hs as [tail ->]; rewrite <- ?app_assoc; by eexists.
Qed.

Lemma until_quote_no_quote line : Forall (fun u => u <> QUOTE) (fst (until_quote line)).
Proof.
  induction line as [|u line IH]; cbn [until_quote]; [constructor|].
  destruct (u =? QUOTE) eqn:E; [constructor|]. destruct (until_quote line). cbn in *. bool_to_prop. by constructor.
Qed.

Lemma split_program_ok program args :
  model_split (arg_text program ++ args_text args) = Some (program :: args) -> program_ok program.
Proof.
  unfold model_split. destruct (split_program _) as [p rest] eqn:Hp. intros H.
  apply split_args_prefix in H as [tail H]. injection H as <- _.
  unfold arg_text in Hp. rewrite quote_arg_into_esc in Hp. cbn [app] in Hp. destruct (needs_quote program) eqn:Hq.
  2: { split; [|congruence]. unfold needs_quote in Hq. apply orb_false_iff in Hq as [_ Hq].
       apply existsb_false_Forall in Hq. eapply Forall_impl; [exact Hq|]. intros u Hu. cbn in Hu.
       apply orb_false_iff in Hu as [_ Hu]. by apply Z.eqb_neq. }
  cbn [app split_program] in Hp. rewrite Z.eqb_refl in Hp.
  assert (Forall (fun u => u <> QUOTE) program) as Hf.
  { pose proof (until_quote_no_quote ((esc program 0 ++ replicate (trailing program 0) BACKSLASH ++ [QUOTE]) ++ args_text args)) as Hu.
    by rewrite Hp in Hu. }
  split; [done|]. intros _. rewrite esc_no_quote, <- !app_assoc in Hp by done. rewrite app_assoc in Hp.
  cbn [app] in Hp. rewrite until_quote_spec in Hp.
  - injection Hp as Hp _. apply (f_equal length) in Hp. rewrite length_app, length_replicate in Hp. lia.
  - apply Forall_app_2; [done|]. by apply Forall_replicate.
Qed.

Lemma quote_loop_no_nul arg : forall bs out,
  no_nul arg -> no_nul out -> no_nul (snd (quote_loop arg bs out)).
Proof.
  unfold no_nul. induction arg as [|u arg IH]; intros bs out Ha Ho; [done|]. inversion Ha; subst.
  cbn [quote_loop]. destruct (u =? BACKSLASH); [|destruct (u =? QUOTE)]; apply IH; try done;
    repeat apply Forall_app_2; try done; try by repeat constructor.
  apply Forall_replicate. done.
Qed.

Lemma arg_text_no_nul arg : no_nul arg -> no_nul (arg_text arg).
Proof.
  intros H. unfold arg_text, quote_arg_into.
  pose proof (quote_loop_no_nul arg 0 (if needs_quote arg then [] ++ [QUOTE] else []) H) as Hq.
  destruct (quote_loop _ _ _) as [n out]. cbn [snd] in Hq. unfold no_nul in *.
  destruct (needs_quote arg); [|by apply Hq].
  apply Forall_app_2; [apply Hq; by repeat constructor|]. apply Forall_app_2; [|by repeat constructor].
  by apply Forall_replicate.
Qed.

Lemma double_quotes_no_nul arg : no_nul arg -> no_nul (double_quotes arg).
Proof.
  unfold no_nul. induction 1 as [|u arg Hu _ IH]; cbn [double_quotes]; [done|].
  destruct (u =? QUOTE); cbn [app]; repeat constructor; done.
Qed.

(** Where a successful build comes from, and that nothing in its line ends it
    early. *)
Lemma build_ok_inv program args line :
  build_command_line_wide program args = Ok line ->
  line = arg_text program ++ (match classify program with Executable => args_text args | Batch => batch_text args end) /\
  no_nul line /\ (classify program = Batch -> Forall batch_safe args).
Proof.
  intros H. unfold build_command_line_wide in H. destruct program as [|u p] eqn:Ep; [done|]. rewrite <- Ep in *.
  destruct (contains0 program || existsb contains0 args) eqn:E; [done|]. apply orb_false_iff in E as [E1 E2].
  assert (forall us, contains0 us = false -> no_nul us) as Hc.
  { intros us Hu. apply existsb_false_Forall in Hu. eapply Forall_impl; [exact Hu|].
    intros x Hx. apply Z.eqb_neq in Hx. congruence. }
  apply existsb_false_Forall in E2.
  assert (Forall no_nul args) as Ha by (eapply Forall_impl; [exact E2|auto]).
  fold (arg_text program) in H. destruct (classify program).
  - rewrite quote_args_executable in H. simplify_eq. split; [done|]. split; [|done].
    apply Forall_app_2; [by apply arg_text_no_nul, Hc|].
    apply Forall_concat, Forall_fmap. eapply Forall_impl; [exact Ha|]. intros a Hn. constructor; [done|by apply arg_text_no_nul].
  - destruct (decide (Forall (Forall (fun u => batch_refused u = false)) args)) as [Hs|Hs];
      [rewrite quote_args_batch in H by done|by rewrite quote_args_batch_err in H].
    simplify_eq. split; [done|]. split; [|done]. apply Forall_app_2; [by apply arg_text_no_nul, Hc|].
    apply Forall_concat, Forall_fmap. eapply Forall_impl; [exact Ha|]. intros a Hn. cbn.
    repeat (constructor; [done|]). apply Forall_app_2; [by apply double_quotes_no_nul|by repeat constructor].
Qed.

(** ** Properties *)

(** C1: for an executable target (a program that is not empty and, like the
    arguments, holds any units but NUL), [build_command_line_wide] produces a
    line, and the MSVCRT rules split
    it back into exactly the program and the argument list if and only if the
    program can be named at all by those rules: it holds no quote, and it does
    not end in a backslash when it has to be quoted. *)
Theorem executable_roundtrip (program : list Z) (args : list (list Z)) :
  program <> [] -> classify program = Executable ->
  no_nul program -> Forall no_nul args ->
  exists line, build_command_line_wide program args = Ok line /\
    (model_split line = Some (program :: args) <->
     Forall (fun u => u <> QUOTE) program /\ (needs_quote program = true -> last program <> Some BACKSLASH)).
Proof.
  intros Hne Hc Hn Ha. exists (arg_text program ++ args_text args).
  rewrite build_no_nul, Hc, quote_args_executable by done. split; [done|].
  rewrite <- program_ok_last. split; [apply split_program_ok|apply split_executable].
Qed.

Lemma executable_roundtrip_witness :
  exists line,
    build_command_line_wide (lit "C:\Program Files\x.exe")
      [lit "say " ++ [QUOTE] ++ lit "\" ++ [QUOTE]; []; lit "dir\"; lit "a b\\"] = Ok line /\
    (model_split line = Some [lit "C:\Program Files\x.exe";
      lit "say " ++ [QUOTE] ++ lit "\" ++ [QUOTE]; []; lit "dir\"; lit "a b\\"] <->
     Forall (fun u => u <> QUOTE) (lit "C:\Program Files\x.exe") /\
     (needs_quote (lit "C:\Program Files\x.exe") = true -> last (lit "C:\Program Files\x.exe") <> Some BACKSLASH)).
Proof.
  apply executable_roundtrip; try (vm_compute; congruence).
  - repeat constructor; vm_compute; congruence.
  - repeat constructor; vm_compute; congruence.
Defined.

(** C34: for a batch target, when no argument holds NUL, CR, LF or a percent
    sign the line is the quoted program followed by a text in which the only
    units [cmd.exe] sees outside quotes are the separating spaces, which holds
    none of the refused units, and which reads back as the arguments. *)
Theorem batch_arguments_inert (program : list Z) (args : list (list Z)) :
  program <> [] -> classify program = Batch -> no_nul program ->
  Forall batch_safe args ->
  exists text, build_command_line_wide program args = Ok (arg_text program ++ text) /\
    cmd_scan false text = (false, replicate (length args) SPACE) /\
    batch_safe text /\ cmd_args (length args) text = Some args.
Proof.
  intros Hne Hc Hn Ha. exists (batch_text args).
  rewrite build_no_nul, Hc, quote_args_batch; try done.
  - split; [done|]. split; [apply cmd_scan_text|].
    split; [by apply batch_text_safe | by apply cmd_args_text].
  - eapply Forall_impl; [exact Ha|]. intros arg H. eapply Forall_impl; [exact H|].
    intros u Hu. unfold batch_refused in Hu. rewrite !orb_false_iff in Hu.
    apply Z.eqb_neq. tauto.
Qed.

Lemma batch_arguments_inert_witness :
  exists text,
    build_command_line_wide (lit "C:\s.bat") [lit "a" ++ [QUOTE] ++ lit "&calc"; []]
      = Ok (arg_text (lit "C:\s.bat") ++ text) /\
    cmd_scan false text = (false, [SPACE; SPACE]) /\
    batch_safe text /\ cmd_args 2 text = Some [lit "a" ++ [QUOTE] ++ lit "&calc"; []].
Proof.
  apply (batch_arguments_inert (lit "C:\s.bat") [lit "a" ++ [QUOTE] ++ lit "&calc"; []]);
    try (vm_compute; congruence).
  - repeat constructor; vm_compute; congruence.
  - repeat constructor.
Defined.

(** [build_command_line_wide] succeeds exactly when the program is not
    empty, nothing holds a NUL and, for a batch target, no argument holds a
    refused unit; every refusal is [InvalidInput]. *)
Theorem build_refuses_exactly (program : list Z) (args : list (list Z)) :
  match build_command_line_wide program args with
  | Ok _ => program <> [] /\ no_nul program /\ Forall no_nul args /\
            (classify program = Batch -> Forall batch_safe args)
  | Err e => kind e = InvalidInput /\
            (program = [] \/ ~ no_nul program \/ ~ Forall no_nul args \/
             (classify program = Batch /\ ~ Forall batch_safe args))
  end.
Proof.
  assert (forall us, contains0 us = true -> ~ no_nul us) as Hc0.
  { intros us H Hn. by rewrite contains0_false in H. }
  destruct (decide (program = [])) as [-> | Hne]; [simpl; auto|].
  destruct (decide (Forall (fun u => u <> 0) program)) as [Hp|Hp];
    [destruct (decide (Forall (Forall (fun u => u <> 0)) args)) as [Ha|Ha]|].
  - rewrite build_no_nul by done.
    destruct (classify program).
    + rewrite quote_args_executable. by split_and!.
    + destruct (decide (Forall (Forall (fun u => batch_refused u = false)) args)).
      * rewrite quote_args_batch by done. by split_and!.
      * rewrite quote_args_batch_err by done. simpl. auto 10.
  - unfold build_command_line_wide. destruct program; [done|].
    destruct (existsb contains0 args) eqn:E; [rewrite orb_true_r; simpl; auto|].
    exfalso. apply Ha. apply existsb_false_Forall in E.
    eapply Forall_impl; [exact E|]. intros us Hus. apply existsb_false_Forall in Hus.
    eapply Forall_impl; [exact Hus|]. intros u Hu. apply Z.eqb_neq in Hu. congruence.
  - unfold build_command_line_wide. destruct program as [|u p]; [done|].
    destruct (contains0 (u :: p)) eqn:E; [simpl; auto|].
    exfalso. apply Hp. apply existsb_false_Forall in E.
    eapply Forall_impl; [exact E|]. intros v Hv. apply Z.eqb_neq in Hv. congruence.
Qed.

(** [posix_quote_arg] is always read back by a POSIX shell as one field,
    the argument itself, whatever characters it holds. *)
Theorem posix_quote_roundtrip (arg : list Z) :
  sh_fields (posix_quote_arg arg) false None [] = Some [arg].
Proof.
  unfold posix_quote_arg. destruct arg as [|c arg]; [done|].
  destruct (existsb shell_meta (c :: arg)) eqn:E; cbn [negb].
  - rewrite posix_loop_esc. change (lit "'") with [39]. rewrite <- app_assoc.
    cbn [app sh_fields]. change (39 =? 39) with true. by apply sh_fields_esc.
  - apply existsb_false_Forall in E.
    pose proof (Forall_inv E) as Hc. destruct (sh_plain c Hc) as (E1 & E2 & E3 & E4).
    cbn [sh_fields]. rewrite E1, E2, E3, E4.
    by apply (sh_fields_plain arg [c] []), (Forall_inv_tail E).
Qed.

(** the program token of a batch line is not protected: a batch program
    path without blanks is emitted verbatim, so every unit of it, [%] and
    [&] included, is outside quotes for [cmd.exe]. *)
Theorem batch_program_verbatim (program : list Z) :
  program <> [] -> classify program = Batch -> no_nul program ->
  Forall plain_unit program ->
  build_command_line_wide program [] = Ok program /\
  cmd_scan false program = (false, program).
Proof.
  intros Hne Hc Hn Hp. rewrite build_no_nul, Hc by done. cbn [quote_args].
  assert (needs_quote program = false) as Hq.
  { unfold needs_quote. destruct program; [done|]. apply existsb_false_Forall.
    eapply Forall_impl; [exact Hp|]. intros u (? & ? & ?).
    by rewrite !orb_false_iff, !Z.eqb_neq. }
  unfold arg_text. rewrite quote_arg_into_esc, Hq, esc_no_quote
    by auto using plain_no_quote. split; [done|].
  clear Hq Hn Hc Hne. induction Hp as [|u p (_ & _ & Hu) _ IH]; [done|].
  cbn [cmd_scan]. by rewrite (proj2 (Z.eqb_neq u QUOTE)), IH.
Qed.

Lemma batch_program_verbatim_witness :
  build_command_line_wide (lit "a&%X%.bat") [] = Ok (lit "a&%X%.bat") /\
  cmd_scan false (lit "a&%X%.bat") = (false, lit "a&%X%.bat").
Proof.
  apply batch_program_verbatim; try (vm_compute; congruence).
  - repeat constructor; vm_compute; congruence.
  - repeat constructor; vm_compute; congruence.
Defined.
