(* ===== verification/DBusValue.v ===== *)
(** * The D-Bus type system ([platform-linux/src/sys/dbus/value.rs])

    [Value] and the signature grammar, translated; then the grammar as a
    type ([dtype]) with its printer, the typing relation between values and
    types, and the lemmas that make signatures of types self-delimiting.

    A [String] of the source is a [str] (its UTF-8 bytes); an [f64] is its
    64-bit pattern, which is all [to_le_bytes]/[from_le_bytes] use. *)

From Stdlib Require Import ZArith Lia String.
From S2P Require Import Prelude Error.
From stdpp Require Import base numbers list strings.
Open Scope Z_scope.

Inductive Value :=
  | VByte (x : Z)
  | VBoolean (b : bool)
  | VInt16 (x : Z)
  | VUInt16 (x : Z)
  | VInt32 (x : Z)
  | VUInt32 (x : Z)
  | VInt64 (x : Z)
  | VUInt64 (x : Z)
  | VDouble (bits : Z)
  | VString (s : str)
  | VObjectPath (s : str)
  | VSignature (s : str)
  | VArray (elem_sig : str) (items : list Value)
  | VStruct (fields : list Value)
  | VVariant (v : Value)
  | VDictEntry (k v : Value).

(** Induction with a hypothesis for every element of an array or struct. *)
Section Value_nested_ind.
Variable P : Value -> Prop.
Hypothesis HByte : forall x, P (VByte x).
Hypothesis HBoolean : forall b, P (VBoolean b).
Hypothesis HInt16 : forall x, P (VInt16 x).
Hypothesis HUInt16 : forall x, P (VUInt16 x).
Hypothesis HInt32 : forall x, P (VInt32 x).
Hypothesis HUInt32 : forall x, P (VUInt32 x).
Hypothesis HInt64 : forall x, P (VInt64 x).
Hypothesis HUInt64 : forall x, P (VUInt64 x).
Hypothesis HDouble : forall x, P (VDouble x).
Hypothesis HString : forall s, P (VString s).
Hypothesis HObjectPath : forall s, P (VObjectPath s).
Hypothesis HSignature : forall s, P (VSignature s).
Hypothesis HArray : forall es items, Forall P items -> P (VArray es items).
Hypothesis HStruct : forall fields, Forall P fields -> P (VStruct fields).
Hypothesis HVariant : forall v, P v -> P (VVariant v).
Hypothesis HDictEntry : forall k v, P k -> P v -> P (VDictEntry k v).

Fixpoint Value_nested_ind (v : Value) : P v :=
  let all := fix all (vs : list Value) : Forall P vs :=
    match vs with
    | [] => Forall_nil_2 P
    | v :: vs' => Forall_cons_2 P v vs' (Value_nested_ind v) (all vs')
    end in
  match v with
  | VByte x => HByte x
  | VBoolean b => HBoolean b
  | VInt16 x => HInt16 x
  | VUInt16 x => HUInt16 x
  | VInt32 x => HInt32 x
  | VUInt32 x => HUInt32 x
  | VInt64 x => HInt64 x
  | VUInt64 x => HUInt64 x
  | VDouble x => HDouble x
  | VString s => HString s
  | VObjectPath s => HObjectPath s
  | VSignature s => HSignature s
  | VArray es items => HArray es items (all items)
  | VStruct fields => HStruct fields (all fields)
  | VVariant v => HVariant v (Value_nested_ind v)
  | VDictEntry k v => HDictEntry k v (Value_nested_ind k) (Value_nested_ind v)
  end.
End Value_nested_ind.

Fixpoint Value_eq_dec (v w : Value) : {v = w} + {v <> w}.
Proof.
  decide equality; first [apply Z.eq_dec | apply Bool.bool_dec
    | exact (List.list_eq_dec Z.eq_dec _ _)
    | exact (List.list_eq_dec Value_eq_dec _ _)].
Defined.
#[export] Instance Value_eq_decision : EqDecision Value := Value_eq_dec.

Definition bad_signature (detail : string) : PlatformError :=
  error_new InvalidInput NoCode detail.

(** Signature characters. *)
Definition c_array : Z := 97.
Definition c_lparen : Z := 40.
Definition c_rparen : Z := 41.
Definition c_lbrace : Z := 123.
Definition c_rbrace : Z := 125.
Definition c_variant : Z := 118.

(** [b"ynqiuxtdbsogv"]: the one-character type codes [type_len] accepts. *)
Definition is_single (c : Z) : bool := existsb (Z.eqb c) (lit "ybnqiuxtdsogv").

Definition align_of (type_char : Z) : Z :=
  if existsb (Z.eqb type_char) (lit "ygv") then 1
  else if existsb (Z.eqb type_char) (lit "nq") then 2
  else if existsb (Z.eqb type_char) (lit "biusoa") then 4
  else if existsb (Z.eqb type_char) (lit "xtd({") then 8
  else 1.

(** The [for (i, &b) in sig.iter().enumerate()] loop of [bracketed_len]. *)
Fixpoint bracket_loop (sig : list Z) (open close : Z) (depth i : Z) : Result Z :=
  match sig with
  | [] => Err (bad_signature "unterminated container type")
  | b :: sig' =>
    if b =? open then bracket_loop sig' open close (depth + 1) (i + 1)
    else if b =? close then
      if depth - 1 =? 0 then Ok (i + 1)
      else bracket_loop sig' open close (depth - 1) (i + 1)
    else bracket_loop sig' open close depth (i + 1)
  end.

Definition bracketed_len (sig : list Z) (open close : Z) : Result Z :=
  bracket_loop sig open close 0 0.

Fixpoint type_len (sig : list Z) : Result Z :=
  match sig with
  | [] => Err (bad_signature "empty signature where a type was expected")
  | first :: sig' =>
    if first =? c_array then let? n := type_len sig' in Ok (1 + n)
    else if first =? c_lparen then bracketed_len sig c_lparen c_rparen
    else if first =? c_lbrace then bracketed_len sig c_lbrace c_rbrace
    else if is_single first then Ok 1
    else Err (bad_signature "unrecognized or unsupported type code")
  end.

(** [str::split_at] panics off a character boundary. *)
Definition split_one (sig : str) : Run (str * str) :=
  match type_len sig with
  | Err e => fail e
  | Ok n =>
    if (n <=? zlen sig) && is_char_boundary sig n
    then ret (take (Z.to_nat n) sig, drop (Z.to_nat n) sig)
    else Panic
  end.

Fixpoint signature_of (v : Value) : str :=
  match v with
  | VByte _ => lit "y"
  | VBoolean _ => lit "b"
  | VInt16 _ => lit "n"
  | VUInt16 _ => lit "q"
  | VInt32 _ => lit "i"
  | VUInt32 _ => lit "u"
  | VInt64 _ => lit "x"
  | VUInt64 _ => lit "t"
  | VDouble _ => lit "d"
  | VString _ => lit "s"
  | VObjectPath _ => lit "o"
  | VSignature _ => lit "g"
  | VArray elem_sig _ => lit "a" ++ elem_sig
  | VStruct fields => lit "(" ++ concat (map signature_of fields) ++ lit ")"
  | VVariant _ => lit "v"
  | VDictEntry k val => lit "{" ++ signature_of k ++ signature_of val ++ lit "}"
  end.

Example type_len_ex :
  type_len (lit "a{sv}") = Ok 5 /\ type_len (lit "(iu)s") = Ok 4 /\
  type_len (lit "a(a{sv}as)i") = Ok 10 /\
  is_ok (type_len (lit "(iu")) = false /\ is_ok (type_len (lit "Q")) = false.
Proof. vm_compute. auto. Qed.

(** ** The grammar of complete types *)

Inductive dtype :=
  | TBasic (c : Z)
  | TVariant
  | TArray (t : dtype)
  | TStruct (ts : list dtype)
  | TDict (k : Z) (t : dtype).

Section dtype_nested_ind.
Variable P : dtype -> Prop.
Hypothesis HBasic : forall c, P (TBasic c).
Hypothesis HVariant : P TVariant.
Hypothesis HArray : forall t, P t -> P (TArray t).
Hypothesis HStruct : forall ts, Forall P ts -> P (TStruct ts).
Hypothesis HDict : forall k t, P t -> P (TDict k t).

Fixpoint dtype_nested_ind (t : dtype) : P t :=
  let all := fix all (ts : list dtype) : Forall P ts :=
    match ts with
    | [] => Forall_nil_2 P
    | t :: ts' => Forall_cons_2 P t ts' (dtype_nested_ind t) (all ts')
    end in
  match t with
  | TBasic c => HBasic c
  | TVariant => HVariant
  | TArray t => HArray t (dtype_nested_ind t)
  | TStruct ts => HStruct ts (all ts)
  | TDict k t => HDict k t (dtype_nested_ind t)
  end.
End dtype_nested_ind.

Definition is_basic (c : Z) : bool := existsb (Z.eqb c) (lit "ybnqiuxtdsog").

Fixpoint print_type (t : dtype) : str :=
  match t with
  | TBasic c => [c]
  | TVariant => [c_variant]
  | TArray t => c_array :: print_type t
  | TStruct ts => c_lparen :: concat (map print_type ts) ++ [c_rparen]
  | TDict k t => c_lbrace :: k :: print_type t ++ [c_rbrace]
  end.

Definition print_types (ts : list dtype) : str := concat (map print_type ts).

(** Structs are not empty: the D-Bus specification forbids [()]. *)
Fixpoint type_ok (t : dtype) : bool :=
  match t with
  | TBasic c => is_basic c
  | TVariant => true
  | TArray t => type_ok t
  | TStruct ts => negb (match ts with [] => true | _ => false end) && forallb type_ok ts
  | TDict k t => is_basic k && type_ok t
  end.

Definition bracket_pair (open close : Z) : Prop :=
  (open = c_lparen /\ close = c_rparen) \/ (open = c_lbrace /\ close = c_rbrace).

(** A basic code is none of the structural characters, and ASCII. *)
Lemma is_basic_spec c :
  is_basic c = true ->
  is_single c = true /\ c <> c_array /\ c <> c_variant /\ c <> c_lparen /\
  c <> c_rparen /\ c <> c_lbrace /\ c <> c_rbrace /\ is_ascii c = true.
Proof.
  unfold is_basic. intros H. apply existsb_true_Exists in H.
  repeat (apply Exists_cons in H as [H|H];
    [apply Z.eqb_eq in H; subst; by vm_compute|]).
  by apply Exists_nil in H.
Qed.

Lemma bracket_other open close b sig d i :
  b <> open -> b <> close ->
  bracket_loop (b :: sig) open close d i = bracket_loop sig open close d (i + 1).
Proof.
  intros H1 H2. cbn [bracket_loop].
  by rewrite (proj2 (Z.eqb_neq b open)), (proj2 (Z.eqb_neq b close)).
Qed.

Lemma bracket_open open close sig d i :
  bracket_loop (open :: sig) open close d i = bracket_loop sig open close (d + 1) (i + 1).
Proof. cbn [bracket_loop]. by rewrite Z.eqb_refl. Qed.

Lemma bracket_close open close sig d i :
  bracket_pair open close -> d <> 1 ->
  bracket_loop (close :: sig) open close d i = bracket_loop sig open close (d - 1) (i + 1).
Proof.
  intros [[-> ->]|[-> ->]] Hd; cbn [bracket_loop]; simpl;
    by rewrite (proj2 (Z.eqb_neq (d - 1) 0)) by lia.
Qed.

Lemma bracket_done open close sig i :
  bracket_pair open close -> bracket_loop (close :: sig) open close 1 i = Ok (i + 1).
Proof. by intros [[-> ->]|[-> ->]]. Qed.

(** Scanning past a complete type leaves the depth as it was. *)
Definition skips (t : dtype) : Prop :=
  forall open close rest d i, bracket_pair open close -> 1 <= d ->
  bracket_loop (print_type t ++ rest) open close d i =
  bracket_loop rest open close d (i + zlen (print_type t)).

Lemma bracket_skip_list ts : Forall skips ts ->
  forall open close rest d i, bracket_pair open close -> 1 <= d ->
  bracket_loop (print_types ts ++ rest) open close d i =
  bracket_loop rest open close d (i + zlen (print_types ts)).
Proof.
  induction 1 as [|t ts Ht _ IH]; intros open close rest d i Hp Hd.
  - simpl. f_equal. lia.
  - unfold print_types. cbn [map concat]. rewrite <- app_assoc, Ht by done.
    unfold print_types in IH. rewrite IH by done.
    autorewrite with rust_rw. f_equal. lia.
Qed.

(** Scan a bracketed body of the same or of the other kind. *)
Lemma bracket_nested open close o c body rest d i :
  bracket_pair open close -> bracket_pair o c -> 1 <= d ->
  (forall rest d i, 1 <= d -> bracket_loop (body ++ rest) open close d i =
     bracket_loop rest open close d (i + zlen body)) ->
  bracket_loop (o :: body ++ [c] ++ rest) open close d i =
  bracket_loop rest open close d (i + zlen (o :: body ++ [c])).
Proof.
  intros Hp Hq Hd Hb. autorewrite with rust_rw. cbn [length].
  assert ((o = open /\ c = close) \/ (o <> open /\ o <> close /\ c <> open /\ c <> close))
    as [[-> ->] | (H1 & H2 & H3 & H4)].
  { destruct Hp as [[-> ->]|[-> ->]], Hq as [[-> ->]|[-> ->]];
      first [by left | by right]. }
  - rewrite bracket_open, Hb by lia. cbn [app]. rewrite bracket_close by (done || lia).
    f_equal; lia.
  - rewrite bracket_other, Hb by (done || lia). cbn [app].
    rewrite bracket_other by done. f_equal; lia.
Qed.

Lemma paren_pair : bracket_pair c_lparen c_rparen.
Proof. by left. Qed.
Lemma brace_pair : bracket_pair c_lbrace c_rbrace.
Proof. by right. Qed.

Lemma forallb_Forall_imp {A} (f : A -> bool) (P Q : A -> Prop) l :
  forallb f l = true -> (forall x, f x = true -> P x -> Q x) -> Forall P l -> Forall Q l.
Proof.
  intros Hf HPQ. induction 1 as [|x l Hx _ IH]; [constructor|].
  simpl in Hf. apply andb_true_iff in Hf as [? ?]. constructor; auto.
Qed.

Lemma bracket_skip t : type_ok t = true -> skips t.
Proof.
  induction t as [c| |t IH|ts IH|k t IH] using dtype_nested_ind; intros Hok
    open close rest d i Hp Hd; cbn [print_type type_ok] in *.
  - destruct (is_basic_spec c Hok) as (_ & _ & _ & ? & ? & ? & ? & _).
    cbn [app]. rewrite bracket_other; [f_equal; simpl; lia| |];
      by destruct Hp as [[-> ->]|[-> ->]].
  - cbn [app]. rewrite bracket_other; [f_equal; simpl; lia| |];
      by destruct Hp as [[-> ->]|[-> ->]].
  - cbn [app]. rewrite bracket_other; [|by destruct Hp as [[-> ->]|[-> ->]]..].
    rewrite IH by done. f_equal. simpl. lia.
  - apply andb_true_iff in Hok as [_ Hok].
    assert (Forall skips ts) as Hts by (by eapply forallb_Forall_imp; [exact Hok| |exact IH]; auto).
    cbn [app]. rewrite <- app_assoc. apply bracket_nested; auto using paren_pair.
    intros. by apply bracket_skip_list.
  - apply andb_true_iff in Hok as [Hk Hok]. specialize (IH Hok).
    destruct (is_basic_spec k Hk) as (_ & _ & _ & ? & ? & ? & ? & _).
    cbn [app]. rewrite <- app_assoc.
    change (k :: print_type t ++ [c_rbrace] ++ rest)
      with ((k :: print_type t) ++ [c_rbrace] ++ rest).
    change (k :: print_type t ++ [c_rbrace]) with ((k :: print_type t) ++ [c_rbrace]).
    apply bracket_nested; auto using brace_pair.
    intros rest' d' i' Hd'. cbn [app].
    rewrite bracket_other; [|by destruct Hp as [[-> ->]|[-> ->]]..].
    rewrite IH by done. f_equal. simpl. lia.
Qed.

(** The printed type is self-delimiting for [type_len]. *)
Lemma type_len_print t rest :
  type_ok t = true -> type_len (print_type t ++ rest) = Ok (zlen (print_type t)).
Proof.
  intros Hok. induction t as [c| |t IH|ts|k t _]; cbn [print_type type_ok] in *.
  - destruct (is_basic_spec c Hok) as (Hs & H1 & _ & H2 & _ & H3 & _).
    cbn [app type_len]. rewrite (proj2 (Z.eqb_neq c c_array)),
      (proj2 (Z.eqb_neq c c_lparen)), (proj2 (Z.eqb_neq c c_lbrace)), Hs by done. done.
  - done.
  - cbn [app type_len]. rewrite Z.eqb_refl, IH by done. f_equal. simpl. lia.
  - apply andb_true_iff in Hok as [_ Hok].
    change (type_len ((c_lparen :: concat (map print_type ts) ++ [c_rparen]) ++ rest))
      with (bracket_loop ((c_lparen :: print_types ts ++ [c_rparen]) ++ rest) c_lparen c_rparen 0 0).
    cbn [app]. rewrite bracket_open, <- app_assoc, bracket_skip_list
      by (lia || (left; done) || by apply List.Forall_forall; intros t Ht;
          apply bracket_skip; rewrite forallb_forall in Hok; auto).
    cbn [app]. rewrite bracket_done by (by left). f_equal.
    unfold print_types. autorewrite with rust_rw. simpl. lia.
  - apply andb_true_iff in Hok as [Hk Hok].
    change (type_len ((c_lbrace :: k :: print_type t ++ [c_rbrace]) ++ rest))
      with (bracket_loop ((c_lbrace :: k :: print_type t ++ [c_rbrace]) ++ rest) c_lbrace c_rbrace 0 0).
    destruct (is_basic_spec k Hk) as (_ & _ & _ & _ & _ & ? & ? & _).
    cbn [app]. rewrite bracket_open, bracket_other by done.
    rewrite <- app_assoc, (bracket_skip t Hok) by (lia || by right).
    cbn [app]. rewrite bracket_done by (by right). f_equal.
    autorewrite with rust_rw. simpl. lia.
Qed.

Lemma print_type_ascii t : type_ok t = true -> Forall (fun b => is_ascii b = true) (print_type t).
Proof.
  induction t as [c| |t IH|ts IH|k t IH] using dtype_nested_ind; intros Hok; cbn [print_type type_ok] in *.
  - constructor; [|constructor]. by destruct (is_basic_spec c Hok) as (_&_&_&_&_&_&_&?).
  - by repeat constructor.
  - constructor; auto.
  - apply andb_true_iff in Hok as [_ Hok]. constructor; [done|].
    apply Forall_app. split; [|by repeat constructor].
    assert (Forall (fun t => Forall (fun b => is_ascii b = true) (print_type t)) ts) as H
      by (eapply forallb_Forall_imp; [exact Hok| |exact IH]; auto).
    clear -H. induction H; simpl; [constructor|]. by apply Forall_app.
  - apply andb_true_iff in Hok as [Hk Hok]. constructor; [done|].
    constructor; [by destruct (is_basic_spec k Hk) as (_&_&_&_&_&_&_&?)|].
    apply Forall_app. split; [auto|by repeat constructor].
Qed.

Lemma print_types_ascii ts :
  forallb type_ok ts = true -> Forall (fun b => is_ascii b = true) (print_types ts).
Proof.
  induction ts as [|t ts IH]; [constructor|]. simpl. intros H.
  apply andb_true_iff in H as [? ?]. apply Forall_app. auto using print_type_ascii.
Qed.

Lemma print_type_nonempty t : print_type t <> [].
Proof. destruct t; done. Qed.

(** Every position of an ASCII string is a character boundary. *)
Lemma ascii_boundary s i :
  Forall (fun b => is_ascii b = true) s -> 0 <= i <= zlen s -> is_char_boundary s i = true.
Proof.
  intros Hs Hi. unfold is_char_boundary.
  destruct (i =? 0) eqn:E0; [done|]. destruct (i =? zlen s) eqn:E1; [done|].
  bool_to_prop. destruct (lookup_lt_is_Some_2 s (Z.to_nat i)) as [b Hb]; [lia|].
  rewrite Hb. apply (Forall_lookup_1 _ _ _ _ Hs) in Hb.
  unfold is_ascii in Hb. bool_to_prop. unfold is_cont.
  rewrite (proj2 (Z.leb_le 0 i)), (proj2 (Z.leb_gt 128 b)) by lia. done.
Qed.

Lemma ascii_slice s i j :
  Forall (fun b => is_ascii b = true) s -> 0 <= i <= j -> j <= zlen s ->
  str_slice s i j = Some (take (Z.to_nat (j - i)) (drop (Z.to_nat i) s)).
Proof.
  intros Hs Hi Hj. unfold str_slice.
  rewrite !ascii_boundary by (done || lia).
  rewrite (proj2 (Z.leb_le i j)), (proj2 (Z.leb_le j _)) by lia. done.
Qed.

(** [split_one] peels one complete type off a concatenation of types. *)
Lemma split_one_print t ts :
  type_ok t = true -> forallb type_ok ts = true ->
  split_one (print_type t ++ print_types ts) = ret (print_type t, print_types ts).
Proof.
  intros Ht Hts. unfold split_one. rewrite type_len_print by done.
  rewrite ascii_boundary.
  - rewrite (proj2 (Z.leb_le _ _)) by (autorewrite with rust_rw; lia).
    rewrite Nat2Z.id, take_app_length, drop_app_length. done.
  - apply Forall_app. auto using print_type_ascii, print_types_ascii.
  - autorewrite with rust_rw. lia.
Qed.
