(* ===== verification/DBusWire.v ===== *)
(** * D-Bus marshaling ([platform-linux/src/sys/dbus/wire.rs])

    [marshal]/[marshal_one] and [unmarshal]/[unmarshal_one], translated: a
    [&mut Vec<u8>] is threaded as the buffer built so far, a [&mut usize]
    as the offset.  Marshaling recurses on the value; unmarshaling recurses
    on data read from the wire, so it takes fuel, and its theorems say when
    fuel suffices.  [enc] is the specification of the encoding: what a value
    contributes at a given message position. *)

From Stdlib Require Import ZArith Lia String.
From S2P Require Import Prelude Error DBusValue.
From stdpp Require Import base numbers list strings.
Open Scope Z_scope.

Definition truncated : PlatformError :=
  error_new InvalidInput NoCode "D-Bus message truncated (need more bytes)".

(** [while buf.len() % align != 0 { buf.push(0) }]: at most [align - 1]
    rounds, so [align] is fuel enough. *)
Fixpoint pad_loop (fuel : nat) (buf : list Z) (align : Z) : list Z :=
  if zlen buf mod align =? 0 then buf
  else match fuel with
       | O => buf
       | S fuel => pad_loop fuel (buf ++ [0]) align
       end.
Definition pad_to (buf : list Z) (align : Z) : list Z := pad_loop (Z.to_nat align) buf align.

(** [&buf[offset..offset + n]] in bounds. *)
Definition sub_bytes (buf : list Z) (offset n : Z) : list Z :=
  take (Z.to_nat n) (drop (Z.to_nat offset) buf).

(** [take], as [take_bytes]. *)
Definition take_bytes (buf : list Z) (offset n : Z) : Run (list Z * Z) :=
  if offset + n >? zlen buf then fail truncated
  else ret (sub_bytes buf offset n, offset + n).

Definition align_read (buf : list Z) (offset align : Z) : Run Z :=
  let target := (offset + align - 1) / align * align in
  if target >? zlen buf then fail truncated else ret target.

(** ** Marshaling *)

Definition mismatch {A} : Run A := fail (bad_signature "value does not match signature").

Section marshal_lists.
Variable marshal_one : str -> Value -> list Z -> Run (list Z).

(** The body of [marshal]: one value per complete type of the signature. *)
Fixpoint marshal_values (sig : str) (values : list Value) (buf : list Z) : Run (list Z) :=
  match values with
  | [] =>
    match sig with
    | [] => ret buf
    | _ => do! _ := split_one sig in
           fail (bad_signature "fewer values than the signature requires")
    end
  | v :: values' =>
    match sig with
    | [] => fail (bad_signature "more values than the signature requires")
    | _ => do! (this_ty, rest) := split_one sig in
           do! buf := marshal_one this_ty v buf in
           marshal_values rest values' buf
    end
  end.

Fixpoint marshal_items (elem_sig : str) (items : list Value) (buf : list Z) : Run (list Z) :=
  match items with
  | [] => ret buf
  | item :: items' =>
    do! buf := marshal_one elem_sig item buf in
    marshal_items elem_sig items' buf
  end.
End marshal_lists.

(** The [b'g'] arm, shared with the [b'v'] arm's call on ["g"]. *)
Definition put_signature (s : str) (buf : list Z) : list Z :=
  buf ++ [wrap 8 (zlen s)] ++ s ++ [0].

(** [buf[pos..pos + 4].copy_from_slice(bytes)]. *)
Definition patch4 (buf : list Z) (pos : Z) (bytes : list Z) : list Z :=
  take (Z.to_nat pos) buf ++ bytes ++ drop (Z.to_nat pos + 4) buf.

Fixpoint marshal_one (ty : str) (v : Value) (buf : list Z) {struct v} : Run (list Z) :=
  match ty with
  | [] => Panic
  | c :: _ =>
    if c =? 121 (* y *) then
      match v with VByte x => ret (buf ++ [x]) | _ => mismatch end
    else if c =? 98 (* b *) then
      match v with
      | VBoolean x => ret (pad_to buf 4 ++ le_bytes 4 (if x then 1 else 0))
      | _ => mismatch
      end
    else if c =? 110 (* n *) then
      match v with VInt16 x => ret (pad_to buf 2 ++ le_bytes 2 (wrap 16 x)) | _ => mismatch end
    else if c =? 113 (* q *) then
      match v with VUInt16 x => ret (pad_to buf 2 ++ le_bytes 2 x) | _ => mismatch end
    else if c =? 105 (* i *) then
      match v with VInt32 x => ret (pad_to buf 4 ++ le_bytes 4 (wrap 32 x)) | _ => mismatch end
    else if c =? 117 (* u *) then
      match v with VUInt32 x => ret (pad_to buf 4 ++ le_bytes 4 x) | _ => mismatch end
    else if c =? 120 (* x *) then
      match v with VInt64 x => ret (pad_to buf 8 ++ le_bytes 8 (wrap 64 x)) | _ => mismatch end
    else if c =? 116 (* t *) then
      match v with VUInt64 x => ret (pad_to buf 8 ++ le_bytes 8 x) | _ => mismatch end
    else if c =? 100 (* d *) then
      match v with VDouble x => ret (pad_to buf 8 ++ le_bytes 8 x) | _ => mismatch end
    else if (c =? 115) || (c =? 111) (* s, o *) then
      match v with
      | VString s | VObjectPath s =>
        ret (pad_to buf 4 ++ le_bytes 4 (wrap 32 (zlen s)) ++ s ++ [0])
      | _ => mismatch
      end
    else if c =? 103 (* g *) then
      match v with VSignature s => ret (put_signature s buf) | _ => mismatch end
    else if c =? c_array then
      match v with
      | VArray elem_sig items =>
        let buf := pad_to buf 4 in
        do! tail := or_panic (str_slice ty 1 (zlen ty)) in
        if bool_decide (elem_sig <> tail)
        then fail (bad_signature "array element signature does not match its own value's")
        else
          let len_pos := zlen buf in
          let buf := buf ++ [0; 0; 0; 0] in
          match elem_sig with
          | [] => Panic
          | e :: _ =>
            let buf := pad_to buf (align_of e) in
            let content_start := zlen buf in
            do! buf := marshal_items marshal_one elem_sig items buf in
            let content_len := wrap 32 (zlen buf - content_start) in
            ret (patch4 buf len_pos (le_bytes 4 content_len))
          end
      | _ => mismatch
      end
    else if c =? c_lparen then
      match v with
      | VStruct fields =>
        do! inner := or_panic (str_slice ty 1 (zlen ty - 1)) in
        marshal_values marshal_one inner fields (pad_to buf 8)
      | _ => mismatch
      end
    else if c =? c_variant then
      match v with
      | VVariant inner =>
        let inner_sig := signature_of inner in
        marshal_one inner_sig inner (put_signature inner_sig buf)
      | _ => mismatch
      end
    else if c =? c_lbrace then
      match v with
      | VDictEntry k val =>
        do! kty := or_panic (str_slice ty 1 2) in
        do! buf := marshal_one kty k (pad_to buf 8) in
        do! vty := or_panic (str_slice ty 2 (zlen ty - 1)) in
        marshal_one vty val buf
      | _ => mismatch
      end
    else fail (bad_signature "unsupported type code")
  end.

Definition marshal (sig : str) (values : list Value) (buf : list Z) : Run (list Z) :=
  marshal_values marshal_one sig values buf.

(** ** Unmarshaling *)

(** The [num!] macro: align, take [n] bytes, build the variant. *)
Definition read_num (buf : list Z) (offset align n : Z) (mk : Z -> Value) : Run (Value * Z) :=
  do! offset := align_read buf offset align in
  do! (bytes, offset) := take_bytes buf offset n in
  ret (mk (le_val bytes), offset).

Fixpoint unmarshal_one (fuel : nat) (ty : str) (buf : list Z) (offset : Z)
    {struct fuel} : Run (Value * Z) :=
  match fuel with
  | O => OutOfFuel
  | S fuel =>
  match ty with
  | [] => Panic
  | c :: _ =>
    if c =? 121 (* y *) then
      do! (bytes, offset) := take_bytes buf offset 1 in
      ret (VByte (le_val bytes), offset)
    else if c =? 98 (* b *) then
      read_num buf offset 4 4 (fun x => VBoolean (negb (x =? 0)))
    else if c =? 110 (* n *) then read_num buf offset 2 2 (fun x => VInt16 (sign 16 x))
    else if c =? 113 (* q *) then read_num buf offset 2 2 VUInt16
    else if c =? 105 (* i *) then read_num buf offset 4 4 (fun x => VInt32 (sign 32 x))
    else if c =? 117 (* u *) then read_num buf offset 4 4 VUInt32
    else if c =? 120 (* x *) then read_num buf offset 8 8 (fun x => VInt64 (sign 64 x))
    else if c =? 116 (* t *) then read_num buf offset 8 8 VUInt64
    else if c =? 100 (* d *) then read_num buf offset 8 8 VDouble
    else if (c =? 115) || (c =? 111) (* s, o *) then
      do! offset := align_read buf offset 4 in
      do! (len_bytes, offset) := take_bytes buf offset 4 in
      do! (s, offset) := take_bytes buf offset (le_val len_bytes) in
      do! (_, offset) := take_bytes buf offset 1 in
      if utf8_valid s
      then ret ((if c =? 115 then VString s else VObjectPath s), offset)
      else fail (bad_signature "string body is not valid UTF-8")
    else if c =? 103 (* g *) then
      do! (len, offset) := take_bytes buf offset 1 in
      do! (s, offset) := take_bytes buf offset (le_val len) in
      do! (_, offset) := take_bytes buf offset 1 in
      if utf8_valid s then ret (VSignature s, offset)
      else fail (bad_signature "signature body is not valid UTF-8")
    else if c =? c_array then
      do! offset := align_read buf offset 4 in
      do! (len_bytes, offset) := take_bytes buf offset 4 in
      let byte_len := le_val len_bytes in
      do! elem_sig := or_panic (str_slice ty 1 (zlen ty)) in
      match elem_sig with
      | [] => Panic
      | e :: _ =>
        do! offset := align_read buf offset (align_of e) in
        let content_end := offset + byte_len in
        if content_end >? zlen buf then fail truncated
        else
          do! (items, offset) := unmarshal_items fuel elem_sig buf offset content_end in
          if offset =? content_end then ret (VArray elem_sig items, offset)
          else fail (bad_signature
            "array element did not end exactly at the declared length")
      end
    else if c =? c_lparen then
      do! offset := align_read buf offset 8 in
      do! inner := or_panic (str_slice ty 1 (zlen ty - 1)) in
      do! (fields, offset) := unmarshal_fuel fuel inner buf offset in
      ret (VStruct fields, offset)
    else if c =? c_variant then
      do! (g, offset) := unmarshal_one fuel (lit "g") buf offset in
      match g with
      | VSignature inner_sig =>
        do! n := Done (type_len inner_sig) in
        if n =? zlen inner_sig then
          do! (inner, offset) := unmarshal_one fuel inner_sig buf offset in
          ret (VVariant inner, offset)
        else fail (bad_signature "variant signature is not a single complete type")
      | _ => Panic
      end
    else if c =? c_lbrace then
      do! offset := align_read buf offset 8 in
      do! inner := or_panic (str_slice ty 1 (zlen ty - 1)) in
      do! (key_ty, val_ty) := split_one inner in
      do! (key, offset) := unmarshal_one fuel key_ty buf offset in
      do! (val, offset) := unmarshal_one fuel val_ty buf offset in
      ret (VDictEntry key val, offset)
    else fail (bad_signature "unsupported type code")
  end
  end
with unmarshal_fuel (fuel : nat) (sig : str) (buf : list Z) (offset : Z)
    {struct fuel} : Run (list Value * Z) :=
  match fuel with
  | O => OutOfFuel
  | S fuel =>
    match sig with
    | [] => ret ([], offset)
    | _ =>
      do! (this_ty, rest) := split_one sig in
      do! (v, offset) := unmarshal_one fuel this_ty buf offset in
      do! (vs, offset) := unmarshal_fuel fuel rest buf offset in
      ret (v :: vs, offset)
    end
  end
with unmarshal_items (fuel : nat) (elem_sig : str) (buf : list Z) (offset content_end : Z)
    {struct fuel} : Run (list Value * Z) :=
  match fuel with
  | O => OutOfFuel
  | S fuel =>
    if offset <? content_end then
      do! (v, offset) := unmarshal_one fuel elem_sig buf offset in
      do! (vs, offset) := unmarshal_items fuel elem_sig buf offset content_end in
      ret (v :: vs, offset)
    else ret ([], offset)
  end.

(** ** The source's unit tests, evaluated *)

Example marshal_ex :
  marshal (lit "u") [VUInt32 1] [170] = ret [170; 0; 0; 0; 1; 0; 0; 0] /\
  marshal (lit "s") [VString (lit "hi")] [] = ret [2; 0; 0; 0; 104; 105; 0] /\
  marshal (lit "(yu)") [VStruct [VByte 1; VUInt32 2]] [0; 0; 0] =
    ret [0; 0; 0; 0; 0; 0; 0; 0; 1; 0; 0; 0; 2; 0; 0; 0] /\
  marshal (lit "at") [VArray (lit "t") [VUInt64 7]] [] =
    ret [8; 0; 0; 0; 0; 0; 0; 0; 7; 0; 0; 0; 0; 0; 0; 0] /\
  marshal (lit "v") [VVariant (VUInt32 42)] [] = ret [1; 117; 0; 0; 42; 0; 0; 0].
Proof. vm_compute. auto. Qed.

Example unmarshal_ex :
  unmarshal_fuel 20 (lit "a{sv}")
    match marshal (lit "a{sv}") [VArray (lit "{sv}")
       [VDictEntry (VString (lit "k1")) (VVariant (VString (lit "v1")));
        VDictEntry (VString (lit "k2")) (VVariant (VUInt32 9))]] []
    with ret b => b | _ => [] end 0
  = ret ([VArray (lit "{sv}")
       [VDictEntry (VString (lit "k1")) (VVariant (VString (lit "v1")));
        VDictEntry (VString (lit "k2")) (VVariant (VUInt32 9))]], 48).
Proof. vm_compute. reflexivity. Qed.
