(* ===== verification/DBusEnc.v ===== *)
(** * The D-Bus encoding: specification, refinement, round trip

    [enc] says what bytes a value contributes at a given message position;
    [has_type] which values a complete type describes.  [marshal] refines
    [enc], [unmarshal] inverts it, and whatever [unmarshal] accepts from the
    wire has the type it was asked for. *)

From Stdlib Require Import ZArith Lia String.
From S2P Require Import Prelude Error DBusValue DBusWire.
From stdpp Require Import base numbers list strings.
Open Scope Z_scope.

(** ** Specification *)

Definition pad (pos a : Z) : list Z := replicate (Z.to_nat ((- pos) mod a)) 0.

Section enc_list.
Variable enc : Value -> Z -> list Z.
Fixpoint enc_list (vs : list Value) (pos : Z) : list Z :=
  match vs with
  | [] => []
  | v :: vs' => enc v pos ++ enc_list vs' (pos + zlen (enc v pos))
  end.
End enc_list.

Definition enc_sig (s : str) : list Z := [zlen s] ++ s ++ [0].

Fixpoint enc (v : Value) (pos : Z) : list Z :=
  match v with
  | VByte x => [x]
  | VBoolean b => pad pos 4 ++ le_bytes 4 (if b then 1 else 0)
  | VInt16 x => pad pos 2 ++ le_bytes 2 (wrap 16 x)
  | VUInt16 x => pad pos 2 ++ le_bytes 2 x
  | VInt32 x => pad pos 4 ++ le_bytes 4 (wrap 32 x)
  | VUInt32 x => pad pos 4 ++ le_bytes 4 x
  | VInt64 x => pad pos 8 ++ le_bytes 8 (wrap 64 x)
  | VUInt64 x => pad pos 8 ++ le_bytes 8 x
  | VDouble x => pad pos 8 ++ le_bytes 8 x
  | VString s | VObjectPath s => pad pos 4 ++ le_bytes 4 (zlen s) ++ s ++ [0]
  | VSignature s => enc_sig s
  | VArray elem_sig items =>
    let a := align_of (default 0 (head elem_sig)) in
    let start := pos + zlen (pad pos 4) + 4 in
    let body := enc_list enc items (start + zlen (pad start a)) in
    pad pos 4 ++ le_bytes 4 (zlen body) ++ pad start a ++ body
  | VStruct fields => pad pos 8 ++ enc_list enc fields (pos + zlen (pad pos 8))
  | VVariant v =>
    let h := enc_sig (signature_of v) in
    h ++ enc v (pos + zlen h)
  | VDictEntry k v =>
    let p := pos + zlen (pad pos 8) in
    pad pos 8 ++ enc k p ++ enc v (p + zlen (enc k p))
  end.

Inductive has_type : Value -> dtype -> Prop :=
  | HT_Byte x : in_u 8 x -> has_type (VByte x) (TBasic 121)
  | HT_Boolean b : has_type (VBoolean b) (TBasic 98)
  | HT_Int16 x : in_i 16 x -> has_type (VInt16 x) (TBasic 110)
  | HT_UInt16 x : in_u 16 x -> has_type (VUInt16 x) (TBasic 113)
  | HT_Int32 x : in_i 32 x -> has_type (VInt32 x) (TBasic 105)
  | HT_UInt32 x : in_u 32 x -> has_type (VUInt32 x) (TBasic 117)
  | HT_Int64 x : in_i 64 x -> has_type (VInt64 x) (TBasic 120)
  | HT_UInt64 x : in_u 64 x -> has_type (VUInt64 x) (TBasic 116)
  | HT_Double x : in_u 64 x -> has_type (VDouble x) (TBasic 100)
  | HT_String s : utf8_valid s = true -> has_type (VString s) (TBasic 115)
  | HT_ObjectPath s : utf8_valid s = true -> has_type (VObjectPath s) (TBasic 111)
  | HT_Signature s :
      utf8_valid s = true -> zlen s < 256 -> has_type (VSignature s) (TBasic 103)
  | HT_Array t items :
      type_ok t = true -> Forall (fun v => has_type v t) items ->
      has_type (VArray (print_type t) items) (TArray t)
  | HT_Struct fields ts :
      Forall2 has_type fields ts -> ts <> [] -> has_type (VStruct fields) (TStruct ts)
  | HT_Variant v t :
      has_type v t -> zlen (print_type t) < 256 -> has_type (VVariant v) TVariant
  | HT_DictEntry k v c t :
      has_type k (TBasic c) -> has_type v t ->
      has_type (VDictEntry k v) (TDict c t).

(** ** Alignment *)

Lemma length_pad pos a : 0 < a -> zlen (pad pos a) = (- pos) mod a.
Proof.
  intros Ha. unfold pad. rewrite length_replicate.
  pose proof (Z.mod_pos_bound (- pos) a Ha). lia.
Qed.

Lemma pad_step pos a : 0 < a -> pos mod a <> 0 -> (- pos) mod a = 1 + (- (pos + 1)) mod a.
Proof.
  intros Ha Hp. pose proof (Z_div_mod_eq_full pos a). pose proof (Z.mod_pos_bound pos a Ha).
  rewrite <- (Z.mod_unique_pos (- pos) a (- (pos / a) - 1) (a - pos mod a)) by lia.
  rewrite <- (Z.mod_unique_pos (- (pos + 1)) a (- (pos / a) - 1) (a - pos mod a - 1)) by lia.
  lia.
Qed.

Lemma pad_loop_spec fuel buf a :
  0 < a -> (- zlen buf) mod a <= Z.of_nat fuel ->
  pad_loop fuel buf a = buf ++ pad (zlen buf) a.
Proof.
  intros Ha. revert buf. induction fuel as [|fuel IH]; intros buf Hf; cbn [pad_loop].
  - pose proof (Z.mod_pos_bound (- zlen buf) a Ha).
    assert ((- zlen buf) mod a = 0) as E by lia. unfold pad. rewrite E. simpl.
    rewrite app_nil_r. by case_match.
  - case_match eqn:E; bool_to_prop.
    + unfold pad. rewrite Z_mod_zero_opp_full by done. simpl. by rewrite app_nil_r.
    + pose proof (pad_step (zlen buf) a Ha E) as Hs.
      pose proof (Z.mod_pos_bound (- (zlen buf + 1)) a Ha).
      rewrite IH; autorewrite with rust_rw; cbn [length];
        replace (Z.of_nat (length buf + 1)) with (zlen buf + 1) by lia; [|lia].
      rewrite <- app_assoc. f_equal. unfold pad. rewrite Hs.
      by replace (Z.to_nat (1 + (- (zlen buf + 1)) mod a))
        with (S (Z.to_nat ((- (zlen buf + 1)) mod a))) by lia.
Qed.

Lemma pad_to_spec buf a : 0 < a -> pad_to buf a = buf ++ pad (zlen buf) a.
Proof.
  intros Ha. apply pad_loop_spec; [done|].
  pose proof (Z.mod_pos_bound (- zlen buf) a Ha). lia.
Qed.

Lemma align_up off a : 0 < a -> (off + a - 1) / a * a = off + (- off) mod a.
Proof.
  intros Ha. pose proof (Z_div_mod_eq_full off a). pose proof (Z.mod_pos_bound off a Ha).
  destruct (Z.eq_dec (off mod a) 0) as [E|E].
  - rewrite Z_mod_zero_opp_full by done.
    rewrite <- (Z.div_unique_pos (off + a - 1) a (off / a) (a - 1)) by lia. lia.
  - rewrite <- (Z.mod_unique_pos (- off) a (- (off / a) - 1) (a - off mod a)) by lia.
    rewrite <- (Z.div_unique_pos (off + a - 1) a (off / a + 1) (off mod a - 1)) by lia. lia.
Qed.

Lemma align_of_pos c : 0 < align_of c.
Proof. unfold align_of. by repeat case_match. Qed.

Lemma align_of_divides c : (align_of c | 8).
Proof. unfold align_of. by repeat case_match; [exists 8|exists 4|exists 2|exists 1|exists 8]. Qed.

Lemma pad_shift pos k a : 0 < a -> (a | 8) -> pad (pos + 8 * k) a = pad pos a.
Proof.
  intros Ha [q Hq]. unfold pad. do 2 f_equal.
  replace (- (pos + 8 * k)) with (- pos + (- (q * k)) * a) by (rewrite Hq; ring). by rewrite Z_mod_plus_full.
Qed.

Definition shifts (k : Z) (v : Value) : Prop := forall pos, enc v (pos + 8 * k) = enc v pos.

Lemma enc_list_shift k vs : Forall (shifts k) vs ->
  forall pos, enc_list enc vs (pos + 8 * k) = enc_list enc vs pos.
Proof.
  induction 1 as [|v vs H _ IH]; intros p; [done|]. cbn [enc_list]. rewrite H.
  replace (p + 8 * k + zlen (enc v p)) with (p + zlen (enc v p) + 8 * k) by lia. by rewrite IH.
Qed.

(** The encoding depends on the position only through its alignment, so a
    body marshaled at 0 is the body at any 8-aligned offset. *)
Lemma enc_shift k v : shifts k v.
Proof.
  induction v as [| | | | | | | | | | | |es items IH|fields IH|v IH|k' v IHk IHv]
    using Value_nested_ind; intros pos; cbn [enc];
    rewrite ?(pad_shift pos k 2), ?(pad_shift pos k 4), ?(pad_shift pos k 8)
      by (lia || (exists 1; lia) || (exists 2; lia) || (exists 4; lia)); try done.
  - set (a := align_of _). set (p := pos + zlen (pad pos 4) + 4).
    assert (0 < a) by apply align_of_pos. assert (a | 8) by apply align_of_divides.
    replace (pos + 8 * k + zlen (pad pos 4) + 4) with (p + 8 * k) by (subst p; lia).
    rewrite pad_shift by done. set (q := p + zlen (pad p a)).
    replace (p + 8 * k + zlen (pad p a)) with (q + 8 * k) by (subst q; lia).
    by rewrite (enc_list_shift k).
  - replace (pos + 8 * k + zlen (pad pos 8)) with (pos + zlen (pad pos 8) + 8 * k) by lia.
    by rewrite (enc_list_shift k).
  - replace (pos + 8 * k + zlen (enc_sig (signature_of v)))
      with (pos + zlen (enc_sig (signature_of v)) + 8 * k) by lia. by rewrite IH.
  - replace (pos + 8 * k + zlen (pad pos 8)) with (pos + zlen (pad pos 8) + 8 * k) by lia.
    rewrite IHk. set (p := pos + zlen (pad pos 8)).
    replace (p + 8 * k + zlen (enc k' p)) with (p + zlen (enc k' p) + 8 * k) by lia.
    by rewrite IHv.
Qed.

(** ** Typed values and their signatures *)

Lemma Forall2_weaken {A B} (R S : A -> B -> Prop) xs ys :
  Forall (fun x => forall y, R x y -> S x y) xs -> Forall2 R xs ys -> Forall2 S xs ys.
Proof.
  intros HI HR. induction HR as [|x y xs ys Hxy _ IH]; constructor.
  - exact (Forall_inv HI _ Hxy).
  - exact (IH (Forall_inv_tail HI)).
Qed.

Lemma has_type_sig v t :
  has_type v t -> type_ok t = true /\ signature_of v = print_type t.
Proof.
  revert t. induction v as [| | | | | | | | | | | |es items IH|fields IH|v IH|k v IHk IHv]
    using Value_nested_ind; intros t Ht; inversion Ht as [| | | | | | | | | | | |
      t' items' Hok HF|fields' ts HF Hne|v' t' Hv Hlen|k' v' c t' Hk Hv]; subst; try done.
  - apply (Forall2_weaken _ _ _ _ IH) in HF. clear IH Ht.
    assert (forallb type_ok ts = true /\
            concat (map signature_of fields) = concat (map print_type ts)) as [H1 H2].
    { clear Hne. induction HF as [|v t vs ts [H1 H2] _ [IH1 IH2]]; [done|].
      simpl. by rewrite H1, H2, IH1, IH2. }
    cbn [type_ok signature_of print_type]. rewrite H1, H2. by destruct ts.
  - apply IHk in Hk as [Hk1 Hk2]. apply IHv in Hv as [Hv1 Hv2].
    cbn [type_ok signature_of print_type] in *. rewrite Hk1, Hk2, Hv1, Hv2. done.
Qed.

Lemma has_type_list_ok vs ts : Forall2 has_type vs ts -> forallb type_ok ts = true.
Proof.
  induction 1 as [|v t vs ts Hv _ IH]; [done|]. simpl.
  by rewrite (proj1 (has_type_sig _ _ Hv)), IH.
Qed.

(** The slices of a signature that the two codecs take. *)
Lemma slice_tail c s :
  Forall (fun b => is_ascii b = true) (c :: s) ->
  str_slice (c :: s) 1 (zlen (c :: s)) = Some s.
Proof.
  intros H. rewrite ascii_slice by (done || (cbn [length]; lia)). cbn [length].
  change (drop (Z.to_nat 1) (c :: s)) with s. f_equal. apply take_ge. lia.
Qed.

Lemma slice_mid a s b :
  Forall (fun b => is_ascii b = true) (a ++ s ++ b) ->
  str_slice (a ++ s ++ b) (zlen a) (zlen (a ++ s ++ b) - zlen b) = Some s.
Proof.
  intros H. rewrite ascii_slice by (done || (autorewrite with rust_rw; lia)).
  autorewrite with rust_rw.
  replace (Z.to_nat (_ - _ - _)) with (length s) by lia.
  by rewrite Nat2Z.id, drop_app_length, take_app_length.
Qed.

Lemma slice_struct ts :
  forallb type_ok ts = true ->
  str_slice (print_type (TStruct ts)) 1 (zlen (print_type (TStruct ts)) - 1)
  = Some (print_types ts).
Proof.
  intros H. apply (slice_mid [c_lparen] (print_types ts) [c_rparen]).
  constructor; [done|]. apply Forall_app. split; [by apply print_types_ascii|].
  by repeat constructor.
Qed.

Lemma dict_ascii c t :
  type_ok (TDict c t) = true ->
  Forall (fun b => is_ascii b = true) ([c_lbrace; c] ++ print_type t ++ [c_rbrace]).
Proof. apply print_type_ascii. Qed.

Lemma slice_dict_key c t :
  type_ok (TDict c t) = true -> str_slice (print_type (TDict c t)) 1 2 = Some [c].
Proof.
  intros H. rewrite ascii_slice; [done|by apply dict_ascii|lia|].
  cbn [print_type length]. lia.
Qed.

Lemma slice_dict_val c t :
  type_ok (TDict c t) = true ->
  str_slice (print_type (TDict c t)) 2 (zlen (print_type (TDict c t)) - 1)
  = Some (print_type t).
Proof.
  intros H. by apply (slice_mid [c_lbrace; c] (print_type t) [c_rbrace]), dict_ascii.
Qed.

Lemma slice_dict_inner c t :
  type_ok (TDict c t) = true ->
  str_slice (print_type (TDict c t)) 1 (zlen (print_type (TDict c t)) - 1)
  = Some ([c] ++ print_type t).
Proof.
  intros H. pose proof (dict_ascii c t H).
  apply (slice_mid [c_lbrace] ([c] ++ print_type t) [c_rbrace]).
  by rewrite <- (app_assoc [c]).
Qed.

(** ** [marshal] refines [enc] *)

Lemma patch4_spec buf rest bytes :
  patch4 (buf ++ [0; 0; 0; 0] ++ rest) (zlen buf) bytes = buf ++ bytes ++ rest.
Proof.
  unfold patch4. rewrite Nat2Z.id, take_app_length.
  by rewrite drop_app_add.
Qed.

Definition refines_enc (v : Value) : Prop :=
  forall t buf, has_type v t -> zlen (enc v (zlen buf)) < 2 ^ 32 ->
  marshal_one (print_type t) v buf = ret (buf ++ enc v (zlen buf)).

Lemma marshal_items_enc t items buf :
  Forall refines_enc items -> Forall (fun v => has_type v t) items ->
  zlen (enc_list enc items (zlen buf)) < 2 ^ 32 ->
  marshal_items marshal_one (print_type t) items buf
  = ret (buf ++ enc_list enc items (zlen buf)).
Proof.
  intros HI HT. revert buf. induction HT as [|v vs Hv _ IH]; intros buf Hlen;
    cbn [marshal_items enc_list] in *; [by rewrite app_nil_r|].
  revert Hlen. autorewrite with rust_rw. intros Hlen.
  rewrite (Forall_inv HI t) by (done || lia).
  rewrite (IH (Forall_inv_tail HI)); autorewrite with rust_rw; rewrite Nat2Z.inj_add; [|lia].
  by rewrite <- app_assoc.
Qed.

Lemma marshal_values_enc vs ts buf :
  Forall refines_enc vs -> Forall2 has_type vs ts ->
  zlen (enc_list enc vs (zlen buf)) < 2 ^ 32 ->
  marshal_values marshal_one (print_types ts) vs buf
  = ret (buf ++ enc_list enc vs (zlen buf)).
Proof.
  intros HI HT. revert buf. induction HT as [|v t vs ts Hv HT IH]; intros buf Hlen.
  - cbn. by rewrite app_nil_r.
  - pose proof (has_type_sig _ _ Hv) as [Hok _]. pose proof (has_type_list_ok _ _ HT) as Hoks.
    pose proof (print_type_nonempty t) as Hne.
    change (print_types (t :: ts)) with (print_type t ++ print_types ts).
    cbn [marshal_values]. rewrite (split_one_print t ts Hok Hoks).
    destruct (print_type t ++ print_types ts) eqn:E; [by apply app_eq_nil in E as [? _]|].
    cbn [enc_list] in *. revert Hlen. autorewrite with rust_rw. intros Hlen.
    rewrite (Forall_inv HI t) by (done || lia).
    rewrite (IH (Forall_inv_tail HI)); autorewrite with rust_rw; rewrite Nat2Z.inj_add; [|lia].
    by rewrite <- app_assoc.
Qed.

Lemma marshal_array_enc t items buf :
  Forall refines_enc items -> type_ok t = true -> Forall (fun v => has_type v t) items ->
  zlen (enc (VArray (print_type t) items) (zlen buf)) < 2 ^ 32 ->
  marshal_one (print_type (TArray t)) (VArray (print_type t) items) buf
  = ret (buf ++ enc (VArray (print_type t) items) (zlen buf)).
Proof.
  intros HI Hok HT Hlen.
  pose proof (print_type_ascii (TArray t) Hok) as Hasc.
  cbn [print_type marshal_one]. simpl (c_array =? _).
  cbn beta iota. rewrite slice_tail by done. cbn [or_panic].
  rewrite bool_decide_eq_false_2 by (by intros []).
  cbn [enc] in *. destruct (print_type t) as [|e s] eqn:E; [by apply print_type_nonempty in E|].
  cbn [head default from_option id] in *. unfold id in *. pose proof (align_of_pos e). rewrite <- E in *.
  rewrite !pad_to_spec by lia. cbn [orb]. cbn beta iota.
  set (buf1 := buf ++ pad (zlen buf) 4). set (buf2 := buf1 ++ [0; 0; 0; 0]).
  set (buf3 := buf2 ++ pad (zlen buf2) (align_of e)).
  assert (zlen buf + zlen (pad (zlen buf) 4) + 4 = zlen buf2) as H2
    by (subst buf1 buf2; autorewrite with rust_rw; cbn [length]; lia).
  rewrite H2 in Hlen |- *.
  assert (zlen buf2 + zlen (pad (zlen buf2) (align_of e)) = zlen buf3) as H3
    by (subst buf3; autorewrite with rust_rw; lia).
  rewrite H3 in Hlen |- *. autorewrite with rust_rw in Hlen.
  rewrite marshal_items_enc by (done || lia).
  replace (zlen (buf3 ++ enc_list enc items (zlen buf3)) - zlen buf3)
    with (zlen (enc_list enc items (zlen buf3))) by (autorewrite with rust_rw; lia).
  rewrite wrap_small by (unfold in_u; lia).
  subst buf3 buf2. rewrite <- !app_assoc, patch4_spec.
  subst buf1. by rewrite <- !app_assoc.
Qed.

Lemma marshal_one_enc v : refines_enc v.
Proof.
  induction v as [| | | | | | | | |s|s| |es items IH|fields IH|v IH|k v IHk IHv]
    using Value_nested_ind; intros t buf Ht Hlen; inversion Ht as [| | | | | | | | | | | |
      t' items' Hok HF|fields' ts HF Hne|v' t' Hv Hs|k' v' c t' Hk Hv]; subst.
  1-9: cbn [print_type marshal_one enc]; rewrite ?pad_to_spec, <- ?app_assoc by lia; done.
  1-2: cbn [enc] in *; revert Hlen; autorewrite with rust_rw; intros Hlen;
    cbn [print_type marshal_one]; rewrite pad_to_spec, <- app_assoc, wrap_small
      by (unfold in_u; lia); done.
  - cbn [print_type marshal_one enc]. unfold put_signature.
    rewrite wrap_small by (unfold in_u; lia). done.
  - by apply marshal_array_enc.
  - pose proof (has_type_list_ok _ _ HF) as Hoks.
    cbn [marshal_one]. change (head (print_type (TStruct ts))) with (Some c_lparen).
    pose proof (slice_struct ts Hoks) as Hsl. cbn [print_type] in *. simpl (c_lparen =? _).
    cbn [orb]. cbn beta iota. rewrite Hsl. cbn [or_panic enc] in *.
    rewrite pad_to_spec by lia. revert Hlen. autorewrite with rust_rw. intros Hlen.
    rewrite (marshal_values_enc fields ts) by
      (done || (autorewrite with rust_rw; rewrite Nat2Z.inj_add; lia)).
    autorewrite with rust_rw. by rewrite Nat2Z.inj_add, <- app_assoc.
  - destruct (has_type_sig _ _ Hv) as [_ Hsig].
    cbn [print_type marshal_one enc]. simpl (c_variant =? _). cbn [orb]. cbn beta iota.
    cbn [enc] in Hlen. rewrite Hsig in *.
    assert (put_signature (print_type t') buf = buf ++ enc_sig (print_type t')) as Hput.
    { unfold put_signature, enc_sig. rewrite wrap_small by (unfold in_u; lia). done. }
    rewrite Hput. revert Hlen. autorewrite with rust_rw. intros Hlen.
    rewrite IH; [|done|autorewrite with rust_rw; rewrite Nat2Z.inj_add; lia].
    autorewrite with rust_rw. by rewrite Nat2Z.inj_add, <- app_assoc.
  - destruct (has_type_sig _ _ Ht) as [Hok _].
    pose proof (slice_dict_key c t' Hok) as Hs1. pose proof (slice_dict_val c t' Hok) as Hs2.
    cbn [print_type marshal_one enc] in *. simpl (c_lbrace =? _). cbn [orb]. cbn beta iota.
    rewrite Hs1, Hs2. cbn [or_panic]. rewrite pad_to_spec by lia.
    set (buf1 := buf ++ pad (zlen buf) 8) in *.
    assert (zlen buf + zlen (pad (zlen buf) 8) = zlen buf1) as H1
      by (subst buf1; autorewrite with rust_rw; lia).
    rewrite H1 in Hlen |- *. autorewrite with rust_rw in Hlen.
    change [c] with (print_type (TBasic c)).
    rewrite IHk; [|done|lia].
    rewrite IHv; [|done|autorewrite with rust_rw; rewrite Nat2Z.inj_add; lia].
    subst buf1. autorewrite with rust_rw. by rewrite !Nat2Z.inj_add, <- !app_assoc.
Qed.

(** ** [unmarshal_one] by cases on a well-formed type *)

Section unmarshal_eqs.
Context (fuel : nat) (buf : list Z) (off : Z).

Lemma unmarshal_array_eq t : type_ok t = true ->
  unmarshal_one (S fuel) (print_type (TArray t)) buf off =
  do! off := align_read buf off 4 in
  do! (len_bytes, off) := take_bytes buf off 4 in
  do! off := align_read buf off (align_of (default 0 (head (print_type t)))) in
  let e := off + le_val len_bytes in
  if e >? zlen buf then fail truncated
  else
    do! (items, off) := unmarshal_items fuel (print_type t) buf off e in
    if off =? e then ret (VArray (print_type t) items, off)
    else fail (bad_signature "array element did not end exactly at the declared length").
Proof.
  intros Hok. pose proof (print_type_ascii (TArray t) Hok) as Hasc.
  cbn [print_type unmarshal_one]. simpl (c_array =? _). cbn [orb]. cbn beta iota.
  rewrite slice_tail by done. cbn [or_panic].
  destruct (print_type t) as [|e s] eqn:E; [by apply print_type_nonempty in E|done].
Qed.

Lemma unmarshal_struct_eq ts : forallb type_ok ts = true ->
  unmarshal_one (S fuel) (print_type (TStruct ts)) buf off =
  do! off := align_read buf off 8 in
  do! (fields, off) := unmarshal_fuel fuel (print_types ts) buf off in
  ret (VStruct fields, off).
Proof.
  intros Hoks. pose proof (slice_struct ts Hoks) as Hsl.
  cbn [print_type unmarshal_one] in *. simpl (c_lparen =? _). cbn [orb]. cbn beta iota.
  by rewrite Hsl.
Qed.

Lemma unmarshal_dict_eq c t : type_ok (TDict c t) = true ->
  unmarshal_one (S fuel) (print_type (TDict c t)) buf off =
  do! off := align_read buf off 8 in
  do! (k, off) := unmarshal_one fuel (print_type (TBasic c)) buf off in
  do! (v, off) := unmarshal_one fuel (print_type t) buf off in
  ret (VDictEntry k v, off).
Proof.
  intros Hok. pose proof (slice_dict_inner c t Hok) as Hsl.
  apply andb_true_iff in Hok as [Hk Ht]. change (type_ok t = true) in Ht.
  pose proof (split_one_print (TBasic c) [t]) as Hsp. unfold print_types in Hsp.
  cbn [map concat print_type] in Hsp. rewrite app_nil_r in Hsp.
  cbn [print_type unmarshal_one] in *. simpl (c_lbrace =? _). cbn [orb]. cbn beta iota.
  rewrite Hsl. cbn [or_panic]. rewrite Hsp; [done|done|]. cbn [forallb]. by rewrite Ht.
Qed.

Lemma unmarshal_cons_eq t ts : type_ok t = true -> forallb type_ok ts = true ->
  unmarshal_fuel (S fuel) (print_types (t :: ts)) buf off =
  do! (v, off) := unmarshal_one fuel (print_type t) buf off in
  do! (vs, off) := unmarshal_fuel fuel (print_types ts) buf off in
  ret (v :: vs, off).
Proof.
  intros Hok Hoks. change (print_types (t :: ts)) with (print_type t ++ print_types ts).
  cbn [unmarshal_fuel]. rewrite (split_one_print t ts Hok Hoks).
  pose proof (print_type_nonempty t). by destruct (print_type t).
Qed.
End unmarshal_eqs.

(** ** [unmarshal] inverts [enc] *)

(** Fuel enough to decode the encoding of [v]: its height, counting each
    element of a list as one level below the previous. *)
Section list_fuel.
Variable vfuel : Value -> nat.
Fixpoint list_fuel (vs : list Value) : nat :=
  match vs with
  | [] => 1
  | v :: vs' => S (vfuel v `max` list_fuel vs')
  end.
End list_fuel.

Fixpoint vfuel (v : Value) : nat :=
  match v with
  | VArray _ vs | VStruct vs => S (list_fuel vfuel vs)
  | VVariant v => S (S (vfuel v))
  | VDictEntry k v => S (vfuel k `max` vfuel v)
  | _ => 1
  end.

Lemma align_read_pad pre a rest :
  0 < a ->
  align_read (pre ++ pad (zlen pre) a ++ rest) (zlen pre) a
  = ret (zlen (pre ++ pad (zlen pre) a)).
Proof.
  intros Ha. unfold align_read. cbv zeta. rewrite align_up, <- length_pad by done.
  case_match eqn:E; bool_to_prop; [autorewrite with rust_rw in E; lia|].
  autorewrite with rust_rw. do 2 f_equal. lia.
Qed.

Lemma sub_bytes_app pre bs rest :
  sub_bytes (pre ++ bs ++ rest) (zlen pre) (zlen bs) = bs.
Proof. unfold sub_bytes. by rewrite !Nat2Z.id, drop_app_length, take_app_length. Qed.

Lemma take_bytes_app pre bs rest n :
  n = zlen bs ->
  take_bytes (pre ++ bs ++ rest) (zlen pre) n = ret (bs, zlen (pre ++ bs)).
Proof.
  intros ->. unfold take_bytes. rewrite sub_bytes_app.
  case_match eqn:E; bool_to_prop.
  - autorewrite with rust_rw in E. lia.
  - autorewrite with rust_rw. do 3 f_equal. lia.
Qed.

Lemma read_num_enc pre rest a n x mk :
  0 < a -> in_u (8 * Z.of_nat n) x ->
  read_num (pre ++ (pad (zlen pre) a ++ le_bytes n x) ++ rest) (zlen pre) a (Z.of_nat n) mk
  = ret (mk x, zlen (pre ++ pad (zlen pre) a ++ le_bytes n x)).
Proof.
  intros Ha Hx. unfold read_num. rewrite <- app_assoc, align_read_pad by done.
  rewrite app_assoc, take_bytes_app by (by rewrite length_le_bytes).
  by rewrite le_val_bytes, <- app_assoc.
Qed.

Definition decodes (v : Value) : Prop :=
  forall t pre post fuel,
  has_type v t -> zlen (enc v (zlen pre)) < 2 ^ 32 -> (vfuel v <= fuel)%nat ->
  unmarshal_one fuel (print_type t) (pre ++ enc v (zlen pre) ++ post) (zlen pre)
  = ret (v, zlen (pre ++ enc v (zlen pre))).

(** Every value takes at least one byte, so the item loop advances. *)
Lemma enc_nonempty v t pos : has_type v t -> enc v pos <> [].
Proof.
  intros Ht. assert (length (enc v pos) <> 0)%nat as Hl; [|by intros E; rewrite E in Hl].
  revert t pos Ht. induction v as [| | | | | | | | | | | |es items IH|fields IH|v IH|k v IHk IHv]
    using Value_nested_ind; intros t pos Ht; cbn [enc]; unfold enc_sig;
    try (autorewrite with rust_rw; cbn [length]; lia).
  - inversion Ht as [| | | | | | | | | | | | |fields' ts HF Hne| |]; subst.
    destruct HF as [|v t vs ts Hv _]; [done|]. cbn [enc_list].
    pose proof (Forall_inv IH _ (pos + zlen (pad pos 8)) Hv). autorewrite with rust_rw. lia.
  - inversion Ht as [| | | | | | | | | | | | | | |k' v' c t' Hk Hv]; subst.
    pose proof (IHk _ (pos + zlen (pad pos 8)) Hk). autorewrite with rust_rw. lia.
Qed.

Lemma unmarshal_items_enc t items pre post fuel :
  Forall decodes items -> Forall (fun v => has_type v t) items ->
  zlen (enc_list enc items (zlen pre)) < 2 ^ 32 -> (list_fuel vfuel items <= fuel)%nat ->
  unmarshal_items fuel (print_type t) (pre ++ enc_list enc items (zlen pre) ++ post) (zlen pre)
    (zlen (pre ++ enc_list enc items (zlen pre)))
  = ret (items, zlen (pre ++ enc_list enc items (zlen pre))).
Proof.
  intros HI HT. revert pre fuel. induction HT as [|v vs Hv _ IH]; intros pre fuel Hlen Hf;
    cbn [enc_list list_fuel] in *; (destruct fuel as [|fuel]; [lia|]); cbn [unmarshal_items].
  - rewrite app_nil_r, Z.ltb_irrefl. done.
  - pose proof (enc_nonempty _ _ (zlen pre) Hv) as Hne.
    assert (zlen (enc v (zlen pre)) > 0) by (destruct (enc v (zlen pre)); [done|simpl; lia]).
    rewrite length_app in Hlen.
    replace (zlen pre <? _) with true by (symmetry; apply Z.ltb_lt; autorewrite with rust_rw; lia).
    assert (zlen pre + zlen (enc v (zlen pre)) = zlen (pre ++ enc v (zlen pre))) as Hp
      by (rewrite length_app; lia).
    rewrite Hp in *. rewrite <- app_assoc.
    rewrite (Forall_inv HI t) by (done || lia). rewrite !app_assoc, <- (app_assoc (pre ++ _)).
    rewrite (IH (Forall_inv_tail HI)) by lia. done.
Qed.

Lemma unmarshal_fuel_enc vs ts pre post fuel :
  Forall decodes vs -> Forall2 has_type vs ts ->
  zlen (enc_list enc vs (zlen pre)) < 2 ^ 32 -> (list_fuel vfuel vs <= fuel)%nat ->
  unmarshal_fuel fuel (print_types ts) (pre ++ enc_list enc vs (zlen pre) ++ post) (zlen pre)
  = ret (vs, zlen (pre ++ enc_list enc vs (zlen pre))).
Proof.
  intros HI HT. revert pre fuel. induction HT as [|v t vs ts Hv HT IH]; intros pre fuel Hlen Hf;
    cbn [enc_list list_fuel] in *; (destruct fuel as [|fuel]; [lia|]).
  - cbn. by rewrite app_nil_r.
  - pose proof (has_type_sig _ _ Hv) as [Hok _]. pose proof (has_type_list_ok _ _ HT) as Hoks.
    rewrite unmarshal_cons_eq by done.
    rewrite length_app in Hlen. rewrite <- app_assoc.
    assert (zlen pre + zlen (enc v (zlen pre)) = zlen (pre ++ enc v (zlen pre))) as Hp
      by (rewrite length_app; lia).
    rewrite Hp in *. rewrite (Forall_inv HI t) by (done || lia).
    rewrite !app_assoc, <- (app_assoc (pre ++ _)).
    rewrite (IH (Forall_inv_tail HI)) by lia. done.
Qed.

(** Regroup the buffer so that the offset reached is the length of its prefix. *)
Ltac advance :=
  match goal with |- context [zlen (?p ++ ?x)] => rewrite (app_assoc p x) end.

Lemma unmarshal_text_enc c s pre post fuel :
  c = 115 \/ c = 111 -> utf8_valid s = true -> in_u 32 (zlen s) ->
  let e := pad (zlen pre) 4 ++ le_bytes 4 (zlen s) ++ s ++ [0] in
  unmarshal_one (S fuel) [c] (pre ++ e ++ post) (zlen pre)
  = ret ((if c =? 115 then VString s else VObjectPath s), zlen (pre ++ e)).
Proof.
  intros Hc Hs Hlen e. subst e. cbn [unmarshal_one].
  assert ((c =? 121) = false /\ (c =? 98) = false /\ (c =? 110) = false /\ (c =? 113) = false /\
    (c =? 105) = false /\ (c =? 117) = false /\ (c =? 120) = false /\ (c =? 116) = false /\
    (c =? 100) = false /\ ((c =? 115) || (c =? 111)) = true) as
    (-> & -> & -> & -> & -> & -> & -> & -> & -> & ->) by (by destruct Hc as [-> | ->]).
  rewrite <- !app_assoc, align_read_pad by lia.
  advance. rewrite take_bytes_app by done. rewrite le_val_bytes by done.
  advance. rewrite take_bytes_app by done.
  advance. rewrite take_bytes_app by done. rewrite Hs. by rewrite <- !app_assoc.
Qed.

Lemma unmarshal_sig_enc s pre post fuel :
  utf8_valid s = true -> zlen s < 256 ->
  unmarshal_one (S fuel) (lit "g") (pre ++ enc_sig s ++ post) (zlen pre)
  = ret (VSignature s, zlen (pre ++ enc_sig s)).
Proof.
  intros Hs Hlen. unfold enc_sig. cbn [unmarshal_one]. simpl (lit "g"). cbn [orb]. simpl (103 =? _).
  cbn [orb]. cbn beta iota.
  rewrite <- !app_assoc, take_bytes_app by done.
  replace (le_val [zlen s]) with (zlen s) by (cbn [le_val]; lia).
  rewrite (app_assoc pre [zlen s]), take_bytes_app by done.
  rewrite (app_assoc _ s), take_bytes_app by done.
  rewrite Hs. by rewrite <- !app_assoc.
Qed.

Lemma unmarshal_array_enc t items pre post fuel :
  let e := enc (VArray (print_type t) items) (zlen pre) in
  Forall decodes items -> type_ok t = true -> Forall (fun v => has_type v t) items ->
  zlen e < 2 ^ 32 -> (list_fuel vfuel items <= fuel)%nat ->
  unmarshal_one (S fuel) (print_type (TArray t)) (pre ++ e ++ post) (zlen pre)
  = ret (VArray (print_type t) items, zlen (pre ++ e)).
Proof.
  intros e HI Hok HT Hlen Hf. subst e.
  rewrite unmarshal_array_eq by done. cbn [enc] in *.
  set (a := align_of _) in *. assert (0 < a) by apply align_of_pos.
  remember (zlen pre + zlen (pad (zlen pre) 4) + 4) as p eqn:Ep.
  remember (p + zlen (pad p a)) as q eqn:Eq.
  set (n := zlen (enc_list _ _ _)) in *. autorewrite with rust_rw in Hlen.
  assert (in_u 32 n) by (subst n; unfold in_u; lia).
  rewrite <- !app_assoc, align_read_pad by lia.
  advance. rewrite take_bytes_app by done. rewrite le_val_bytes by done.
  advance. set (pre2 := _ ++ le_bytes 4 n).
  assert (p = zlen pre2) as Ep2 by (subst pre2 p; autorewrite with rust_rw; lia).
  rewrite Ep2, align_read_pad by done. advance. set (pre3 := pre2 ++ _).
  assert (q = zlen pre3) as Eq3 by (subst pre3 q; rewrite Ep2; autorewrite with rust_rw; lia).
  subst n. rewrite Eq3 in *. case_match eqn:Ec; bool_to_prop;
    [autorewrite with rust_rw in Ec; lia|].
  replace (zlen pre3 + _) with (zlen (pre3 ++ enc_list enc items (zlen pre3)))
    by (rewrite length_app; lia).
  rewrite unmarshal_items_enc by (done || lia). rewrite Z.eqb_refl.
  do 3 f_equal. subst pre3. autorewrite with rust_rw.
  assert (length pre2 = length pre + length (pad (zlen pre) 4) + 4)%nat as Hl
    by (subst pre2; autorewrite with rust_rw; lia).
  lia.
Qed.

Lemma unmarshal_one_enc v : decodes v.
Proof.
  induction v as [| | | | | | | | |s|s| |es items IH|fields IH|v IH|k v IHk IHv]
    using Value_nested_ind; intros t pre post fuel Ht Hlen Hf; inversion Ht as
      [| | | | | | | | | | | |t' items' Hok HF|fields' ts HF Hne|v' t' Hv Hs|k' v' c t' Hk Hv];
    subst; cbn [vfuel] in Hf; (destruct fuel as [|fuel]; [lia|]).
  - cbn [print_type enc unmarshal_one]. simpl (121 =? 121). cbn iota.
    rewrite take_bytes_app by done. cbn [le_val]. by rewrite Z.mul_0_r, Z.add_0_r.
  - cbn [print_type enc unmarshal_one]. simpl (98 =? _). cbn iota.
    rewrite (read_num_enc pre post 4 4) by (destruct b; vm_compute; intuition congruence).
    by destruct b.
  - cbn [print_type enc unmarshal_one]. simpl (110 =? _). cbn iota.
    rewrite (read_num_enc pre post 2 2) by (lia || by apply wrap_in_u). by rewrite sign_wrap.
  - cbn [print_type enc unmarshal_one]. simpl (113 =? _). cbn iota.
    by rewrite (read_num_enc pre post 2 2).
  - cbn [print_type enc unmarshal_one]. simpl (105 =? _). cbn iota.
    rewrite (read_num_enc pre post 4 4) by (lia || by apply wrap_in_u). by rewrite sign_wrap.
  - cbn [print_type enc unmarshal_one]. simpl (117 =? _). cbn iota.
    by rewrite (read_num_enc pre post 4 4).
  - cbn [print_type enc unmarshal_one]. simpl (120 =? _). cbn iota.
    rewrite (read_num_enc pre post 8 8) by (lia || by apply wrap_in_u). by rewrite sign_wrap.
  - cbn [print_type enc unmarshal_one]. simpl (116 =? _). cbn iota.
    by rewrite (read_num_enc pre post 8 8).
  - cbn [print_type enc unmarshal_one]. simpl (100 =? _). cbn iota.
    by rewrite (read_num_enc pre post 8 8).
  - cbn [enc print_type] in *. autorewrite with rust_rw in Hlen.
    rewrite unmarshal_text_enc by (auto || (unfold in_u; lia)). done.
  - cbn [enc print_type] in *. autorewrite with rust_rw in Hlen.
    rewrite unmarshal_text_enc by (auto || (unfold in_u; lia)). done.
  - by apply unmarshal_sig_enc.
  - apply unmarshal_array_enc; auto with lia.
  - rewrite (unmarshal_struct_eq _ _ _ _ (has_type_list_ok _ _ HF)). cbn [enc] in *.
    rewrite <- app_assoc, align_read_pad by lia. advance. rewrite <- Nat2Z.inj_add, <- length_app in *. rewrite length_app in Hlen.
    rewrite (unmarshal_fuel_enc fields ts) by (done || lia).
    by rewrite <- !app_assoc.
  - destruct (has_type_sig _ _ Hv) as [Hok Hsig].
    cbn [print_type enc unmarshal_one] in *. simpl (c_variant =? _). cbn [orb]. cbn beta iota.
    rewrite Hsig in *. destruct fuel as [|fuel]; [lia|].
    rewrite <- app_assoc, unmarshal_sig_enc by (done ||
      by apply utf8_valid_ascii, print_type_ascii).
    pose proof (type_len_print t' [] Hok) as Htl. rewrite app_nil_r in Htl.
    rewrite Htl, Z.eqb_refl. advance.
    rewrite <- Nat2Z.inj_add, <- length_app in *. rewrite length_app in Hlen.
    rewrite IH by (done || lia). by rewrite <- !app_assoc.
  - rewrite (unmarshal_dict_eq _ _ _ _ _ (proj1 (has_type_sig _ _ Ht))). cbn [enc] in *.
    rewrite <- !app_assoc, align_read_pad by lia.
    advance. set (p1 := pre ++ pad (zlen pre) 8) in *.
    assert (zlen pre + zlen (pad (zlen pre) 8) = zlen p1) as H1
      by (subst p1; autorewrite with rust_rw; lia).
    rewrite H1 in Hlen |- *. autorewrite with rust_rw in Hlen.
    rewrite IHk by (done || lia). advance.
    assert (zlen p1 + zlen (enc k (zlen p1)) = zlen (p1 ++ enc k (zlen p1))) as H2
      by (autorewrite with rust_rw; lia).
    rewrite H2 in Hlen |- *. rewrite IHv by (done || lia).
    subst p1. by rewrite <- !app_assoc.
Qed.

(** ** Properties of the codec *)

Section properties.
Context (vs : list Value) (ts : list dtype) (Htyped : Forall2 has_type vs ts).

(** C7: [marshal] refines the encoding: a well-typed argument list appends to
    the buffer exactly the bytes [enc_list] assigns to it at that position. *)
Theorem marshal_refines_enc (buf : list Z)
    (Hlen : zlen (enc_list enc vs (zlen buf)) < 2 ^ 32) :
  marshal (print_types ts) vs buf = ret (buf ++ enc_list enc vs (zlen buf)).
Proof.
  apply marshal_values_enc; [|done..]. apply Forall_true. intros v. apply marshal_one_enc.
Qed.

(** C37: round trip: [unmarshal] reads back, from whatever follows the same
    prefix, the values [marshal] wrote, and stops exactly where they end;
    [list_fuel vs] rounds of the decoder are enough. *)
Theorem marshal_unmarshal_roundtrip (pre : list Z)
    (Hlen : zlen (enc_list enc vs (zlen pre)) < 2 ^ 32) :
  exists body, marshal (print_types ts) vs pre = ret (pre ++ body) /\
  forall post fuel, (list_fuel vfuel vs <= fuel)%nat ->
  unmarshal_fuel fuel (print_types ts) (pre ++ body ++ post) (zlen pre)
  = ret (vs, zlen (pre ++ body)).
Proof.
  exists (enc_list enc vs (zlen pre)). split.
  - apply marshal_values_enc; [|done..]. apply Forall_true. intros v. apply marshal_one_enc.
  - intros post fuel Hf. apply unmarshal_fuel_enc; [|done..].
    apply Forall_true. intros v. apply unmarshal_one_enc.
Qed.
End properties.

(** The reply shape of [GetSecrets]: [a{o(oayays)}]-like nesting. *)
Definition ex_ts : list dtype :=
  [TArray (TDict 115 TVariant); TStruct [TBasic 111; TArray (TBasic 121)]].
Definition ex_vs : list Value :=
  [VArray (print_type (TDict 115 TVariant))
     [VDictEntry (VString (lit "k")) (VVariant (VInt32 (-2)));
      VDictEntry (VString []) (VVariant (VBoolean true))];
   VStruct [VObjectPath (lit "/"); VArray (print_type (TBasic 121)) [VByte 7; VByte 255]]].

Lemma ex_typed : Forall2 has_type ex_vs ex_ts.
Proof.
  repeat match goal with
  | |- Forall2 _ _ _ => constructor
  | |- Forall _ _ => constructor
  | |- has_type (VVariant (VInt32 _)) _ => apply HT_Variant with (TBasic 105)
  | |- has_type (VVariant (VBoolean _)) _ => apply HT_Variant with (TBasic 98)
  | |- has_type _ _ => constructor
  end; try done; vm_compute; intuition congruence.
Qed.

Lemma marshal_refines_enc_witness :
  marshal (print_types ex_ts) ex_vs [1; 2; 3] = ret ([1; 2; 3] ++ enc_list enc ex_vs 3).
Proof. apply (marshal_refines_enc ex_vs ex_ts ex_typed). vm_compute. reflexivity. Defined.

Lemma marshal_unmarshal_roundtrip_witness :
  exists body, marshal (print_types ex_ts) ex_vs [] = ret ([] ++ body) /\
  forall post fuel, (list_fuel vfuel ex_vs <= fuel)%nat ->
  unmarshal_fuel fuel (print_types ex_ts) ([] ++ body ++ post) (zlen (@nil Z))
  = ret (ex_vs, zlen ([] ++ body)).
Proof.
  apply (marshal_unmarshal_roundtrip ex_vs ex_ts ex_typed). vm_compute. reflexivity.
Defined.
