(* ===== verification/DBusLimits.v ===== *)
(** * D-Bus unmarshaling of untrusted bytes

    What [unmarshal] ([platform-linux/src/sys/dbus/wire.rs]) guarantees of any
    buffer at all: the offset stays in bounds, an accepted value has the type
    asked for, and the decoder ends; and the two inputs on which it does not
    behave: an array of empty structs, on which the item loop never ends, and
    a dict entry with no value type, on which it panics. *)

From Stdlib Require Import ZArith Lia String.
From S2P Require Import Prelude Error DBusValue DBusWire DBusEnc.
From stdpp Require Import base numbers list strings.
Open Scope Z_scope.

(** Every list starts an item or a type list of the decoder with [step]. *)
Ltac inv_run :=
  repeat (first
    [ progress simplify_eq/=
    | match goal with
      | H : (if ?b then _ else _) = ret _ |- _ => destruct b eqn:?
      | H : (match ?m with Done _ => _ | Panic => _ | OutOfFuel => _ end) = ret _ |- _ =>
          destruct m as [[[? ?]|?]| |] eqn:?
      | H : (match ?m with Done _ => _ | Panic => _ | OutOfFuel => _ end) = ret _ |- _ =>
          destruct m as [[?|?]| |] eqn:?
      | H : (match ?l with [] => Panic | _ :: _ => _ end) = ret _ |- _ => destruct l eqn:?
      | H : (match ?r with Ok _ => _ | Err _ => _ end) = ret _ |- _ => destruct r eqn:?
      | H : (match ?v with _ => _ end) = ret _ |- _ =>
          is_var v; destruct v; try discriminate H
      end]).

Lemma take_bytes_bounds buf off n bs off' :
  take_bytes buf off n = ret (bs, off') -> off' = off + n /\ off' <= zlen buf.
Proof. unfold take_bytes. intros H. inv_run. bool_to_prop. lia. Qed.

Lemma align_read_bounds buf off a off' :
  0 < a -> align_read buf off a = ret off' -> off <= off' <= zlen buf.
Proof.
  unfold align_read. intros Ha H. cbv zeta in H. rewrite align_up in H by done.
  inv_run. bool_to_prop. pose proof (Z.mod_pos_bound (- off) a Ha). lia.
Qed.

Lemma le_val_nonneg bs : Forall byte_ok bs -> 0 <= le_val bs.
Proof. intros H. apply le_val_range in H. unfold in_u in H. lia. Qed.

Lemma take_bytes_val buf off n bs off' :
  Forall byte_ok buf -> take_bytes buf off n = ret (bs, off') ->
  (off' = off + n /\ off' <= zlen buf) /\ 0 <= le_val bs.
Proof.
  intros Hb H. split; [by eapply take_bytes_bounds|].
  unfold take_bytes in H. inv_run. apply le_val_nonneg. unfold sub_bytes.
  by apply Forall_take, Forall_drop.
Qed.

(** Replace each successful read in the context by the bounds it implies. *)
Ltac read_bounds :=
  repeat match goal with
  | Hb : Forall byte_ok ?buf, H : take_bytes ?buf _ _ = ret _ |- _ =>
      apply (take_bytes_val _ _ _ _ _ Hb) in H as [[? ?] ?]
  | H : align_read _ _ (align_of _) = ret _ |- _ =>
      apply align_read_bounds in H; [|apply align_of_pos]
  | H : align_read _ _ _ = ret _ |- _ => apply align_read_bounds in H; [|lia]
  end.

Section sound.
Context (buf : list Z) (Hbuf : Forall byte_ok buf).

Lemma read_num_bounds off a n mk v off' :
  0 < a -> 0 <= n -> read_num buf off a n mk = ret (v, off') -> off + n <= off' <= zlen buf.
Proof. unfold read_num. intros Ha Hn H. inv_run. read_bounds. lia. Qed.

Definition bounded_one (fuel : nat) : Prop := forall ty off v off',
  unmarshal_one fuel ty buf off = ret (v, off') -> off <= off' <= zlen buf.
Definition bounded_list (fuel : nat) : Prop := forall sig off vs off',
  off <= zlen buf -> unmarshal_fuel fuel sig buf off = ret (vs, off') -> off <= off' <= zlen buf.
Definition bounded_items (fuel : nat) : Prop := forall es off e vs off',
  off <= zlen buf -> unmarshal_items fuel es buf off e = ret (vs, off') ->
  off <= off' <= zlen buf.

Lemma bounded_one_step fuel :
  bounded_one fuel -> bounded_list fuel -> bounded_items fuel -> bounded_one (S fuel).
Proof.
  intros I1 I2 I3 ty off v off' H. cbn [unmarshal_one] in H.
  destruct ty as [|c ty]; [done|].
  repeat (match type of H with (if ?b then _ else _) = _ => destruct b eqn:? end;
    [first [ inv_run; read_bounds; lia | apply read_num_bounds in H; lia | idtac ]|]);
    try done.
  all: inv_run; read_bounds;
    repeat match goal with
    | H : unmarshal_one _ _ _ _ = _ |- _ => apply I1 in H
    | H : unmarshal_fuel _ _ _ _ = _ |- _ => apply I2 in H; [|lia]
    | H : unmarshal_items _ _ _ _ _ = _ |- _ => apply I3 in H; [|lia]
    end; bool_to_prop; lia.
Qed.

Lemma bounded_all fuel : bounded_one fuel /\ bounded_list fuel /\ bounded_items fuel.
Proof.
  induction fuel as [|fuel (I1 & I2 & I3)]; [done|].
  split; [by apply bounded_one_step|]. split.
  - intros sig off vs off' Hoff H. cbn [unmarshal_fuel] in H.
    destruct sig; inv_run; [lia|].
    match goal with H : unmarshal_one _ _ _ _ = _ |- _ => apply I1 in H end.
    match goal with H : unmarshal_fuel _ _ _ _ = _ |- _ => apply I2 in H end; lia.
  - intros es off e vs off' Hoff H. cbn [unmarshal_items] in H. inv_run; [|lia].
    match goal with H : unmarshal_one _ _ _ _ = _ |- _ => apply I1 in H end.
    match goal with H : unmarshal_items _ _ _ _ _ = _ |- _ => apply I3 in H end; lia.
Qed.
End sound.

(** ** Accepted values have the type asked for *)

Section typed.
Context (buf : list Z).

Definition typed_one (fuel : nat) : Prop := forall t off v off', type_ok t = true ->
  unmarshal_one fuel (print_type t) buf off = ret (v, off') -> signature_of v = print_type t.
Definition typed_list (fuel : nat) : Prop := forall ts off vs off', forallb type_ok ts = true ->
  unmarshal_fuel fuel (print_types ts) buf off = ret (vs, off') ->
  Forall2 (fun v t => signature_of v = print_type t) vs ts.

Lemma read_num_sig off a n mk v off' s :
  (forall x, signature_of (mk x) = s) ->
  read_num buf off a n mk = ret (v, off') -> signature_of v = s.
Proof. unfold read_num. intros Hmk H. inv_run. done. Qed.

Lemma typed_basic fuel c off v off' :
  is_basic c = true -> unmarshal_one (S fuel) [c] buf off = ret (v, off') ->
  signature_of v = [c].
Proof.
  unfold is_basic. intros Hc H. apply existsb_true_Exists in Hc.
  repeat (apply Exists_cons in Hc as [Hc|Hc]; [apply Z.eqb_eq in Hc; subst c;
    cbn [unmarshal_one] in H;
    first [ by eapply read_num_sig; [|exact H]
          | unfold c_array, c_lparen, c_lbrace, c_variant in H; cbn in H; inv_run; done ]|]).
  by apply Exists_nil in Hc.
Qed.

Lemma signature_of_struct vs ts :
  Forall2 (fun v t => signature_of v = print_type t) vs ts ->
  signature_of (VStruct vs) = print_type (TStruct ts).
Proof.
  intros H. cbn [signature_of print_type]. change (lit "(") with [c_lparen].
  cbn [app]. do 2 f_equal. induction H as [|v t vs ts Hv _ IH]; [done|]. simpl. by rewrite Hv, IH.
Qed.

Lemma typed_one_step fuel : typed_one fuel -> typed_list fuel -> typed_one (S fuel).
Proof.
  intros I1 I2 t off v off' Hok H. destruct t as [c| |t|ts|k t].
  - by eapply typed_basic.
  - cbn in H. inv_run. done.
  - rewrite unmarshal_array_eq in H by done. inv_run. done.
  - apply andb_true_iff in Hok as [_ Hoks]. rewrite unmarshal_struct_eq in H by done.
    inv_run. apply signature_of_struct. by eapply I2.
  - rewrite unmarshal_dict_eq in H by done. apply andb_true_iff in Hok as [Hk Ht].
    inv_run. change [k] with (print_type (TBasic k)) in *.
    repeat match goal with
    | H : unmarshal_one _ _ _ _ = _ |- _ => apply I1 in H; [|done]
    end.
    cbn [signature_of]. by repeat match goal with H : signature_of _ = _ |- _ => rewrite H end.
Qed.

Lemma typed_all fuel : typed_one fuel /\ typed_list fuel.
Proof.
  induction fuel as [|fuel [I1 I2]]; [done|]. split; [by apply typed_one_step|].
  intros ts off vs off' Hoks H. destruct ts as [|t ts].
  - cbn in H. inv_run. constructor.
  - cbn [forallb] in Hoks. apply andb_true_iff in Hoks as [Hok Hoks].
    rewrite unmarshal_cons_eq in H by done.
    inv_run. constructor; eauto.
Qed.
End typed.

(** C30: whatever bytes arrive, a successful [unmarshal] returns one value per
    requested type, each value's own signature is the one asked for, and the
    new offset is past the old one and inside the buffer. *)
Theorem unmarshal_sound fuel ts buf off vs off'
    (Hbuf : Forall byte_ok buf) (Hoff : off <= zlen buf) (Hok : forallb type_ok ts = true)
    (Hrun : unmarshal_fuel fuel (print_types ts) buf off = ret (vs, off')) :
  map signature_of vs = map print_type ts /\ off <= off' <= zlen buf.
Proof.
  split.
  - apply (typed_all buf fuel) in Hrun; [|done].
    induction Hrun as [|v t vs ts Hv _ IH]; [done|]. cbn [map]. cbn [forallb] in Hok.
    apply andb_true_iff in Hok as [_ Hok]. by rewrite Hv, IH.
  - destruct (bounded_all buf Hbuf fuel) as (_ & H & _). by eapply H.
Qed.

Lemma unmarshal_sound_witness :
  map signature_of [VStruct [VByte 1; VUInt16 2]] = map print_type [TStruct [TBasic 121; TBasic 113]]
  /\ 0 <= 4 <= 4.
Proof.
  apply (unmarshal_sound 9 [TStruct [TBasic 121; TBasic 113]] [1; 0; 2; 0] 0).
  - apply bytes_ok. reflexivity.
  - vm_compute. intuition congruence.
  - reflexivity.
  - vm_compute. reflexivity.
Defined.

(** ** Totality on well-formed, variant-free types

    Without variants the types decoded are the ones the caller asked for, and
    every one of them consumes input; [tfuel R t] rounds decode any value of
    type [t] from a buffer of [R] bytes. *)

Fixpoint variant_free (t : dtype) : bool :=
  match t with
  | TBasic _ => true
  | TVariant => false
  | TArray t | TDict _ t => variant_free t
  | TStruct ts => forallb variant_free ts
  end.

Fixpoint tfuel (R : nat) (t : dtype) : nat :=
  match t with
  | TBasic _ | TVariant => 1
  | TArray t => S (S R + tfuel R t)
  | TStruct ts => S (S (length ts) + list_sum (map (tfuel R) ts))
  | TDict _ t => S (S (tfuel R t))
  end.

Definition tfuel_list (R : nat) (ts : list dtype) : nat :=
  S (length ts) + list_sum (map (tfuel R) ts).

Section total.
Context (buf : list Z) (Hbuf : Forall byte_ok buf).

Definition progresses (t : dtype) : Prop := forall fuel off v off',
  unmarshal_one fuel (print_type t) buf off = ret (v, off') -> off < off'.

Lemma progress_basic c : is_basic c = true -> progresses (TBasic c).
Proof.
  intros Hc [|fuel] off v off' H; [done|]. cbn [print_type unmarshal_one] in H.
  unfold is_basic in Hc. apply existsb_true_Exists in Hc.
  repeat (apply Exists_cons in Hc as [Hc|Hc]; [apply Z.eqb_eq in Hc; subst c;
    unfold c_array, c_lparen, c_lbrace, c_variant in H; cbn in H;
    first [ apply (read_num_bounds buf Hbuf) in H; lia | inv_run; read_bounds; lia ]|]).
  by apply Exists_nil in Hc.
Qed.

Ltac run_bounds :=
  repeat match goal with
  | H : unmarshal_one _ _ buf _ = _ |- _ => apply (proj1 (bounded_all buf Hbuf _)) in H
  | H : unmarshal_items _ _ buf _ _ = _ |- _ =>
      apply (proj2 (proj2 (bounded_all buf Hbuf _))) in H; [|lia]
  | H : unmarshal_fuel _ _ buf _ = _ |- _ =>
      apply (proj1 (proj2 (bounded_all buf Hbuf _))) in H; [|lia]
  end.

Lemma type_progress t : type_ok t = true -> progresses t.
Proof.
  induction t as [c| |t IH|ts IH|k t IH] using dtype_nested_ind; intros Hok.
  - by apply progress_basic.
  - intros [|fuel] off v off' H; [done|]. cbn in H. inv_run.
    match goal with H : unmarshal_one _ _ _ off = _ |- _ =>
      apply (progress_basic 103 eq_refl) in H end. run_bounds. lia.
  - intros [|fuel] off v off' H; [done|]. rewrite unmarshal_array_eq in H by done.
    inv_run. read_bounds. run_bounds. lia.
  - intros [|fuel] off v off' H; [done|]. cbn [type_ok] in Hok.
    apply andb_true_iff in Hok as [Hne Hoks]. rewrite unmarshal_struct_eq in H by done.
    destruct ts as [|t ts]; [done|]. cbn [forallb] in Hoks.
    apply andb_true_iff in Hoks as [Hok Hoks]. inv_run. read_bounds.
    destruct fuel as [|fuel]; [done|].
    match goal with H : unmarshal_fuel _ _ _ _ = _ |- _ =>
      rewrite unmarshal_cons_eq in H by done end. inv_run.
    match goal with H : unmarshal_one _ _ _ _ = _ |- _ =>
      pose proof (proj1 (bounded_all buf Hbuf _) _ _ _ _ H); apply (Forall_inv IH Hok) in H end.
    run_bounds. lia.
  - intros [|fuel] off v off' H; [done|]. rewrite unmarshal_dict_eq in H by done.
    cbn [type_ok] in Hok. apply andb_true_iff in Hok as [Hk Ht]. inv_run. read_bounds.
    match goal with H : unmarshal_one _ [k] _ _ = _ |- _ =>
      apply (progress_basic k Hk) in H end. run_bounds. lia.
Qed.

(** A read of fixed size never panics. *)
Definition total {A} (r : Run A) : Prop := exists x, r = Done x.

Lemma total_bind {A B} (r : Run A) (f : A -> Run B) :
  total r -> (forall a, r = ret a -> total (f a)) ->
  total (match r with Done (Ok a) => f a | Done (Err e) => fail e
         | Panic => Panic | OutOfFuel => OutOfFuel end).
Proof. intros [[a|e] ->] H; [by apply H|by eexists]. Qed.

Lemma total_bind2 {A B C} (r : Run (A * B)) (f : A -> B -> Run C) :
  total r -> (forall a b, r = ret (a, b) -> total (f a b)) ->
  total (match r with Done (Ok (a, b)) => f a b | Done (Err e) => fail e
         | Panic => Panic | OutOfFuel => OutOfFuel end).
Proof. intros [[[a b]|e] ->] H; [by apply H|by eexists]. Qed.

Lemma total_done {A} (r : Result A) : total (Done r).
Proof. by eexists. Qed.
Lemma total_take off n : total (take_bytes buf off n).
Proof. unfold take_bytes. case_match; by eexists. Qed.
Lemma total_align off a : total (align_read buf off a).
Proof. unfold align_read. cbv zeta. case_match; by eexists. Qed.
Lemma total_num off a n mk : total (read_num buf off a n mk).
Proof.
  unfold read_num. apply total_bind; [apply total_align|intros].
  apply total_bind2; [apply total_take|intros]. apply total_done.
Qed.

Lemma total_basic fuel c off :
  is_basic c = true -> total (unmarshal_one (S fuel) [c] buf off).
Proof.
  unfold is_basic. intros Hc. apply existsb_true_Exists in Hc.
  repeat (apply Exists_cons in Hc as [Hc|Hc]; [apply Z.eqb_eq in Hc; subst c;
    cbn [unmarshal_one Z.eqb Pos.eqb orb];
    repeat first [ apply total_num | apply total_done | apply total_take | apply total_align
      | apply total_bind2; [|intros] | apply total_bind; [|intros] | case_match ]|]).
  by apply Exists_nil in Hc.
Qed.

(** The fuel's [R]: how many bytes are left at most. *)
Context (R : nat) (HR : zlen buf <= Z.of_nat R).

Definition total_at (t : dtype) : Prop := forall fuel off, 0 <= off ->
  (tfuel R t <= fuel)%nat -> total (unmarshal_one fuel (print_type t) buf off).

Lemma total_items t : type_ok t = true -> total_at t ->
  forall n fuel off e, 0 <= off -> zlen buf - off <= Z.of_nat n -> e <= zlen buf ->
  (S n + tfuel R t <= fuel)%nat -> total (unmarshal_items fuel (print_type t) buf off e).
Proof.
  intros Hok Ht. induction n as [|n IH]; intros fuel off e Hoff Hn He Hf;
    (destruct fuel as [|fuel]; [lia|]); cbn [unmarshal_items];
    (case_match eqn:E; [|apply total_done]); bool_to_prop; [lia|].
  apply total_bind2; [apply Ht; lia|]. intros v off' Hv. apply type_progress in Hv; [|done].
  apply total_bind2; [apply IH; lia|]. intros. apply total_done.
Qed.

Lemma total_list ts : forallb type_ok ts = true -> Forall total_at ts ->
  forall fuel off, 0 <= off -> (tfuel_list R ts <= fuel)%nat ->
  total (unmarshal_fuel fuel (print_types ts) buf off).
Proof.
  intros Hoks Ht. induction Ht as [|t ts Ht _ IH]; intros fuel off Hoff Hf;
    unfold tfuel_list in *; (destruct fuel as [|fuel]; [simpl in Hf; lia|]); [apply total_done|].
  cbn [forallb] in Hoks. apply andb_true_iff in Hoks as [Hok Hoks].
  cbn [map list_sum length foldr] in Hf.
  rewrite unmarshal_cons_eq by done. apply total_bind2; [apply Ht; [done|lia]|].
  intros v off' Hv. apply type_progress in Hv; [|done].
  apply total_bind2; [|intros; apply total_done]. apply IH; [done|lia|].
  change (fold_right Nat.add 0%nat) with list_sum in Hf. lia.
Qed.

Lemma total_one t : type_ok t = true -> variant_free t = true -> total_at t.
Proof.
  induction t as [c| |t IH|ts IH|k t IH] using dtype_nested_ind; intros Hok Hv fuel off Hoff Hf;
    cbn [tfuel] in Hf; (destruct fuel as [|fuel]; [lia|]).
  - by apply total_basic.
  - done.
  - rewrite unmarshal_array_eq by done.
    apply total_bind; [apply total_align|]. intros off1 H1. read_bounds.
    apply total_bind2; [apply total_take|]. intros lb off2 H2. read_bounds.
    apply total_bind; [apply total_align|]. intros off3 H3. read_bounds.
    cbv zeta. case_match eqn:E; [apply total_done|]. bool_to_prop.
    apply total_bind2; [apply (total_items t Hok (IH Hok Hv) R); lia|].
    intros. case_match; apply total_done.
  - cbn [type_ok variant_free] in *. apply andb_true_iff in Hok as [_ Hoks].
    rewrite unmarshal_struct_eq by done.
    apply total_bind; [apply total_align|]. intros off1 H1. read_bounds.
    apply total_bind2; [|intros; apply total_done].
    apply total_list; [done| |lia|unfold tfuel_list; lia].
    clear -IH Hv Hoks. induction IH as [|t ts Ht _ IH]; [constructor|].
    cbn [forallb] in *. apply andb_true_iff in Hoks as [? ?], Hv as [? ?]. constructor; auto.
  - rewrite unmarshal_dict_eq by done. cbn [type_ok variant_free] in *.
    apply andb_true_iff in Hok as [Hk Ht].
    apply total_bind; [apply total_align|]. intros off1 H1. read_bounds.
    destruct fuel as [|fuel]; [lia|].
    apply total_bind2; [by apply total_basic|]. intros kv off2 H2.
    apply (progress_basic k Hk) in H2.
    apply total_bind2; [apply IH; [done..|lia|lia]|]. intros. apply total_done.
Qed.
End total.

(** C4: for any well-formed requested types without variants (the reply
    [a{o(oayays)}] of [GetSecrets] is one) and any bytes at all, [unmarshal]
    returns, a value list or an error: it neither panics nor loops, and
    [tfuel_list |buf| ts] rounds are enough. *)
Theorem unmarshal_total ts buf off fuel
    (Hbuf : Forall byte_ok buf) (Hoff : 0 <= off) (Hok : forallb type_ok ts = true)
    (Hvar : forallb variant_free ts = true)
    (Hfuel : (tfuel_list (length buf) ts <= fuel)%nat) :
  exists r, unmarshal_fuel fuel (print_types ts) buf off = Done r.
Proof.
  apply (total_list buf Hbuf (length buf)); try done.
  revert Hok Hvar. clear Hfuel. induction ts as [|t ts IH]; [constructor|]. cbn [forallb].
  intros [? ?]%andb_true_iff [? ?]%andb_true_iff.
  constructor; [by apply total_one|by apply IH].
Qed.

Lemma unmarshal_total_witness :
  exists r, unmarshal_fuel 30
    (print_types [TArray (TDict 111 (TStruct [TBasic 111; TArray (TBasic 121)]))])
    [255; 255; 0; 0; 1; 0; 0; 0] 0 = Done r.
Proof.
  apply (unmarshal_total _ _ 0 30).
  - apply bytes_ok. reflexivity.
  - lia.
  - reflexivity.
  - reflexivity.
  - vm_compute. lia.
Defined.

(** ** Where decoding does not behave *)

Lemma unit_items_diverge buf e fuel off :
  off mod 8 = 0 -> 0 <= off -> off < e -> e <= zlen buf ->
  unmarshal_items fuel (lit "()") buf off e = OutOfFuel.
Proof.
  intros Ha H0 Hlt He. revert fuel.
  assert (forall fuel, (unmarshal_one fuel (lit "()") buf off = OutOfFuel) \/
    unmarshal_one fuel (lit "()") buf off = ret (VStruct [], off)) as Hone.
  { intros [|fuel]; [by left|]. change (lit "()") with (print_type (TStruct [])).
    rewrite unmarshal_struct_eq by done. unfold align_read. cbv zeta.
    rewrite align_up, (Z_mod_zero_opp_full _ _ Ha), Z.add_0_r by lia.
    rewrite Z.gtb_ltb, (proj2 (Z.ltb_ge _ _)) by lia. destruct fuel; [by left|by right]. }
  induction fuel as [|fuel IH]; [done|]. cbn [unmarshal_items].
  rewrite (proj2 (Z.ltb_lt off e)) by done.
  destruct (Hone fuel) as [-> | ->]; [done|]. by rewrite IH.
Qed.

(** an array of empty structs with a non-zero declared length is decoded
    forever: the zero-size element never advances the offset, so the
    [while offset < content_end] loop of [unmarshal_one] has no end, and
    pushes an item each time.  Nine bytes from the peer are enough. *)
Theorem unmarshal_unit_array_diverges (len : Z) (rest : list Z) (fuel : nat)
    (Hlen : 0 < len < 2 ^ 32) (Hrest : len <= zlen rest) :
  unmarshal_fuel fuel (lit "a()") (le_bytes 4 len ++ [0; 0; 0; 0] ++ rest) 0 = OutOfFuel.
Proof.
  destruct fuel as [|[|fuel]]; [done..|].
  change (lit "a()") with (c_array :: lit "()"). cbn [unmarshal_fuel].
  change (split_one (c_array :: lit "()")) with (ret (c_array :: lit "()", @nil Z)).
  cbn iota beta. cbn [unmarshal_one]. simpl (c_array =? _). cbn [orb]. cbn beta iota.
  unfold align_read at 1. change ((0 + 4 - 1) / 4 * 4) with 0. cbv zeta.
  rewrite Z.gtb_ltb, (proj2 (Z.ltb_ge _ _)) by lia.
  pose proof (take_bytes_app [] (le_bytes 4 len) ([0; 0; 0; 0] ++ rest) 4 eq_refl) as Ht.
  change (take_bytes (le_bytes 4 len ++ [0; 0; 0; 0] ++ rest) 0 4 = ret (le_bytes 4 len, 4)) in Ht.
  rewrite Ht.
  rewrite le_val_bytes by (unfold in_u; simpl; lia).
  change (str_slice _ _ _) with (Some (lit "()")). cbn [or_panic].
  change (lit "()") with (c_lparen :: [c_rparen]). cbv beta iota.
  change (align_of c_lparen) with 8. unfold align_read.
  change ((4 + 8 - 1) / 8 * 8) with 8. cbv zeta.
  rewrite !length_app, length_le_bytes. cbn [length].
  rewrite Z.gtb_ltb, (proj2 (Z.ltb_ge _ 8)) by lia. cbn beta iota.
  rewrite Z.gtb_ltb, (proj2 (Z.ltb_ge _ (8 + len))) by lia.
  change [c_lparen; c_rparen] with (lit "()").
  rewrite unit_items_diverge; [done|done|lia|lia|].
  rewrite !length_app, length_le_bytes. cbn [length]. lia.
Qed.

Lemma unmarshal_unit_array_diverges_witness :
  unmarshal_fuel 1000 (lit "a()") ([1; 0; 0; 0] ++ [0; 0; 0; 0] ++ [0]) 0 = OutOfFuel.
Proof.
  apply (unmarshal_unit_array_diverges 1 [0] 1000).
  - split; reflexivity.
  - vm_compute. intuition congruence.
Defined.

Lemma unmarshal_variant_eq fuel buf off :
  unmarshal_one (S fuel) (lit "v") buf off =
  do! (g, off) := unmarshal_one fuel (lit "g") buf off in
  match g with
  | VSignature inner_sig =>
    do! n := Done (type_len inner_sig) in
    if n =? zlen inner_sig then
      do! (inner, off) := unmarshal_one fuel inner_sig buf off in ret (VVariant inner, off)
    else fail (bad_signature "variant signature is not a single complete type")
  | _ => Panic
  end.
Proof. reflexivity. Qed.

Lemma keyless_dict_panics fuel buf off :
  0 <= off -> off mod 8 = 0 -> off < zlen buf -> unmarshal_one (S (S fuel)) (lit "{y}") buf off = Panic.
Proof.
  intros H0 Ha Hlt.
  change (unmarshal_one (S (S fuel)) (lit "{y}") buf off) with
    (do! off := align_read buf off 8 in
     do! (key, off) := (do! (bytes, off) := take_bytes buf off 1 in ret (VByte (le_val bytes), off)) in
     do! (val, off) := @Panic (Value * Z) in ret (VDictEntry key val, off)).
  unfold align_read. cbv zeta. rewrite align_up, (Z_mod_zero_opp_full _ _ Ha), Z.add_0_r by lia.
  rewrite Z.gtb_ltb, (proj2 (Z.ltb_ge _ off)) by lia.
  unfold take_bytes. by rewrite Z.gtb_ltb, (proj2 (Z.ltb_ge _ (off + 1))) by lia.
Qed.

(** a variant whose signature is a dict entry with a key and no value
    panics the decoder: [type_len] accepts ["{y}"] as one complete type, and
    [unmarshal_one] then indexes the empty value signature. *)
Theorem unmarshal_keyless_dict_panics (rest : list Z) (fuel : nat)
    (Hrest : 1 <= zlen rest) (Hfuel : (4 <= fuel)%nat) :
  unmarshal_fuel fuel (lit "v") ([0; 0; 0] ++ enc_sig (lit "{y}") ++ rest) 3 = Panic.
Proof.
  do 4 (destruct fuel as [|fuel]; [lia|]).
  pose proof (unmarshal_sig_enc (lit "{y}") [0; 0; 0] rest (S fuel) eq_refl eq_refl) as Hg.
  change (unmarshal_fuel (S (S (S (S fuel)))) (lit "v") ?buf 3) with
    (do! (v, off) := unmarshal_one (S (S (S fuel))) (lit "v") buf 3 in
     do! (vs, off) := ret (@nil Value, off) in ret (v :: vs, off)).
  rewrite unmarshal_variant_eq.
  change (zlen [0; 0; 0]) with 3 in Hg. rewrite Hg.
  change (type_len (lit "{y}")) with (@Ok Z 3). cbn beta iota.
  change (zlen (lit "{y}")) with 3. rewrite Z.eqb_refl.
  change (zlen ([0; 0; 0] ++ enc_sig (lit "{y}"))) with 8.
  rewrite keyless_dict_panics; [done|lia|done|].
  rewrite !length_app. simpl (length (enc_sig _)). cbn [length]. lia.
Qed.

Lemma unmarshal_keyless_dict_panics_witness :
  unmarshal_fuel 4 (lit "v") ([0; 0; 0] ++ enc_sig (lit "{y}") ++ [1]) 3 = Panic.
Proof. apply (unmarshal_keyless_dict_panics [1] 4); [vm_compute; intuition congruence|lia]. Defined.
