(* ===== verification/DBusMessage.v ===== *)
(** * D-Bus messages ([platform-linux/src/sys/dbus/message.rs])

    The [Message] record, [encode] and [decode], translated; the round trip
    of the two; and the framing facts the transport relies on: a message cut
    short asks for more bytes, and one that is malformed does too. *)

From Stdlib Require Import ZArith Lia String.
From S2P Require Import Prelude Error DBusValue DBusWire DBusEnc DBusLimits.
From stdpp Require Import base numbers list strings.
Open Scope Z_scope.

Definition TYPE_METHOD_CALL : Z := 1.
Definition TYPE_METHOD_RETURN : Z := 2.
Definition TYPE_ERROR : Z := 3.
Definition FIELD_PATH : Z := 1.
Definition FIELD_INTERFACE : Z := 2.
Definition FIELD_MEMBER : Z := 3.
Definition FIELD_ERROR_NAME : Z := 4.
Definition FIELD_REPLY_SERIAL : Z := 5.
Definition FIELD_DESTINATION : Z := 6.
Definition FIELD_SENDER : Z := 7.
Definition FIELD_SIGNATURE : Z := 8.

Record Message := mkMessage {
  message_type : Z;
  flags : Z;
  serial : Z;
  mpath : option str;
  interface : option str;
  member : option str;
  error_name : option str;
  reply_serial : option Z;
  destination : option str;
  sender : option str;
  signature : str;
  body : list Value;
}.

Definition method_call (sn : Z) (dest pth iface memb sig : str) (args : list Value) : Message :=
  mkMessage TYPE_METHOD_CALL 0 sn (Some pth) (Some iface) (Some memb) None None (Some dest)
    None sig args.

Definition field (code : Z) (value : Value) : Value := VStruct [VByte code; VVariant value].

(** [if let Some(x) = opt { fields.push(field(code, mk(x))) }]. *)
Definition push_field {A} (code : Z) (mk : A -> Value) (o : option A) : list Value :=
  match o with Some x => [field code (mk x)] | None => [] end.

Definition header_fields (msg : Message) : list Value :=
  push_field FIELD_PATH VObjectPath (mpath msg)
  ++ push_field FIELD_INTERFACE VString (interface msg)
  ++ push_field FIELD_MEMBER VString (member msg)
  ++ push_field FIELD_ERROR_NAME VString (error_name msg)
  ++ push_field FIELD_REPLY_SERIAL VUInt32 (reply_serial msg)
  ++ push_field FIELD_DESTINATION VString (destination msg)
  ++ push_field FIELD_SENDER VString (sender msg)
  ++ match signature msg with
     | [] => []
     | s => [field FIELD_SIGNATURE (VSignature s)]
     end.

Definition encode (msg : Message) : Run (list Z) :=
  do! body_bytes :=
    match signature msg with [] => ret [] | s => marshal s (body msg) [] end in
  let out := [108 (* l *); message_type msg; flags msg; 1]
    ++ le_bytes 4 (wrap 32 (zlen body_bytes)) ++ le_bytes 4 (serial msg) in
  do! out := marshal (lit "a(yv)") [VArray (lit "(yv)") (header_fields msg)] out in
  ret (pad_to out 8 ++ body_bytes).

Definition bad (detail : string) : PlatformError := error_new InvalidInput NoCode detail.
Definition need_more_data : PlatformError :=
  error_new WouldBlock NoCode "D-Bus message incomplete, more bytes needed".

(** [while offset % 8 != 0 { offset += 1 }]. *)
Fixpoint align8_loop (fuel : nat) (offset : Z) : Z :=
  if offset mod 8 =? 0 then offset
  else match fuel with O => offset | S fuel => align8_loop fuel (offset + 1) end.

(** One round of the loop over [field_structs]. *)
Definition apply_field (msg : Message) (f : Value) : Message :=
  match f with
  | VStruct (VByte code :: VVariant val :: _) =>
    let '(mkMessage mt fl sn p i m e r d s g b) := msg in
    match val with
    | VObjectPath x => if code =? FIELD_PATH then mkMessage mt fl sn (Some x) i m e r d s g b else msg
    | VString x =>
      if code =? FIELD_INTERFACE then mkMessage mt fl sn p (Some x) m e r d s g b
      else if code =? FIELD_MEMBER then mkMessage mt fl sn p i (Some x) e r d s g b
      else if code =? FIELD_ERROR_NAME then mkMessage mt fl sn p i m (Some x) r d s g b
      else if code =? FIELD_DESTINATION then mkMessage mt fl sn p i m e r (Some x) s g b
      else if code =? FIELD_SENDER then mkMessage mt fl sn p i m e r d (Some x) g b
      else msg
    | VUInt32 x =>
      if code =? FIELD_REPLY_SERIAL then mkMessage mt fl sn p i m e (Some x) d s g b else msg
    | VSignature x =>
      if code =? FIELD_SIGNATURE then mkMessage mt fl sn p i m e r d s x b else msg
    | _ => msg
    end
  | _ => msg
  end.

Definition with_body (msg : Message) (b : list Value) : Message :=
  let '(mkMessage mt fl sn p i m e r d s g _) := msg in mkMessage mt fl sn p i m e r d s g b.

(** [Message { message_type, flags, serial, ..Default::default() }]. *)
Definition blank (mt fl sn : Z) : Message :=
  mkMessage mt fl sn None None None None None None None [] [].

Definition byte_at (buf : list Z) (i : nat) : Z := default 0 (buf !! i).

Definition decode (fuel : nat) (buf : list Z) : Run (Message * Z) :=
  if zlen buf <? 16 then fail need_more_data
  else if negb (byte_at buf 0 =? 108) then
    fail (error_new Unsupported NoCode "big-endian D-Bus messages are not supported")
  else
    let body_len := le_val (sub_bytes buf 4 4) in
    let sn := le_val (sub_bytes buf 8 4) in
    match unmarshal_fuel fuel (lit "a(yv)") buf 12 with
    | Done (Err e) =>
      if bool_decide (kind e = InvalidInput) then fail need_more_data else fail e
    | Panic => Panic
    | OutOfFuel => OutOfFuel
    | Done (Ok (hf, offset)) =>
      let body_start := align8_loop 8 offset in
      if zlen buf <? body_start + body_len then fail need_more_data
      else match hf with
      | [] => Panic
      | VArray _ field_structs :: _ =>
        let msg := fold_left apply_field field_structs
                     (blank (byte_at buf 1) (byte_at buf 2) sn) in
        do! b := match signature msg with
                 | [] => ret []
                 | s => do! (vs, _) := unmarshal_fuel fuel s buf body_start in ret vs
                 end in
        ret (with_body msg b, body_start + body_len)
      | _ => fail (bad "header fields value was not the expected array")
      end
    end.

(** The source's own round-trip test, evaluated. *)
Definition hello : Message :=
  method_call 1 (lit "org.freedesktop.DBus") (lit "/org/freedesktop/DBus")
    (lit "org.freedesktop.DBus") (lit "Hello") [] [].
Definition ping : Message :=
  method_call 7 (lit "a.b") (lit "/a") (lit "i.j") (lit "m") (lit "su")
    [VString (lit "x"); VUInt32 5].

Example hello_roundtrip :
  match encode hello with ret b => decode 20 b = ret (hello, zlen b) | _ => False end /\
  match encode ping with ret b => decode 20 (b ++ [1; 2]) = ret (ping, zlen b) | _ => False end.
Proof. vm_compute. auto. Qed.

(** ** Well-formed messages *)

Definition text_ok (o : option str) : Prop :=
  match o with Some s => utf8_valid s = true | None => True end.

Record message_ok (msg : Message) (ts : list dtype) : Prop := {
  ok_type : in_u 8 (message_type msg);
  ok_flags : in_u 8 (flags msg);
  ok_serial : in_u 32 (serial msg);
  ok_path : text_ok (mpath msg);
  ok_interface : text_ok (interface msg);
  ok_member : text_ok (member msg);
  ok_error_name : text_ok (error_name msg);
  ok_reply_serial : match reply_serial msg with Some x => in_u 32 x | None => True end;
  ok_destination : text_ok (destination msg);
  ok_sender : text_ok (sender msg);
  ok_signature : signature msg = print_types ts;
  ok_signature_len : zlen (signature msg) < 256;
  ok_body : Forall2 has_type (body msg) ts;
}.

(** The header array and its type [a(yv)]. *)
Definition header_type : dtype := TStruct [TBasic 121; TVariant].
Definition header_value (msg : Message) : Value :=
  VArray (print_type header_type) (header_fields msg).

Definition fixed_header (msg : Message) (n : Z) : list Z :=
  [108; message_type msg; flags msg; 1] ++ le_bytes 4 n ++ le_bytes 4 (serial msg).

(** The bytes of a message up to its body. *)
Definition header_bytes (msg : Message) (n : Z) : list Z :=
  let h := fixed_header msg n ++ enc (header_value msg) 12 in h ++ pad (zlen h) 8.

Definition body_bytes (msg : Message) : list Z := enc_list enc (body msg) 0.

Definition message_bytes (msg : Message) : list Z :=
  header_bytes msg (zlen (body_bytes msg)) ++ body_bytes msg.

(** Rounds of the decoder that suffice for the header and the body. *)
Definition message_fuel (msg : Message) : nat :=
  list_fuel vfuel [header_value msg] `max` list_fuel vfuel (body msg).

Lemma field_typed code v t :
  in_u 8 code -> has_type v t -> zlen (print_type t) < 256 -> has_type (field code v) header_type.
Proof.
  intros. apply HT_Struct; [|done]. constructor; [by constructor|].
  constructor; [by eapply HT_Variant|constructor].
Qed.

Lemma push_field_typed {A} code (mk : A -> Value) o t :
  in_u 8 code -> zlen (print_type t) < 256 ->
  (forall x, o = Some x -> has_type (mk x) t) ->
  Forall (fun v => has_type v header_type) (push_field code mk o).
Proof.
  intros Hc Hl Ht. destruct o as [x|]; constructor; [|constructor].
  apply field_typed with t; auto.
Qed.

Lemma text_field_typed code o :
  in_u 8 code -> text_ok o ->
  Forall (fun v => has_type v header_type) (push_field code VString o).
Proof.
  intros Hc Ho. apply push_field_typed with (TBasic 115); [done|done|].
  intros x ->. by constructor.
Qed.

Lemma header_fields_typed msg ts :
  message_ok msg ts -> Forall (fun v => has_type v header_type) (header_fields msg).
Proof.
  intros [_ _ _ Hp Hi Hm He Hr Hd Hs Hg Hgl Hb]. unfold header_fields.
  repeat apply Forall_app_2; try (apply text_field_typed; [by vm_compute|done]).
  - apply push_field_typed with (TBasic 111); [by vm_compute|done|].
    intros x E. rewrite E in Hp. by constructor.
  - apply push_field_typed with (TBasic 117); [by vm_compute|done|].
    intros x E. rewrite E in Hr. by constructor.
  - destruct (signature msg) as [|c g] eqn:E; constructor; [|constructor].
    apply field_typed with (TBasic 103); [by vm_compute| |done].
    apply HT_Signature; [|done]. rewrite Hg.
    by eapply utf8_valid_ascii, print_types_ascii, has_type_list_ok.
Qed.

Lemma header_value_typed msg ts :
  message_ok msg ts -> Forall2 has_type [header_value msg] [TArray header_type].
Proof.
  intros H. constructor; [|constructor]. apply HT_Array; [done|].
  by eapply header_fields_typed.
Qed.

Lemma print_types_nil ts : print_types ts = [] -> ts = [].
Proof.
  destruct ts as [|t ts]; [done|]. unfold print_types. simpl. intros H.
  apply app_eq_nil in H as [H _]. by apply print_type_nonempty in H.
Qed.

(** [encode] produces exactly [message_bytes]. *)
Lemma encode_bytes msg ts :
  message_ok msg ts -> zlen (message_bytes msg) < 2 ^ 32 ->
  encode msg = ret (message_bytes msg).
Proof.
  intros Hok Hlen. unfold encode.
  assert (match signature msg with [] => ret [] | s => marshal s (body msg) [] end
    = ret (body_bytes msg)) as ->.
  { destruct Hok as [_ _ _ _ _ _ _ _ _ _ Hg _ Hb].
    assert (marshal (print_types ts) (body msg) [] = ret ([] ++ body_bytes msg)) as Hm.
    { apply marshal_values_enc; [|done|].
      - apply Forall_true. intros. apply marshal_one_enc.
      - unfold message_bytes in Hlen. rewrite length_app in Hlen.
        change (zlen (body_bytes msg) < 2 ^ 32). lia. }
    destruct (signature msg) eqn:E; [|by rewrite Hg].
    symmetry in Hg. apply print_types_nil in Hg as ->.
    apply Forall2_nil_inv_r in Hb. unfold body_bytes. by rewrite Hb. }
  cbn beta iota zeta.
  unfold message_bytes, header_bytes in Hlen. cbv zeta in Hlen.
  autorewrite with rust_rw in Hlen.
  set (n := zlen (body_bytes msg)) in *.
  rewrite wrap_small by (unfold in_u; subst n; lia).
  change ([108; message_type msg; flags msg; 1] ++ le_bytes 4 n ++ le_bytes 4 (serial msg))
    with (fixed_header msg n).
  assert (zlen (fixed_header msg n) = 12) as Hf by done.
  change (lit "a(yv)") with (print_types [TArray header_type]).
  change [VArray _ _] with [header_value msg].
  assert (marshal (print_types [TArray header_type]) [header_value msg] (fixed_header msg n)
    = ret (fixed_header msg n ++ enc (header_value msg) 12)) as ->.
  { unfold marshal. rewrite (marshal_values_enc _ [TArray header_type]); rewrite ?Hf.
    - cbn [enc_list]. by rewrite app_nil_r.
    - apply Forall_true. intros. apply marshal_one_enc.
    - by eapply header_value_typed.
    - cbn [enc_list]. rewrite app_nil_r. lia. }
  rewrite pad_to_spec by lia. done.
Qed.

(** ** [decode] reads back what [encode] wrote *)

Lemma align8_loop_spec fuel off :
  (- off) mod 8 <= Z.of_nat fuel -> align8_loop fuel off = off + (- off) mod 8.
Proof.
  revert off. induction fuel as [|fuel IH]; intros off Hf; cbn [align8_loop];
    pose proof (Z.mod_pos_bound (- off) 8); case_match eqn:E; bool_to_prop.
  1,3: rewrite Z_mod_zero_opp_full by done; lia.
  - lia.
  - pose proof (pad_step off 8 eq_refl E). rewrite IH by lia. lia.
Qed.

Lemma align8_spec off : align8_loop 8 off = off + zlen (pad off 8).
Proof.
  pose proof (Z.mod_pos_bound (- off) 8). rewrite length_pad by lia.
  apply align8_loop_spec. simpl. lia.
Qed.

(** The header fields rebuild the header of the message. *)
Lemma apply_header_fields msg :
  with_body (fold_left apply_field (header_fields msg)
    (blank (message_type msg) (flags msg) (serial msg))) (body msg) = msg.
Proof.
  destruct msg as [mt fl sn p i m e r d s g b]. unfold header_fields, blank.
  cbn [message_type flags serial mpath interface member error_name reply_serial
       destination sender signature body].
  rewrite !fold_left_app.
  destruct p; cbn [push_field fold_left field apply_field];
  destruct i; cbn [push_field fold_left field apply_field];
  destruct m; cbn [push_field fold_left field apply_field];
  destruct e; cbn [push_field fold_left field apply_field];
  destruct r, d, s, g; reflexivity.
Qed.

Lemma header_signature msg :
  signature (fold_left apply_field (header_fields msg)
    (blank (message_type msg) (flags msg) (serial msg))) = signature msg.
Proof.
  pose proof (apply_header_fields msg) as H. revert H.
  generalize (fold_left apply_field (header_fields msg)
    (blank (message_type msg) (flags msg) (serial msg))). intros [] <-. done.
Qed.

Lemma fixed_header_reads msg n rest :
  in_u 32 n -> in_u 32 (serial msg) ->
  let buf := fixed_header msg n ++ rest in
  byte_at buf 0 = 108 /\ byte_at buf 1 = message_type msg /\ byte_at buf 2 = flags msg /\
  le_val (sub_bytes buf 4 4) = n /\ le_val (sub_bytes buf 8 4) = serial msg.
Proof.
  intros Hn Hs buf. repeat split.
  - unfold buf, fixed_header. rewrite <- !app_assoc.
    rewrite (sub_bytes_app [108; message_type msg; flags msg; 1] (le_bytes 4 n)).
    by apply le_val_bytes.
  - unfold buf, fixed_header. rewrite <- !app_assoc, (app_assoc [_; _; _; _]).
    rewrite (sub_bytes_app ([108; message_type msg; flags msg; 1] ++ le_bytes 4 n)
      (le_bytes 4 (serial msg))).
    by apply le_val_bytes.
Qed.

Lemma decode_header msg ts post fuel n :
  message_ok msg ts -> zlen (header_bytes msg n) < 2 ^ 32 -> (message_fuel msg <= fuel)%nat ->
  exists off, align8_loop 8 off = zlen (header_bytes msg n) /\
  unmarshal_fuel fuel (lit "a(yv)") (header_bytes msg n ++ post) 12 = ret ([header_value msg], off).
Proof.
  intros Hok Hlen Hf. unfold header_bytes, message_fuel in *. cbv zeta in *.
  set (h := fixed_header msg n ++ enc (header_value msg) 12) in *.
  exists (zlen h). split; [by rewrite align8_spec, length_app, Nat2Z.inj_add|].
  pose proof (unmarshal_fuel_enc [header_value msg] [TArray header_type] (fixed_header msg n)
    (pad (zlen h) 8 ++ post) fuel) as Hu.
  change (zlen (fixed_header msg n)) with 12 in Hu. cbn [enc_list] in Hu.
  rewrite app_nil_r in Hu. rewrite <- !app_assoc.
  change (lit "a(yv)") with (print_types [TArray header_type]).
  subst h. rewrite <- app_assoc. apply Hu.
  - apply Forall_true. intros. apply unmarshal_one_enc.
  - by eapply header_value_typed.
  - autorewrite with rust_rw in Hlen. lia.
  - lia.
Qed.

Lemma decode_body msg ts pre rest fuel :
  message_ok msg ts -> zlen (body_bytes msg) < 2 ^ 32 -> (message_fuel msg <= fuel)%nat ->
  zlen pre mod 8 = 0 ->
  match signature msg with
  | [] => ret []
  | s => do! (vs, _) := unmarshal_fuel fuel s (pre ++ body_bytes msg ++ rest) (zlen pre) in ret vs
  end = ret (body msg).
Proof.
  intros [_ _ _ _ _ _ _ _ _ _ Hg _ Hb] Hlen Hf Hpre.
  destruct (signature msg) eqn:E.
  - symmetry in Hg. apply print_types_nil in Hg as ->.
    by apply Forall2_nil_inv_r in Hb as ->.
  - assert (body_bytes msg = enc_list enc (body msg) (zlen pre)) as Heq.
    { unfold body_bytes. rewrite (Z_div_mod_eq_full (zlen pre) 8), Hpre, Z.add_0_r.
      rewrite <- (Z.add_0_l (8 * _)). symmetry. apply enc_list_shift.
      apply Forall_true. intros. apply enc_shift. }
    rewrite Heq, Hg, unmarshal_fuel_enc; [done| |done|by rewrite <- Heq|].
    + apply Forall_true. intros. apply unmarshal_one_enc.
    + unfold message_fuel in Hf. lia.
Qed.

Lemma decode_bytes msg ts rest fuel :
  message_ok msg ts -> zlen (message_bytes msg) < 2 ^ 32 -> (message_fuel msg <= fuel)%nat ->
  decode fuel (message_bytes msg ++ rest) = ret (msg, zlen (message_bytes msg)).
Proof.
  intros Hok Hlen Hf. unfold message_bytes in *. set (n := zlen (body_bytes msg)) in *.
  rewrite length_app, Nat2Z.inj_add in Hlen.
  destruct (decode_header msg ts (body_bytes msg ++ rest) fuel n) as (off & Hoff & Hu);
    [done|lia|done|].
  assert (in_u 32 n) as Hn by (unfold in_u; subst n; lia).
  assert (zlen (header_bytes msg n) mod 8 = 0) as Hmod.
  { rewrite <- Hoff, align8_spec, length_pad by lia.
    rewrite Z.add_mod_idemp_r by lia. replace (off + - off) with 0 by lia. done. }
  destruct (fixed_header_reads msg n
    ((enc (header_value msg) 12 ++ pad (zlen (fixed_header msg n ++ enc (header_value msg) 12)) 8)
     ++ body_bytes msg ++ rest)) as (R0 & R1 & R2 & R3 & R4); [done|apply Hok|].
  unfold decode. rewrite <- app_assoc.
  assert (header_bytes msg n ++ body_bytes msg ++ rest = fixed_header msg n ++
    (enc (header_value msg) 12 ++ pad (zlen (fixed_header msg n ++ enc (header_value msg) 12)) 8)
     ++ body_bytes msg ++ rest) as Eb by (unfold header_bytes; cbv zeta; by rewrite <- !app_assoc).
  rewrite <- Eb in *. rewrite R0, R1, R2, R3, R4, Hu. cbv zeta. rewrite Hoff.
  assert (16 <= zlen (header_bytes msg n)) as H16.
  { unfold header_bytes, header_value. cbv zeta. cbn [enc]. autorewrite with rust_rw.
    change (length (fixed_header msg n)) with 12%nat. lia. }
  rewrite (proj2 (Z.ltb_ge _ 16)) by (autorewrite with rust_rw; lia).
  rewrite (proj2 (Z.ltb_ge _ (_ + n))) by (autorewrite with rust_rw; lia).
  cbn [negb Z.eqb Pos.eqb]. unfold header_value at 1. rewrite header_signature.
  rewrite (decode_body msg ts) by (done || lia).
  by rewrite apply_header_fields, length_app, Nat2Z.inj_add.
Qed.

(** C31: every well-formed message (header strings UTF-8, body typed by its
    signature, lengths within their fields) is encoded, and [decode] reads
    the same message back from the front of any buffer that starts with the
    encoding, consuming exactly those bytes. *)
Theorem message_roundtrip msg ts
    (Hok : message_ok msg ts) (Hlen : zlen (message_bytes msg) < 2 ^ 32) :
  encode msg = ret (message_bytes msg) /\
  forall rest fuel, (message_fuel msg <= fuel)%nat ->
  decode fuel (message_bytes msg ++ rest) = ret (msg, zlen (message_bytes msg)).
Proof. split; [by eapply encode_bytes|]. intros. by eapply decode_bytes. Qed.

Lemma ping_ok : message_ok ping [TBasic 115; TBasic 117].
Proof.
  split; try (vm_compute; intuition congruence).
  repeat constructor. vm_compute. intuition congruence.
Qed.

Lemma message_roundtrip_witness :
  encode ping = ret (message_bytes ping) /\
  forall rest fuel, (message_fuel ping <= fuel)%nat ->
  decode fuel (message_bytes ping ++ rest) = ret (ping, zlen (message_bytes ping)).
Proof. apply (message_roundtrip ping _ ping_ok). vm_compute. reflexivity. Defined.

(** ** Messages cut short

    More bytes never change what the decoder does, except that it no longer
    reports truncation: [grows r r'] relates its outcome on [p] to the one on
    [p ++ q]. *)

Definition grows {A} (r r' : Run A) : Prop := r = fail truncated \/ r' = r.

Section prefix.
Context (p q : list Z) (Hp : Forall byte_ok p).

Lemma grows_refl {A} (r : Run A) : grows r r.
Proof. by right. Qed.

Lemma grows_bind {A B} (m m' : Run A) (f f' : A -> Run B) :
  grows m m' -> (forall a, m = ret a -> grows (f a) (f' a)) ->
  grows (match m with Done (Ok a) => f a | Done (Err e) => fail e
         | Panic => Panic | OutOfFuel => OutOfFuel end)
        (match m' with Done (Ok a) => f' a | Done (Err e) => fail e
         | Panic => Panic | OutOfFuel => OutOfFuel end).
Proof.
  intros [-> | ->] Hf; [by left|]. destruct m as [[a|e]| |]; [by apply Hf|by right..].
Qed.

Lemma grows_bind2 {A B C} (m m' : Run (A * B)) (f f' : A -> B -> Run C) :
  grows m m' -> (forall a b, m = ret (a, b) -> grows (f a b) (f' a b)) ->
  grows (match m with Done (Ok (a, b)) => f a b | Done (Err e) => fail e
         | Panic => Panic | OutOfFuel => OutOfFuel end)
        (match m' with Done (Ok (a, b)) => f' a b | Done (Err e) => fail e
         | Panic => Panic | OutOfFuel => OutOfFuel end).
Proof.
  intros [-> | ->] Hf; [by left|].
  destruct m as [[[a b]|e]| |]; [by apply Hf|by right..].
Qed.

Lemma grows_take off n : 0 <= off -> grows (take_bytes p off n) (take_bytes (p ++ q) off n).
Proof.
  intros H0. unfold take_bytes, sub_bytes. destruct (_ >? zlen p) eqn:E; [by left|]. right.
  bool_to_prop. rewrite Z.gtb_ltb, (proj2 (Z.ltb_ge _ _)) by (autorewrite with rust_rw; lia).
  destruct (Z.leb_spec n 0); [by rewrite Z2Nat.nonpos, !take_0 by lia|].
  rewrite drop_app_le by lia. rewrite take_app_le; [done|]. rewrite length_drop. lia.
Qed.

Lemma grows_align off a : grows (align_read p off a) (align_read (p ++ q) off a).
Proof.
  unfold align_read. cbv zeta. destruct (_ >? zlen p) eqn:E; [by left|]. right.
  bool_to_prop. by rewrite Z.gtb_ltb, (proj2 (Z.ltb_ge _ _)) by (autorewrite with rust_rw; lia).
Qed.

(** Offsets stay non-negative along the reads of [p]. *)
Ltac offsets :=
  repeat match goal with
  | H : take_bytes p _ _ = ret _ |- _ =>
      apply (take_bytes_val _ _ _ _ _ Hp) in H as [[? ?] ?]
  | H : align_read p _ _ = ret _ |- _ =>
      apply align_read_bounds in H; [|first [lia|apply align_of_pos]]
  | H : unmarshal_one _ _ p _ = ret _ |- _ => apply (proj1 (bounded_all p Hp _)) in H
  end.

Definition grows_one (fuel : nat) : Prop := forall ty off, 0 <= off ->
  grows (unmarshal_one fuel ty p off) (unmarshal_one fuel ty (p ++ q) off).
Definition grows_list (fuel : nat) : Prop := forall sig off, 0 <= off ->
  grows (unmarshal_fuel fuel sig p off) (unmarshal_fuel fuel sig (p ++ q) off).
Definition grows_items (fuel : nat) : Prop := forall es off e, 0 <= off ->
  grows (unmarshal_items fuel es p off e) (unmarshal_items fuel es (p ++ q) off e).

Ltac grow :=
  repeat first
  [ apply grows_refl
  | match goal with I : grows_one _ |- _ => apply I; offsets; lia end
  | match goal with I : grows_list _ |- _ => apply I; offsets; lia end
  | match goal with I : grows_items _ |- _ => apply I; offsets; lia end
  | apply grows_take; offsets; lia
  | apply grows_align
  | apply grows_bind2; [|intros]
  | apply grows_bind; [|intros] ].

Lemma grows_num off a n mk :
  0 <= off -> 0 < a -> grows (read_num p off a n mk) (read_num (p ++ q) off a n mk).
Proof. intros. unfold read_num. grow. Qed.

Lemma grows_one_step fuel :
  grows_one fuel -> grows_list fuel -> grows_items fuel -> grows_one (S fuel).
Proof.
  intros I1 I2 I3 ty off H0. cbn [unmarshal_one]. destruct ty as [|c ty]; [by right|].
  repeat (match goal with |- grows (if ?b then _ else _) _ => destruct b end;
    [first [ by apply grows_num | solve [grow] | idtac ]|]); try done.
  all: grow.
  - (* the array arm: the end of the content may lie beyond [p] *)
    destruct a1 as [|e a1]; grow. destruct (_ >? zlen p) eqn:E; [by left|]. bool_to_prop.
    rewrite Z.gtb_ltb, (proj2 (Z.ltb_ge _ _)) by (rewrite length_app; lia). grow.
  - destruct a; grow. destruct (type_len _); grow. destruct (_ =? _); grow.
Qed.

Lemma grows_all fuel : grows_one fuel /\ grows_list fuel /\ grows_items fuel.
Proof.
  induction fuel as [|fuel (I1 & I2 & I3)]; [split_and!; by right|].
  split; [by apply grows_one_step|]. split.
  - intros sig off H0. cbn [unmarshal_fuel]. destruct sig; grow.
  - intros es off e H0. cbn [unmarshal_items]. destruct (off <? e); grow.
Qed.

Lemma byte_at_prefix i : (i < length p)%nat -> byte_at (p ++ q) i = byte_at p i.
Proof. intros. unfold byte_at. by rewrite lookup_app_l. Qed.

Lemma sub_bytes_prefix o n :
  0 <= o -> 0 <= n -> o + n <= zlen p -> sub_bytes (p ++ q) o n = sub_bytes p o n.
Proof.
  intros. unfold sub_bytes. rewrite drop_app_le by lia.
  rewrite take_app_le; [done|]. rewrite length_drop. lia.
Qed.

(** The end of the message that [decode] reads from the fixed header and the
    header array. *)
Lemma decode_size fuel b m n :
  decode fuel b = ret (m, n) ->
  exists hf off, unmarshal_fuel fuel (lit "a(yv)") b 12 = ret (hf, off) /\
    n = (align8_loop 8 off + le_val (sub_bytes b 4 4))%Z /\ (byte_at b 0 = 108)%Z.
Proof.
  unfold decode. destruct (zlen b <? 16); [done|].
  destruct (byte_at b 0 =? 108) eqn:E; [|done]. cbn [negb]. cbv zeta.
  destruct (unmarshal_fuel fuel (lit "a(yv)") b 12) as [[[hf off]|e]| |] eqn:U; try done;
    [|by case_bool_decide].
  intros H. exists hf, off. bool_to_prop. split_and!; [done| |done]. inv_run; done.
Qed.
End prefix.

Lemma decode_needs_more fuel p q m n
    (Hp : Forall byte_ok p) (Hfull : decode fuel (p ++ q) = ret (m, n)) (Hcut : zlen p < n) :
  decode fuel p = fail need_more_data.
Proof.
  apply decode_size in Hfull as (hf & off & U & -> & H0).
  unfold decode. destruct (zlen p <? 16) eqn:E; [done|]. bool_to_prop.
  rewrite byte_at_prefix in H0 by lia. rewrite sub_bytes_prefix in Hcut by lia.
  rewrite H0. cbn [negb Z.eqb Pos.eqb]. cbv zeta.
  destruct (grows_all p q Hp fuel) as (_ & G & _).
  destruct (G (lit "a(yv)") 12 ltac:(lia)) as [-> | G']; [done|].
  rewrite <- G', U. by rewrite (proj2 (Z.ltb_lt _ _)).
Qed.

(** C40: a buffer that holds only part of the message a longer buffer starts
    with makes [decode] ask for more data: never an error, never a message. *)
Theorem decode_incomplete fuel p q m n
    (Hp : Forall byte_ok p) (Hfull : decode fuel (p ++ q) = ret (m, n)) (Hcut : zlen p < n) :
  decode fuel p = fail need_more_data.
Proof. by apply decode_needs_more with q m n. Qed.

Lemma decode_incomplete_witness :
  decode 20 (take 30 (message_bytes ping)) = fail need_more_data.
Proof.
  apply (decode_incomplete 20 _ (drop 30 (message_bytes ping)) ping (zlen (message_bytes ping))).
  - apply bytes_ok. vm_compute. reflexivity.
  - rewrite take_drop. vm_compute. reflexivity.
  - vm_compute. reflexivity.
Defined.

(** a malformed header (its array does not decode, for a reason other
    than missing bytes) is also reported as "more bytes needed", and stays so
    whatever the peer sends next: the documented meaning of [WouldBlock],
    "[buf] doesn't yet hold a complete message", does not hold. *)
Theorem decode_malformed_waits fuel p q e
    (Hp : Forall byte_ok p) (Hlen : 16 <= zlen p) (Hle : byte_at p 0 = 108)
    (Hbad : unmarshal_fuel fuel (lit "a(yv)") p 12 = fail e)
    (He : e <> truncated) (Hkind : kind e = InvalidInput) :
  decode fuel (p ++ q) = fail need_more_data.
Proof.
  destruct (grows_all p q Hp fuel) as (_ & G & _).
  destruct (G (lit "a(yv)") 12 ltac:(lia)) as [G' | G']; [rewrite Hbad in G'; congruence|].
  unfold decode. rewrite (proj2 (Z.ltb_ge _ _)) by (rewrite length_app; lia).
  rewrite byte_at_prefix, Hle by lia. cbn [negb Z.eqb Pos.eqb]. cbv zeta.
  rewrite G', Hbad. by rewrite bool_decide_eq_true_2.
Qed.

(** A header array whose one field is a variant with an empty signature. *)
Definition malformed : list Z :=
  [108; 2; 0; 1; 0; 0; 0; 0; 1; 0; 0; 0; 4; 0; 0; 0; 8; 0; 0; 0].

Lemma decode_malformed_waits_witness : decode 20 (malformed ++ [1; 2; 3]) = fail need_more_data.
Proof.
  eapply (decode_malformed_waits 20 malformed [1; 2; 3]).
  - apply bytes_ok. reflexivity.
  - vm_compute. intuition congruence.
  - reflexivity.
  - vm_compute. reflexivity.
  - vm_compute. congruence.
  - reflexivity.
Defined.
