(* ===== verification/DBusConn.v ===== *)
(** * The session-bus connection ([platform-linux/src/sys/dbus/transport.rs])

    Address parsing, the SASL [EXTERNAL] handshake and the method call over a
    byte-stream socket.  The socket is a state: the results the kernel will
    give to [read] and [write], and the bytes sent so far.  A call that would
    block for ever (no result left) runs out of the model's fuel.  The
    kernel's [getuid] is the argument [uid]. *)

From Stdlib Require Import ZArith Lia String.
From S2P Require Import Prelude Error DBusValue DBusWire DBusEnc DBusLimits DBusMessage.
From stdpp Require Import base numbers list strings.
Open Scope Z_scope.

(** Linux [errno] numbers. *)
Definition ECONNREFUSED : Z := 111.
Definition ENOENT : Z := 2.
Definition EACCES : Z := 13.
Definition EPERM : Z := 1.
Definition EINVAL : Z := 22.

Definition kind_of (errno : Z) : ErrorKind :=
  if errno =? ECONNREFUSED then ConnectionRefused
  else if errno =? ENOENT then NotFound
  else if (errno =? EACCES) || (errno =? EPERM) then PermissionDenied
  else if errno =? EINVAL then InvalidInput
  else Other.

Definition sock_err (errno : Z) (opn : string) : PlatformError :=
  error_new (kind_of errno) (Errno errno) opn.

Definition proto_err (detail : string) : PlatformError := error_new InvalidInput NoCode detail.

(** ** Addresses *)

Inductive UnixAddr :=
  | Path (p : list Z)
  | Abstract (name : list Z).

Definition sun_path_bytes (a : UnixAddr) : list Z :=
  match a with Path p => p | Abstract name => 0 :: name end.

(** [sockaddr_un] on Linux: [sun_path] is 108 bytes at offset 2. *)
Definition SUN_PATH_LEN : Z := 108.
Definition sun_path_offset : Z := 2.

(** The packed [sun_path] (zero-filled) and the address length. *)
Definition pack_unix_addr (bs : list Z) : Result (list Z * Z) :=
  if zlen bs >? SUN_PATH_LEN then Err (proto_err "D-Bus unix socket address too long")
  else Ok (bs ++ replicate (Z.to_nat (SUN_PATH_LEN - zlen bs)) 0, sun_path_offset + zlen bs).

Definition parse_kv (kv : str) : list UnixAddr :=
  match str_strip_prefix (lit "path=") kv with
  | Some path => [Path path]
  | None =>
    match str_strip_prefix (lit "abstract=") kv with
    | Some name => [Abstract name]
    | None => []
    end
  end.

Definition parse_candidate (candidate : str) : list UnixAddr :=
  match str_strip_prefix (lit "unix:") candidate with
  | None => []
  | Some rest => concat (map parse_kv (split_char 44 rest))
  end.

Definition parse_unix_addresses (addr_str : str) : list UnixAddr :=
  concat (map parse_candidate (split_char 59 addr_str)).

(** [env] is the variable's value when it is set to valid UTF-8. *)
Definition session_bus_addresses (env : option str) (uid : Z) : list UnixAddr :=
  let default := [Path (lit "/run/user/" ++ dec uid ++ lit "/bus")] in
  match env with
  | Some e => match parse_unix_addresses e with [] => default | parsed => parsed end
  | None => default
  end.

(** The first address that connects; [connect_one] is the kernel's. *)
Section connect.
Context {F : Type} (connect_one : UnixAddr -> Result F).
Fixpoint connect_loop (last_err : option PlatformError) (addrs : list UnixAddr) : Result F :=
  match addrs with
  | [] =>
    Err (match last_err with
         | Some e => e
         | None => error_new NotFound NoCode "no usable D-Bus session bus address found"
         end)
  | a :: addrs' =>
    match connect_one a with
    | Ok fd => Ok fd
    | Err e => connect_loop (Some e) addrs'
    end
  end.
Definition connect_session_bus (env : option str) (uid : Z) : Result F :=
  connect_loop None (session_bus_addresses env uid).
End connect.

Definition hex_encode (bytes : list Z) : str := concat (map hex2 bytes).

(** ** The socket *)

Record Sock := mkSock {
  incoming : list (Result (list Z));
  accepts : list (Result Z);
  sent : list Z;
}.

(** [fdio::read] with a buffer of [cap] bytes. *)
Definition sock_read (cap : Z) (s : Sock) : Sock * Run (list Z) :=
  match incoming s with
  | [] => (s, OutOfFuel)
  | Err e :: r => (mkSock r (accepts s) (sent s), fail e)
  | Ok bs :: r =>
    if zlen bs <=? cap then (mkSock r (accepts s) (sent s), ret bs)
    else (mkSock (Ok (drop (Z.to_nat cap) bs) :: r) (accepts s) (sent s),
          ret (take (Z.to_nat cap) bs))
  end.

(** [fdio::write]: the kernel takes at most what it is given. *)
Definition sock_write (bytes : list Z) (s : Sock) : Sock * Run Z :=
  match accepts s with
  | [] => (s, OutOfFuel)
  | Err e :: r => (mkSock (incoming s) r (sent s), fail e)
  | Ok n :: r =>
    let n := Z.min n (zlen bytes) in
    (mkSock (incoming s) r (sent s ++ take (Z.to_nat n) bytes), ret n)
  end.

Fixpoint find_crlf (buf : list Z) (i : Z) : option Z :=
  match buf with
  | a :: ((b :: _) as tl) =>
    if (a =? 13) && (b =? 10) then Some i else find_crlf tl (i + 1)
  | _ => None
  end.

Definition MAX_LINE : Z := 4096.

Fixpoint read_sasl_loop (fuel : nat) (buf : list Z) : Sock -> Sock * Run (list Z * list Z) :=
  match fuel with
  | O => st_lift OutOfFuel
  | S fuel =>
    match find_crlf buf 0 with
    | Some pos =>
      st_lift (ret (take (Z.to_nat pos) buf, drop (Z.to_nat pos + 2) buf))
    | None =>
      if zlen buf >=? MAX_LINE
      then st_lift (fail (proto_err "SASL line exceeded the maximum accepted length"))
      else
        st! chunk := sock_read 256 in
        match chunk with
        | [] => st_lift (fail (proto_err "D-Bus peer closed the connection during SASL auth"))
        | _ => read_sasl_loop fuel (buf ++ chunk)
        end
    end
  end.
Definition read_sasl_line (fuel : nat) : Sock -> Sock * Run (list Z * list Z) :=
  read_sasl_loop fuel [].

Fixpoint write_all (fuel : nat) (bytes : list Z) : Sock -> Sock * Run unit :=
  match fuel with
  | O => st_lift OutOfFuel
  | S fuel =>
    match bytes with
    | [] => st_lift (ret tt)
    | _ =>
      st! n := sock_write bytes in
      if n =? 0 then st_lift (fail (proto_err "write to D-Bus socket accepted zero bytes"))
      else write_all fuel (drop (Z.to_nat n) bytes)
    end
  end.

Definition crlf : list Z := [13; 10].

Definition sasl_external_handshake (fuel : nat) (uid : Z) : Sock -> Sock * Run (list Z) :=
  st! _ := write_all fuel [0] in
  st! _ := write_all fuel (lit "AUTH EXTERNAL " ++ hex_encode (dec uid) ++ crlf) in
  st! (line, leftover) := read_sasl_line fuel in
  if negb (starts_with (lit "OK ") line)
  then st_lift (fail (proto_err "D-Bus SASL EXTERNAL authentication was rejected"))
  else
    st! _ := write_all fuel (lit "BEGIN" ++ crlf) in
    st_lift (ret leftover).

(** ** The connection *)

Record Connection := mkConnection {
  sock : Sock;
  next_serial : Z;
  read_buf : list Z;
  unique_name : str;
}.

(** Run a socket operation on the connection's descriptor. *)
Definition on_sock {A} (m : Sock -> Sock * Run A) (c : Connection) : Connection * Run A :=
  let (s, r) := m (sock c) in
  (mkConnection s (next_serial c) (read_buf c) (unique_name c), r).

Definition set_read_buf (b : list Z) (c : Connection) : Connection * Run unit :=
  (mkConnection (sock c) (next_serial c) b (unique_name c), ret tt).

(** [fuel] bounds the rounds of reading, [dfuel] each [decode]. *)
Fixpoint read_one_message (fuel dfuel : nat) (c : Connection) : Connection * Run Message :=
  match fuel with
  | O => (c, OutOfFuel)
  | S fuel =>
    match decode dfuel (read_buf c) with
    | ret (msg, consumed) =>
      (st! _ := set_read_buf (drop (Z.to_nat consumed) (read_buf c)) in st_lift (ret msg)) c
    | Panic => (c, Panic)
    | OutOfFuel => (c, OutOfFuel)
    | fail e =>
      if bool_decide (kind e = WouldBlock) then
        (st! chunk := on_sock (sock_read 4096) in
         match chunk with
         | [] => st_lift (fail (proto_err "D-Bus peer closed the connection"))
         | _ =>
           st! _ := set_read_buf (read_buf c ++ chunk) in
           read_one_message fuel dfuel
         end) c
      else (c, fail e)
    end
  end.

(** The reply loop of [call]. *)
Fixpoint await_reply (fuel dfuel : nat) (sn : Z) : Connection -> Connection * Run Message :=
  match fuel with
  | O => st_lift OutOfFuel
  | S fuel =>
    st! reply := read_one_message fuel dfuel in
    if bool_decide (reply_serial reply <> Some sn) then await_reply fuel dfuel sn
    else
      if message_type reply =? TYPE_METHOD_RETURN then st_lift (ret reply)
      else if message_type reply =? TYPE_ERROR then
        st_lift (fail (with_path (error_new Other NoCode "D-Bus call returned an error")
          match error_name reply with Some n => n | None => lit "unknown" end))
      else st_lift (fail (proto_err "unexpected reply message type to a method call"))
  end.

(** [let serial = self.next_serial; self.next_serial += 1]: a debug build
    panics when the counter overflows, so the model does. *)
Definition take_serial (c : Connection) : Connection * Run Z :=
  if next_serial c + 1 <? 2 ^ 32
  then (mkConnection (sock c) (next_serial c + 1) (read_buf c) (unique_name c),
        ret (next_serial c))
  else (c, Panic).

Definition call (fuel dfuel : nat) (dest pth iface memb sig : str) (args : list Value)
    : Connection -> Connection * Run Message :=
  st! sn := take_serial in
  st! bytes := st_lift (encode (method_call sn dest pth iface memb sig args)) in
  st! _ := on_sock (write_all fuel bytes) in
  await_reply fuel dfuel sn.

(** [Connection::from_fd] on a connected socket. *)
Definition from_fd (fuel dfuel : nat) (uid : Z) (s : Sock) : Connection * Run unit :=
  match sasl_external_handshake fuel uid s with
  | (s', ret leftover) =>
    (st! reply := call fuel dfuel (lit "org.freedesktop.DBus") (lit "/org/freedesktop/DBus")
        (lit "org.freedesktop.DBus") (lit "Hello") [] [] in
     match body reply with
     | VString name :: _ =>
       fun c => (mkConnection (sock c) (next_serial c) (read_buf c) name, ret tt)
     | _ => st_lift (fail (proto_err "Hello did not return the expected unique name"))
     end) (mkConnection s' 1 leftover [])
  | (s', fail e) => (mkConnection s' 1 [] [], fail e)
  | (s', Panic) => (mkConnection s' 1 [] [], Panic)
  | (s', OutOfFuel) => (mkConnection s' 1 [] [], OutOfFuel)
  end.

(** ** Addresses: what is parsed *)

(** One [;]-separated candidate: a [unix:] address with one key, or any other
    transport. *)
Inductive candidate :=
  | CUnix (a : UnixAddr)
  | COther (text : str).

Definition no_char (c : Z) (s : str) : Prop := Forall (fun x => x <> c) s.

Definition print_addr (a : UnixAddr) : str :=
  lit "unix:" ++ match a with Path p => lit "path=" ++ p | Abstract n => lit "abstract=" ++ n end.

Definition print_candidate (c : candidate) : str :=
  match c with CUnix a => print_addr a | COther t => t end.

Definition addr_body (a : UnixAddr) : list Z := match a with Path p => p | Abstract n => n end.

Definition candidate_ok (c : candidate) : Prop :=
  match c with
  | CUnix a => no_char 44 (addr_body a) /\ no_char 59 (addr_body a)
  | COther t => no_char 59 t /\ str_strip_prefix (lit "unix:") t = None
  end.

Definition unix_addrs (cs : list candidate) : list UnixAddr :=
  concat (map (fun c => match c with CUnix a => [a] | COther _ => [] end) cs).

Lemma no_char_lit c s t : existsb (Z.eqb c) s = false -> no_char c t -> no_char c (s ++ t).
Proof.
  intros Hs Ht. apply Forall_app. split; [|done]. apply existsb_false_Forall in Hs.
  eapply Forall_impl; [exact Hs|]. intros x Hx ->. cbn in Hx. by rewrite Z.eqb_refl in Hx.
Qed.

Lemma print_candidate_no_semi c : candidate_ok c -> no_char 59 (print_candidate c).
Proof.
  destruct c as [[p|n]|t]; intros [H1 H2]; [..|done]; unfold print_candidate, print_addr.
  - by apply no_char_lit, no_char_lit.
  - by apply no_char_lit, no_char_lit.
Qed.

Lemma parse_print_candidate c :
  candidate_ok c -> parse_candidate (print_candidate c) = unix_addrs [c].
Proof.
  unfold parse_candidate. destruct c as [[p|n]|t]; intros [H1 H2]; cbn [print_candidate].
  - unfold print_addr. rewrite strip_prefix_app, split_char_none by by apply no_char_lit.
    cbn [map concat]. unfold parse_kv. by rewrite strip_prefix_app.
  - unfold print_addr. rewrite strip_prefix_app, split_char_none by by apply no_char_lit.
    cbn [map concat]. unfold parse_kv.
    change (str_strip_prefix (lit "path=") _) with (@None str). by rewrite strip_prefix_app.
  - by rewrite H2.
Qed.

(** a [;]-joined address list is parsed to exactly its [unix:] addresses,
    in order, path and abstract ones alike, and every other transport is
    skipped. *)
Theorem parse_unix_addresses_exact cs
    (Hne : cs <> []) (Hok : Forall candidate_ok cs) :
  parse_unix_addresses (join_char 59 (map print_candidate cs)) = unix_addrs cs.
Proof.
  unfold parse_unix_addresses. rewrite split_join_char.
  - clear Hne. induction Hok as [|c cs Hc _ IH]; [done|].
    cbn [map concat]. rewrite IH, parse_print_candidate by done.
    unfold unix_addrs. cbn [map concat]. by rewrite app_nil_r.
  - by destruct cs.
  - clear Hne. induction Hok as [|c cs Hc _ IH]; constructor; [|done].
    by apply print_candidate_no_semi.
Qed.

Lemma parse_unix_addresses_exact_witness :
  parse_unix_addresses (lit "tcp:host=h;unix:path=/run/user/7/bus;unix:abstract=/tmp/d")
  = [Path (lit "/run/user/7/bus"); Abstract (lit "/tmp/d")].
Proof.
  apply (parse_unix_addresses_exact [COther (lit "tcp:host=h");
    CUnix (Path (lit "/run/user/7/bus")); CUnix (Abstract (lit "/tmp/d"))]); [done|].
  repeat constructor; vm_compute; intuition congruence.
Defined.

(** ** Writing *)

(** [write_all] under a kernel that accepts [takes] bytes per call. *)
Lemma write_all_sends fuel bytes s takes r :
  accepts s = map Ok takes ++ r -> Forall (fun n => 0 < n) takes ->
  zlen bytes <= foldr Z.add 0 takes -> (length takes < fuel)%nat ->
  exists r', write_all fuel bytes s = (mkSock (incoming s) r' (sent s ++ bytes), ret tt) /\
  exists used, takes = used ++ drop (length used) takes /\
    r' = map Ok (drop (length used) takes) ++ r.
Proof.
  revert fuel bytes s. induction takes as [|n takes IH]; intros fuel bytes s Ha Hp Hl Hf;
    (destruct fuel as [|fuel]; [lia|]); cbn [write_all].
  - destruct bytes; [|simpl in Hl; lia]. rewrite app_nil_r. exists (accepts s).
    destruct s; simpl in *; subst. split; [done|]. by exists [].
  - destruct bytes as [|b bytes].
    { rewrite app_nil_r. exists (accepts s). destruct s; simpl in *; subst.
      split; [done|]. by exists []. }
    assert (0 < n) as Hn by exact (Forall_inv Hp). cbn [foldr] in Hl.
    unfold st_bind, sock_write. rewrite Ha. cbn [map app].
    assert (0 < Z.min n (zlen (b :: bytes))) by (simpl; lia).
    rewrite (proj2 (Z.eqb_neq _ 0)) by lia.
    set (k := Z.to_nat (Z.min n (zlen (b :: bytes)))).
    assert (Z.of_nat k = Z.min n (zlen (b :: bytes))) as Hk by lia.
    destruct (IH fuel (drop k (b :: bytes))
      (mkSock (incoming s) (map Ok takes ++ r) (sent s ++ take k (b :: bytes))))
      as (r' & E & used & U1 & U2); [done|by apply Forall_inv_tail in Hp| |simpl in Hf; lia|].
    { rewrite length_drop.
      assert (0 <= foldr Z.add 0 takes) by
        (clear -Hp; apply Forall_inv_tail in Hp; induction Hp; simpl; lia). lia. }
    exists r'. rewrite E. cbn [incoming sent]. rewrite <- app_assoc, take_drop.
    split; [done|]. exists (n :: used). cbn [app length drop]. split; [by f_equal|done].
Qed.

(** ** Reading: the connection as a byte stream *)

(** A peer that keeps sending: every pending read gives bytes, at most a
    buffer's worth at a time. *)
Definition chunk_ok (r : Result (list Z)) : Prop :=
  match r with
  | Ok bs => bs <> [] /\ zlen bs <= 4096 /\ Forall byte_ok bs
  | Err _ => False
  end.

Definition chunk_bytes (r : Result (list Z)) : list Z :=
  match r with Ok bs => bs | Err _ => [] end.

(** Bytes received but not consumed, then those still to come. *)
Definition stream (c : Connection) : list Z :=
  read_buf c ++ concat (map chunk_bytes (incoming (sock c))).

Definition stream_ok (c : Connection) : Prop :=
  Forall byte_ok (read_buf c) /\ Forall chunk_ok (incoming (sock c)).

Definition same_but_input (c c' : Connection) : Prop :=
  next_serial c' = next_serial c /\ unique_name c' = unique_name c /\
  accepts (sock c') = accepts (sock c) /\ sent (sock c') = sent (sock c) /\
  (length (incoming (sock c')) <= length (incoming (sock c)))%nat.

Lemma same_but_input_trans c1 c2 c3 :
  same_but_input c1 c2 -> same_but_input c2 c3 -> same_but_input c1 c3.
Proof. unfold same_but_input. intuition (try congruence; lia). Qed.

Lemma stream_byte_ok c : stream_ok c -> Forall byte_ok (stream c).
Proof.
  intros [H1 H2]. apply Forall_app. split; [done|].
  induction H2 as [|[bs|e] r Hr _ IH]; [constructor| |done]. apply Forall_app. by split; [apply Hr|].
Qed.

(** One message is taken off the front of the stream, however it was cut
    into reads. *)
Lemma read_one_message_stream fuel dfuel c m ts rest :
  stream_ok c -> stream c = message_bytes m ++ rest ->
  message_ok m ts -> zlen (message_bytes m) < 2 ^ 32 ->
  (message_fuel m <= dfuel)%nat -> (length (incoming (sock c)) < fuel)%nat ->
  exists c', read_one_message fuel dfuel c = (c', ret m) /\ stream c' = rest /\
    stream_ok c' /\ same_but_input c c'.
Proof.
  intros Hok Hs Hm Hlen Hd. revert c Hok Hs.
  induction fuel as [|fuel IH]; intros c Hok Hs Hf; [lia|]. cbn [read_one_message].
  destruct c as [[inc acc snt] ns rb un]. unfold stream, stream_ok in *.
  cbn [sock incoming read_buf next_serial unique_name accepts sent] in *.
  destruct Hok as [Hrb Hinc].
  destruct (Z.le_gt_cases (zlen (message_bytes m)) (zlen rb)) as [Hle|Hgt].
  - (* the message is complete in the buffer *)
    assert (rb = message_bytes m ++ drop (length (message_bytes m)) rb) as Erb.
    { rewrite <- (take_drop (length (message_bytes m)) rb) at 1. f_equal.
      apply (f_equal (take (length (message_bytes m)))) in Hs.
      rewrite take_app_length in Hs. by rewrite take_app_le in Hs by lia. }
    rewrite Erb, (decode_bytes m ts) by done. cbn [st_bind set_read_buf st_lift].
    rewrite Nat2Z.id, drop_app_length.
    eexists. split; [reflexivity|]. cbn [sock incoming read_buf next_serial unique_name].
    split; [|split; [split; [by apply Forall_drop|done]|by repeat split]].
    rewrite Erb, <- app_assoc in Hs. by apply app_inv_head in Hs.
  - (* more bytes are needed *)
    destruct (app_eq_inv _ _ _ _ Hs) as [(k & E1 & E2)|(k & E1 & E2)].
    { rewrite E1, length_app in Hgt. lia. }
    rewrite (decode_needs_more dfuel rb k m (zlen (message_bytes m))); [|done| |done].
    2:{ pose proof (decode_bytes m ts [] dfuel Hm Hlen Hd) as Hdec.
        rewrite app_nil_r in Hdec. by rewrite <- E1. }
    rewrite bool_decide_eq_true_2 by done.
    destruct inc as [|[bs|e] inc]; [|..|by apply Forall_inv in Hinc].
    { exfalso. cbn in E2. apply (f_equal length) in E2. rewrite length_app in E2.
      rewrite E1, length_app in Hgt. simpl in E2. lia. }
    destruct (Forall_inv Hinc) as (Hne & Hcap & Hb).
    unfold st_bind, on_sock, sock_read. cbn [sock incoming].
    rewrite (proj2 (Z.leb_le _ _)) by done.
    destruct bs as [|b bs]; [done|]. cbn [set_read_buf sock next_serial unique_name read_buf].
    edestruct (IH (mkConnection (mkSock inc acc snt) ns (rb ++ b :: bs) un)) as
      (c' & R & S1 & S2 & S3); cbn [sock incoming read_buf].
    + split; [by apply Forall_app|by apply Forall_inv_tail in Hinc].
    + cbn [map concat chunk_bytes] in Hs. by rewrite <- app_assoc.
    + simpl in Hf. lia.
    + exists c'. split; [exact R|]. split; [done|]. split; [done|].
      destruct S3 as (A1 & A2 & A3 & A4 & A5). unfold same_but_input.
      cbn [sock incoming read_buf next_serial unique_name accepts sent length] in *.
      split_and!; [done..|lia].
Qed.

(** ** Calling *)

(** A message the decoder can read back with [dfuel] rounds. *)
Definition deliverable (dfuel : nat) (m : Message) : Prop :=
  (exists ts, message_ok m ts) /\ zlen (message_bytes m) < 2 ^ 32 /\ (message_fuel m <= dfuel)%nat.

Lemma await_reply_stream dfuel sn reply rest others : forall fuel c,
  stream_ok c ->
  stream c = concat (map message_bytes others) ++ message_bytes reply ++ rest ->
  Forall (fun m => deliverable dfuel m /\ reply_serial m <> Some sn) others ->
  deliverable dfuel reply -> reply_serial reply = Some sn ->
  message_type reply = TYPE_METHOD_RETURN ->
  (length others + length (incoming (sock c)) + 2 <= fuel)%nat ->
  exists c', await_reply fuel dfuel sn c = (c', ret reply) /\ stream c' = rest /\
    same_but_input c c'.
Proof.
  induction others as [|m others IH]; intros fuel c Hok Hs Ho Hr Hsn Hty Hf;
    (destruct fuel as [|fuel]; [simpl in Hf; lia|]); cbn [await_reply].
  - destruct Hr as ((ts & Hm) & Hl & Hd).
    destruct (read_one_message_stream fuel dfuel c reply ts rest) as (c' & R & S1 & S2 & S3);
      [done..|simpl in Hf; lia|].
    rewrite (st_bind_ret _ _ _ _ _ R), bool_decide_eq_false_2, Hty by (intros H; congruence).
    by exists c'.
  - destruct (Forall_inv Ho) as (((ts & Hm) & Hl & Hd) & Hne).
    cbn [map concat] in Hs. rewrite <- app_assoc in Hs.
    destruct (read_one_message_stream fuel dfuel c m ts
      (concat (map message_bytes others) ++ message_bytes reply ++ rest))
      as (c' & R & S1 & S2 & S3); [done..|cbn [length] in Hf; lia|].
    rewrite (st_bind_ret _ _ _ _ _ R), bool_decide_eq_true_2 by done.
    destruct (IH fuel c' S2 S1) as (c'' & R' & S1' & S3'); [by apply Forall_inv_tail in Ho|done..| |].
    { destruct S3 as (_ & _ & _ & _ & ?). cbn [length] in Hf. lia. }
    exists c''. split; [done|]. split; [done|]. by eapply same_but_input_trans.
Qed.

(** C11: a call sends exactly the encoding of its request, then returns the
    reply that carries the call's serial, skipping every other message that
    arrives first, however the kernel cuts reads and writes; the bytes after
    the reply stay for the next call. *)
Theorem call_returns_reply fuel dfuel dest pth iface memb sig args ts takes r
    others reply rest c
    (Hserial : next_serial c + 1 < 2 ^ 32)
    (Hreq : message_ok (method_call (next_serial c) dest pth iface memb sig args) ts)
    (Hsize : zlen (message_bytes (method_call (next_serial c) dest pth iface memb sig args)) < 2 ^ 32)
    (Hacc : accepts (sock c) = map Ok takes ++ r) (Htakes : Forall (fun n => 0 < n) takes)
    (Hroom : zlen (message_bytes (method_call (next_serial c) dest pth iface memb sig args))
             <= foldr Z.add 0 takes)
    (Hok : stream_ok c)
    (Hstream : stream c = concat (map message_bytes others) ++ message_bytes reply ++ rest)
    (Hothers : Forall (fun m => deliverable dfuel m /\ reply_serial m <> Some (next_serial c)) others)
    (Hreply : deliverable dfuel reply) (Hmatch : reply_serial reply = Some (next_serial c))
    (Hreturn : message_type reply = TYPE_METHOD_RETURN)
    (Hfuel : (length takes + length others + length (incoming (sock c)) + 2 <= fuel)%nat) :
  exists c', call fuel dfuel dest pth iface memb sig args c = (c', ret reply) /\
    sent (sock c') = sent (sock c) ++
      message_bytes (method_call (next_serial c) dest pth iface memb sig args) /\
    next_serial c' = next_serial c + 1 /\ stream c' = rest.
Proof.
  unfold call, st_bind at 1, take_serial. rewrite (proj2 (Z.ltb_lt _ _)) by done.
  unfold st_bind at 1, st_lift at 1. rewrite (encode_bytes _ ts) by done.
  destruct (write_all_sends fuel _ (sock c) takes r Hacc Htakes Hroom) as (r' & W & _); [lia|].
  unfold st_bind at 1, on_sock. cbn [sock next_serial read_buf unique_name]. rewrite W.
  set (c1 := mkConnection _ _ _ _).
  destruct (await_reply_stream dfuel (next_serial c) reply rest others fuel c1) as
    (c' & R & S1 & A1 & _ & _ & A4 & _);
    [exact Hok|exact Hstream|done..|cbn [c1 sock incoming]; lia|].
  exists c'. split_and!; [exact R|exact A4|exact A1|done].
Qed.

Definition ex_signal : Message :=
  mkMessage 4 1 9 (Some (lit "/s")) (Some (lit "i.f")) (Some (lit "Sig")) None None None
    (Some (lit ":1.2")) [] [].
Definition ex_reply : Message :=
  mkMessage TYPE_METHOD_RETURN 1 3 None None None None (Some 1) None (Some (lit ":1.2"))
    (lit "s") [VString (lit "x")].
Definition ex_stream : list Z := message_bytes ex_signal ++ message_bytes ex_reply ++ [9].
Definition ex_conn : Connection :=
  mkConnection (mkSock [Ok (take 70 (drop 10 ex_stream)); Ok (drop 80 ex_stream)]
    [Ok 7; Ok 4096] []) 1 (take 10 ex_stream) [].

Lemma ex_signal_ok : deliverable 20 ex_signal.
Proof.
  split; [|split; [reflexivity|vm_compute; lia]].
  exists []. split; try (vm_compute; intuition congruence). constructor.
Qed.

Lemma ex_reply_ok : deliverable 20 ex_reply.
Proof.
  split; [|split; [reflexivity|vm_compute; lia]].
  exists [TBasic 115]. split; try (vm_compute; intuition congruence). repeat constructor.
Qed.

Lemma ex_request_ok :
  message_ok (method_call 1 (lit "d.e") (lit "/p") (lit "i.j") (lit "M") [] []) [].
Proof. split; try (vm_compute; intuition congruence). constructor. Qed.

Lemma call_returns_reply_witness :
  exists c', call 9 20 (lit "d.e") (lit "/p") (lit "i.j") (lit "M") [] [] ex_conn
      = (c', ret ex_reply) /\
    sent (sock c') = message_bytes (method_call 1 (lit "d.e") (lit "/p") (lit "i.j") (lit "M") [] [])
    /\ next_serial c' = 2 /\ stream c' = [9].
Proof.
  apply (call_returns_reply 9 20 (lit "d.e") (lit "/p") (lit "i.j") (lit "M") [] [] []
    [7; 4096] [] [ex_signal] ex_reply [9] ex_conn).
  - reflexivity.
  - exact ex_request_ok.
  - reflexivity.
  - reflexivity.
  - repeat constructor.
  - vm_compute. congruence.
  - split; [apply bytes_ok; vm_compute; reflexivity|].
    repeat constructor; try (vm_compute; congruence); apply bytes_ok; vm_compute; reflexivity.
  - vm_compute. reflexivity.
  - constructor; [|constructor]. split; [exact ex_signal_ok|]. vm_compute. congruence.
  - exact ex_reply_ok.
  - reflexivity.
  - reflexivity.
  - vm_compute. lia.
Defined.

(** ** The SASL handshake *)

Lemma find_crlf_cons a b l i :
  find_crlf (a :: b :: l) i =
  if (a =? 13) && (b =? 10) then Some i else find_crlf (b :: l) (i + 1).
Proof. done. Qed.

Lemma find_crlf_here l r i :
  find_crlf (l ++ [13]) i = None -> find_crlf (l ++ crlf ++ r) i = Some (i + zlen l).
Proof.
  revert i. induction l as [|a l IH]; intros i H; [simpl; f_equal; lia|].
  destruct l as [|b l].
  - cbn in H |- *. destruct (a =? 13); cbn in *; f_equal; lia.
  - cbn [app] in H |- *. rewrite find_crlf_cons in H |- *.
    destruct ((a =? 13) && (b =? 10)); [done|].
    change (b :: l ++ crlf ++ r) with ((b :: l) ++ crlf ++ r).
    rewrite (IH (i + 1) H). f_equal. cbn [length]. lia.
Qed.

Lemma find_crlf_prefix p q i : find_crlf (p ++ q) i = None -> find_crlf p i = None.
Proof.
  revert i. induction p as [|a p IH]; intros i H; [done|]. destruct p as [|b p]; [done|].
  cbn [app] in H |- *. rewrite find_crlf_cons in H |- *.
  destruct ((a =? 13) && (b =? 10)); [done|]. by apply IH.
Qed.

(** The bytes of the line arrive in reads of at most 256 bytes. *)
Definition sasl_chunk_ok (r : Result (list Z)) : Prop :=
  match r with Ok bs => bs <> [] /\ zlen bs <= 256 | Err _ => False end.

Lemma read_sasl_stream line rest : forall fuel buf s,
  find_crlf (line ++ [13]) 0 = None -> zlen line <= 4094 ->
  Forall sasl_chunk_ok (incoming s) ->
  buf ++ concat (map chunk_bytes (incoming s)) = line ++ crlf ++ rest ->
  (length (incoming s) < fuel)%nat ->
  exists inc leftover, read_sasl_loop fuel buf s = (mkSock inc (accepts s) (sent s), ret (line, leftover))
    /\ leftover ++ concat (map chunk_bytes inc) = rest /\ Forall sasl_chunk_ok inc.
Proof.
  induction fuel as [|fuel IH]; intros buf [inc acc snt] Hl Hlen Hinc Hs Hf; [lia|].
  cbn [read_sasl_loop incoming accepts sent] in *.
  rewrite app_assoc in Hs.
  destruct (app_eq_inv _ _ _ _ Hs) as [(k & E1 & E2)|(k & E1 & E2)].
  - rewrite E1, <- !app_assoc, find_crlf_here by done.
    exists inc, k. split; [|done]. unfold st_lift. rewrite Z.add_0_l, Nat2Z.id, take_app_length.
    by replace (length line + 2)%nat with (length (line ++ crlf)) by (rewrite length_app; done);
      rewrite app_assoc, drop_app_length.
  - destruct (decide (k = [])) as [->|Hk].
    { rewrite app_nil_r in E1. rewrite <- E1.
      rewrite <- (app_nil_r crlf), find_crlf_here by done.
      exists inc, []. split; [|done]. unfold st_lift.
      rewrite Z.add_0_l, Nat2Z.id, take_app_length.
      rewrite app_nil_r. change 2%nat with (length crlf). rewrite <- length_app, drop_all. done. }
    assert (find_crlf buf 0 = None) as ->.
    { assert (exists k', line ++ [13] = buf ++ k') as [k' Ek].
      { destruct (exists_last Hk) as (k1 & x & ->). exists k1.
        rewrite app_assoc in E1. change crlf with ([13] ++ [10]) in E1. rewrite app_assoc in E1.
        by apply app_inj_tail in E1 as [? _]. }
      rewrite Ek in Hl. by apply find_crlf_prefix in Hl. }
    assert (zlen buf < 4096) as Hb.
    { apply (f_equal length) in E1. rewrite !length_app in E1.
      destruct k; [done|]. simpl in E1. lia. }
    rewrite Z.geb_leb. unfold MAX_LINE. rewrite (proj2 (Z.leb_gt _ _)) by done.
    destruct inc as [|[bs|e] inc]; [|..|by apply Forall_inv in Hinc].
    { cbn in E2. symmetry in E2. by apply app_eq_nil in E2 as [? _]. }
    destruct (Forall_inv Hinc) as [Hne Hcap].
    unfold st_bind, sock_read. cbn [incoming accepts sent]. rewrite (proj2 (Z.leb_le _ _)) by done.
    destruct bs as [|b bs]; [done|].
    destruct (IH (buf ++ b :: bs) (mkSock inc acc snt)) as (inc' & lo & R & S1 & S2);
      cbn [incoming]; [done|done|by apply Forall_inv_tail in Hinc| |simpl in Hf; lia|].
    + rewrite <- app_assoc in Hs |- *. exact Hs.
    + by exists inc', lo.
Qed.

Lemma write_all_whole fuel bytes inc n acc snt :
  bytes <> [] -> zlen bytes <= n ->
  write_all (S (S fuel)) bytes (mkSock inc (Ok n :: acc) snt) = (mkSock inc acc (snt ++ bytes), ret tt).
Proof.
  intros Hne Hn. destruct bytes as [|b bytes]; [done|]. set (bs := b :: bytes) in *.
  assert (0 < zlen bs) by (subst bs; simpl; lia).
  change (write_all (S (S fuel)) bs (mkSock inc (Ok n :: acc) snt)) with
    (st_bind (sock_write bs) (fun k =>
      if k =? 0 then st_lift (fail (proto_err "write to D-Bus socket accepted zero bytes"))
      else write_all (S fuel) (drop (Z.to_nat k) bs)) (mkSock inc (Ok n :: acc) snt)).
  unfold st_bind, sock_write. cbn [accepts sent incoming].
  rewrite Z.min_r, (proj2 (Z.eqb_neq _ 0)), Nat2Z.id, drop_all, firstn_all by lia. done.
Qed.

Definition auth_line (uid : Z) : list Z := lit "AUTH EXTERNAL " ++ hex_encode (dec uid) ++ crlf.

(** the handshake sends the NUL byte, the [AUTH EXTERNAL] line with the
    decimal uid in hex, and [BEGIN] only after the server's [OK] line, and
    hands back every byte the server sent after that line. *)
Theorem handshake_external fuel uid inc n1 n2 n3 acc snt line rest
    (Hn1 : 1 <= n1) (Hn2 : zlen (auth_line uid) <= n2) (Hn3 : 7 <= n3)
    (Hline : find_crlf (line ++ [13]) 0 = None) (Hlen : zlen line <= 4094)
    (Hok : starts_with (lit "OK ") line = true)
    (Hinc : Forall sasl_chunk_ok inc)
    (Hstream : concat (map chunk_bytes inc) = line ++ crlf ++ rest)
    (Hfuel : (length inc + 2 <= fuel)%nat) :
  exists inc' leftover,
  sasl_external_handshake fuel uid (mkSock inc (Ok n1 :: Ok n2 :: Ok n3 :: acc) snt)
  = (mkSock inc' acc (snt ++ [0] ++ auth_line uid ++ lit "BEGIN" ++ crlf), ret leftover) /\
  leftover ++ concat (map chunk_bytes inc') = rest.
Proof.
  do 2 (destruct fuel as [|fuel]; [lia|]). unfold sasl_external_handshake.
  erewrite st_bind_ret by (apply write_all_whole; [done|done]).
  erewrite st_bind_ret by (apply write_all_whole; [done|exact Hn2]).
  destruct (read_sasl_stream line rest (S (S fuel)) [] (mkSock inc (Ok n3 :: acc)
    ((snt ++ [0]) ++ auth_line uid))) as (inc' & leftover & R & S1 & _);
    [done..|cbn [incoming]; lia|].
  erewrite st_bind_ret by exact R. cbv beta iota. rewrite Hok. cbn [negb].
  erewrite st_bind_ret by (apply write_all_whole; [done|exact Hn3]).
  exists inc', leftover. split; [|done]. unfold st_lift. cbn [sent]. by rewrite <- !app_assoc.
Qed.

Lemma handshake_external_witness :
  exists inc' leftover,
  sasl_external_handshake 9 1000 (mkSock [Ok (lit "OK 12"); Ok (lit "34" ++ crlf ++ [5])]
    [Ok 1; Ok 99; Ok 7] [])
  = (mkSock inc' [] ([] ++ [0] ++ auth_line 1000 ++ lit "BEGIN" ++ crlf), ret leftover) /\
  leftover ++ concat (map chunk_bytes inc') = [5].
Proof.
  apply (handshake_external 9 1000 _ 1 99 7 [] [] (lit "OK 1234")); try (vm_compute; congruence).
  - repeat constructor; vm_compute; congruence.
  - vm_compute. lia.
Defined.
