(* ===== verification/SecretService.v ===== *)
(** * The Secret Service client ([crates/platform-linux/src/sys/secret_service.rs])

    The credential store of the Linux backend over a D-Bus connection: the
    session preparation with its reachability rules, [get], [set] and
    [available].  The client is written against [Bus], the two things it asks
    of a connection; [connection_bus] is the connection of [DBusConn]. *)

From Stdlib Require Import ZArith Lia String.
From S2P Require Import Prelude Error DBusValue DBusMessage DBusConn.
From stdpp Require Import base numbers list strings gmap.
Open Scope Z_scope.

(** ** The interface *)

Class Bus (S : Type) := {
  (** [Connection::session] ([None]) and [Connection::connect_to] *)
  bus_connect : option str -> S -> S * Run unit;
  (** [Connection::call] *)
  bus_call : str -> str -> str -> str -> str -> list Value -> S -> S * Run Message;
}.

Definition connection_bus (fuel dfuel : nat)
    (open : option str -> Connection -> Connection * Run unit) : Bus Connection := {|
  bus_connect := open;
  bus_call dest pth iface memb sig args := call fuel dfuel dest pth iface memb sig args;
|}.

(** ** Constants and errors *)

Definition SERVICE_DEST : str := lit "org.freedesktop.secrets".
Definition SERVICE_PATH : str := lit "/org/freedesktop/secrets".
Definition SERVICE_IFACE : str := lit "org.freedesktop.Secret.Service".
Definition COLLECTION_IFACE : str := lit "org.freedesktop.Secret.Collection".
Definition ITEM_IFACE : str := lit "org.freedesktop.Secret.Item".
Definition PROPERTIES_IFACE : str := lit "org.freedesktop.DBus.Properties".
Definition NULL_PATH : str := lit "/".

Definition secret_err (detail : string) : PlatformError := error_new InvalidInput NoCode detail.
Definition unreachable_err : PlatformError :=
  error_new Other NoCode "the Secret Service backing store is not currently reachable (check CredentialStore::available() first)".

Definition is_benign_unreachable (e : PlatformError) : bool :=
  bool_decide (kind e = ConnectionRefused \/ kind e = NotFound)
  || (bool_decide (kind e = Other)
      && bool_decide (path e = Some (lit "org.freedesktop.DBus.Error.ServiceUnknown"))).

(** ** Requests *)

Definition attributes_value (service account : str) : Value :=
  VArray (lit "{ss}")
    [VDictEntry (VString (lit "service")) (VString service);
     VDictEntry (VString (lit "account")) (VString account)].

Definition item_properties (service account : str) : Value :=
  VArray (lit "{sv}")
    [VDictEntry (VString (lit "org.freedesktop.Secret.Item.Label"))
       (VVariant (VString (lit "rustils: " ++ service ++ lit " (" ++ account ++ lit ")")));
     VDictEntry (VString (lit "org.freedesktop.Secret.Item.Attributes"))
       (VVariant (attributes_value service account))].

Definition secret_value (session_path : str) (secret : list Z) : Value :=
  VStruct [VObjectPath session_path; VArray (lit "y") []; VArray (lit "y") (map VByte secret);
           VString (lit "text/plain")].

Section client.
Context {S : Type} {B : Bus S}.

Definition get_property (pth iface prop : str) : S -> S * Run Value :=
  st! reply := bus_call SERVICE_DEST pth PROPERTIES_IFACE (lit "Get") (lit "ss")
                 [VString iface; VString prop] in
  match body reply with
  | VVariant v :: _ => st_lift (ret v)
  | _ => st_lift (fail (secret_err "Properties.Get did not return the expected variant"))
  end.

(** Unlocking the collection; [false] when it would need a prompt. *)
Definition unlock_collection (collection_path : str) : S -> S * Run bool :=
  st! unlock := bus_call SERVICE_DEST SERVICE_PATH SERVICE_IFACE (lit "Unlock") (lit "ao")
                  [VArray (lit "o") [VObjectPath collection_path]] in
  match body unlock with
  | VArray _ unlocked :: VObjectPath prompt :: _ =>
    let actually_unlocked :=
      existsb (fun v => match v with VObjectPath p => bool_decide (p = collection_path) | _ => false end)
        unlocked in
    st_lift (ret (actually_unlocked && bool_decide (prompt = NULL_PATH)))
  | _ => st_lift (fail (secret_err "Unlock did not return the expected reply shape"))
  end.

(** From the opened session on: the default collection, unlocked. *)
Definition prepare_collection (session_path : str) : S -> S * Run (option (str * str)) :=
  st! read_alias := bus_call SERVICE_DEST SERVICE_PATH SERVICE_IFACE (lit "ReadAlias") (lit "s")
                      [VString (lit "default")] in
  match body read_alias with
  | VObjectPath collection_path :: _ =>
    if bool_decide (collection_path = NULL_PATH) then st_lift (ret None)
    else
      st! locked := get_property collection_path COLLECTION_IFACE (lit "Locked") in
      match locked with
      | VBoolean true =>
        st! ok := unlock_collection collection_path in
        st_lift (ret (if ok then Some (session_path, collection_path) else None))
      | _ => st_lift (ret (Some (session_path, collection_path)))
      end
  | _ => st_lift (fail (secret_err "ReadAlias did not return the expected object path"))
  end.

Definition prepare_session_over (s : S) : S * Run (option (str * str)) :=
  match bus_call SERVICE_DEST SERVICE_PATH SERVICE_IFACE (lit "OpenSession") (lit "sv")
          [VString (lit "plain"); VVariant (VString [])] s with
  | (s, ret open) =>
    match body open !! 1%nat with
    | Some (VObjectPath session_path) => prepare_collection session_path s
    | _ => (s, fail (secret_err "OpenSession did not return the expected session path"))
    end
  | (s, fail e) => if is_benign_unreachable e then (s, ret None) else (s, fail e)
  | (s, Panic) => (s, Panic)
  | (s, OutOfFuel) => (s, OutOfFuel)
  end.

(** [prepare_session] ([None]) and [prepare_session_at]. *)
Definition prepare_session (address : option str) (s : S) : S * Run (option (str * str)) :=
  match bus_connect address s with
  | (s, ret _) => prepare_session_over s
  | (s, fail e) => if is_benign_unreachable e then (s, ret None) else (s, fail e)
  | (s, Panic) => (s, Panic)
  | (s, OutOfFuel) => (s, OutOfFuel)
  end.

Fixpoint value_bytes (vs : list Value) : Result (list Z) :=
  match vs with
  | [] => Ok []
  | VByte b :: vs' => let? bs := value_bytes vs' in Ok (b :: bs)
  | _ :: _ => Err (secret_err "Secret value array contained a non-byte element")
  end.

Definition get_secret (session_path item_path : str) : S -> S * Run (option (list Z)) :=
  st! secret_reply := bus_call SERVICE_DEST item_path ITEM_IFACE (lit "GetSecret") (lit "o")
                        [VObjectPath session_path] in
  match body secret_reply with
  | VStruct fields :: _ =>
    match fields !! 2%nat with
    | Some (VArray _ byte_values) =>
      st_lift (Done (let? bytes := value_bytes byte_values in Ok (Some bytes)))
    | _ => st_lift (fail (secret_err "Secret struct did not contain the expected value byte array"))
    end
  | _ => st_lift (fail (secret_err "GetSecret did not return the expected Secret struct"))
  end.

Definition get_with (session_path collection_path service account : str)
    : S -> S * Run (option (list Z)) :=
  st! search := bus_call SERVICE_DEST collection_path COLLECTION_IFACE (lit "SearchItems")
                  (lit "a{ss}") [attributes_value service account] in
  match body search with
  | VArray _ items :: _ =>
    match items with
    | VObjectPath item_path :: _ => get_secret session_path item_path
    | _ => st_lift (ret None)
    end
  | _ => st_lift (fail (secret_err "SearchItems did not return the expected array"))
  end.

Definition set_with (session_path collection_path service account : str) (secret : list Z)
    : S -> S * Run unit :=
  st! reply := bus_call SERVICE_DEST collection_path COLLECTION_IFACE (lit "CreateItem")
                 (lit "a{sv}(oayays)b")
                 [item_properties service account; secret_value session_path secret; VBoolean true] in
  match body reply with
  | VObjectPath _ :: VObjectPath prompt :: _ =>
    if bool_decide (prompt = NULL_PATH) then st_lift (ret tt)
    else st_lift (fail (secret_err "CreateItem unexpectedly required an interactive prompt"))
  | _ => st_lift (fail (secret_err "CreateItem did not return the expected reply shape"))
  end.

Inductive CredentialStoreStatus := Available | Unavailable | Unsupported_.

Definition status_of (r : Result (option (str * str))) : CredentialStoreStatus :=
  match r with Ok (Some _) => Available | _ => Unavailable end.

Definition available (address : option str) (s : S) : S * Run CredentialStoreStatus :=
  match prepare_session address s with
  | (s, Done r) => (s, ret (status_of r))
  | (s, Panic) => (s, Panic)
  | (s, OutOfFuel) => (s, OutOfFuel)
  end.

(** [prepare_session()?.ok_or_else(unreachable_err)?]. *)
Definition with_session {A} (address : option str) (k : str -> str -> S -> S * Run A) : S -> S * Run A :=
  st! prepared := prepare_session address in
  match prepared with
  | Some (session_path, collection_path) => k session_path collection_path
  | None => st_lift (fail unreachable_err)
  end.

Definition get (address : option str) (service account : str) : S -> S * Run (option (list Z)) :=
  with_session address (fun sp cp => get_with sp cp service account).
Definition set (address : option str) (service account : str) (secret : list Z) : S -> S * Run unit :=
  with_session address (fun sp cp => set_with sp cp service account secret).
End client.

(** ** Errors and misses *)

Lemma st_bind_ok {S A B} (m : S -> S * Run A) (k : A -> S -> S * Run B) s s' b :
  st_bind m k s = (s', ret b) -> exists s1 a, m s = (s1, ret a) /\ k a s1 = (s', ret b).
Proof. apply st_bind_inv. Qed.

(** whatever the bus answers, [get] returns "nothing stored" only after a
    search of the default collection that found no item, never because the
    service was unreachable; and [available] says so exactly when a session
    with an unlocked default collection was prepared. *)
Theorem get_none_is_a_miss {S} {B : Bus S} address service account s :
  (forall s', get address service account s = (s', ret None) ->
    exists sp cp s1 m es items, prepare_session address s = (s1, ret (Some (sp, cp))) /\
      bus_call SERVICE_DEST cp COLLECTION_IFACE (lit "SearchItems") (lit "a{ss}")
        [attributes_value service account] s1 = (s', ret m) /\
      hd_error (body m) = Some (VArray es items) /\
      match items with VObjectPath _ :: _ => False | _ => True end) /\
  (forall s', available address s = (s', ret Available) <->
    exists sp cp, prepare_session address s = (s', ret (Some (sp, cp)))).
Proof.
  split.
  - intros s' H. unfold get, with_session in H. apply st_bind_ok in H as (s1 & p & Hp & H).
    destruct p as [[sp cp]|]; [|done]. unfold get_with in H. apply st_bind_ok in H as (s2 & m & Hm & H).
    exists sp, cp, s1, m.
    destruct (body m) as [|[] vs] eqn:Eb; try done. exists elem_sig, items.
    destruct items as [|v items].
    { unfold st_lift in H. simplify_eq. by repeat split. }
    destruct v; try (unfold st_lift in H; simplify_eq; by repeat split).
    exfalso. unfold get_secret in H. apply st_bind_ok in H as (s3 & m' & _ & H).
    destruct (body m') as [|[] ?]; try done. destruct (fields !! 2%nat) as [[]|]; try done.
    unfold st_lift in H. destruct (value_bytes _); done.
  - intros s'. unfold available. destruct (prepare_session address s) as [s1 [[[[sp cp]|]|e]| |]];
      cbn [status_of]; split; try (by intros [= <-]); try (by intros (sp' & cp' & H)).
    + intros [= <-]. by exists sp, cp.
    + intros (sp' & cp' & H). by simplify_eq.
Qed.

(** ** A provider

    What the Secret Service specification promises of a provider, whatever the
    client: items are found by their attributes, an item answers to every part
    of its attributes, and secrets pass only within a session of the
    connection and out of an unlocked collection. *)

Record Item := mkItem { item_attributes : gmap str str; item_secret : list Z }.

(** The provider's state behind a connection. *)
Class Keyring (S : Type) := {
  (** running, and able to unlock the default collection without a prompt *)
  up : S -> Prop;
  collection : str;
  items : S -> gmap str Item;
  locked : S -> bool;
  sessions : S -> gset str;
}.

(** A dictionary [a{ss}], and the attributes among the properties [a{sv}] of
    an item. *)
Fixpoint dict_of (entries : list Value) : option (gmap str str) :=
  match entries with
  | [] => Some ∅
  | VDictEntry (VString k) (VString v) :: entries => insert k v <$> dict_of entries
  | _ => None
  end.
Fixpoint attributes_property (props : list Value) : option (gmap str str) :=
  match props with
  | [] => None
  | VDictEntry (VString k) (VVariant (VArray _ entries)) :: props =>
    if bool_decide (k = lit "org.freedesktop.Secret.Item.Attributes") then dict_of entries
    else attributes_property props
  | _ :: props => attributes_property props
  end.

Section states.
Context {S : Type} `{Keyring S}.

(** Between two calls that only ask. *)
Definition same (s s' : S) : Prop :=
  up s' /\ items s' = items s /\ locked s' = locked s /\ sessions s' = sessions s.

(** Where [CreateItem], asked to replace, puts its item: on one with the same
    attributes, or on a new path when there is none. *)
Definition replaces (attrs : gmap str str) (its : gmap str Item) (p : str) : Prop :=
  match its !! p with
  | Some i => item_attributes i = attrs
  | None => forall q i, its !! q = Some i -> item_attributes i <> attrs
  end.
End states.

Class Provider (S : Type) (B : Bus S) (R : Keyring S) := {
  collection_path_ok : collection <> NULL_PATH;
  (** a new connection may have no session yet, and find the collection locked *)
  connects a s : up s -> exists s', bus_connect a s = (s', ret tt) /\ up s' /\ items s' = items s;
  opens s : up s -> exists s' m x sp vs, bus_call SERVICE_DEST SERVICE_PATH SERVICE_IFACE
      (lit "OpenSession") (lit "sv") [VString (lit "plain"); VVariant (VString [])] s = (s', ret m) /\
    body m = x :: VObjectPath sp :: vs /\ up s' /\ items s' = items s /\ sp ∈ sessions s';
  reads_alias s : up s -> exists s' m vs, bus_call SERVICE_DEST SERVICE_PATH SERVICE_IFACE
      (lit "ReadAlias") (lit "s") [VString (lit "default")] s = (s', ret m) /\
    body m = VObjectPath collection :: vs /\ same s s';
  tells_locked s : up s -> exists s' m vs, bus_call SERVICE_DEST collection PROPERTIES_IFACE
      (lit "Get") (lit "ss") [VString COLLECTION_IFACE; VString (lit "Locked")] s = (s', ret m) /\
    body m = VVariant (VBoolean (locked s)) :: vs /\ same s s';
  unlocks s objects : up s -> VObjectPath collection ∈ objects -> exists s' m t unlocked vs,
    bus_call SERVICE_DEST SERVICE_PATH SERVICE_IFACE
      (lit "Unlock") (lit "ao") [VArray (lit "o") objects] s = (s', ret m) /\
    body m = VArray t unlocked :: VObjectPath NULL_PATH :: vs /\ VObjectPath collection ∈ unlocked /\
    up s' /\ items s' = items s /\ locked s' = false /\ sessions s' = sessions s;
  creates s props attrs sp secret content_type : up s -> locked s = false -> sp ∈ sessions s ->
    attributes_property props = Some attrs -> Forall (in_u 8) secret ->
    exists s' m p vs, bus_call SERVICE_DEST collection COLLECTION_IFACE
      (lit "CreateItem") (lit "a{sv}(oayays)b")
      [VArray (lit "{sv}") props;
       VStruct [VObjectPath sp; VArray (lit "y") []; VArray (lit "y") (map VByte secret); VString content_type];
       VBoolean true] s = (s', ret m) /\
    body m = VObjectPath p :: VObjectPath NULL_PATH :: vs /\ up s' /\
    replaces attrs (items s) p /\ items s' = <[p := mkItem attrs secret]> (items s);
  searches s entries attrs : up s -> dict_of entries = Some attrs -> exists s' m t found vs,
    bus_call SERVICE_DEST collection COLLECTION_IFACE (lit "SearchItems") (lit "a{ss}")
      [VArray (lit "{ss}") entries] s = (s', ret m) /\
    body m = VArray t (map VObjectPath found) :: vs /\ same s s' /\
    forall p, p ∈ found <-> exists i, items s !! p = Some i /\ attrs ⊆ item_attributes i;
  gives_secret s sp p i : up s -> locked s = false -> sp ∈ sessions s -> items s !! p = Some i ->
    exists s' m a b c vs ws,
    bus_call SERVICE_DEST p ITEM_IFACE (lit "GetSecret") (lit "o") [VObjectPath sp] s = (s', ret m) /\
    body m = VStruct (a :: b :: VArray c (map VByte (item_secret i)) :: vs) :: ws /\ same s s';
}.

Lemma value_bytes_map bs : value_bytes (map VByte bs) = Ok bs.
Proof. induction bs as [|b bs IH]; [done|]. cbn [map value_bytes]. by rewrite IH. Qed.

(** *** The attributes of a pair *)

Definition pair_attributes (service account : str) : gmap str str :=
  <[lit "service" := service]> {[lit "account" := account]}.

Lemma pair_lookup sv ac : pair_attributes sv ac !! lit "service" = Some sv /\
  pair_attributes sv ac !! lit "account" = Some ac.
Proof.
  unfold pair_attributes. split; [by rewrite lookup_insert_eq|].
  by rewrite lookup_insert_ne, lookup_singleton_eq by done.
Qed.
Lemma pair_subseteq sv ac sv' ac' : pair_attributes sv' ac' ⊆ pair_attributes sv ac -> sv' = sv /\ ac' = ac.
Proof.
  intros H. destruct (pair_lookup sv ac) as [E1 E2], (pair_lookup sv' ac') as [E1' E2'].
  pose proof (lookup_weaken _ _ _ _ E1' H). pose proof (lookup_weaken _ _ _ _ E2' H). split; congruence.
Qed.
Lemma pair_inj sv ac sv' ac' : pair_attributes sv' ac' = pair_attributes sv ac -> sv' = sv /\ ac' = ac.
Proof. intros E. apply pair_subseteq. by rewrite E. Qed.
Lemma attributes_value_of sv ac : exists entries, attributes_value sv ac = VArray (lit "{ss}") entries /\
  dict_of entries = Some (pair_attributes sv ac).
Proof. by eexists. Qed.
Lemma item_properties_of sv ac : exists props, item_properties sv ac = VArray (lit "{sv}") props /\
  attributes_property props = Some (pair_attributes sv ac).
Proof. eexists. split; [reflexivity|]. by vm_compute. Qed.

(** *** The store as a map *)

Section provider.
Context {S : Type} {B : Bus S} {R : Keyring S} {P : Provider S B R}.
Implicit Types (s : S) (m : gmap (str * str) (list Z)) (its : gmap str Item).

(** The items are the entries of the map: none has both attributes and
    others besides, none is there twice. *)
Record holds its m : Prop := {
  holds_exact p i sv ac : its !! p = Some i -> pair_attributes sv ac ⊆ item_attributes i ->
    item_attributes i = pair_attributes sv ac;
  holds_once p q i j sv ac : its !! p = Some i -> its !! q = Some j ->
    item_attributes i = pair_attributes sv ac -> item_attributes j = pair_attributes sv ac -> p = q;
  holds_entry sv ac secret : m !! (sv, ac) = Some secret <->
    exists p, its !! p = Some (mkItem (pair_attributes sv ac) secret);
}.
Definition represents s m : Prop := up s /\ holds (items s) m.

(** Only the place that is written has the attributes of the pair. *)
Lemma replaces_only its m p sv ac q j : holds its m -> replaces (pair_attributes sv ac) its p ->
  its !! q = Some j -> item_attributes j = pair_attributes sv ac -> q = p.
Proof.
  unfold replaces. intros Hh Hr Hq Hj. destruct (its !! p) as [i|] eqn:Hp; [|by destruct (Hr q j)].
  exact (holds_once _ _ Hh q p j i sv ac Hq Hp Hj Hr).
Qed.

Lemma holds_insert its m p sv ac secret : holds its m -> replaces (pair_attributes sv ac) its p ->
  holds (<[p := mkItem (pair_attributes sv ac) secret]> its) (<[(sv, ac) := secret]> m).
Proof.
  intros Hh Hr. split.
  - intros q i sv' ac' [[<- <-]|[_ Hq]]%lookup_insert_Some; [|by eapply holds_exact].
    cbn [item_attributes]. by intros [-> ->]%pair_subseteq.
  - assert (forall q j, its !! q = Some j -> p <> q -> item_attributes j <> pair_attributes sv ac) as Hno.
    { intros q j Hq Hne Hj. destruct Hne. symmetry. by eapply replaces_only. }
    intros q1 q2 i j sv' ac' [[<- <-]|[Hn1 H1]]%lookup_insert_Some [[<- <-]|[Hn2 H2]]%lookup_insert_Some; cbn [item_attributes];
      [done|..|by eapply (holds_once _ _ Hh)].
    + intros E Hj. destruct (Hno q2 j H2 Hn2). congruence.
    + intros Hi E. destruct (Hno q1 i H1 Hn1). congruence.
  - intros sv' ac' bs. destruct (decide ((sv', ac') = (sv, ac))) as [[= -> ->]|Hne].
    + rewrite lookup_insert_eq. split; [intros [= ->]; exists p; by rewrite lookup_insert_eq|].
      intros [q [[_ E]|[Hn Hq]]%lookup_insert_Some]; [apply (f_equal item_secret) in E; cbn in E; by subst|]. destruct Hn. symmetry. by eapply replaces_only.
    + rewrite lookup_insert_ne, (holds_entry _ _ Hh) by congruence. split; intros [q Hq]; exists q.
      * rewrite lookup_insert_ne; [done|]. intros <-. unfold replaces in Hr. rewrite Hq in Hr. cbn [item_attributes] in Hr.
        apply pair_inj in Hr as [-> ->]. done.
      * apply lookup_insert_Some in Hq as [[_ E]|[_ Hq]]; [|done]. apply (f_equal item_attributes), pair_inj in E as [-> ->]. done.
Qed.

(** What a search finds first. *)
Lemma holds_found its m sv ac found : holds its m ->
  (forall p, p ∈ found <-> exists i, its !! p = Some i /\ pair_attributes sv ac ⊆ item_attributes i) ->
  match m !! (sv, ac) with
  | None => found = []
  | Some secret => exists p rest, found = p :: rest /\ its !! p = Some (mkItem (pair_attributes sv ac) secret)
  end.
Proof.
  intros Hh Hf. assert (forall p rest, found = p :: rest -> exists bs,
    its !! p = Some (mkItem (pair_attributes sv ac) bs) /\ m !! (sv, ac) = Some bs) as Hd.
  { intros p rest ->. destruct (proj1 (Hf p)) as ([at_ bs] & Hp & Ha); [by left|].
    pose proof (holds_exact _ _ Hh _ _ _ _ Hp Ha) as E. cbn [item_attributes] in E. subst at_. exists bs. split; [done|].
    apply (holds_entry _ _ Hh). by exists p. }
  destruct (m !! (sv, ac)) as [secret|] eqn:Em.
  - apply (holds_entry _ _ Hh) in Em as [q Hq]. destruct found as [|p rest].
    + assert (q ∈ []) as Hin by (apply Hf; by eexists). by apply not_elem_of_nil in Hin.
    + destruct (Hd p rest eq_refl) as (bs & Hp & Eb). exists p, rest. split; [done|].
      by rewrite (holds_once _ _ Hh p q _ _ sv ac Hp Hq).
  - destruct found as [|p rest]; [done|]. by destruct (Hd p rest eq_refl) as (bs & _ & Eb).
Qed.

Lemma prepare_up address s : up s -> exists s' sp,
  prepare_session address s = (s', ret (Some (sp, collection))) /\ up s' /\ items s' = items s /\
  locked s' = false /\ sp ∈ sessions s'.
Proof.
  intros Hu. unfold prepare_session. destruct (connects address s Hu) as (s1 & E1 & Hu1 & Hs1). rewrite E1.
  unfold prepare_session_over. destruct (opens s1 Hu1) as (s2 & m2 & x & sp & vs2 & E2 & Hm2 & Hu2 & Hs2 & Hsp).
  rewrite E2, Hm2. cbn [lookup list_lookup]. unfold prepare_collection.
  destruct (reads_alias s2 Hu2) as (s3 & m3 & vs3 & E3 & Hm3 & Hu3 & Hs3 & _ & Hp3).
  rewrite (st_bind_ret _ _ _ _ _ E3), Hm3.
  rewrite bool_decide_eq_false_2 by exact collection_path_ok.
  destruct (tells_locked s3 Hu3) as (s4 & m4 & vs4 & E4 & Hm4 & Hu4 & Hs4 & Hk4 & Hp4).
  assert (get_property collection COLLECTION_IFACE (lit "Locked") s3 = (s4, ret (VBoolean (locked s3)))) as E4'.
  { unfold get_property. by rewrite (st_bind_ret _ _ _ _ _ E4), Hm4. }
  rewrite (st_bind_ret _ _ _ _ _ E4'). destruct (locked s3) eqn:Hk.
  - destruct (unlocks s4 [VObjectPath collection] Hu4) as (s5 & m5 & t & us & vs5 & E5 & Hm5 & Hus & Hu5 & Hs5 & Hk5 & Hp5);
      [by left|].
    assert (unlock_collection collection s4 = (s5, ret true)) as E5'.
    { unfold unlock_collection. rewrite (st_bind_ret _ _ _ _ _ E5), Hm5.
      assert (existsb (fun v => match v with VObjectPath p => bool_decide (p = collection) | _ => false end) us = true) as ->.
      { apply existsb_exists. exists (VObjectPath collection). split; [by apply list_elem_of_In|by apply bool_decide_eq_true]. }
      by rewrite bool_decide_eq_true_2. }
    rewrite (st_bind_ret _ _ _ _ _ E5'). exists s5, sp. split; [done|]. rewrite Hk5, Hp5, Hp4, Hp3. split_and!; congruence || done.
  - exists s4, sp. split; [done|]. rewrite Hk4, Hp4, Hp3. split_and!; congruence || done.
Qed.

Lemma set_up address sv ac secret s m : represents s m -> Forall (in_u 8) secret ->
  exists s', set address sv ac secret s = (s', ret tt) /\ represents s' (<[(sv, ac) := secret]> m).
Proof.
  intros [Hu Hh] Hb. unfold set, with_session. destruct (prepare_up address s Hu) as (s1 & sp & E1 & Hu1 & Hs1 & Hk1 & Hp1).
  rewrite (st_bind_ret _ _ _ _ _ E1). unfold set_with. destruct (item_properties_of sv ac) as (props & -> & Ha).
  destruct (creates s1 props _ sp secret (lit "text/plain") Hu1 Hk1 Hp1 Ha Hb) as (s2 & m2 & p & vs & E2 & Hm2 & Hu2 & Hr & Hi).
  rewrite Hs1 in Hr, Hi. unfold secret_value. rewrite (st_bind_ret _ _ _ _ _ E2), Hm2, bool_decide_eq_true_2 by done.
  exists s2. split; [done|]. split; [done|]. rewrite Hi. by apply holds_insert.
Qed.

Lemma get_up address sv ac s m : represents s m ->
  exists s', get address sv ac s = (s', ret (m !! (sv, ac))) /\ represents s' m.
Proof.
  intros [Hu Hh]. unfold get, with_session. destruct (prepare_up address s Hu) as (s1 & sp & E1 & Hu1 & Hs1 & Hk1 & Hp1).
  rewrite (st_bind_ret _ _ _ _ _ E1). unfold get_with. destruct (attributes_value_of sv ac) as (entries & -> & Ha).
  destruct (searches s1 entries _ Hu1 Ha) as (s2 & m2 & t & found & vs & E2 & Hm2 & (Hu2 & Hs2 & Hk2 & Hp2) & Hf).
  rewrite (st_bind_ret _ _ _ _ _ E2), Hm2. rewrite Hs1 in Hf, Hs2. pose proof (holds_found _ _ _ _ _ Hh Hf) as Hd.
  destruct (m !! (sv, ac)) as [secret|].
  - destruct Hd as (p & rest & -> & Hp). cbn [map]. unfold get_secret.
    destruct (gives_secret s2 sp p (mkItem (pair_attributes sv ac) secret) Hu2) as (s3 & m3 & a & b & c & vs3 & ws & E3 & Hm3 & Hu3 & Hs3 & _);
      [by rewrite Hk2|by rewrite Hp2|by rewrite Hs2|].
    rewrite (st_bind_ret _ _ _ _ _ E3), Hm3. cbn [lookup list_lookup item_secret]. exists s3.
    unfold st_lift. rewrite value_bytes_map. split; [done|]. split; [done|]. by rewrite Hs3, Hs2.
  - subst found. exists s2. split; [done|]. split; [done|]. by rewrite Hs2.
Qed.

(** A client's work with the store, and the same on a map. *)
Inductive StoreOp :=
  | OpGet (address : option str) (service account : str)
  | OpSet (address : option str) (service account : str) (secret : list Z).
Definition is_bytes (op : StoreOp) : Prop := match op with OpSet _ _ _ secret => Forall (in_u 8) secret | _ => True end.

Definition perform (op : StoreOp) s : S * (Run unit + Run (option (list Z))) :=
  match op with
  | OpGet a sv ac => let (s, r) := get a sv ac s in (s, inr r)
  | OpSet a sv ac secret => let (s, r) := set a sv ac secret s in (s, inl r)
  end.
Definition on_map (op : StoreOp) m : gmap (str * str) (list Z) * (Run unit + Run (option (list Z))) :=
  match op with
  | OpGet _ sv ac => (m, inr (ret (m !! (sv, ac))))
  | OpSet _ sv ac secret => (<[(sv, ac) := secret]> m, inl (ret tt))
  end.
Fixpoint answers {T R} (run : StoreOp -> T -> T * R) (ops : list StoreOp) (t : T) : T * list R :=
  match ops with
  | [] => (t, [])
  | op :: ops => let (t, r) := run op t in let (t, rs) := answers run ops t in (t, r :: rs)
  end.

Lemma perform_refines op s m : represents s m -> is_bytes op -> exists s',
  perform op s = (s', snd (on_map op m)) /\ represents s' (fst (on_map op m)).
Proof.
  intros Hr Hb. destruct op as [a sv ac|a sv ac secret]; cbn [perform on_map fst snd].
  - destruct (get_up a sv ac s m Hr) as (s' & -> & H'). by exists s'.
  - destruct (set_up a sv ac secret s m Hr Hb) as (s' & -> & H'). by exists s'.
Qed.
End provider.

(** C26: against a provider that keeps what the Secret Service specification
    promises (items found by attributes, replaced when all their attributes
    are the same, secrets handed over only in a session of the connection and
    out of an unlocked collection), any sequence of [get]s and [set]s of bytes answers
    exactly as a map from (service, account) to secrets does, without errors:
    a [get] reports the secret last [set] for its pair or what was there
    before, and none when there was nothing.  At the start the items with both
    attributes have to have no others besides, and no two the same; [set]
    keeps it so. *)
Theorem set_then_get {S} {B : Bus S} {R : Keyring S} {P : Provider S B R} ops : forall s m,
  represents s m -> Forall is_bytes ops ->
  snd (answers perform ops s) = snd (answers on_map ops m) /\
  represents (fst (answers perform ops s)) (fst (answers on_map ops m)).
Proof.
  induction ops as [|op ops IH]; intros s m Hr Hb; [done|]. cbn [answers].
  destruct (perform_refines op s m Hr (Forall_inv Hb)) as (s' & -> & H'). destruct (on_map op m) as [m' r]. cbn [fst snd] in *.
  destruct (IH s' m' H' (Forall_inv_tail Hb)) as [E Hr']. destruct (answers perform ops s'), (answers on_map ops m').
  cbn [fst snd] in *. by subst.
Qed.

(** *** A provider

    A new connection starts without sessions and with the collection locked;
    an item's path encodes its attributes. *)

Record TestStore := mkTestStore { ts_items : gmap str Item; ts_locked : bool; ts_sessions : gset str }.
Definition reply_of (vs : list Value) : Message :=
  mkMessage TYPE_METHOD_RETURN 0 1 None None None None None None None [] vs.
Definition attributes_path (attrs : gmap str str) : str := [Zpos (encode attrs)].

#[export] Instance test_keyring : Keyring TestStore := {|
  up s := forall p i, ts_items s !! p = Some i -> p = attributes_path (item_attributes i);
  collection := lit "/c";
  items := ts_items;
  locked := ts_locked;
  sessions := ts_sessions;
|}.

Definition test_found (attrs : gmap str str) (its : gmap str Item) : list str :=
  map fst (filter (fun e => attrs ⊆ item_attributes (snd e)) (map_to_list its)).
Definition refused {A} : Run A := fail unreachable_err.

Definition test_create (args : list Value) (s : TestStore) : TestStore * Run Message :=
  match args with
  | [VArray _ props; VStruct [VObjectPath sp; _; VArray _ vs; _]; VBoolean true] =>
    match attributes_property props, value_bytes vs with
    | Some attrs, Ok bs =>
      if bool_decide (ts_locked s = false /\ sp ∈ ts_sessions s) then
        let p := attributes_path attrs in
        (mkTestStore (<[p := mkItem attrs bs]> (ts_items s)) false (ts_sessions s),
         ret (reply_of [VObjectPath p; VObjectPath NULL_PATH]))
      else (s, refused)
    | _, _ => (s, refused)
    end
  | _ => (s, refused)
  end.
Definition test_search (args : list Value) (s : TestStore) : TestStore * Run Message :=
  match args with
  | [VArray _ entries] =>
    match dict_of entries with
    | Some attrs => (s, ret (reply_of [VArray (lit "o") (map VObjectPath (test_found attrs (ts_items s)))]))
    | None => (s, refused)
    end
  | _ => (s, refused)
  end.
Definition test_get_secret (pth : str) (args : list Value) (s : TestStore) : TestStore * Run Message :=
  match args, ts_items s !! pth with
  | [VObjectPath sp], Some i =>
    if bool_decide (ts_locked s = false /\ sp ∈ ts_sessions s) then
      (s, ret (reply_of [VStruct [VObjectPath sp; VArray (lit "y") []; VArray (lit "y") (map VByte (item_secret i));
        VString (lit "text/plain")]]))
    else (s, refused)
  | _, _ => (s, refused)
  end.
Definition test_method (memb pth : str) (args : list Value) (s : TestStore) : TestStore * Run Message :=
  let meth m := bool_decide (memb = lit m) in
  if meth "OpenSession" then
    (mkTestStore (ts_items s) (ts_locked s) ({[lit "/s"]} ∪ ts_sessions s),
     ret (reply_of [VVariant (VString []); VObjectPath (lit "/s")]))
  else if meth "ReadAlias" then (s, ret (reply_of [VObjectPath (lit "/c")]))
  else if meth "Get" then (s, ret (reply_of [VVariant (VBoolean (ts_locked s))]))
  else if meth "Unlock" then
    match args with
    | [VArray t objects] => (mkTestStore (ts_items s) false (ts_sessions s), ret (reply_of [VArray t objects; VObjectPath NULL_PATH]))
    | _ => (s, refused)
    end
  else if meth "CreateItem" then test_create args s
  else if meth "SearchItems" then test_search args s
  else if meth "GetSecret" then test_get_secret pth args s
  else (s, refused).

#[export] Instance test_bus : Bus TestStore := {|
  bus_connect _ s := (mkTestStore (ts_items s) true ∅, ret tt);
  bus_call dest pth iface memb sig args := test_method memb pth args;
|}.

#[export] Instance test_provider : Provider TestStore test_bus test_keyring.
Proof.
  split; unfold same; cbn [bus_call bus_connect test_bus].
  - done.
  - intros a s Hu. eexists. split; [reflexivity|]. by split.
  - intros s Hu. eexists _, _, _, _, _. split; [reflexivity|]. split; [reflexivity|]. split; [exact Hu|].
    split; [done|]. apply elem_of_union_l, elem_of_singleton. reflexivity.
  - intros s Hu. eexists _, _, _. split; [reflexivity|]. split; [reflexivity|]. by split_and!.
  - intros s Hu. eexists _, _, _. split; [reflexivity|]. split; [reflexivity|]. by split_and!.
  - intros s objects Hu Hin. eexists _, _, _, _, _. split; [reflexivity|]. split; [reflexivity|]. by split_and!.
  - intros s props attrs sp secret ct Hu Hl Hs Ha _. cbn [items locked sessions test_keyring] in *.
    eexists _, _, _, _. split; [etrans; [apply (eq_refl (test_create _ s))|]; unfold test_create;
      rewrite Ha, value_bytes_map, bool_decide_true by done; reflexivity|].
    split; [reflexivity|]. split_and!; [| |done].
    + cbn. intros p i [[<- <-]|[_ Hp]]%lookup_insert_Some; [done|by apply Hu].
    + unfold replaces. destruct (ts_items s !! attributes_path attrs) as [i|] eqn:E.
      * apply Hu in E. unfold attributes_path in E. by simplify_eq.
      * intros q i Hq <-. rewrite (Hu _ _ Hq) in Hq. congruence.
  - intros s entries attrs Hu Ha. cbn [items test_keyring] in *. eexists _, _, _, (test_found attrs (ts_items s)), _.
    split; [etrans; [apply (eq_refl (test_search _ s))|]; unfold test_search; rewrite Ha; reflexivity|].
    split; [reflexivity|]. split; [done|]. intros p. unfold test_found. rewrite list_elem_of_fmap. split.
    + intros ([q i] & -> & [Hi Hq]%list_elem_of_filter). exists i. by apply elem_of_map_to_list in Hq.
    + intros (i & Hp & Hi). exists (p, i). split; [done|]. apply list_elem_of_filter. split; [done|]. by apply elem_of_map_to_list.
  - intros s sp p i Hu Hl Hs Hp. cbn [items locked sessions test_keyring] in *. eexists _, _, _, _, _, _, _.
    split; [etrans; [apply (eq_refl (test_get_secret p _ s))|]; unfold test_get_secret; rewrite Hp, bool_decide_true by done; reflexivity|].
    split; [reflexivity|]. by split_and!.
Qed.

Lemma empty_represented : represents (mkTestStore ∅ true ∅) (∅ : gmap (str * str) (list Z)).
Proof. split; [by intros p i|]. split; [by intros p i|by intros p q i j|]. intros sv ac bs. split; [done|]. by intros [p ?]. Qed.

Lemma set_then_get_witness :
  let ops := [OpGet None (lit "mail") (lit "me"); OpSet None (lit "mail") (lit "me") [1; 2; 3];
    OpSet (Some (lit "unix:path=/b")) (lit "mail") (lit "you") [4]; OpSet None (lit "mail") (lit "me") [5];
    OpGet None (lit "mail") (lit "me"); OpGet None (lit "mail") (lit "you")] in
  snd (answers perform ops (mkTestStore ∅ true ∅)) = snd (answers on_map ops ∅) /\
  represents (fst (answers perform ops (mkTestStore ∅ true ∅))) (fst (answers on_map ops ∅)).
Proof.
  intros ops. apply (set_then_get (P := test_provider) ops (mkTestStore ∅ true ∅) ∅ empty_represented).
  repeat (constructor; [try exact I; by apply bytes_ok|]). constructor.
Defined.

(** An item with further attributes, another program's, answers to the pair as
    well: nothing is stored under exactly this pair. *)
Example foreign_item_answers :
  let foreign := <[lit "xdg:schema" := lit "s"]> (pair_attributes (lit "mail") (lit "me")) in
  snd (get None (lit "mail") (lit "me") (mkTestStore {[lit "/i" := mkItem foreign [7]]} true ∅)) = ret (Some [7]).
Proof. by vm_compute. Qed.
