(* ===== verification/LinuxFd.v ===== *)
(** * Files and directories of the Linux backend
      ([platform-linux/src/sys/fdio.rs], [platform-linux/src/fs.rs])

    The default build (the [track-p] arms make the same calls through another
    crate).  A [LinuxDir] and a [LinuxFile] are their descriptor. *)

From Stdlib Require Import ZArith Lia String.
From S2P Require Import Prelude Error Sys Fs.
From stdpp Require Import base numbers list strings gmap gmultiset.
Open Scope Z_scope.

Definition kind_of (errno : Z) : ErrorKind :=
  if errno =? ENOENT then NotFound
  else if (errno =? EACCES) || (errno =? EPERM) then PermissionDenied
  else if errno =? EEXIST then AlreadyExists
  else if errno =? ENOTDIR then NotADirectory
  else if errno =? EISDIR then IsADirectory
  else if errno =? ENOTEMPTY then DirectoryNotEmpty
  else if errno =? EINVAL then InvalidInput
  else if errno =? EAGAIN then WouldBlock
  else if errno =? EINTR then Interrupted
  else if errno =? EPIPE then BrokenPipe
  else if errno =? ELOOP then FilesystemLoop
  else if errno =? EXDEV then CrossesDevices
  else Other.

Definition S_IFMT := 61440.   (* 0o170000 *)
Definition S_IFREG := 32768.
Definition S_IFDIR := 16384.
Definition S_IFLNK := 40960.
Definition S_ISUID := 2048.
Definition S_ISGID := 1024.
Definition S_ISVTX := 512.
Definition RESOLVE_NO_XDEV := 1.
Definition RESOLVE_NO_SYMLINKS := 4.
Definition RENAME_NOREPLACE := 1.
Definition R_OK := 4.
Definition W_OK := 2.
Definition X_OK := 1.
Definition DT_DIR := 4.
Definition DT_REG := 8.
Definition DT_LNK := 10.
Definition MFD_CLOEXEC := 1.

Definition R2_RESOLVE : Z := Z.lor RESOLVE_NO_SYMLINKS RESOLVE_NO_XDEV.

(** [split_last_component]. *)
Definition is_slash (b : Z) : bool := b =? 47.

(** [iter().rposition(p)]. *)
Fixpoint rposition (p : Z -> bool) (l : list Z) : option nat :=
  match l with
  | [] => None
  | b :: l' =>
    match rposition p l' with
    | Some i => Some (S i)
    | None => if p b then Some O else None
    end
  end.

Definition split_last_component (rel : OsString) : option (OsString * OsString) :=
  match rposition (fun b => negb (is_slash b)) rel with
  | None => None
  | Some i =>
    let trimmed := take (S i) rel in
    match rposition is_slash trimmed with
    | None => None
    | Some pos => Some (take pos trimmed, drop (S pos) trimmed)
    end
  end.

Definition open_flags (o : OpenOptions) : Result Z :=
  let? flags := match o_read o, o_write o || o_append o with
                | true, true => Ok O_RDWR
                | true, false => Ok O_RDONLY
                | false, true => Ok O_WRONLY
                | false, false => Err (error_new InvalidInput NoCode "open")
                end in
  let flags := if o_append o then Z.lor flags O_APPEND else flags in
  let flags := if o_create_new o then Z.lor flags (Z.lor O_CREAT O_EXCL)
               else if o_create o then Z.lor flags O_CREAT else flags in
  let flags := if o_truncate o then Z.lor flags O_TRUNC else flags in
  Ok flags.

(** The file type and mode bits of a [stat]. *)
Definition type_of_mode (m : Z) : FileType :=
  let t := Z.land m S_IFMT in
  if t =? S_IFREG then FtFile else if t =? S_IFDIR then FtDir
  else if t =? S_IFLNK then FtSymlink else FtOther.

Definition unix_mode_of (st : Stat) : UnixMode :=
  mkUnixMode (negb (Z.land (st_mode st) S_ISUID =? 0))
             (negb (Z.land (st_mode st) S_ISGID =? 0))
             (negb (Z.land (st_mode st) S_ISVTX =? 0))
             (st_uid st) (st_gid st) (Z.land (st_mode st) 511).

Definition raw_mode (m : Mode) : Z :=
  Z.lor (Z.lor (Z.lor (if m_setuid m then S_ISUID else 0) (if m_setgid m then S_ISGID else 0))
               (if m_sticky m then S_ISVTX else 0))
        (Z.land (m_permissions m) 511).

(** [Duration] arithmetic around the epoch, in nanoseconds; [-secs] of
    [i64::MIN] overflows. *)
Definition system_time_from_secs_nsec (secs nsec : Z) : Run Z :=
  if 0 <=? secs then ret (secs * 1000000000 + nsec)
  else if secs =? - 2 ^ 63 then Panic
  else ret (- ((- secs) * 1000000000) + nsec).

Definition type_of_dirent (t : Z) : FileType :=
  if t =? DT_REG then FtFile else if t =? DT_DIR then FtDir
  else if t =? DT_LNK then FtSymlink else FtOther.

Definition access_bits (m : AccessMode) : Z :=
  Z.lor (Z.lor (if a_read m then R_OK else 0) (if a_write m then W_OK else 0))
        (if a_execute m then X_OK else 0).

Section fdio.
Context {K : Type} (kernel : Call -> K -> K * Ret).
Abbreviation M A := (World K -> World K * Run A).
Abbreviation sys := (syscall kernel).

Definition os_err {A} (op : string) (path : OsString) : M A := fun w =>
  (w, fail (with_path (error_new (kind_of (errno w)) (Errno (errno w)) op) path)).

Definition path_arg (path : OsString) (op : string) : M OsString :=
  st_lift (to_cstring path (with_path (error_new InvalidInput NoCode op) path)).

(** A call whose result is only tested for failure. *)
Definition sys_unit (c : Call) (op : string) (path : OsString) : M unit :=
  st! r := sys c in
  if rv r <? 0 then os_err op path else st_lift (ret tt).

Definition openat (dirfd : Z) (rel : OsString) (flags mode : Z) : M Z :=
  st! c_rel := path_arg rel "openat" in
  st! r := sys (c_openat dirfd c_rel (Z.lor flags O_CLOEXEC) mode) in
  if rv r <? 0 then os_err "openat" rel else st_lift (ret (rv r)).

(** The raw system call's [long] is a descriptor, so [as RawFd] changes
    nothing. *)
Definition openat2_raw (dirfd : Z) (rel : OsString) (flags mode resolve : Z) : M Z :=
  st! c_rel := path_arg rel "openat2" in
  st! r := sys (c_openat2 dirfd c_rel (wrap 64 (Z.lor flags O_CLOEXEC)) mode resolve) in
  if rv r <? 0 then fun w =>
    let code := errno w in
    if code =? ENOSYS then (w, fail (error_new Unsupported (Errno code) "openat2"))
    else (w, fail (with_path (error_new (kind_of code) (Errno code) "openat2") rel))
  else st_lift (ret (rv r)).

Definition openat_r2 (dirfd : Z) (rel : OsString) (flags mode : Z) : M Z := fun w =>
  match openat2_raw dirfd rel flags mode R2_RESOLVE w with
  | (w, fail e) => if bool_decide (kind e = Unsupported) then openat dirfd rel flags mode w else (w, fail e)
  | other => other
  end.

Definition memfd_create (name : str) : M Z :=
  st! c_name := path_arg name "memfd_create" in
  st! r := sys (c_memfd_create c_name MFD_CLOEXEC) in
  if rv r <? 0 then os_err "memfd_create" name else st_lift (ret (rv r)).

(** [read(2)] into a buffer of [n] bytes: the bytes read. *)
Definition read (fd n : Z) : M (list Z) :=
  st! r := sys (c_read fd n) in
  if rv r <? 0 then os_err "read" [] else st_lift (ret (take (Z.to_nat (rv r)) (out_bytes r))).

Definition write (fd : Z) (buf : list Z) : M Z :=
  st! r := sys (c_write fd buf) in
  if rv r <? 0 then os_err "write" [] else st_lift (ret (rv r)).

Definition dup_cloexec (fd : Z) : M Z :=
  st! r := sys (c_fcntl_dupfd_cloexec fd) in
  if rv r <? 0 then os_err "fcntl(F_DUPFD_CLOEXEC)" [] else st_lift (ret (rv r)).

Definition mkdirat (dirfd : Z) (rel : OsString) : M unit :=
  st! c_rel := path_arg rel "mkdirat" in
  sys_unit (c_mkdirat dirfd c_rel 511) "mkdirat" rel.

Definition unlinkat (dirfd : Z) (rel : OsString) (remove_dir : bool) : M unit :=
  st! c_rel := path_arg rel "unlinkat" in
  sys_unit (c_unlinkat dirfd c_rel (if remove_dir then AT_REMOVEDIR else 0)) "unlinkat" rel.

Definition symlink (dirfd : Z) (target link_name : OsString) : M unit :=
  st! c_target := path_arg target "symlinkat" in
  st! c_link := path_arg link_name "symlinkat" in
  sys_unit (c_symlinkat c_target dirfd c_link) "symlinkat" link_name.

(** [let mut cap = 256; loop]: the buffer is four times larger each time. *)
Fixpoint read_link_loop (fuel : nat) (dirfd : Z) (rel c_rel : OsString) (cap : Z) : M OsString :=
  match fuel with
  | O => st_lift OutOfFuel
  | S fuel =>
    st! r := sys (c_readlinkat dirfd c_rel cap) in
    if rv r <? 0 then os_err "readlinkat" rel
    else if rv r <? cap then st_lift (ret (take (Z.to_nat (rv r)) (out_bytes r)))
    else
      let cap := cap * 4 in
      if cap >? Z.shiftl 1 20
      then st_lift (fail (with_path (error_new InvalidInput NoCode "readlinkat") rel))
      else read_link_loop fuel dirfd rel c_rel cap
  end.

Definition read_link (dirfd : Z) (rel : OsString) : M OsString :=
  st! c_rel := path_arg rel "readlinkat" in
  read_link_loop 7 dirfd rel c_rel 256.

Definition fstatat (dirfd : Z) (rel : OsString) : M Stat :=
  st! c_rel := path_arg rel "fstatat" in
  st! r := sys (c_fstatat dirfd c_rel AT_SYMLINK_NOFOLLOW) in
  if rv r <? 0 then os_err "fstatat" rel else st_lift (ret (out_stat r)).

Definition statat (dirfd : Z) (rel : OsString) : M (FileType * Z * Z * Z) :=
  st! st := fstatat dirfd rel in
  st! modified := st_lift (system_time_from_secs_nsec (st_mtime st) (wrap 32 (st_mtime_nsec st))) in
  st_lift (ret (type_of_mode (st_mode st), wrap 64 (st_size st), st_nlink st, modified)).

Definition unix_mode (dirfd : Z) (rel : OsString) : M UnixMode :=
  st! st := fstatat dirfd rel in st_lift (ret (unix_mode_of st)).

Definition set_unix_mode (dirfd : Z) (rel : OsString) (m : Mode) : M unit :=
  st! c_rel := path_arg rel "fchmodat" in
  sys_unit (c_fchmodat dirfd c_rel (raw_mode m) 0) "fchmodat" rel.

Definition file_id (dirfd : Z) (rel : OsString) : M (Z * Z) :=
  st! st := fstatat dirfd rel in st_lift (ret (st_dev st, st_ino st)).

Definition access (dirfd : Z) (rel : OsString) (mode : Z) : M unit :=
  st! c_rel := path_arg rel "faccessat" in
  sys_unit (c_faccessat dirfd c_rel mode 0) "faccessat" rel.

Definition renameat2_raw (dirfd : Z) (old new : OsString) (flags : Z) : M unit :=
  st! c_old := path_arg old "renameat2" in
  st! c_new := path_arg new "renameat2" in
  sys_unit (c_renameat2 dirfd c_old dirfd c_new flags) "renameat2" old.

Definition rename (dirfd : Z) (from to : OsString) : M unit := renameat2_raw dirfd from to 0.
Definition rename_no_replace (dirfd : Z) (from to : OsString) : M unit :=
  renameat2_raw dirfd from to RENAME_NOREPLACE.

Definition fsync (fd : Z) : M unit := sys_unit (c_fsync fd) "fsync" [].

(** The [readdir] loop; a null entry ends it, whatever [errno] says. *)
Fixpoint readdir_loop (fuel : nat) (dir : Z) (acc : list (OsString * FileType))
    : M (list (OsString * FileType)) :=
  match fuel with
  | O => st_lift OutOfFuel
  | S fuel =>
    st! r := sys (c_readdir dir) in
    match out r with
    | ODirent name t =>
      if bool_decide (name = lit ".") || bool_decide (name = lit "..")
      then readdir_loop fuel dir acc
      else readdir_loop fuel dir (acc ++ [(name, type_of_dirent t)])
    | _ => st_lift (ret acc)
    end
  end.

(** [fdopendir] takes the descriptor over, and [closedir] closes it. *)
Definition read_dir_fd (fuel : nat) (dirfd : Z) : M (list (OsString * FileType)) :=
  st! d := owned kernel dirfd
    (st! r := sys (c_fdopendir dirfd) in
     if rv r =? 0 then os_err "fdopendir" [] else st_lift (ret dirfd)) in
  st! out := readdir_loop fuel d [] in
  st! _ := sys (c_closedir d) in
  st_lift (ret out).
End fdio.

(** ** [fs.rs] *)

Section linux_fs.
Context {K : Type} (kernel : Call -> K -> K * Ret).
Abbreviation M A := (World K -> World K * Run A).

Definition open_ambient (path : OsString) : M Z :=
  openat kernel AT_FDCWD path (Z.lor O_RDONLY O_DIRECTORY) 0.

Definition open (d : Z) (rel : OsString) (opts : OpenOptions) : M Z :=
  st! flags := st_lift (Done (open_flags opts)) in
  openat kernel d rel flags 438.

Definition open_dir (d : Z) (rel : OsString) : M Z :=
  openat_r2 kernel d rel (Z.lor O_RDONLY O_DIRECTORY) 0.

Definition create_dir (d : Z) (rel : OsString) : M unit :=
  match split_last_component rel with
  | None => mkdirat kernel d rel
  | Some (parent, leaf) =>
    st! parent_fd := openat_r2 kernel d parent (Z.lor O_RDONLY O_DIRECTORY) 0 in
    scoped kernel parent_fd (mkdirat kernel parent_fd leaf)
  end.

Definition metadata (d : Z) (rel : OsString) : M Metadata :=
  st! (t, len, nlink, modified) := statat kernel d rel in
  st_lift (ret (mkMetadata t len nlink modified)).

Definition dir_access (d : Z) (rel : OsString) (mode : AccessMode) : M unit :=
  if negb (a_read mode || a_write mode || a_execute mode) then st_lift (ret tt)
  else access kernel d rel (access_bits mode).

Definition dir_unix_mode (d : Z) (rel : OsString) : M (option UnixMode) :=
  st! m := unix_mode kernel d rel in st_lift (ret (Some m)).

Definition dir_file_id (d : Z) (rel : OsString) : M FileId :=
  st! (dev, ino) := file_id kernel d rel in st_lift (ret (mkFileId dev ino)).

Definition read_dir (fuel : nat) (d : Z) : M (list DirEntry) :=
  st! fd := openat kernel d (lit ".") (Z.lor O_RDONLY O_DIRECTORY) 0 in
  st! es := read_dir_fd kernel fuel fd in
  st_lift (ret (map (fun e => mkDirEntry (fst e) (snd e)) es)).

Definition remove_file (d : Z) (rel : OsString) : M unit := unlinkat kernel d rel false.
Definition remove_dir (d : Z) (rel : OsString) : M unit := unlinkat kernel d rel true.
Definition flush (f : Z) : M unit := st_lift (ret tt).
Definition sync_all (f : Z) : M unit := fsync kernel f.
Definition try_clone (f : Z) : M Z := dup_cloexec kernel f.
Definition sync_dir (d : Z) : M unit := fsync kernel d.
Definition create_memfd (name : str) : M Z := memfd_create kernel name.

(** The backend as the interface's clients see it; [fuel] bounds the entries
    of a directory. *)
Definition linux_fs (fuel : nat) : FsBackend (World K) Z Z := {|
  open_ := open;
  read_ f n := read kernel f n;
  write_ := write kernel;
  sync_all_ := sync_all;
  drop_file_ := drop_fd kernel;
  remove_file_ := remove_file;
  rename_ := rename kernel;
  sync_dir_ := sync_dir;
  read_dir_ := read_dir fuel;
  metadata_ := metadata;
  unix_mode_ := dir_unix_mode;
  read_link_ := read_link kernel;
|}.
End linux_fs.

(** ** Ownership *)

Section ownership.
Context {K : Type} (kernel : Call -> K -> K * Ret).

Lemma owns_os_err {A} h op path (Q : A -> _) : owns (K := K) h (os_err op path) Q h.
Proof. intros w w' r [= <- <-]. exists []. by rewrite app_nil_r. Qed.
Hint Resolve owns_os_err : owns.

Lemma owns_path_arg h path op : owns (K := K) h (path_arg path op) (fun _ => h) h.
Proof. apply owns_pure. Qed.
Hint Resolve owns_path_arg : owns.

Lemma owns_sys_unit h c op path : released c = None -> (forall r, acquired (c, r) = []) ->
  owns h (sys_unit kernel c op path) (fun _ => h) h.
Proof.
  intros Hc Ha. unfold sys_unit. eapply owns_bind; [by apply owns_neutral|]. intros. owns_go.
Qed.
Hint Extern 2 (owns _ (sys_unit _ _ _ _) _ _) => apply owns_sys_unit; [reflexivity|reflexivity] : owns.

Lemma owns_openat h dirfd rel flags mode :
  owns h (openat kernel dirfd rel flags mode) (fun fd => {[+ fd +]} ⊎ h) h.
Proof. unfold openat. owns_go. Qed.
Hint Resolve owns_openat : owns.

Lemma owns_openat_r2 h dirfd rel flags mode :
  owns h (openat_r2 kernel dirfd rel flags mode) (fun fd => {[+ fd +]} ⊎ h) h.
Proof.
  assert (owns h (openat2_raw kernel dirfd rel flags mode R2_RESOLVE)
            (fun fd => {[+ fd +]} ⊎ h) h) as H2.
  { unfold openat2_raw. owns_go. intros w w' r0 H. exists []. rewrite app_nil_r.
    destruct (errno w =? ENOSYS); simplify_eq; done. }
  intros w w' r. unfold openat_r2.
  destruct (openat2_raw kernel dirfd rel flags mode R2_RESOLVE w) as [w1 r1] eqn:E1.
  destruct (H2 _ _ _ E1) as (l1 & Hl1 & H1). destruct r1 as [[fd|e]| |].
  2: destruct (bool_decide (kind e = Unsupported)).
  2: { intros E2. destruct (owns_openat h dirfd rel flags mode _ _ _ E2) as (l2 & Hl2 & H3).
       exists (l1 ++ l2). rewrite Hl2, Hl1, app_assoc. split; [done|]. intros Hr.
       rewrite replay_app, H1 by done. by apply H3. }
  all: intros [= <- <-]; exists l1; split; [done|]; intros Hr; by rewrite H1.
Qed.
Hint Resolve owns_openat_r2 : owns.

Lemma owns_memfd h name : owns h (memfd_create kernel name) (fun fd => {[+ fd +]} ⊎ h) h.
Proof. unfold memfd_create. owns_go. Qed.
Lemma owns_dup h fd : owns h (dup_cloexec kernel fd) (fun fd' => {[+ fd' +]} ⊎ h) h.
Proof. unfold dup_cloexec. owns_go. Qed.
Lemma owns_read h fd n : owns h (read kernel fd n) (fun _ => h) h.
Proof. unfold read. owns_go. Qed.
Lemma owns_write h fd bs : owns h (write kernel fd bs) (fun _ => h) h.
Proof. unfold write. owns_go. Qed.
Lemma owns_fstatat h d rel : owns h (fstatat kernel d rel) (fun _ => h) h.
Proof. unfold fstatat. owns_go. Qed.
Hint Resolve owns_memfd owns_dup owns_read owns_write owns_fstatat : owns.

Lemma owns_mkdirat h d rel : owns h (mkdirat kernel d rel) (fun _ => h) h.
Proof. unfold mkdirat. owns_go. Qed.
Lemma owns_unlinkat h d rel b : owns h (unlinkat kernel d rel b) (fun _ => h) h.
Proof. unfold unlinkat. owns_go. Qed.
Lemma owns_symlink h d t l : owns h (symlink kernel d t l) (fun _ => h) h.
Proof. unfold symlink. owns_go. Qed.
Lemma owns_renameat2 h d a b f : owns h (renameat2_raw kernel d a b f) (fun _ => h) h.
Proof. unfold renameat2_raw. owns_go. Qed.
Lemma owns_fsync h fd : owns h (fsync kernel fd) (fun _ => h) h.
Proof. unfold fsync. owns_go. Qed.
Hint Resolve owns_mkdirat owns_unlinkat owns_symlink owns_renameat2 owns_fsync : owns.

Lemma owns_read_link h d rel : owns h (read_link kernel d rel) (fun _ => h) h.
Proof.
  assert (forall fuel c_rel cap,
    owns h (read_link_loop kernel fuel d rel c_rel cap) (fun _ => h) h) as Hl.
  { induction fuel as [|fuel IH]; intros; cbn [read_link_loop]; owns_go. }
  unfold read_link. owns_go.
Qed.

(** The [DIR] stream owns the descriptor from [fdopendir] to [closedir]. *)
Lemma owns_read_dir_fd h fuel fd :
  owns ({[+ fd +]} ⊎ h) (read_dir_fd kernel fuel fd) (fun _ => h) h.
Proof.
  assert (forall d fuel acc,
    owns ({[+ d +]} ⊎ h) (readdir_loop kernel fuel d acc) (fun _ => {[+ d +]} ⊎ h) h) as Hl.
  { intros d. induction fuel0 as [|fuel' IH]; intros acc; cbn [readdir_loop].
    { intros w w' r [= <- <-]. exists []. by rewrite app_nil_r. }
    eapply owns_bind; [by apply owns_neutral|]. intros r. cbv beta. destruct (out r); owns_go. }
  unfold read_dir_fd. eapply (owns_bind _ _ _ (fun d => {[+ d +]} ⊎ h)).
  - apply owns_owned. owns_go.
  - intros d. eapply owns_bind; [apply Hl|]. intros es. owns_go.
Qed.
Hint Resolve owns_read_link owns_read_dir_fd : owns.

Lemma owns_open h d rel o : owns h (open kernel d rel o) (fun fd => {[+ fd +]} ⊎ h) h.
Proof. unfold open. owns_go. Qed.
Lemma owns_create_dir h d rel : owns h (create_dir kernel d rel) (fun _ => h) h.
Proof. unfold create_dir. destruct (split_last_component rel) as [[parent leaf]|]; owns_go. Qed.
Lemma owns_metadata h d rel : owns h (metadata kernel d rel) (fun _ => h) h.
Proof.
  unfold metadata, statat. eapply (owns_bind _ _ _ (fun _ => h)).
  - owns_go.
  - intros [[[t len] nlink] modified]. owns_go.
Qed.
Lemma owns_read_dir h fuel d : owns h (read_dir kernel fuel d) (fun _ => h) h.
Proof. unfold read_dir. owns_go. Qed.
Hint Resolve owns_open owns_create_dir owns_metadata owns_read_dir : owns.

(** [write_atomic] over this backend. *)
Lemma owns_write_atomic h fuel d rel contents pid n :
  owns h (write_atomic (B := linux_fs kernel fuel) d rel contents pid n) (fun _ => h) h.
Proof.
  assert (forall g fuel' tmp f bs,
    owns g (write_loop (B := linux_fs kernel fuel) fuel' tmp f bs) (fun _ => g) g) as Hl.
  { intros g. induction fuel' as [|fuel' IH]; intros tmp f bs; cbn [write_loop]; owns_go. }
  unfold write_atomic. cbv zeta. apply owns_cleanup with (Q := fun _ => h).
  - apply (owns_bind _ _ _ (fun fd => {[+ fd +]} ⊎ h)); [apply owns_open|]. intros fd.
    apply owns_closing. eapply owns_bind; [apply Hl|]. intros u. apply owns_fsync.
  - apply owns_unlinkat.
  - intros w. cbn [remove_file_ linux_fs]. unfold remove_file, unlinkat, path_arg, to_cstring, sys_unit, st_bind, st_lift.
    destruct (existsb _ _); [done|]. unfold syscall. destruct (kernel _ _) as [k r].
    by destruct (rv r <? 0).
  - intros u. eapply owns_bind; [apply owns_renameat2|]. intros u'. apply owns_fsync.
Qed.
End ownership.

(** ** What a successful call asked for *)

Section calls.
Context {K : Type} (kernel : Call -> K -> K * Ret).

Lemma syscall_ret c (w w' : World K) r : syscall kernel c w = (w', ret r) -> log w' = log w ++ [(c, r)].
Proof. unfold syscall. destruct (kernel c (state w)) as [k r1]. intros. by simplify_eq. Qed.

Lemma path_arg_ret path op (w w' : World K) c :
  path_arg path op w = (w', ret c) -> w' = w /\ c = path /\ existsb (Z.eqb 0) path = false.
Proof. unfold path_arg, to_cstring, st_lift. destruct (existsb _ _); intros; by simplify_eq. Qed.

Lemma sys_unit_ret c op path (w w' : World K) u : sys_unit kernel c op path w = (w', ret u) ->
  exists r, 0 <= rv r /\ log w' = log w ++ [(c, r)].
Proof.
  unfold sys_unit. intros (w1 & r & H1 & H2)%st_bind_inv. apply syscall_ret in H1.
  unfold os_err, st_lift in H2. destruct (rv r <? 0) eqn:E; simplify_eq. bool_to_prop. by exists r.
Qed.

Lemma openat_ret dirfd rel flags mode (w w' : World K) fd :
  openat kernel dirfd rel flags mode w = (w', ret fd) ->
  exists r, rv r = fd /\ 0 <= fd /\
  log w' = log w ++ [(c_openat dirfd rel (Z.lor flags O_CLOEXEC) mode, r)].
Proof.
  unfold openat. intros (w1 & c & (-> & -> & _)%path_arg_ret & H)%st_bind_inv.
  apply st_bind_inv in H as (w2 & r & H1%syscall_ret & H2). unfold os_err, st_lift in H2.
  destruct (rv r <? 0) eqn:E; simplify_eq. bool_to_prop. by exists r.
Qed.

(** The bytes the kernel accepted in a sequence of writes to [fd]. *)
Definition accepted (e : Call * Ret) : list Z :=
  match fst e with c_write _ buf => take (Z.to_nat (rv (snd e))) buf | _ => [] end.
Definition write_to (fd : Z) (e : Call * Ret) : Prop :=
  (exists buf, fst e = c_write fd buf) /\ 0 < rv (snd e).

Lemma write_loop_ret fuel tmp fd : forall fuel' bs (w w' : World K) u,
  write_loop (B := linux_fs kernel fuel) fuel' tmp fd bs w = (w', ret u) ->
  exists ws, log w' = log w ++ ws /\ Forall (write_to fd) ws /\ concat (map accepted ws) = bs.
Proof.
  induction fuel' as [|fuel' IH]; intros bs w w' u H; cbn [write_loop] in H; [done|].
  destruct bs as [|b bs].
  { unfold st_lift in H. simplify_eq. exists []. by rewrite app_nil_r. }
  set (buf := b :: bs) in *. apply st_bind_inv in H as (w1 & n & H1 & H2).
  cbn [write_ linux_fs] in H1. unfold write in H1.
  apply st_bind_inv in H1 as (w2 & r & H3%syscall_ret & H4).
  unfold os_err, st_lift in *. destruct (rv r <? 0) eqn:E1; simplify_eq.
  destruct (rv r =? 0) eqn:E2; [done|]. bool_to_prop.
  destruct (IH _ _ _ _ H2) as (ws & Hl & Hw & Hc).
  exists ((c_write fd buf, r) :: ws). rewrite Hl, H3, <- app_assoc. split; [done|]. split.
  { constructor; [|done]. split; [by eexists|cbn; lia]. }
  cbn [map concat accepted fst snd]. by rewrite Hc, take_drop.
Qed.

(** when [write_atomic] succeeds on Linux, the system calls it made are,
    in this order and nothing else: an exclusive creation of the temporary
    name, writes to that descriptor whose accepted bytes are exactly the
    content, an [fsync] of the file, its close, the rename over the target
    and an [fsync] of the directory.  So the name changes only once the new
    content is on disk, and the success is reported only once the change of
    name is. *)
Theorem write_atomic_order fuel d rel contents pid n (w w' : World K)
    (Hok : write_atomic (B := linux_fs kernel fuel) d rel contents pid n w = (w', ret tt)) :
  exists fd ws r1 r2 r3 r4 r5, let tmp := tmp_name rel pid n in
  log w' = log w ++
    [(c_openat d tmp (Z.lor (Z.lor O_WRONLY (Z.lor O_CREAT O_EXCL)) O_CLOEXEC) 438, r1)] ++ ws ++
    [(c_fsync fd, r2); (c_close fd, r3); (c_renameat2 d tmp d rel 0, r4); (c_fsync d, r5)] /\
  rv r1 = fd /\ Forall (write_to fd) ws /\ concat (map accepted ws) = contents /\
  Forall (fun r => 0 <= rv r) [r1; r2; r4; r5].
Proof.
  unfold write_atomic in Hok. cbv zeta in Hok. set (tmp := tmp_name rel pid n) in *.
  destruct (write_and_sync d tmp contents w) as [w1 [[u|e]| |]] eqn:E1; try done.
  2: { by destruct (remove_file_ d tmp w1). }
  apply st_bind_inv in Hok as (w2 & u2 & H2 & H3).
  cbn [rename_ sync_dir_ linux_fs] in *. unfold rename, renameat2_raw in H2.
  apply st_bind_inv in H2 as (w2a & c1 & (-> & -> & _)%path_arg_ret & H2).
  apply st_bind_inv in H2 as (w2b & c2 & (-> & -> & _)%path_arg_ret & H2).
  apply sys_unit_ret in H2 as (r4 & Hr4 & L4). apply sys_unit_ret in H3 as (r5 & Hr5 & L5).
  unfold write_and_sync in E1. apply st_bind_inv in E1 as (w3 & fd & H4 & H5).
  cbn [open_ linux_fs] in H4. unfold open in H4. apply st_bind_inv in H4 as (w4 & fl & H6 & H4).
  cbn in H6. unfold st_lift in H6. simplify_eq. apply openat_ret in H4 as (r1 & Hr1 & Hfd & L1).
  unfold with_open_file in H5.
  destruct ((st! _ := write_loop (S (length contents)) tmp fd contents in sync_all_ fd) w3)
    as [w5 r] eqn:E5. simplify_eq.
  apply st_bind_inv in E5 as (w6 & u6 & H6 & H7). apply write_loop_ret in H6 as (ws & L2 & Hw & Hc).
  apply sys_unit_ret in H7 as (r2 & Hr2 & L3). cbn [drop_file_ linux_fs] in *.
  destruct (drop_fd_log kernel (rv r1) w5) as [r3 Ld].
  exists (rv r1), ws, r1, r2, r3, r4, r5. cbv zeta. split.
  - rewrite L5, L4, Ld, L3, L2, L1. by rewrite <- !app_assoc.
  - split_and!; [done..|]. by repeat constructor.
Qed.
End calls.

(** A kernel whose disk takes two bytes at a time. *)
Definition short_writes (c : Call) (k : unit) : unit * Ret :=
  (k, match c with
      | c_openat _ _ _ _ => mkRet 3 0 ONone
      | c_write _ buf => mkRet (Z.min 2 (zlen buf)) 0 ONone
      | _ => mkRet 0 0 ONone
      end).

Lemma write_atomic_order_witness :
  let w := mkWorld tt [] in
  let w' := fst (write_atomic (B := linux_fs short_writes 0) 5 (lit "f") [1; 2; 3] 42 0 w) in
  exists fd ws r1 r2 r3 r4 r5, let tmp := tmp_name (lit "f") 42 0 in
  log w' = log w ++
    [(c_openat 5 tmp (Z.lor (Z.lor O_WRONLY (Z.lor O_CREAT O_EXCL)) O_CLOEXEC) 438, r1)] ++ ws ++
    [(c_fsync fd, r2); (c_close fd, r3); (c_renameat2 5 tmp 5 (lit "f") 0, r4); (c_fsync 5, r5)] /\
  rv r1 = fd /\ Forall (write_to fd) ws /\ concat (map accepted ws) = [1; 2; 3] /\
  Forall (fun r => 0 <= rv r) [r1; r2; r4; r5].
Proof.
  cbv zeta. apply (write_atomic_order short_writes 0 5 (lit "f") [1; 2; 3] 42 0).
  vm_compute. reflexivity.
Defined.

(** C6: the Linux filesystem operations neither leak a descriptor nor close
    one they do not own, whatever the kernel answers and however they end:
    [open], [open_dir], [try_clone] and [create_memfd] hand over exactly the
    descriptor they return, and [create_dir], [metadata], [read_dir] and
    [write_atomic] leave none behind, on success and on every error path. *)
Theorem linux_fs_descriptors {K} (kernel : Call -> K -> K * Ret) h fuel d rel :
  (forall o, owns h (open kernel d rel o) (fun fd => {[+ fd +]} ⊎ h) h) /\
  owns h (open_dir kernel d rel) (fun fd => {[+ fd +]} ⊎ h) h /\
  owns h (try_clone kernel d) (fun fd => {[+ fd +]} ⊎ h) h /\
  owns h (create_memfd kernel rel) (fun fd => {[+ fd +]} ⊎ h) h /\
  owns h (create_dir kernel d rel) (fun _ => h) h /\
  owns h (metadata kernel d rel) (fun _ => h) h /\
  owns h (read_dir kernel fuel d) (fun _ => h) h /\
  forall contents pid n,
    owns h (write_atomic (B := linux_fs kernel fuel) d rel contents pid n) (fun _ => h) h.
Proof.
  split_and!; intros.
  - apply owns_open.
  - apply owns_openat_r2.
  - apply owns_dup.
  - apply owns_memfd.
  - apply owns_create_dir.
  - apply owns_metadata.
  - apply owns_read_dir.
  - apply owns_write_atomic.
Qed.

(** ** [read_link] *)

Section read_link.
Context {K : Type} (kernel : Call -> K -> K * Ret).

(** [readlinkat(2)]: as much of the target as fits, and its length. *)
Definition reads_link (target : list Z) : Prop := forall d rel cap k, exists k' e,
  kernel (c_readlinkat d rel cap) k =
    (k', mkRet (Z.min cap (zlen target)) e (OBytes (take (Z.to_nat cap) target))).

(** The capacity that round [i] tries. *)
Definition cap_at (i : nat) : Z := 256 * 4 ^ Z.of_nat i.

Lemma cap_at_S i : cap_at i * 4 = cap_at (S i).
Proof. unfold cap_at. rewrite Nat2Z.inj_succ, Z.pow_succ_r by lia. lia. Qed.

Lemma read_link_loop_spec target d rel (Ht : reads_link target) : forall fuel i (w : World K),
  (6 - i < fuel)%nat -> (i <= 6)%nat -> exists w',
  read_link_loop kernel fuel d rel rel (cap_at i) w =
  (w', if zlen target <? cap_at 6 then ret target
       else fail (with_path (error_new InvalidInput NoCode "readlinkat") rel)) /\
  (length (log w') <= length (log w) + (7 - i))%nat.
Proof.
  induction fuel as [|fuel IH]; intros i w Hf Hi; [lia|]. cbn [read_link_loop].
  destruct (Ht d rel (cap_at i) (state w)) as (k' & e & E).
  set (w1 := mkWorld k' (log w ++ [(c_readlinkat d rel (cap_at i), mkRet (Z.min (cap_at i) (zlen target)) e
    (OBytes (take (Z.to_nat (cap_at i)) target)))])).
  assert (syscall kernel (c_readlinkat d rel (cap_at i)) w = (w1, ret (snd (k', mkRet (Z.min (cap_at i) (zlen target)) e
    (OBytes (take (Z.to_nat (cap_at i)) target)))))) as Hs.
  { unfold syscall. by rewrite E. }
  rewrite (st_bind_ret _ _ _ _ _ Hs). cbn [snd rv out_bytes out].
  assert (0 < cap_at i) by (unfold cap_at; lia).
  assert (cap_at i <= cap_at 6) by (unfold cap_at; apply Z.mul_le_mono_nonneg_l; [lia|apply Z.pow_le_mono_r; lia]).
  rewrite (proj2 (Z.ltb_ge _ 0)) by lia.
  assert (length (log w1) = length (log w) + 1)%nat as Hl by (cbn; rewrite length_app; done).
  destruct (Z.min (cap_at i) (zlen target) <? cap_at i) eqn:E1; bool_to_prop.
  - exists w1. split; [|lia]. rewrite (proj2 (Z.ltb_lt _ _)) by lia. unfold st_lift.
    rewrite Z.min_r by lia. rewrite (take_ge target) by lia. by rewrite Nat2Z.id, firstn_all.
  - rewrite cap_at_S. destruct (cap_at (S i) >? Z.shiftl 1 20) eqn:E2; bool_to_prop.
    + assert (i = 6)%nat as ->.
      { destruct (decide (i = 6%nat)) as [|Hn]; [done|]. exfalso.
        assert (cap_at (S i) <= cap_at 6) as Hc by (unfold cap_at; apply Z.mul_le_mono_nonneg_l; [lia|apply Z.pow_le_mono_r; lia]).
        change (cap_at 6) with 1048576 in Hc. change (Z.shiftl 1 20) with 1048576 in E2. lia. }
      exists w1. split; [|lia]. by rewrite (proj2 (Z.ltb_ge _ _)) by lia.
    + assert (i <> 6)%nat as Hn.
      { intros ->. change (cap_at 7) with 4194304 in E2. change (Z.shiftl 1 20) with 1048576 in E2. lia. }
      destruct (IH (S i) w1) as (w' & E3 & Hl'); [lia|lia|]. exists w'. split; [exact E3|lia].
Qed.

(** [read_link] returns a symlink's whole target, never a truncated one,
    after at most seven calls, for every target shorter than one megabyte,
    and refuses longer ones with [InvalidInput]. *)
Theorem read_link_complete target d rel (w : World K)
    (Ht : reads_link target) (Hrel : existsb (Z.eqb 0) rel = false) :
  exists w', read_link kernel d rel w =
    (w', if zlen target <? 2 ^ 20 then ret target
         else fail (with_path (error_new InvalidInput NoCode "readlinkat") rel)) /\
  (length (log w') <= length (log w) + 7)%nat.
Proof.
  unfold read_link, path_arg, to_cstring. rewrite Hrel. unfold st_bind, st_lift.
  destruct (read_link_loop_spec target d rel Ht 7 0 w) as (w' & E & Hl); [lia|lia|].
  exists w'. split; [exact E|lia].
Qed.
End read_link.

Definition one_link (c : Call) (k : unit) : unit * Ret :=
  (k, match c with
      | c_readlinkat _ _ cap => mkRet (Z.min cap (zlen (lit "../target"))) 0
          (OBytes (take (Z.to_nat cap) (lit "../target")))
      | _ => mkRet 0 0 ONone
      end).

Lemma read_link_complete_witness :
  exists w', read_link one_link 3 (lit "l") (mkWorld tt []) =
    (w', if zlen (lit "../target") <? 2 ^ 20 then ret (lit "../target")
         else fail (with_path (error_new InvalidInput NoCode "readlinkat") (lit "l"))) /\
  (length (log w') <= 0 + 7)%nat.
Proof.
  apply (read_link_complete one_link (lit "../target") 3 (lit "l") (mkWorld tt [])).
  - intros d rel cap []. exists tt, 0. reflexivity.
  - reflexivity.
Defined.

(** ** Mode bits *)

Definition type_bits (t : FileType) : Z :=
  match t with FtFile => S_IFREG | FtDir => S_IFDIR | FtSymlink => S_IFLNK | FtOther => 49152 end.

(** Bit [i] of a small constant. *)
Lemma land_lor_disjoint a b c : Z.land a c = 0 -> Z.land (Z.lor a b) c = Z.land b c.
Proof. intros H. by rewrite Z.land_lor_distr_l, H, Z.lor_0_l. Qed.

(** what [set_unix_mode] asks for is what [unix_mode] and [metadata] read
    back: for every mode (the permissions cut to nine bits) and every file
    type, the bits round-trip through the mode word and none of them disturbs
    the file type. *)
Theorem mode_roundtrip t m st
    (Hst : st_mode st = Z.lor (type_bits t) (raw_mode m)) :
  unix_mode_of st = mkUnixMode (m_setuid m) (m_setgid m) (m_sticky m) (st_uid st) (st_gid st)
                      (Z.land (m_permissions m) 511) /\
  type_of_mode (st_mode st) = t.
Proof.
  assert (forall c, Z.land 511 c = 0 -> Z.land (Z.land (m_permissions m) 511) c = 0) as Hp.
  { intros c Hc. by rewrite <- Z.land_assoc, Hc, Z.land_0_r. }
  assert (Z.land (Z.land (m_permissions m) 511) 511 = Z.land (m_permissions m) 511) as Hpp.
  { by rewrite <- Z.land_assoc. }
  unfold unix_mode_of, type_of_mode. rewrite Hst. unfold raw_mode.
  rewrite !Z.land_lor_distr_l, Hpp.
  rewrite (Hp S_ISUID), (Hp S_ISGID), (Hp S_ISVTX), (Hp S_IFMT) by reflexivity.
  destruct t, (m_setuid m), (m_setgid m), (m_sticky m); split; reflexivity.
Qed.

Lemma mode_roundtrip_witness :
  let st := mkStat 1 2 (Z.lor (type_bits FtDir) (raw_mode (mkMode true false true 493))) 1 0 0 0 0 0 in
  unix_mode_of st = mkUnixMode true false true 0 0 (Z.land 493 511) /\
  type_of_mode (st_mode st) = FtDir.
Proof. apply (mode_roundtrip FtDir (mkMode true false true 493)). reflexivity. Defined.

(** ** Paths *)

Lemma rposition_Some p l i : rposition p l = Some i <->
  exists x, l !! i = Some x /\ p x = true /\ Forall (fun y => p y = false) (drop (S i) l).
Proof.
  revert i. induction l as [|b l IH]; intros i; cbn [rposition].
  { split; [done|]. by intros (x & H & _). }
  destruct (rposition p l) as [j|] eqn:E.
  - destruct (proj1 (IH j) eq_refl) as (x & H1 & H2 & H3). split.
    + intros [= <-]. by exists x.
    + intros (x' & G1 & G2 & G3). f_equal. destruct i as [|i].
      * cbn [drop] in G3. rewrite Forall_lookup in G3. by rewrite (G3 _ _ H1) in H2.
      * cbn in G1, G3. f_equal. assert (Some j = Some i) as Hji; [|congruence].
        apply (IH i). by exists x'.
  - assert (Forall (fun y => p y = false) l) as Hn.
    { clear -E. induction l as [|c l IHl]; [done|]. cbn in E.
      destruct (rposition p l); [done|]. destruct (p c) eqn:Ec; [done|]. constructor; auto. }
    destruct (p b) eqn:Eb.
    + split; [intros [= <-]; by exists b|]. intros (x & G1 & G2 & _). destruct i as [|i]; [done|].
      exfalso. cbn in G1. rewrite Forall_lookup in Hn. by rewrite (Hn _ _ G1) in G2.
    + split; [done|]. intros (x & G1 & G2 & _). exfalso. destruct i as [|i]; cbn in G1; [congruence|].
      rewrite Forall_lookup in Hn. by rewrite (Hn _ _ G1) in G2.
Qed.

Lemma rposition_None p l : rposition p l = None <-> Forall (fun y => p y = false) l.
Proof.
  split.
  - induction l as [|c l IHl]; [done|]. cbn. destruct (rposition p l); [done|].
    destruct (p c) eqn:Ec; [done|]. constructor; auto.
  - induction 1 as [|c l Hc _ IH]; [done|]. cbn. by rewrite IH, Hc.
Qed.

Lemma rposition_app_last p l x r : p x = true -> Forall (fun y => p y = false) r ->
  rposition p (l ++ x :: r) = Some (length l).
Proof.
  intros Hx Hr. apply rposition_Some. exists x. split; [by apply list_lookup_middle|]. split; [done|].
  rewrite drop_app_ge, Nat.sub_succ_l, Nat.sub_diag by lia. cbn. done.
Qed.

(** Trailing slashes do not count, and the leaf is the last component. *)
Lemma split_last_component_spec parent leaf slashes :
  leaf <> [] -> Forall (fun b => b <> 47) leaf -> Forall (fun b => b = 47) slashes ->
  split_last_component (parent ++ 47 :: leaf ++ slashes) = Some (parent, leaf) /\
  split_last_component (leaf ++ slashes) = None.
Proof.
  intros Hne Hl Hs. destruct (exists_last Hne) as (init & c & ->).
  assert (forall pre, rposition (fun b => negb (is_slash b)) (pre ++ (init ++ [c]) ++ slashes)
    = Some (length (pre ++ init))) as Hr.
  { intros pre. rewrite <- !app_assoc, (app_assoc pre). apply rposition_app_last.
    - apply Forall_app in Hl as [_ Hc]. apply Forall_inv in Hc. unfold is_slash.
      by rewrite (proj2 (Z.eqb_neq c 47)).
    - eapply List.Forall_impl; [|exact Hs]. intros ? ->. done. }
  assert (forall pre, take (S (length (pre ++ init))) (pre ++ (init ++ [c]) ++ slashes)
    = pre ++ init ++ [c]) as Ht.
  { intros pre. rewrite (app_assoc pre), (app_assoc pre init [c]). apply take_app_length'.
    rewrite !length_app. cbn. lia. }
  assert (Forall (fun y => is_slash y = false) (init ++ [c])) as Hl'.
  { eapply List.Forall_impl; [|exact Hl]. intros b Hb. unfold is_slash. by apply Z.eqb_neq. }
  split; unfold split_last_component.
  - change (parent ++ 47 :: (init ++ [c]) ++ slashes) with (parent ++ [47] ++ (init ++ [c]) ++ slashes).
    rewrite (app_assoc parent), Hr, Ht, <- (app_assoc parent). cbn [app].
    rewrite (rposition_app_last is_slash parent 47 (init ++ [c])) by done.
    rewrite take_app_length. f_equal. f_equal.
    rewrite drop_app_ge, Nat.sub_succ_l, Nat.sub_diag by lia. done.
  - change ((init ++ [c]) ++ slashes) with ([] ++ (init ++ [c]) ++ slashes).
    rewrite Hr, Ht. cbn [app]. by rewrite (proj2 (rposition_None _ _) Hl').
Qed.

(** ** Resolution *)

Section resolution.
Context {K : Type} (kernel : Call -> K -> K * Ret).

(** The calls that resolve a directory: [openat2] refusing symlinks and mount
    crossings, and a plain [openat] only when the kernel has no [openat2]. *)
Definition resolves (d : Z) (path : OsString) (fd : Z) (l : list (Call * Ret)) : Prop :=
  let flags := Z.lor (Z.lor O_RDONLY O_DIRECTORY) O_CLOEXEC in
  exists r1, (l = [(c_openat2 d path flags 0 R2_RESOLVE, r1)] /\ rv r1 = fd /\ 0 <= fd) \/
  exists r2, l = [(c_openat2 d path flags 0 R2_RESOLVE, r1); (c_openat d path flags 0, r2)] /\
    rv r1 < 0 /\ err r1 = ENOSYS /\ rv r2 = fd /\ 0 <= fd.

Lemma kind_of_supported e : kind_of e <> Unsupported.
Proof.
  unfold kind_of.
  repeat match goal with |- context [if ?b then _ else _] => destruct b end; discriminate.
Qed.

Lemma errno_syscall c (w w' : World K) r : syscall kernel c w = (w', ret r) -> errno w' = err r.
Proof.
  intros H%syscall_ret. unfold errno. by rewrite H, reverse_app.
Qed.

Lemma openat_r2_resolves d path (w w' : World K) fd :
  openat_r2 kernel d path (Z.lor O_RDONLY O_DIRECTORY) 0 w = (w', ret fd) ->
  exists l, log w' = log w ++ l /\ resolves d path fd l.
Proof.
  unfold openat_r2. destruct (openat2_raw kernel d path (Z.lor O_RDONLY O_DIRECTORY) 0 R2_RESOLVE w)
    as [w1 [[a|e]| |]] eqn:E; intros H; try discriminate H.
  - simplify_eq. unfold openat2_raw in E. apply st_bind_inv in E as (w2 & c & (-> & -> & _)%path_arg_ret & E).
    apply st_bind_inv in E as (w3 & r & H1%syscall_ret & E).
    destruct (rv r <? 0) eqn:E1; bool_to_prop.
    { by destruct (errno w3 =? ENOSYS). }
    unfold st_lift in E. simplify_eq. eexists. split; [exact H1|]. exists r. left. done.
  - destruct (bool_decide (kind e = Unsupported)) eqn:Ek; [|done]. apply bool_decide_eq_true in Ek.
    apply openat_ret in H as (r2 & Hr2 & Hfd & L2).
    unfold openat2_raw, path_arg, to_cstring in E.
    destruct (existsb (Z.eqb 0) path) eqn:Ep; unfold st_bind at 1, st_lift in E.
    { by simplify_eq. }
    destruct (syscall_total kernel (c_openat2 d path (wrap 64 (Z.lor (Z.lor O_RDONLY O_DIRECTORY)
      O_CLOEXEC)) 0 R2_RESOLVE) w) as (w2 & r & E0).
    rewrite (st_bind_ret _ _ _ _ _ E0) in E.
    destruct (rv r <? 0) eqn:E1; [|done]. bool_to_prop. cbv zeta in E.
    rewrite (errno_syscall _ _ _ _ E0) in E. apply syscall_ret in E0.
    destruct (err r =? ENOSYS) eqn:E2; bool_to_prop; simplify_eq;
      [|by destruct (kind_of_supported (err r))].
    eexists. rewrite L2, E0, <- app_assoc. split; [reflexivity|]. exists r. right. by exists r2.
Qed.

(** [create_dir] of a path with several components resolves everything
    but the last component once, refusing symlinks and mount crossings
    (unless the kernel has no [openat2]), makes the last component, a single
    name, in the directory it resolved, and closes that directory; trailing
    slashes are ignored. *)
Theorem create_dir_confined d parent leaf slashes (w w' : World K)
    (Hleaf : leaf <> [] /\ Forall (fun b => b <> 47) leaf)
    (Hs : Forall (fun b => b = 47) slashes)
    (Hok : create_dir kernel d (parent ++ 47 :: leaf ++ slashes) w = (w', ret tt)) :
  exists fd l r2 r3,
  log w' = log w ++ l ++ [(c_mkdirat fd leaf 511, r2); (c_close fd, r3)] /\
  resolves d parent fd l /\ 0 <= rv r2.
Proof.
  destruct Hleaf as [Hne Hl]. unfold create_dir in Hok.
  destruct (split_last_component_spec parent leaf slashes Hne Hl Hs) as [E _]. rewrite E in Hok.
  apply st_bind_inv in Hok as (w1 & fd & H1 & H2).
  apply openat_r2_resolves in H1 as (l & Hl1 & Hres).
  unfold scoped in H2. destruct (mkdirat kernel fd leaf w1) as [w2 r] eqn:E2.
  destruct r as [[[]|e]| |]; try discriminate H2. simplify_eq.
  unfold mkdirat in E2. apply st_bind_inv in E2 as (w3 & c & (-> & -> & _)%path_arg_ret & H3).
  apply sys_unit_ret in H3 as (r2 & Hr2 & L2).
  destruct (drop_fd_log kernel fd w2) as [r3 L3].
  exists fd, l, r2, r3. rewrite L3, L2, Hl1, <- !app_assoc. done.
Qed.
End resolution.

Definition old_kernel (c : Call) (k : unit) : unit * Ret :=
  (k, match c with
      | c_openat2 _ _ _ _ _ => mkRet (-1) ENOSYS ONone
      | c_openat _ _ _ _ => mkRet 3 0 ONone
      | _ => mkRet 0 0 ONone
      end).

Lemma create_dir_confined_witness :
  let w' := fst (create_dir old_kernel 5 (lit "a/b" ++ 47 :: lit "new" ++ lit "//") (mkWorld tt [])) in
  exists fd l r2 r3,
  log w' = [] ++ l ++ [(c_mkdirat fd (lit "new") 511, r2); (c_close fd, r3)] /\
  resolves 5 (lit "a/b") fd l /\ 0 <= rv r2.
Proof.
  cbv zeta. apply (create_dir_confined old_kernel 5 (lit "a/b") (lit "new") (lit "//") (mkWorld tt [])).
  - split; [discriminate|]. repeat constructor; discriminate.
  - repeat constructor.
  - vm_compute. reflexivity.
Defined.

(** The parent of a name in the root directory is the empty path, which
    Linux does not resolve ([ENOENT]). *)
Example create_dir_in_root : split_last_component (lit "/new") = Some ([], lit "new").
Proof. reflexivity. Qed.
