(* ===== verification/LinuxNet.v ===== *)
(** * Sockets of the Linux backend
      ([platform-linux/src/sys/net.rs], [platform-linux/src/net.rs])

    Socket addresses as the kernel's byte layouts, and every socket operation
    as its sequence of system calls, with the descriptors it owns on the way.
    The trait objects of [net.rs] are their descriptor, and their methods the
    functions below. *)

From Stdlib Require Import ZArith Lia String.
From S2P Require Import Prelude Error Sys LinuxFd.
From stdpp Require Import base numbers list strings gmap gmultiset.
Open Scope Z_scope.

Definition AF_UNIX := 1.
Definition AF_INET := 2.
Definition AF_INET6 := 10.
Definition SOCK_STREAM := 1.
Definition SOCK_DGRAM := 2.
Definition SOCK_CLOEXEC := 524288.
Definition SOL_SOCKET := 1.
Definition SO_REUSEADDR := 2.
Definition SO_RCVTIMEO := 20.
Definition IPPROTO_TCP := 6.
Definition TCP_NODELAY := 1.
Definition SOMAXCONN := 4096.

Definition kind_of (errno : Z) : ErrorKind :=
  if errno =? ECONNREFUSED then ConnectionRefused
  else if errno =? ECONNRESET then ConnectionReset
  else if errno =? ECONNABORTED then ConnectionAborted
  else if errno =? ENOTCONN then NotConnected
  else if errno =? EADDRINUSE then AddrInUse
  else if errno =? EADDRNOTAVAIL then AddrNotAvailable
  else if errno =? ETIMEDOUT then TimedOut
  else if (errno =? EACCES) || (errno =? EPERM) then PermissionDenied
  else if errno =? EINVAL then InvalidInput
  else if errno =? EAGAIN then WouldBlock
  else if errno =? EINTR then Interrupted
  else if errno =? ENOENT then NotFound
  else Other.

(** ** Addresses *)

Inductive SocketAddr :=
  | V4 (ip : list Z) (port : Z)
  | V6 (ip : list Z) (port flowinfo scope_id : Z).
#[export] Instance SocketAddr_eq_dec : EqDecision SocketAddr.
Proof. solve_decision. Defined.

(** [u16::to_be]/[from_be] on a little-endian host. *)
Definition swap16 (x : Z) : Z := le_val (rev (le_bytes 2 x)).


(** [size_of::<sockaddr_storage>()] and the others. *)
Definition STORAGE : nat := 128.
Definition sockaddr_in (v4_ip : list Z) (port : Z) : list Z :=
  le_bytes 2 AF_INET ++ le_bytes 2 (swap16 port) ++ v4_ip ++ zeros 8.
Definition sockaddr_in6 (ip : list Z) (port flowinfo scope : Z) : list Z :=
  le_bytes 2 AF_INET6 ++ le_bytes 2 (swap16 port) ++ le_bytes 4 flowinfo ++ ip ++ le_bytes 4 scope.

Definition to_sockaddr (addr : SocketAddr) : list Z * Z :=
  match addr with
  | V4 ip port => (written STORAGE (sockaddr_in ip port), 16)
  | V6 ip port flowinfo scope => (written STORAGE (sockaddr_in6 ip port flowinfo scope), 28)
  end.

Definition from_sockaddr (storage : list Z) : Result SocketAddr :=
  let family := le_val (field storage 0 2) in
  if family =? AF_INET then
    Ok (V4 (field storage 4 4) (swap16 (le_val (field storage 2 2))))
  else if family =? AF_INET6 then
    Ok (V6 (field storage 8 16) (swap16 (le_val (field storage 2 2)))
           (le_val (field storage 4 4)) (le_val (field storage 24 4)))
  else Err (error_new Other NoCode "unrecognized address family").

(** [sockaddr_un]: the family and a path of at most 108 bytes. *)
Definition SUN_PATH : Z := 108.
Definition sun_path_offset : Z := 2.

Definition nul_err : PlatformError :=
  error_new InvalidInput NoCode "AF_UNIX path must not contain a NUL byte".

Definition to_sockaddr_un (path : OsString) : Result (list Z * Z) :=
  if existsb (Z.eqb 0) path then Err nul_err
  else if SUN_PATH <=? zlen path then
    Err (error_new InvalidInput NoCode "AF_UNIX path too long (must fit in sockaddr_un::sun_path)")
  else Ok (le_bytes 2 AF_UNIX ++ written 108 path, sun_path_offset + zlen path + 1).

(** [Vec::pop] when the last byte is NUL. *)
Definition trim_nul (bytes : list Z) : list Z :=
  match reverse bytes with
  | 0 :: r => reverse r
  | _ => bytes
  end.

Definition from_sockaddr_un (addr : list Z) (len : Z) : Result (option OsString) :=
  if len <=? sun_path_offset then Ok None
  else if negb (le_val (field addr 0 2) =? AF_UNIX) then
    Err (error_new Other NoCode "unrecognized address family")
  else
    let path_len := Z.min (len - sun_path_offset) SUN_PATH in
    let bytes := trim_nul (field addr 2 (Z.to_nat path_len)) in
    Ok (match bytes with [] => None | _ => Some bytes end).

(** [struct timeval] of a duration in nanoseconds: whole seconds and the
    microseconds below, the rest cut off; [as time_t] keeps 64 bits. *)
Definition timeval (timeout : option Z) : list Z :=
  match timeout with
  | Some d => le_bytes 8 (d / 1000000000) ++ le_bytes 8 (d mod 1000000000 / 1000)
  | None => le_bytes 8 0 ++ le_bytes 8 0
  end.

(** ** Operations *)

Section net.
Context {K : Type} (kernel : Call -> K -> K * Ret).
Abbreviation M A := (World K -> World K * Run A).
Abbreviation sys := (syscall kernel).

Definition net_err {A} (op : string) : M A := fun w =>
  (w, fail (error_new (kind_of (errno w)) (Errno (errno w)) op)).

(** A call whose result is only tested for failure. *)
Definition net_unit (c : Call) (op : string) : M unit :=
  st! r := sys c in
  if rv r <? 0 then net_err op else st_lift (ret tt).

Definition family_of (addr : SocketAddr) : Z :=
  match addr with V4 _ _ => AF_INET | V6 _ _ _ _ => AF_INET6 end.

Definition new_socket (family type : Z) : M Z :=
  st! r := sys (c_socket family (Z.lor type SOCK_CLOEXEC) 0) in
  if rv r <? 0 then net_err "socket" else st_lift (ret (rv r)).

Definition new_tcp_socket (addr : SocketAddr) : M Z := new_socket (family_of addr) SOCK_STREAM.
Definition new_unix_socket : M Z := new_socket AF_UNIX SOCK_STREAM.
Definition new_udp_socket (addr : SocketAddr) : M Z := new_socket (family_of addr) SOCK_DGRAM.

Definition tcp_connect (addr : SocketAddr) : M Z :=
  st! fd := new_tcp_socket addr in
  owned kernel fd
    (let (storage, len) := to_sockaddr addr in
     st! _ := net_unit (c_connect fd storage len) "connect" in
     st_lift (ret fd)).

Definition tcp_listen (addr : SocketAddr) : M Z :=
  st! fd := new_tcp_socket addr in
  owned kernel fd
    (st! _ := net_unit (c_setsockopt fd SOL_SOCKET SO_REUSEADDR (le_bytes 4 1)) "setsockopt(SO_REUSEADDR)" in
     let (storage, len) := to_sockaddr addr in
     st! _ := net_unit (c_bind fd storage len) "bind" in
     st! _ := net_unit (c_listen fd SOMAXCONN) "listen" in
     st_lift (ret fd)).

Definition tcp_accept (listen_fd : Z) : M (Z * SocketAddr) :=
  st! r := sys (c_accept4 listen_fd (Z.of_nat STORAGE) SOCK_CLOEXEC) in
  if rv r <? 0 then net_err "accept4"
  else owned kernel (rv r)
    (st! peer := st_lift (Done (from_sockaddr (written STORAGE (out_storage r)))) in
     st_lift (ret (rv r, peer))).

Definition set_nodelay (fd : Z) (nodelay : bool) : M unit :=
  net_unit (c_setsockopt fd IPPROTO_TCP TCP_NODELAY (le_bytes 4 (if nodelay then 1 else 0)))
    "setsockopt(TCP_NODELAY)".

Definition set_read_timeout (fd : Z) (timeout : option Z) : M unit :=
  net_unit (c_setsockopt fd SOL_SOCKET SO_RCVTIMEO (timeval timeout)) "setsockopt(SO_RCVTIMEO)".

Definition set_nonblocking (fd : Z) (nonblocking : bool) : M unit :=
  st! r := sys (c_fcntl_getfl fd) in
  if rv r <? 0 then net_err "fcntl(F_GETFL)"
  else
    let new_flags := if nonblocking then Z.lor (rv r) O_NONBLOCK
                     else Z.land (rv r) (Z.lnot O_NONBLOCK) in
    net_unit (c_fcntl_setfl fd new_flags) "fcntl(F_SETFL)".

(** A call that fills an address: its storage and length. *)
Definition sock_addr (c : Call) (op : string) : M (list Z * Z) :=
  st! r := sys c in
  if rv r <? 0 then net_err op else st_lift (ret (out_storage r, out_len r)).

Definition peer_addr (fd : Z) : M SocketAddr :=
  st! (storage, _) := sock_addr (c_getpeername fd (Z.of_nat STORAGE)) "getpeername" in
  st_lift (Done (from_sockaddr (written STORAGE storage))).
Definition local_addr (fd : Z) : M SocketAddr :=
  st! (storage, _) := sock_addr (c_getsockname fd (Z.of_nat STORAGE)) "getsockname" in
  st_lift (Done (from_sockaddr (written STORAGE storage))).

(** *** Unix domain sockets *)

Definition unix_connect (path : OsString) : M Z :=
  st! fd := new_unix_socket in
  owned kernel fd
    (st! (addr, len) := st_lift (Done (to_sockaddr_un path)) in
     st! _ := net_unit (c_connect fd addr len) "connect" in
     st_lift (ret fd)).

Definition path_to_cstring (path : OsString) : M OsString := st_lift (to_cstring path nul_err).

(** [let Ok(..) else { return false }]; the probe is dropped at the end,
    after [errno] was read. *)
Definition is_stale_socket (path : OsString) : M bool := fun w =>
  match new_unix_socket w with
  | (w, ret probe) =>
    scoped kernel probe
      (match to_sockaddr_un path with
       | Err _ => st_lift (ret false)
       | Ok (addr, len) =>
         st! r := sys (c_connect probe addr len) in
         if rv r =? 0 then st_lift (ret false)
         else fun w => (w, ret (errno w =? ECONNREFUSED))
       end) w
  | (w, _) => (w, ret false)
  end.

(** [bind], once more when the path turns out to be a dead listener's: the
    result of the last [bind]. *)
Definition bind_reclaiming (fd : Z) (path : OsString) (addr : list Z) (len : Z) : M Z :=
  st! r := sys (c_bind fd addr len) in
  if rv r <? 0 then fun w =>
    if errno w =? EADDRINUSE then
      (st! stale := is_stale_socket path in
       if (stale : bool) then
         st! c_path := path_to_cstring path in
         st! _ := sys (c_unlinkat AT_FDCWD c_path 0) in
         st! r := sys (c_bind fd addr len) in
         st_lift (ret (rv r))
       else st_lift (ret (rv r))) w
    else (w, ret (rv r))
  else st_lift (ret (rv r)).

Definition unix_listen (path : OsString) : M Z :=
  st! fd := new_unix_socket in
  owned kernel fd
    (st! (addr, len) := st_lift (Done (to_sockaddr_un path)) in
     st! r := bind_reclaiming fd path addr len in
     if r <? 0 then net_err "bind"
     else
       st! c_path := path_to_cstring path in
       st! _ := net_unit (c_chmod c_path 384) "chmod" in
       st! _ := net_unit (c_listen fd SOMAXCONN) "listen" in
       st_lift (ret fd)).

Definition unix_accept (listen_fd : Z) : M (Z * option OsString) :=
  st! r := sys (c_accept4 listen_fd 110 SOCK_CLOEXEC) in
  if rv r <? 0 then net_err "accept4"
  else owned kernel (rv r)
    (st! peer := st_lift (Done (from_sockaddr_un (written 110 (out_storage r)) (out_len r))) in
     st_lift (ret (rv r, peer))).

Definition unix_peer_addr (fd : Z) : M (option OsString) :=
  st! (addr, len) := sock_addr (c_getpeername fd 110) "getpeername" in
  st_lift (Done (from_sockaddr_un (written 110 addr) len)).
Definition unix_local_addr (fd : Z) : M (option OsString) :=
  st! (addr, len) := sock_addr (c_getsockname fd 110) "getsockname" in
  st_lift (Done (from_sockaddr_un (written 110 addr) len)).

(** *** UDP *)

Definition udp_bind (addr : SocketAddr) : M Z :=
  st! fd := new_udp_socket addr in
  owned kernel fd
    (let (storage, len) := to_sockaddr addr in
     st! _ := net_unit (c_bind fd storage len) "bind" in
     st_lift (ret fd)).

Definition udp_send_to (fd : Z) (buf : list Z) (addr : SocketAddr) : M Z :=
  let (storage, len) := to_sockaddr addr in
  st! r := sys (c_sendto fd buf storage len) in
  if rv r <? 0 then net_err "sendto" else st_lift (ret (rv r)).

Definition udp_recv_from (fd n : Z) : M (list Z * SocketAddr) :=
  st! r := sys (c_recvfrom fd n (Z.of_nat STORAGE)) in
  if rv r <? 0 then net_err "recvfrom"
  else
    st! peer := st_lift (Done (from_sockaddr (written STORAGE (out_storage r)))) in
    st_lift (ret (take (Z.to_nat (rv r)) (out_bytes r), peer)).
End net.

(** ** Addresses survive the packing *)

Lemma swap16_swap x : in_u 16 x -> swap16 (swap16 x) = x.
Proof.
  intros Hx. unfold swap16. unfold in_u in Hx. cbn [le_bytes rev app le_val].
  change (2 ^ 16) with 65536 in Hx.
  set (a := x mod 256). set (b := x / 256 mod 256).
  assert (0 <= a < 256) by (apply Z.mod_pos_bound; lia).
  assert (0 <= b < 256) by (apply Z.mod_pos_bound; lia).
  assert (x / 256 < 256) by (apply Z.div_lt_upper_bound; lia).
  assert (0 <= x / 256) by (apply Z.div_pos; lia).
  assert (b = x / 256) as Hb by (unfold b; apply Z.mod_small; lia).
  assert (x = 256 * (x / 256) + a) as Hx' by (unfold a; apply Z.div_mod; lia).
  replace (b + 256 * (a + 256 * 0)) with (b + a * 256) by lia.
  rewrite Z_mod_plus_full, Z_div_plus_full, (Z.mod_small b), (Z.div_small b) by lia.
  rewrite Z.add_0_l, (Z.mod_small a) by lia. lia.
Qed.

Lemma swap16_in x : in_u 16 (swap16 x).
Proof.
  unfold swap16, in_u. cbn [le_bytes rev app le_val]. change (2 ^ 16) with 65536.
  pose proof (Z.mod_pos_bound x 256 ltac:(lia)). pose proof (Z.mod_pos_bound (x / 256) 256 ltac:(lia)). lia.
Qed.

Lemma le_val_le_bytes n w x : w = 8 * Z.of_nat n -> in_u w x -> le_val (le_bytes n x) = x.
Proof. intros ->. apply le_val_bytes. Qed.

Definition addr_ok (a : SocketAddr) : Prop :=
  match a with
  | V4 ip port => length ip = 4%nat /\ in_u 16 port
  | V6 ip port flowinfo scope =>
    length ip = 16%nat /\ in_u 16 port /\ in_u 32 flowinfo /\ in_u 32 scope
  end.

(** a socket address survives the kernel's layout: what [to_sockaddr]
    packs, [from_sockaddr] unpacks to the same address, port in network
    order, IPv4 and IPv6 alike, in a buffer of the storage's size; and an
    [AF_UNIX] path survives [to_sockaddr_un] and [from_sockaddr_un] at the
    length the former reports, while a path with a NUL byte or one that
    leaves no room for the final NUL is refused. *)
Theorem sockaddr_roundtrip a path
    (Ha : addr_ok a) :
  (from_sockaddr (fst (to_sockaddr a)) = Ok a /\ length (fst (to_sockaddr a)) = STORAGE) /\
  if existsb (Z.eqb 0) path || (SUN_PATH <=? zlen path)
  then exists e, to_sockaddr_un path = Err e /\ kind e = InvalidInput
  else exists addr len, to_sockaddr_un path = Ok (addr, len) /\ length addr = 110%nat /\
       sun_path_offset < len <= 110 /\
       from_sockaddr_un addr len = Ok (match path with [] => None | _ => Some path end).
Proof.
  split.
  - destruct a as [ip port|ip port flowinfo scope]; cbn [addr_ok] in Ha.
    + destruct Ha as [Hip Hp]. repeat (destruct ip as [|? ip]; try discriminate Hip). split; [|done].
      rewrite <- (swap16_swap port) at 2 by done.
      rewrite <- (le_val_le_bytes 2 16 (swap16 port)) by first [done|apply swap16_in]. reflexivity.
    + destruct Ha as (Hip & Hp & Hf & Hs). repeat (destruct ip as [|? ip]; try discriminate Hip).
      split; [|done]. rewrite <- (swap16_swap port) at 2 by done.
      rewrite <- (le_val_le_bytes 2 16 (swap16 port)) by first [done|apply swap16_in].
      rewrite <- (le_val_le_bytes 4 32 flowinfo) at 2 by done.
      rewrite <- (le_val_le_bytes 4 32 scope) at 2 by done. reflexivity.
  - unfold to_sockaddr_un. destruct (existsb (Z.eqb 0) path) eqn:E0; cbn [orb].
    { by eexists. }
    destruct (SUN_PATH <=? zlen path) eqn:E1; [by eexists|]. bool_to_prop. unfold SUN_PATH in E1.
    eexists _, _. split; [reflexivity|].
    rewrite written_app by lia. split; [rewrite !length_app, length_le_bytes; unfold zeros; rewrite length_replicate; lia|].
    unfold sun_path_offset, from_sockaddr_un. split; [lia|].
    rewrite (proj2 (Z.leb_gt _ _)) by (unfold sun_path_offset; lia).
    change (negb (le_val (field (le_bytes 2 AF_UNIX ++ path ++ zeros (108 - length path)) 0 2) =? AF_UNIX))
      with false. cbv iota.
    unfold sun_path_offset. replace (Z.to_nat (Z.min (2 + zlen path + 1 - 2) SUN_PATH)) with (length (path ++ [0])).
    2: { rewrite length_app. unfold SUN_PATH. cbn. lia. }
    assert (exists m, 108 - length path = S m)%nat as [m ->] by (exists (107 - length path)%nat; lia).
    change (zeros (S m)) with ([0] ++ zeros m). rewrite (app_assoc path).
    rewrite (field_app (le_bytes 2 AF_UNIX)).
    assert (trim_nul (path ++ [0]) = path) as ->; [|by destruct path].
    unfold trim_nul. rewrite reverse_snoc. apply reverse_involutive.
Qed.

Lemma sockaddr_roundtrip_witness :
  let a := V4 [127; 0; 0; 1] 8080 in let path := lit "/run/agent.sock" in
  (from_sockaddr (fst (to_sockaddr a)) = Ok a /\ length (fst (to_sockaddr a)) = STORAGE) /\
  if existsb (Z.eqb 0) path || (SUN_PATH <=? zlen path)
  then exists e, to_sockaddr_un path = Err e /\ kind e = InvalidInput
  else exists addr len, to_sockaddr_un path = Ok (addr, len) /\ length addr = 110%nat /\
       sun_path_offset < len <= 110 /\
       from_sockaddr_un addr len = Ok (match path with [] => None | _ => Some path end).
Proof. apply sockaddr_roundtrip. split; [reflexivity|]. unfold in_u. lia. Defined.

(** ** Descriptors *)

Section descriptors.
Context {K : Type} (kernel : Call -> K -> K * Ret).

Lemma owns_net_err {A} h op (Q : A -> _) : owns (K := K) h (net_err op) Q h.
Proof. intros w w' r [= <- <-]. exists []. by rewrite app_nil_r. Qed.
Hint Resolve owns_net_err : owns.

Lemma owns_net_unit h c op : released c = None -> (forall r, acquired (c, r) = []) ->
  owns h (net_unit kernel c op) (fun _ => h) h.
Proof. intros Hc Ha. unfold net_unit. eapply owns_bind; [by apply owns_neutral|]. intros. owns_go. Qed.
Hint Extern 2 (owns _ (net_unit _ _ _) _ _) => apply owns_net_unit; [reflexivity|reflexivity] : owns.

Lemma owns_new_socket h f t : owns h (new_socket kernel f t) (fun fd => {[+ fd +]} ⊎ h) h.
Proof. unfold new_socket. owns_go. Qed.
Lemma owns_new_tcp h a : owns h (new_tcp_socket kernel a) (fun fd => {[+ fd +]} ⊎ h) h.
Proof. apply owns_new_socket. Qed.
Lemma owns_new_unix h : owns h (new_unix_socket kernel) (fun fd => {[+ fd +]} ⊎ h) h.
Proof. apply owns_new_socket. Qed.
Lemma owns_new_udp h a : owns h (new_udp_socket kernel a) (fun fd => {[+ fd +]} ⊎ h) h.
Proof. apply owns_new_socket. Qed.
Hint Resolve owns_new_tcp owns_new_unix owns_new_udp : owns.

Lemma owns_is_stale h path : owns h (is_stale_socket kernel path) (fun _ => h) h.
Proof.
  unfold is_stale_socket.
  apply (owns_let_else _ _ false (fun probe w => _) (fun fd => {[+ fd +]} ⊎ h)); [apply owns_new_unix| |done|].
  - intros w. unfold new_unix_socket, new_socket, st_bind, syscall. destruct (kernel _ _) as [k r]. by destruct (rv r <? 0).
  - intros probe. apply owns_scoped. destruct (to_sockaddr_un path) as [[addr len]|e]; owns_go.
    intros w2 w3 r2 [= <- <-]. exists []. by rewrite app_nil_r.
Qed.
Hint Resolve owns_is_stale : owns.

Lemma owns_bind_reclaiming h fd path addr len :
  owns h (bind_reclaiming kernel fd path addr len) (fun _ => h) h.
Proof.
  unfold bind_reclaiming. eapply owns_bind; [by apply owns_neutral|]. intros r. cbv beta.
  destruct (rv r <? 0); [|owns_go]. apply owns_errno.
  - eapply owns_bind; [apply owns_is_stale|]. intros stale. unfold path_to_cstring. owns_go.
  - intros w w' r' [= <- <-]. exists []. by rewrite app_nil_r.
Qed.
Hint Resolve owns_bind_reclaiming : owns.

Lemma owns_sock_addr h c op : released c = None -> (forall r, acquired (c, r) = []) ->
  owns h (sock_addr kernel c op) (fun _ => h) h.
Proof. intros Hc Ha. unfold sock_addr. eapply owns_bind; [by apply owns_neutral|]. intros. owns_go. Qed.
Hint Extern 2 (owns _ (sock_addr _ _ _) _ _) => apply owns_sock_addr; [reflexivity|reflexivity] : owns.

(** the socket operations neither leak a descriptor nor close one they do
    not own, whatever the kernel answers and however they end: the
    constructors and the two [accept]s hand over exactly the descriptor they
    return, an address they cannot read included, and the probe of
    [unix_listen] is closed on every path. *)
Theorem linux_net_descriptors h addr path fd n :
  owns h (tcp_connect kernel addr) (fun fd => {[+ fd +]} ⊎ h) h /\
  owns h (tcp_listen kernel addr) (fun fd => {[+ fd +]} ⊎ h) h /\
  owns h (tcp_accept kernel fd) (fun p => {[+ p.1 +]} ⊎ h) h /\
  owns h (unix_connect kernel path) (fun fd => {[+ fd +]} ⊎ h) h /\
  owns h (unix_listen kernel path) (fun fd => {[+ fd +]} ⊎ h) h /\
  owns h (unix_accept kernel fd) (fun p => {[+ p.1 +]} ⊎ h) h /\
  owns h (udp_bind kernel addr) (fun fd => {[+ fd +]} ⊎ h) h /\
  owns h (udp_recv_from kernel fd n) (fun _ => h) h /\
  owns h (peer_addr kernel fd) (fun _ => h) h.
Proof.
  split_and!.
  - unfold tcp_connect. destruct (to_sockaddr addr). owns_go.
  - unfold tcp_listen. destruct (to_sockaddr addr). owns_go.
  - unfold tcp_accept. owns_go.
  - unfold unix_connect. destruct (to_sockaddr_un path) as [[a l]|]; owns_go.
  - unfold unix_listen, path_to_cstring. destruct (to_sockaddr_un path) as [[a l]|]; owns_go.
  - unfold unix_accept. owns_go.
  - unfold udp_bind. destruct (to_sockaddr addr). owns_go.
  - unfold udp_recv_from. owns_go.
  - unfold peer_addr. owns_go.
Qed.
End descriptors.
#[export] Hint Resolve owns_net_err owns_new_tcp owns_new_unix owns_new_udp owns_is_stale owns_bind_reclaiming : owns.
#[export] Hint Extern 2 (owns _ (net_unit _ _ _) _ _) => apply owns_net_unit; [reflexivity|reflexivity] : owns.
#[export] Hint Extern 2 (owns _ (sock_addr _ _ _) _ _) => apply owns_sock_addr; [reflexivity|reflexivity] : owns.

(** ** [unix_listen] and stale sockets *)

Section unix_listen.
Context {K : Type} (kernel : Call -> K -> K * Ret).

Definition refused_probe (refused : Z) (addr : list Z) (len : Z) (e : Call * Ret) : Prop :=
  exists probe, fst e = c_connect probe addr len /\ rv (snd e) <> 0 /\ err (snd e) = refused.
Definition is_close (e : Call * Ret) : Prop := exists fd, fst e = c_close fd.

(** Every [unlinkat] of the log removes [path], and the two calls before it
    are a connection to [path] that was refused, with this [errno], and the
    close of the probe ([e2] and [e1] are the two events before [l]). *)
Fixpoint unlinks_only_dead (refused : Z) (path : OsString) (addr : list Z) (len : Z)
    (e2 e1 : option (Call * Ret)) (l : list (Call * Ret)) : Prop :=
  match l with
  | [] => True
  | e :: l' =>
    (match fst e with
     | c_unlinkat dirfd p flags =>
       dirfd = AT_FDCWD /\ p = path /\ flags = 0 /\
       (exists x, e2 = Some x /\ refused_probe refused addr len x) /\ (exists x, e1 = Some x /\ is_close x)
     | _ => True
     end) /\ unlinks_only_dead refused path addr len e1 (Some e) l'
  end.

(** The socket [fd] was bound to [path], the file narrowed to its owner, and
    the socket put to listening, in this order and each with success. *)
Definition bound_private (backlog : Z) (path : OsString) (addr : list Z) (len fd : Z) (l : list (Call * Ret)) : Prop :=
  exists l0 rb rc rl,
  l = l0 ++ [(c_bind fd addr len, rb); (c_chmod path 384, rc); (c_listen fd backlog, rl)] /\
  Forall (fun r => 0 <= rv r) [rb; rc; rl].

(** C8: [unix_listen] always ends, in at most ten system calls, whatever the
    kernel answers; the only name it ever removes is the path it was given, and
    only after a probe connection to that path was refused and its socket
    closed; and when it returns a listener, the last three calls bound that
    descriptor to the path, narrowed the file to mode 0600 and started
    listening, in this order and all with success. *)
Lemma unix_listen_reclaims_only_dead path (w : World K) addr len :
  to_sockaddr_un path = Ok (addr, len) ->
  exists w' r l, unix_listen kernel path w = (w', r) /\ log w' = log w ++ l /\
  (length l <= 10)%nat /\ unlinks_only_dead ECONNREFUSED path addr len None None l /\
  match r with
  | ret fd => bound_private SOMAXCONN path addr len fd l
  | fail _ => True
  | _ => False
  end.
Proof.
  intros E. assert (existsb (Z.eqb 0) path = false) as E0.
  { unfold to_sockaddr_un in E. by destruct (existsb _ _). }
  unfold unix_listen, owned, bind_reclaiming, is_stale_socket, new_unix_socket, new_socket, scoped,
    net_unit, net_err, path_to_cstring, to_cstring, drop_fd, syscall, st_bind, st_lift.
  rewrite E0, !E. destruct w as [k0 l0]. cbn [state log].
  repeat first [call1 kernel; cbv beta iota zeta|branch; cbv beta iota zeta].
  all: rewrite <- ?app_assoc; cbn [app]; eexists _, _, _; (split; [reflexivity|]); (split; [reflexivity|]).
  all: split; [cbn; lia|]; cbn [unlinks_only_dead fst snd]; (split; [|try done; try lia]).
  all: unfold refused_probe, is_close.
  all: try (repeat split; eauto 8; fail).
  - exists [(c_socket AF_UNIX (Z.lor SOCK_STREAM SOCK_CLOEXEC) 0, r); (c_bind (rv r) addr len, r0);
      (c_socket AF_UNIX (Z.lor SOCK_STREAM SOCK_CLOEXEC) 0, r1);
      (c_connect (rv r1) addr len, r2); (c_close (rv r1), r3); (c_unlinkat AT_FDCWD path 0, r4)].
    eexists _, _, _. split; [reflexivity|]. by repeat constructor.
  - exists [(c_socket AF_UNIX (Z.lor SOCK_STREAM SOCK_CLOEXEC) 0, r)].
    eexists _, _, _. split; [reflexivity|]. by repeat constructor.
Qed.
End unix_listen.

(** A kernel that knows one socket path, for the examples: what is bound
    there, and what becomes of it once a probe has been answered. *)
Inductive Bound := Free | Dead | Live (who : Z).
Record OnePath := mkOnePath { there : Bound; after_probe : Bound -> Bound; next_fd : Z; refusal : Z }.

Definition one_path (c : Call) (k : OnePath) : OnePath * Ret :=
  let 'mkOnePath b f n e := k in
  match c with
  | c_socket _ _ _ => (mkOnePath b f (n + 1) e, mkRet n 0 ONone)
  | c_bind fd _ _ =>
    match b with
    | Free => (mkOnePath (Live 1) f n e, mkRet 0 0 ONone)
    | _ => (k, mkRet (-1) EADDRINUSE ONone)
    end
  | c_connect _ _ _ =>
    match b with
    | Live _ => (mkOnePath (f b) f n e, if e =? 0 then mkRet 0 0 ONone else mkRet (-1) e ONone)
    | Dead => (mkOnePath (f b) f n e, mkRet (-1) ECONNREFUSED ONone)
    | Free => (k, mkRet (-1) ENOENT ONone)
    end
  | c_unlinkat _ _ _ => (mkOnePath Free f n e, mkRet 0 0 ONone)
  | c_close _ => (k, mkRet 0 e ONone)
  | _ => (k, mkRet 0 0 ONone)
  end.

Definition run_path : OsString := lit "/run/s".
Definition run_addr : list Z := le_bytes 2 AF_UNIX ++ written 108 run_path.
Definition one_path_world b f e : World OnePath := mkWorld (mkOnePath b f 3 e) [].

Lemma unix_listen_reclaims_only_dead_witness :
  exists w' r l,
    unix_listen one_path run_path (one_path_world Dead (fun b => b) 0) = (w', r) /\
    log w' = [] ++ l /\ (length l <= 10)%nat /\
    unlinks_only_dead ECONNREFUSED run_path run_addr 9 None None l /\
    match r with
    | ret fd => bound_private SOMAXCONN run_path run_addr 9 fd l
    | fail _ => True
    | _ => False
    end.
Proof. apply (unix_listen_reclaims_only_dead one_path run_path). vm_compute. reflexivity. Defined.

(** A live listener keeps its path. *)
Example unix_listen_live :
  let (w, r) := unix_listen one_path run_path (one_path_world (Live 2) (fun b => b) 0) in
  there (state w) = Live 2 /\ exists e, r = fail e.
Proof. vm_compute. eauto. Qed.

(** The probe overwrites [errno]: when connecting is not permitted, a path in
    use is reported as a refused permission, and not as an address in use. *)
Example unix_listen_errno_lost :
  snd (unix_listen one_path run_path (one_path_world (Live 2) (fun b => b) EACCES)) =
  fail (error_new PermissionDenied (Errno EACCES) "bind").
Proof. vm_compute. reflexivity. Qed.

(** Two processes reclaim one dead path: the other one binds it between this
    one's probe and its [unlinkat], which then removes a live socket. *)
Example unix_listen_race :
  let (w, r) := unix_listen one_path run_path (one_path_world Dead (fun _ => Live 2) 0) in
  there (state w) = Live 1 /\ r = ret 3.
Proof. vm_compute. done. Qed.

(** A positive timeout below a microsecond is the zero [timeval], which the
    kernel reads as no timeout at all. *)
Example sub_microsecond_timeout : timeval (Some 999) = timeval None.
Proof. reflexivity. Qed.
