(* ===== verification/DBusTransport.v ===== *)
(** * Reaching the session bus ([platform-linux/src/sys/dbus/transport.rs])

    The socket and connect calls behind [DBusConn]: one candidate address,
    and the candidates of [session_bus_addresses] in turn.  What is said on
    the socket afterwards is [DBusConn]'s. *)

From Stdlib Require Import ZArith Lia String.
From S2P Require Import Prelude Error Sys LinuxFd LinuxNet DBusConn.
From stdpp Require Import base numbers list strings gmap gmultiset.
Open Scope Z_scope.

(** The [sockaddr_un] the kernel is given, from the packed path. *)
Definition bus_sockaddr (a : UnixAddr) : Result (list Z * Z) :=
  match pack_unix_addr (sun_path_bytes a) with
  | Ok (path, len) => Ok (le_bytes 2 AF_UNIX ++ path, len)
  | Err e => Err e
  end.

Section transport.
Context {K : Type} (kernel : Call -> K -> K * Ret).
Abbreviation M A := (World K -> World K * Run A).
Abbreviation sys := (syscall kernel).

(** [sock_err] reads [errno]. *)
Definition bus_err {A} (opn : string) : M A := fun w => (w, fail (sock_err (errno w) opn)).

Definition bus_socket : M Z :=
  st! r := sys (c_socket AF_UNIX (Z.lor SOCK_STREAM SOCK_CLOEXEC) 0) in
  if rv r <? 0 then bus_err "socket" else st_lift (ret (rv r)).

(** The socket is there before the address is packed, and is dropped when
    that fails. *)
Definition connect_one (a : UnixAddr) : M Z :=
  st! fd := bus_socket in
  owned kernel fd
    (st! (addr, len) := st_lift (Done (bus_sockaddr a)) in
     st! r := sys (c_connect fd addr len) in
     if rv r <? 0 then bus_err "connect" else st_lift (ret fd)).

(** [match connect_one(addr) { Ok(fd) => return Ok(fd), Err(e) => last_err = Some(e) }]. *)
Fixpoint connect_each (last_err : option PlatformError) (addrs : list UnixAddr) : M Z := fun w =>
  match addrs with
  | [] => (w, fail (default (error_new NotFound NoCode "no usable D-Bus session bus address found") last_err))
  | a :: addrs =>
    match connect_one a w with
    | (w, fail e) => connect_each (Some e) addrs w
    | r => r
    end
  end.

Definition connect_session (env : option str) (uid : Z) : M Z := connect_each None (session_bus_addresses env uid).

(** [Connection::connect_to], up to the handshake: only the first candidate. *)
Definition connect_to (unix_address : str) : M Z :=
  match parse_unix_addresses unix_address with
  | [] => st_lift (fail (proto_err "no unix: address found in the given D-Bus address string"))
  | a :: _ => connect_one a
  end.

(** ** Descriptors *)

Lemma owns_bus_err {A} h op (Q : A -> _) : owns (K := K) h (bus_err op) Q h.
Proof. intros w w' r [= <- <-]. exists []. by rewrite app_nil_r. Qed.

Hint Resolve owns_bus_err : owns.

Lemma owns_bus_socket h : owns h bus_socket (fun fd => {[+ fd +]} ⊎ h) h.
Proof. unfold bus_socket. owns_go. Qed.

Lemma owns_connect_one h a : owns h (connect_one a) (fun fd => {[+ fd +]} ⊎ h) h.
Proof.
  unfold connect_one. eapply owns_bind; [apply owns_bus_socket|]. intros fd. cbv beta.
  destruct (bus_sockaddr a) as [[addr len]|e]; [|owns_go]. apply owns_owned.
  apply (owns_bind _ _ _ (fun _ => {[+ fd +]} ⊎ h)); [by apply owns_ret|]. intros [addr' len'].
  apply (owns_bind _ _ _ (fun _ => {[+ fd +]} ⊎ h)); [by apply owns_neutral|]. intros r. cbv beta. destruct (rv r <? 0); [apply owns_bus_err|by apply owns_ret].
Qed.

Lemma owns_connect_each h addrs : forall last_err,
  owns h (connect_each last_err addrs) (fun fd => {[+ fd +]} ⊎ h) h.
Proof.
  induction addrs as [|a addrs IH]; intros last_err; [intros w w' r [= <- <-]; exists []; by rewrite app_nil_r|].
  intros w w' r. cbn [connect_each]. destruct (connect_one a w) as [w1 r1] eqn:E1.
  destruct (owns_connect_one h a w w1 r1 E1) as (l1 & Hl1 & H1).
  destruct r1 as [[fd|e]| |]; intros H; simplify_eq; try (by exists l1).
  destruct (IH (Some e) w1 w' r H) as (l2 & Hl2 & H2). exists (l1 ++ l2). rewrite Hl2, Hl1, app_assoc. split; [done|].
  intros Hr. rewrite replay_app, H1 by done. cbn. by apply H2.
Qed.

(** ** Calls *)

(** A connection that came about. *)
Definition connects (e : Call * Ret) : bool :=
  match fst e with c_connect _ _ _ => 0 <=? rv (snd e) | _ => false end.

(** One candidate: refused, with its socket closed, or connected by the last
    call. *)
Definition tried (a : UnixAddr) (l : list (Call * Ret)) (r : Run Z) : Prop :=
  match r with
  | ret fd => exists addr len r1 r2, bus_sockaddr a = Ok (addr, len) /\ rv r1 = fd /\ 0 <= fd /\ 0 <= rv r2 /\
      l = [(c_socket AF_UNIX (Z.lor SOCK_STREAM SOCK_CLOEXEC) 0, r1); (c_connect fd addr len, r2)]
  | fail _ => (length l <= 3)%nat /\ Forall (fun e => connects e = false) l
  | _ => False
  end.

Lemma traces_connect_one a : traces (connect_one a) (tried a).
Proof.
  intros w. unfold connect_one, bus_socket, st_bind, syscall, owned, drop_fd.
  destruct (kernel _ (state w)) as [k1 r1]. destruct (rv r1 <? 0) eqn:E1; cbn [bus_err st_lift fst snd state log].
  { eexists. split; [reflexivity|]. split; [cbn; lia|]. by repeat constructor. }
  unfold bus_err, st_lift. destruct (bus_sockaddr a) as [[addr len]|e] eqn:Ea.
  2: { unfold syscall. cbn [fst snd state log]. destruct (kernel _ k1) as [k2 r2]. cbn [fst snd log].
       eexists. rewrite <- app_assoc. split; [reflexivity|]. split; [cbn; lia|]. by repeat constructor. }
  cbn [fst snd state log]. destruct (kernel _ k1) as [k2 r2]. destruct (rv r2 <? 0) eqn:E2; cbn [fst snd log].
  - unfold syscall. cbn [fst snd state log]. destruct (kernel _ k2) as [k3 r3]. cbn [fst snd log].
    eexists. rewrite <- !app_assoc. split; [reflexivity|]. split; [cbn; lia|].
    repeat constructor. unfold connects. cbn [fst snd]. bool_to_prop. by apply Z.leb_gt.
  - eexists. rewrite <- app_assoc. split; [reflexivity|]. bool_to_prop. exists addr, len, r1, r2. auto with lia.
Qed.

Lemma connect_each_tries addrs : forall last_err w, exists l r,
  connect_each last_err addrs w = (fst (connect_each last_err addrs w), Done r) /\
  log (fst (connect_each last_err addrs w)) = log w ++ l /\ (length l <= 3 * length addrs)%nat /\
  match r with
  | Ok fd => exists pre a post l1 l2, addrs = pre ++ a :: post /\ l = l1 ++ l2 /\
      Forall (fun e => connects e = false) l1 /\ tried a l2 (ret fd)
  | Err _ => Forall (fun e => connects e = false) l
  end.
Proof.
  induction addrs as [|a addrs IH]; intros last_err w.
  { exists []. eexists. rewrite app_nil_r. split; [reflexivity|]. by repeat split. }
  cbn [connect_each]. destruct (traces_connect_one a w) as (l1 & Hl1 & H1).
  destruct (connect_one a w) as [w1 [[fd|e]| |]] eqn:E; cbn [fst snd] in *; try done.
  - exists l1, (Ok fd). split; [done|]. split; [done|].
    destruct H1 as (addr & len & r1 & r2 & Ha & Hfd & H0 & H2 & ->). split; [cbn; lia|].
    exists [], a, addrs, [], [(c_socket AF_UNIX (Z.lor SOCK_STREAM SOCK_CLOEXEC) 0, r1); (c_connect fd addr len, r2)].
    repeat split; [constructor|]. exists addr, len, r1, r2. auto.
  - destruct H1 as [Hn H1]. destruct (IH (Some e) w1) as (l2 & r & Er & Hl2 & Hn2 & H2). exists (l1 ++ l2), r.
    split; [done|]. rewrite Hl2, Hl1, app_assoc, length_app. split; [done|]. split; [cbn; lia|].
    destruct r as [fd|e2]; [|by apply Forall_app].
    destruct H2 as (pre & a' & post & l3 & l4 & -> & -> & H3 & H4). exists (a :: pre), a', post, (l1 ++ l3), l4.
    rewrite <- app_assoc. repeat split; [|done]. by apply Forall_app.
Qed.
End transport.

(** Reaching the session bus, whatever the kernel answers: it ends, after at
    most three calls for each candidate address.  The descriptor it returns is
    the socket that the very last call connected to one of the candidates, and
    no earlier connection came about; every other socket it made is closed.
    When it fails no connection came about and nothing is left open. *)
Theorem bus_connects_once {K} (kernel : Call -> K -> K * Ret) env uid h w :
  owns h (connect_session kernel env uid) (fun fd => {[+ fd +]} ⊎ h) h /\
  exists w' r l, connect_session kernel env uid w = (w', Done r) /\ log w' = log w ++ l /\
  (length l <= 3 * length (session_bus_addresses env uid))%nat /\
  match r with
  | Err _ => Forall (fun e => connects e = false) l
  | Ok fd => exists a addr len l1 r1 r2, a ∈ session_bus_addresses env uid /\ bus_sockaddr a = Ok (addr, len) /\
      Forall (fun e => connects e = false) l1 /\ rv r1 = fd /\ 0 <= fd /\ 0 <= rv r2 /\
      l = l1 ++ [(c_socket AF_UNIX (Z.lor SOCK_STREAM SOCK_CLOEXEC) 0, r1); (c_connect fd addr len, r2)]
  end.
Proof.
  split; [apply owns_connect_each|]. unfold connect_session.
  destruct (connect_each_tries kernel (session_bus_addresses env uid) None w) as (l & r & E & Hl & Hn & H).
  exists (fst (connect_each kernel None (session_bus_addresses env uid) w)), r, l. split; [done|]. split; [done|].
  split; [done|]. destruct r as [fd|e]; [|done].
  destruct H as (pre & a & post & l1 & l2 & -> & -> & H1 & addr & len & r1 & r2 & Ha & Hfd & H0 & H2 & ->).
  exists a, addr, len, l1, r1, r2. split; [|auto 10]. apply elem_of_app. right. by constructor.
Qed.

(** The bus of the environment refuses, that at its second address answers. *)
Example second_address :
  let kernel c k := match c with
    | c_socket _ _ _ => (k + 1, mkRet (k + 1) 0 ONone)
    | c_connect 1 _ _ => (k, mkRet (-1) 111 ONone)
    | _ => (k, mkRet 0 0 ONone)
    end in
  let '(w, r) := connect_session kernel (Some (lit "unix:path=/a;tcp:host=b;unix:abstract=c,guid=1")) 1000 (mkWorld 0 []) in
  r = ret 2 /\ map fst (log w) = [c_socket 1 524289 0;
    c_connect 1 (le_bytes 2 1 ++ lit "/a" ++ replicate 106 0) 4; c_close 1; c_socket 1 524289 0;
    c_connect 2 (le_bytes 2 1 ++ 0 :: lit "c" ++ replicate 106 0) 4].
Proof. by vm_compute. Qed.
