(* ===== verification/NetApi.v ===== *)
(** * The network interface ([platform/src/net.rs])

    The traits as records of operations over a world, a socket being the
    descriptor it owns; the laws a backend keeps about descriptors; and the
    Linux instance ([platform-linux/src/net.rs]). *)

From Stdlib Require Import ZArith Lia String.
From S2P Require Import Prelude Error Sys LinuxFd LinuxNet.
From stdpp Require Import base numbers list strings gmap gmultiset.
Open Scope Z_scope.

Section traits.
Context (W : Type).
Abbreviation M A := (W -> W * Run A).

Record TcpStream := mkTcpStream {
  tcp_read_ : Z -> Z -> M (list Z);
  tcp_write_ : Z -> list Z -> M Z;
  set_nodelay_ : Z -> bool -> M unit;
  tcp_peer_addr_ : Z -> M SocketAddr;
  tcp_local_addr_ : Z -> M SocketAddr;
  set_read_timeout_ : Z -> option Z -> M unit;
}.

Record TcpListener := mkTcpListener {
  tcp_accept_ : Z -> M (Z * SocketAddr);
  listener_local_addr_ : Z -> M SocketAddr;
}.

Record UnixStream := mkUnixStream {
  unix_read_ : Z -> Z -> M (list Z);
  unix_write_ : Z -> list Z -> M Z;
  unix_peer_addr_ : Z -> M (option OsString);
  unix_local_addr_ : Z -> M (option OsString);
}.

Record UnixListener := mkUnixListener {
  unix_accept_ : Z -> M (Z * option OsString);
  unix_listener_local_addr_ : Z -> M (option OsString);
}.

Record UdpSocket := mkUdpSocket {
  send_to_ : Z -> list Z -> SocketAddr -> M Z;
  recv_from_ : Z -> Z -> M (list Z * SocketAddr);
  udp_local_addr_ : Z -> M SocketAddr;
}.

(** The trait [Net] and what it hands out; [set_nonblocking_] is the method
    all the socket types have besides their trait. *)
Record Net := mkNet {
  tcp_connect_ : SocketAddr -> M Z;
  tcp_listen_ : SocketAddr -> M Z;
  unix_connect_ : OsString -> M Z;
  unix_listen_ : OsString -> M Z;
  udp_bind_ : SocketAddr -> M Z;
  set_nonblocking_ : Z -> bool -> M unit;
  tcp_stream : TcpStream;
  tcp_listener : TcpListener;
  unix_stream : UnixStream;
  unix_listener : UnixListener;
  udp_socket : UdpSocket;
}.
End traits.
Arguments mkTcpStream {W} _ _ _ _ _ _.
Arguments mkTcpListener {W} _ _.
Arguments mkUnixStream {W} _ _ _ _.
Arguments mkUnixListener {W} _ _.
Arguments mkUdpSocket {W} _ _ _.
Arguments mkNet {W} _ _ _ _ _ _ _ _ _ _ _.

(** ** Laws *)

(** The operations that open hand over the one descriptor they return, and
    nothing when they fail; the others neither open nor close. *)
Class OpensOne {K} (kernel : Call -> K -> K * Ret) (net : Net (World K)) : Prop := {
  opens_tcp_connect h a : owns h (tcp_connect_ _ net a) (fun fd => {[+ fd +]} ⊎ h) h;
  opens_tcp_listen h a : owns h (tcp_listen_ _ net a) (fun fd => {[+ fd +]} ⊎ h) h;
  opens_unix_connect h p : owns h (unix_connect_ _ net p) (fun fd => {[+ fd +]} ⊎ h) h;
  opens_unix_listen h p : owns h (unix_listen_ _ net p) (fun fd => {[+ fd +]} ⊎ h) h;
  opens_udp_bind h a : owns h (udp_bind_ _ net a) (fun fd => {[+ fd +]} ⊎ h) h;
  keeps_read h fd n : owns h (tcp_read_ _ (tcp_stream _ net) fd n) (fun _ => h) h;
  keeps_write h fd bs : owns h (tcp_write_ _ (tcp_stream _ net) fd bs) (fun _ => h) h;
  keeps_peer_addr h fd : owns h (tcp_peer_addr_ _ (tcp_stream _ net) fd) (fun _ => h) h;
  keeps_unix_peer_addr h fd : owns h (unix_peer_addr_ _ (unix_stream _ net) fd) (fun _ => h) h;
  keeps_set_read_timeout h fd t : owns h (set_read_timeout_ _ (tcp_stream _ net) fd t) (fun _ => h) h;
  keeps_nonblocking h fd b : owns h (set_nonblocking_ _ net fd b) (fun _ => h) h;
  keeps_send_to h fd bs a : owns h (send_to_ _ (udp_socket _ net) fd bs a) (fun _ => h) h;
  keeps_recv_from h fd n : owns h (recv_from_ _ (udp_socket _ net) fd n) (fun _ => h) h;
  keeps_set_nodelay h fd b : owns h (set_nodelay_ _ (tcp_stream _ net) fd b) (fun _ => h) h;
  keeps_local_addr h fd : owns h (tcp_local_addr_ _ (tcp_stream _ net) fd) (fun _ => h) h;
  keeps_listener_addr h fd : owns h (listener_local_addr_ _ (tcp_listener _ net) fd) (fun _ => h) h;
  keeps_unix_read h fd n : owns h (unix_read_ _ (unix_stream _ net) fd n) (fun _ => h) h;
  keeps_unix_write h fd bs : owns h (unix_write_ _ (unix_stream _ net) fd bs) (fun _ => h) h;
  keeps_unix_local_addr h fd : owns h (unix_local_addr_ _ (unix_stream _ net) fd) (fun _ => h) h;
  keeps_unix_listener_addr h fd : owns h (unix_listener_local_addr_ _ (unix_listener _ net) fd) (fun _ => h) h;
  keeps_udp_addr h fd : owns h (udp_local_addr_ _ (udp_socket _ net) fd) (fun _ => h) h;
}.

(** An [accept] that fails, also on an address it cannot read, leaves nothing
    open. *)
Class AcceptsCleanly {K} (kernel : Call -> K -> K * Ret) (net : Net (World K)) : Prop := {
  accepts_tcp h fd : owns h (tcp_accept_ _ (tcp_listener _ net) fd) (fun p => {[+ p.1 +]} ⊎ h) h;
  accepts_unix h fd : owns h (unix_accept_ _ (unix_listener _ net) fd) (fun p => {[+ p.1 +]} ⊎ h) h;
}.

(** ** Linux *)

Section linux.
Context {K : Type} (kernel : Call -> K -> K * Ret).

Definition linux_tcp_stream : TcpStream (World K) :=
  mkTcpStream (LinuxFd.read kernel) (LinuxFd.write kernel) (set_nodelay kernel)
    (peer_addr kernel) (local_addr kernel) (set_read_timeout kernel).
Definition linux_tcp_listener : TcpListener (World K) := mkTcpListener (tcp_accept kernel) (local_addr kernel).
Definition linux_unix_stream : UnixStream (World K) :=
  mkUnixStream (LinuxFd.read kernel) (LinuxFd.write kernel) (unix_peer_addr kernel) (unix_local_addr kernel).
Definition linux_unix_listener : UnixListener (World K) := mkUnixListener (unix_accept kernel) (unix_local_addr kernel).
Definition linux_udp_socket : UdpSocket (World K) :=
  mkUdpSocket (udp_send_to kernel) (udp_recv_from kernel) (local_addr kernel).
Definition linux_net : Net (World K) :=
  mkNet (tcp_connect kernel) (tcp_listen kernel) (unix_connect kernel) (unix_listen kernel) (udp_bind kernel)
    (set_nonblocking kernel) linux_tcp_stream linux_tcp_listener linux_unix_stream linux_unix_listener linux_udp_socket.

#[export] Instance linux_opens_one : OpensOne kernel linux_net.
Proof.
  constructor; intros; cbn.
  - unfold tcp_connect. destruct (to_sockaddr a). owns_go.
  - unfold tcp_listen. destruct (to_sockaddr a). owns_go.
  - unfold unix_connect. destruct (to_sockaddr_un p) as [[b l]|]; owns_go.
  - unfold unix_listen, path_to_cstring. destruct (to_sockaddr_un p) as [[b l]|]; owns_go.
  - unfold udp_bind. destruct (to_sockaddr a). owns_go.
  - apply LinuxFd.owns_read.
  - apply LinuxFd.owns_write.
  - unfold peer_addr. owns_go.
  - unfold unix_peer_addr. owns_go.
  - unfold set_read_timeout. owns_go.
  - unfold set_nonblocking. owns_go.
  - unfold udp_send_to. destruct (to_sockaddr a). owns_go.
  - unfold udp_recv_from. owns_go.
  - unfold set_nodelay. owns_go.
  - unfold local_addr. owns_go.
  - unfold local_addr. owns_go.
  - apply LinuxFd.owns_read.
  - apply LinuxFd.owns_write.
  - unfold unix_local_addr. owns_go.
  - unfold unix_local_addr. owns_go.
  - unfold local_addr. owns_go.
Qed.

#[export] Instance linux_accepts_cleanly : AcceptsCleanly kernel linux_net.
Proof. constructor; intros; cbn; [unfold tcp_accept|unfold unix_accept]; owns_go. Qed.
End linux.
