(* ===== verification/BsdNet.v ===== *)
(** * Sockets of the BSD backend
      ([platform-bsd/src/sys/net.rs], [platform-bsd/src/sys/fdio.rs],
       [platform-bsd/src/net.rs])

    As on Linux but for what the BSDs lack: a socket is marked close-on-exec
    by a second call, and every address begins with its length. *)

From Stdlib Require Import ZArith Lia String.
From S2P Require Import Prelude Error Sys LinuxFd LinuxNet NetApi.
From stdpp Require Import base numbers list strings gmap gmultiset.
Open Scope Z_scope.

(** The five targets; of the constants below [AF_INET6] and [SO_RCVTIMEO]
    differ. *)
Inductive Target := Darwin | FreeBSD | OpenBSD | NetBSD | DragonFly.
Definition AF_INET6 (t : Target) : Z :=
  match t with Darwin => 30 | FreeBSD | DragonFly => 28 | OpenBSD | NetBSD => 24 end.
Definition SOL_SOCKET := 65535.
Definition SO_REUSEADDR := 4.
Definition SO_RCVTIMEO (t : Target) : Z := match t with NetBSD => 4108 | _ => 4102 end.
Definition SOMAXCONN := 128.
Definition O_NONBLOCK := 4.
Definition FD_CLOEXEC := 1.
Definition EAGAIN := 35.
Definition EADDRINUSE := 48.
Definition EADDRNOTAVAIL := 49.
Definition ECONNABORTED := 53.
Definition ECONNRESET := 54.
Definition ENOTCONN := 57.
Definition ETIMEDOUT := 60.
Definition ECONNREFUSED := 61.

Definition kind_of (errno : Z) : ErrorKind :=
  if errno =? ECONNREFUSED then ConnectionRefused
  else if errno =? ECONNRESET then ConnectionReset
  else if errno =? ECONNABORTED then ConnectionAborted
  else if errno =? ENOTCONN then NotConnected
  else if errno =? EADDRINUSE then AddrInUse
  else if errno =? EADDRNOTAVAIL then AddrNotAvailable
  else if errno =? ETIMEDOUT then TimedOut
  else if (errno =? EACCES) || (errno =? EPERM) then PermissionDenied
  else if errno =? EINVAL then InvalidInput
  else if errno =? EAGAIN then WouldBlock
  else if errno =? EINTR then Interrupted
  else if errno =? ENOENT then NotFound
  else Other.

(** ** Addresses *)

Definition sockaddr_in (ip : list Z) (port : Z) : list Z :=
  [16; AF_INET] ++ le_bytes 2 (swap16 port) ++ ip ++ zeros 8.
Definition sockaddr_in6 (t : Target) (ip : list Z) (port flowinfo scope : Z) : list Z :=
  [28; AF_INET6 t] ++ le_bytes 2 (swap16 port) ++ le_bytes 4 flowinfo ++ ip ++ le_bytes 4 scope.

Definition to_sockaddr (t : Target) (addr : SocketAddr) : list Z * Z :=
  match addr with
  | V4 ip port => (written STORAGE (sockaddr_in ip port), 16)
  | V6 ip port flowinfo scope => (written STORAGE (sockaddr_in6 t ip port flowinfo scope), 28)
  end.

Definition from_sockaddr (t : Target) (storage : list Z) : Result SocketAddr :=
  let family := le_val (field storage 1 1) in
  if family =? AF_INET then
    Ok (V4 (field storage 4 4) (swap16 (le_val (field storage 2 2))))
  else if family =? AF_INET6 t then
    Ok (V6 (field storage 8 16) (swap16 (le_val (field storage 2 2)))
           (le_val (field storage 4 4)) (le_val (field storage 24 4)))
  else Err (error_new Other NoCode "unrecognized address family").

(** [sockaddr_un]: length, family, and a path of at most 104 bytes. *)
Definition SUN_PATH : Z := 104.

Definition to_sockaddr_un (path : OsString) : Result (list Z * Z) :=
  if existsb (Z.eqb 0) path then Err nul_err
  else if SUN_PATH <=? zlen path then
    Err (error_new InvalidInput NoCode "AF_UNIX path too long (must fit in sockaddr_un::sun_path)")
  else
    let len := sun_path_offset + zlen path + 1 in
    Ok ([len mod 256; AF_UNIX] ++ written 104 path, len).

(** [position(|b| b == 0)] and [truncate]. *)
Fixpoint truncate_nul (bytes : list Z) : list Z :=
  match bytes with
  | [] => []
  | b :: bytes => if b =? 0 then [] else b :: truncate_nul bytes
  end.

Definition from_sockaddr_un (addr : list Z) (len : Z) : Result (option OsString) :=
  if len <=? sun_path_offset then Ok None
  else if negb (le_val (field addr 1 1) =? AF_UNIX) then
    Err (error_new Other NoCode "unrecognized address family")
  else
    let path_len := Z.min (len - sun_path_offset) SUN_PATH in
    let bytes := truncate_nul (field addr 2 (Z.to_nat path_len)) in
    Ok (match bytes with [] => None | _ => Some bytes end).

(** ** Operations *)

Section net.
Context (t : Target) {K : Type} (kernel : Call -> K -> K * Ret).
Abbreviation M A := (World K -> World K * Run A).
Abbreviation sys := (syscall kernel).

(** [sys/fdio.rs]; the timeout of [set_read_timeout] is laid out as on Linux,
    where Darwin's microseconds are four bytes and four of padding. *)
Definition os_err {A} (op : string) : M A := fun w =>
  let code := errno w in
  let kind := if code =? EAGAIN then WouldBlock else if code =? EINTR then Interrupted
              else if code =? EPIPE then BrokenPipe else Other in
  (w, fail (error_new kind (Errno code) op)).
Definition read (fd n : Z) : M (list Z) :=
  st! r := sys (c_read fd n) in
  if rv r <? 0 then os_err "read" else st_lift (ret (take (Z.to_nat (rv r)) (out_bytes r))).
Definition write (fd : Z) (buf : list Z) : M Z :=
  st! r := sys (c_write fd buf) in
  if rv r <? 0 then os_err "write" else st_lift (ret (rv r)).

Definition net_err {A} (op : string) : M A := fun w =>
  (w, fail (error_new (kind_of (errno w)) (Errno (errno w)) op)).
Definition net_unit (c : Call) (op : string) : M unit :=
  st! r := sys c in
  if rv r <? 0 then net_err op else st_lift (ret tt).

Definition set_cloexec (fd : Z) : M unit := net_unit (c_fcntl_setfd fd FD_CLOEXEC) "fcntl(F_SETFD)".

Definition family_of (addr : SocketAddr) : Z :=
  match addr with V4 _ _ => AF_INET | V6 _ _ _ _ => AF_INET6 t end.

Definition new_socket (family type : Z) : M Z :=
  st! r := sys (c_socket family type 0) in
  if rv r <? 0 then net_err "socket"
  else owned kernel (rv r) (st! _ := set_cloexec (rv r) in st_lift (ret (rv r))).

Definition new_tcp_socket (addr : SocketAddr) : M Z := new_socket (family_of addr) SOCK_STREAM.
Definition new_unix_socket : M Z := new_socket AF_UNIX SOCK_STREAM.
Definition new_udp_socket (addr : SocketAddr) : M Z := new_socket (family_of addr) SOCK_DGRAM.

Definition tcp_connect (addr : SocketAddr) : M Z :=
  st! fd := new_tcp_socket addr in
  owned kernel fd
    (let (storage, len) := to_sockaddr t addr in
     st! _ := net_unit (c_connect fd storage len) "connect" in
     st_lift (ret fd)).

Definition tcp_listen (addr : SocketAddr) : M Z :=
  st! fd := new_tcp_socket addr in
  owned kernel fd
    (st! _ := net_unit (c_setsockopt fd SOL_SOCKET SO_REUSEADDR (le_bytes 4 1)) "setsockopt(SO_REUSEADDR)" in
     let (storage, len) := to_sockaddr t addr in
     st! _ := net_unit (c_bind fd storage len) "bind" in
     st! _ := net_unit (c_listen fd SOMAXCONN) "listen" in
     st_lift (ret fd)).

Definition tcp_accept (listen_fd : Z) : M (Z * SocketAddr) :=
  st! r := sys (c_accept listen_fd (Z.of_nat STORAGE)) in
  if rv r <? 0 then net_err "accept"
  else owned kernel (rv r)
    (st! _ := set_cloexec (rv r) in
     st! peer := st_lift (Done (from_sockaddr t (written STORAGE (out_storage r)))) in
     st_lift (ret (rv r, peer))).

Definition set_nodelay (fd : Z) (nodelay : bool) : M unit :=
  net_unit (c_setsockopt fd IPPROTO_TCP TCP_NODELAY (le_bytes 4 (if nodelay then 1 else 0)))
    "setsockopt(TCP_NODELAY)".

Definition set_read_timeout (fd : Z) (timeout : option Z) : M unit :=
  net_unit (c_setsockopt fd SOL_SOCKET (SO_RCVTIMEO t) (timeval timeout)) "setsockopt(SO_RCVTIMEO)".

Definition set_nonblocking (fd : Z) (nonblocking : bool) : M unit :=
  st! r := sys (c_fcntl_getfl fd) in
  if rv r <? 0 then net_err "fcntl(F_GETFL)"
  else
    let new_flags := if nonblocking then Z.lor (rv r) O_NONBLOCK
                     else Z.land (rv r) (Z.lnot O_NONBLOCK) in
    net_unit (c_fcntl_setfl fd new_flags) "fcntl(F_SETFL)".

(** A call that fills an address: its storage and length. *)
Definition sock_addr (c : Call) (op : string) : M (list Z * Z) :=
  st! r := sys c in
  if rv r <? 0 then net_err op else st_lift (ret (out_storage r, out_len r)).

Definition peer_addr (fd : Z) : M SocketAddr :=
  st! (storage, _) := sock_addr (c_getpeername fd (Z.of_nat STORAGE)) "getpeername" in
  st_lift (Done (from_sockaddr t (written STORAGE storage))).
Definition local_addr (fd : Z) : M SocketAddr :=
  st! (storage, _) := sock_addr (c_getsockname fd (Z.of_nat STORAGE)) "getsockname" in
  st_lift (Done (from_sockaddr t (written STORAGE storage))).

(** *** Unix domain sockets *)

Definition unix_connect (path : OsString) : M Z :=
  st! fd := new_unix_socket in
  owned kernel fd
    (st! (addr, len) := st_lift (Done (to_sockaddr_un path)) in
     st! _ := net_unit (c_connect fd addr len) "connect" in
     st_lift (ret fd)).

Definition path_to_cstring (path : OsString) : M OsString := st_lift (to_cstring path nul_err).

(** [let Ok(..) else { return false }]; the probe is dropped at the end,
    after [errno] was read. *)
Definition is_stale_socket (path : OsString) : M bool := fun w =>
  match new_unix_socket w with
  | (w, ret probe) =>
    scoped kernel probe
      (match to_sockaddr_un path with
       | Err _ => st_lift (ret false)
       | Ok (addr, len) =>
         st! r := sys (c_connect probe addr len) in
         if rv r =? 0 then st_lift (ret false)
         else fun w => (w, ret (errno w =? ECONNREFUSED))
       end) w
  | (w, _) => (w, ret false)
  end.

(** [bind], once more when the path turns out to be a dead listener's: the
    result of the last [bind]. *)
Definition bind_reclaiming (fd : Z) (path : OsString) (addr : list Z) (len : Z) : M Z :=
  st! r := sys (c_bind fd addr len) in
  if rv r <? 0 then fun w =>
    if errno w =? EADDRINUSE then
      (st! stale := is_stale_socket path in
       if (stale : bool) then
         st! c_path := path_to_cstring path in
         st! _ := sys (c_unlinkat AT_FDCWD c_path 0) in
         st! r := sys (c_bind fd addr len) in
         st_lift (ret (rv r))
       else st_lift (ret (rv r))) w
    else (w, ret (rv r))
  else st_lift (ret (rv r)).

Definition unix_listen (path : OsString) : M Z :=
  st! fd := new_unix_socket in
  owned kernel fd
    (st! (addr, len) := st_lift (Done (to_sockaddr_un path)) in
     st! r := bind_reclaiming fd path addr len in
     if r <? 0 then net_err "bind"
     else
       st! c_path := path_to_cstring path in
       st! _ := net_unit (c_chmod c_path 384) "chmod" in
       st! _ := net_unit (c_listen fd SOMAXCONN) "listen" in
       st_lift (ret fd)).

Definition unix_accept (listen_fd : Z) : M (Z * option OsString) :=
  st! r := sys (c_accept listen_fd 106) in
  if rv r <? 0 then net_err "accept"
  else owned kernel (rv r)
    (st! _ := set_cloexec (rv r) in
     st! peer := st_lift (Done (from_sockaddr_un (written 106 (out_storage r)) (out_len r))) in
     st_lift (ret (rv r, peer))).

Definition unix_peer_addr (fd : Z) : M (option OsString) :=
  st! (addr, len) := sock_addr (c_getpeername fd 106) "getpeername" in
  st_lift (Done (from_sockaddr_un (written 106 addr) len)).
Definition unix_local_addr (fd : Z) : M (option OsString) :=
  st! (addr, len) := sock_addr (c_getsockname fd 106) "getsockname" in
  st_lift (Done (from_sockaddr_un (written 106 addr) len)).

(** *** UDP *)

Definition udp_bind (addr : SocketAddr) : M Z :=
  st! fd := new_udp_socket addr in
  owned kernel fd
    (let (storage, len) := to_sockaddr t addr in
     st! _ := net_unit (c_bind fd storage len) "bind" in
     st_lift (ret fd)).

Definition udp_send_to (fd : Z) (buf : list Z) (addr : SocketAddr) : M Z :=
  let (storage, len) := to_sockaddr t addr in
  st! r := sys (c_sendto fd buf storage len) in
  if rv r <? 0 then net_err "sendto" else st_lift (ret (rv r)).

Definition udp_recv_from (fd n : Z) : M (list Z * SocketAddr) :=
  st! r := sys (c_recvfrom fd n (Z.of_nat STORAGE)) in
  if rv r <? 0 then net_err "recvfrom"
  else
    st! peer := st_lift (Done (from_sockaddr t (written STORAGE (out_storage r)))) in
    st_lift (ret (take (Z.to_nat (rv r)) (out_bytes r), peer)).

(** [net.rs] *)
Definition bsd_tcp_stream : TcpStream (World K) :=
  mkTcpStream read write set_nodelay peer_addr local_addr set_read_timeout.
Definition bsd_tcp_listener : TcpListener (World K) := mkTcpListener tcp_accept local_addr.
Definition bsd_unix_stream : UnixStream (World K) := mkUnixStream read write unix_peer_addr unix_local_addr.
Definition bsd_unix_listener : UnixListener (World K) := mkUnixListener unix_accept unix_local_addr.
Definition bsd_udp_socket : UdpSocket (World K) := mkUdpSocket udp_send_to udp_recv_from local_addr.
Definition bsd_net : Net (World K) :=
  mkNet tcp_connect tcp_listen unix_connect unix_listen udp_bind set_nonblocking
    bsd_tcp_stream bsd_tcp_listener bsd_unix_stream bsd_unix_listener bsd_udp_socket.
End net.

(** ** Addresses survive the packing *)

Lemma truncate_zeros path m : existsb (Z.eqb 0) path = false -> truncate_nul (path ++ zeros m) = path.
Proof.
  induction path as [|b path IH]; cbn [app existsb truncate_nul]; [by destruct m|].
  intros [Hb Hp]%orb_false_iff. rewrite Z.eqb_sym, Hb. f_equal. by apply IH.
Qed.

Lemma inet_roundtrip t a : addr_ok a ->
  from_sockaddr t (fst (to_sockaddr t a)) = Ok a /\ length (fst (to_sockaddr t a)) = STORAGE.
Proof.
  destruct a as [ip port|ip port flowinfo scope]; cbn [fst to_sockaddr].
  - intros [Hip Hp]. repeat (destruct ip as [|? ip]; try discriminate Hip). split; [|done].
    rewrite <- (swap16_swap port) at 2 by done.
    rewrite <- (le_val_le_bytes 2 16 (swap16 port)) by first [done|apply swap16_in]. reflexivity.
  - intros (Hip & Hp & Hf & Hs). repeat (destruct ip as [|? ip]; try discriminate Hip).
    split; [|by destruct t]. rewrite <- (swap16_swap port) at 2 by done.
    rewrite <- (le_val_le_bytes 2 16 (swap16 port)) by first [done|apply swap16_in].
    rewrite <- (le_val_le_bytes 4 32 flowinfo) at 2 by done.
    rewrite <- (le_val_le_bytes 4 32 scope) at 2 by done. by destruct t.
Qed.

(** A path laid out as C string: whatever length is reported, so long as it
    reaches the end of the path. *)
Lemma from_un_path hdr path len : existsb (Z.eqb 0) path = false -> zlen path <= SUN_PATH ->
  sun_path_offset < len -> sun_path_offset + zlen path <= len ->
  from_sockaddr_un ([hdr; AF_UNIX] ++ written 104 path) len =
  Ok (match path with [] => None | _ => Some path end).
Proof.
  unfold from_sockaddr_un, sun_path_offset, SUN_PATH. intros H0 Hp H1 H2. rewrite (proj2 (Z.leb_gt len 2)) by lia.
  assert (le_val (field ([hdr; AF_UNIX] ++ written 104 path) 1 1) = AF_UNIX) as -> by done.
  rewrite Z.eqb_refl. cbn [negb]. rewrite written_app by lia.
  set (n := Z.to_nat (Z.min (len - 2) 104)).
  replace (field ([hdr; AF_UNIX] ++ path ++ zeros (104 - length path)) 2 n) with (path ++ zeros (n - length path)).
  2: { unfold field. change (drop 2 _) with (path ++ zeros (104 - length path)).
       rewrite take_app_ge by lia. unfold zeros. rewrite take_replicate.
       do 2 f_equal. lia. }
  rewrite truncate_zeros by done. by destruct path.
Qed.

(** A socket address survives the kernel's layout; a path survives it whatever
    length the kernel reports, from the path's own up to the buffer's and
    beyond; and a buffer nothing was written to is no path. *)
Theorem bsd_sockaddr_roundtrip t a path len : addr_ok a -> sun_path_offset < len ->
  (from_sockaddr t (fst (to_sockaddr t a)) = Ok a /\ length (fst (to_sockaddr t a)) = STORAGE) /\
  from_sockaddr_un ([106; AF_UNIX] ++ zeros 104) len = Ok None /\
  if existsb (Z.eqb 0) path || (SUN_PATH <=? zlen path)
  then exists e, to_sockaddr_un path = Err e /\ kind e = InvalidInput
  else exists addr filled, to_sockaddr_un path = Ok (addr, filled) /\ length addr = 106%nat /\
       filled <= 106 /\ nth 0 addr 0 = filled /\
       (filled <= len + 1 -> from_sockaddr_un addr len = Ok (match path with [] => None | _ => Some path end)).
Proof.
  intros Ha Hlen. split; [by apply inet_roundtrip|].
  split; [apply (from_un_path 106 []); try done; unfold sun_path_offset in *; cbn; lia|].
  unfold to_sockaddr_un. destruct (existsb (Z.eqb 0) path) eqn:E0; [by eexists|]. cbn [orb].
  destruct (SUN_PATH <=? zlen path) eqn:El; bool_to_prop; [by eexists|]. eexists _, _. split; [reflexivity|].
  unfold sun_path_offset, SUN_PATH in *. rewrite (Z.mod_small (2 + zlen path + 1)) by lia. split_and!.
  - unfold written. cbn [app length]. rewrite length_take. unfold zeros. rewrite length_app, length_replicate. lia.
  - lia.
  - done.
  - intros Hf. apply from_un_path; unfold SUN_PATH, sun_path_offset; try done; lia.
Qed.

Lemma bsd_sockaddr_roundtrip_witness :
  let a := V6 (zeros 15 ++ [1]) 443 0 7 in let path := lit "/tmp/s" in
  (from_sockaddr OpenBSD (fst (to_sockaddr OpenBSD a)) = Ok a /\ length (fst (to_sockaddr OpenBSD a)) = STORAGE) /\
  from_sockaddr_un ([106; AF_UNIX] ++ zeros 104) 106 = Ok None /\
  if existsb (Z.eqb 0) path || (SUN_PATH <=? zlen path)
  then exists e, to_sockaddr_un path = Err e /\ kind e = InvalidInput
  else exists addr filled, to_sockaddr_un path = Ok (addr, filled) /\ length addr = 106%nat /\
       filled <= 106 /\ nth 0 addr 0 = filled /\
       (filled <= 106 + 1 -> from_sockaddr_un addr 106 = Ok (match path with [] => None | _ => Some path end)).
Proof. apply bsd_sockaddr_roundtrip; [repeat split; vm_compute; done|done]. Defined.

(** ** Descriptors *)

Section descriptors.
Context (t : Target) {K : Type} (kernel : Call -> K -> K * Ret).
Implicit Types h : gmultiset Z.

Lemma bsd_owns_net_err {A} h op (Q : A -> _) : owns (K := K) h (net_err op) Q h.
Proof. intros w w' r [= <- <-]. exists []. by rewrite app_nil_r. Qed.
Lemma bsd_owns_os_err {A} h op (Q : A -> _) : owns (K := K) h (os_err op) Q h.
Proof. intros w w' r [= <- <-]. exists []. by rewrite app_nil_r. Qed.
Hint Resolve bsd_owns_net_err bsd_owns_os_err : owns.

Lemma bsd_owns_net_unit h c op : released c = None -> (forall r, acquired (c, r) = []) ->
  owns h (net_unit kernel c op) (fun _ => h) h.
Proof. intros Hc Ha. unfold net_unit. eapply owns_bind; [by apply owns_neutral|]. intros. owns_go. Qed.
Hint Extern 2 (owns _ (net_unit _ _ _) _ _) => apply bsd_owns_net_unit; [reflexivity|reflexivity] : owns.

Lemma bsd_owns_set_cloexec h fd : owns h (set_cloexec kernel fd) (fun _ => h) h.
Proof. unfold set_cloexec. owns_go. Qed.
Hint Resolve bsd_owns_set_cloexec : owns.

Lemma bsd_owns_new_socket h f ty : owns h (new_socket kernel f ty) (fun fd => {[+ fd +]} ⊎ h) h.
Proof. unfold new_socket. owns_go. Qed.
Lemma bsd_owns_new_tcp h a : owns h (new_tcp_socket t kernel a) (fun fd => {[+ fd +]} ⊎ h) h.
Proof. apply bsd_owns_new_socket. Qed.
Lemma bsd_owns_new_unix h : owns h (new_unix_socket kernel) (fun fd => {[+ fd +]} ⊎ h) h.
Proof. apply bsd_owns_new_socket. Qed.
Lemma bsd_owns_new_udp h a : owns h (new_udp_socket t kernel a) (fun fd => {[+ fd +]} ⊎ h) h.
Proof. apply bsd_owns_new_socket. Qed.
Hint Resolve bsd_owns_new_tcp bsd_owns_new_unix bsd_owns_new_udp : owns.

Lemma new_socket_ends f ty (w : World K) : snd (new_socket kernel f ty w) <> OutOfFuel.
Proof.
  unfold new_socket, set_cloexec, net_unit, net_err, owned, st_bind, st_lift, syscall.
  destruct (kernel _ _) as [k r]. destruct (rv r <? 0); [done|]. destruct (kernel _ _) as [k2 r2].
  by destruct (rv r2 <? 0).
Qed.

Lemma bsd_owns_is_stale h path : owns h (is_stale_socket kernel path) (fun _ => h) h.
Proof.
  unfold is_stale_socket.
  apply (owns_let_else _ _ false (fun probe w => _) (fun fd => {[+ fd +]} ⊎ h)); [apply bsd_owns_new_unix| |done|].
  - intros w. apply new_socket_ends.
  - intros probe. apply owns_scoped. destruct (to_sockaddr_un path) as [[addr len]|e]; owns_go.
    intros w2 w3 r2 [= <- <-]. exists []. by rewrite app_nil_r.
Qed.
Hint Resolve bsd_owns_is_stale : owns.

Lemma bsd_owns_bind_reclaiming h fd path addr len :
  owns h (bind_reclaiming kernel fd path addr len) (fun _ => h) h.
Proof.
  unfold bind_reclaiming. eapply owns_bind; [by apply owns_neutral|]. intros r. cbv beta.
  destruct (rv r <? 0); [|owns_go]. apply owns_errno.
  - eapply owns_bind; [apply bsd_owns_is_stale|]. intros stale. unfold path_to_cstring. owns_go.
  - intros w w' r' [= <- <-]. exists []. by rewrite app_nil_r.
Qed.
Hint Resolve bsd_owns_bind_reclaiming : owns.

Lemma bsd_owns_sock_addr h c op : released c = None -> (forall r, acquired (c, r) = []) ->
  owns h (sock_addr kernel c op) (fun _ => h) h.
Proof. intros Hc Ha. unfold sock_addr. eapply owns_bind; [by apply owns_neutral|]. intros. owns_go. Qed.
Hint Extern 2 (owns _ (sock_addr _ _ _) _ _) => apply bsd_owns_sock_addr; [reflexivity|reflexivity] : owns.

#[export] Instance bsd_opens_one : OpensOne kernel (bsd_net t kernel).
Proof.
  constructor; intros; cbn.
  - unfold tcp_connect. destruct (to_sockaddr _ a). owns_go.
  - unfold tcp_listen. destruct (to_sockaddr _ a). owns_go.
  - unfold unix_connect. destruct (to_sockaddr_un p) as [[b l]|]; owns_go.
  - unfold unix_listen, path_to_cstring. destruct (to_sockaddr_un p) as [[b l]|]; owns_go.
  - unfold udp_bind. destruct (to_sockaddr _ a). owns_go.
  - unfold read. owns_go.
  - unfold write. owns_go.
  - unfold peer_addr. owns_go.
  - unfold unix_peer_addr. owns_go.
  - unfold set_read_timeout. owns_go.
  - unfold set_nonblocking. owns_go.
  - unfold udp_send_to. destruct (to_sockaddr _ a). owns_go.
  - unfold udp_recv_from. owns_go.
  - unfold set_nodelay. owns_go.
  - unfold local_addr. owns_go.
  - unfold local_addr. owns_go.
  - unfold read. owns_go.
  - unfold write. owns_go.
  - unfold unix_local_addr. owns_go.
  - unfold unix_local_addr. owns_go.
  - unfold local_addr. owns_go.
Qed.

#[export] Instance bsd_accepts_cleanly : AcceptsCleanly kernel (bsd_net t kernel).
Proof. constructor; intros; cbn; [unfold tcp_accept|unfold unix_accept]; owns_go. Qed.
End descriptors.

(** ** Close-on-exec, in a second call *)

(** Each descriptor the kernel hands over is marked by the very next call. *)
Fixpoint cloexec_next (l : list (Call * Ret)) : Prop :=
  match l with
  | [] => True
  | e :: l' =>
    match acquired e with
    | fd :: _ => match l' with (c, _) :: _ => c = c_fcntl_setfd fd FD_CLOEXEC | [] => False end
    | [] => True
    end /\ cloexec_next l'
  end.

#[export] Instance cloexec_law : LogLaw cloexec_next.
Proof.
  split; [done| |done]. intros l1 l2 H1 H2. induction l1 as [|e l1 IH]; [done|]. cbn [app cloexec_next] in *.
  destruct H1 as [He H1]. split; [|by apply IH]. destruct (acquired e); [done|]. by destruct l1.
Qed.

Section cloexec.
Context (t : Target) {K : Type} (kernel : Call -> K -> K * Ret).
Abbreviation M A := (World K -> World K * Run A).
Abbreviation marked := (logs cloexec_next).

Lemma marked_sys c : (forall r, acquired (c, r) = []) -> marked (syscall kernel c).
Proof. intros Hc. apply logs_sys. intros r. cbn [cloexec_next]. by rewrite Hc. Qed.

Lemma marked_err {A} op : marked (net_err (A := A) (K := K) op).
Proof. by apply (logs_pure (P := cloexec_next)). Qed.

Lemma marked_unit c op : (forall r, acquired (c, r) = []) -> marked (net_unit kernel c op).
Proof.
  intros Hc. unfold net_unit. apply (logs_bind (P := cloexec_next)); [by apply marked_sys|]. intros r.
  destruct (rv r <? 0); [apply marked_err|apply (logs_lift (P := cloexec_next))].
Qed.

(** The calls [m] makes are marked, and what it returns satisfies [Q]. *)
Definition yields {A} (m : M A) (Q : list (Call * Ret) -> A -> Prop) : Prop :=
  traces m (fun l r => cloexec_next l /\ match r with ret a => Q l a | _ => True end).
Definition gave (fd : Z) (l : list (Call * Ret)) : Prop :=
  exists x, (c_fcntl_setfd fd FD_CLOEXEC, x) ∈ l /\ 0 <= rv x.

Lemma yields_ret {A} (a : A) (Q : _ -> A -> Prop) : Q [] a -> yields (st_lift (ret a)) Q.
Proof. intros H. by apply traces_lift. Qed.

Lemma yields_result {A} (r : Result A) : yields (st_lift (Done r)) (fun _ _ => True).
Proof. apply traces_lift. by destruct r. Qed.

Lemma yields_marked {A} (m : M A) : marked m -> yields m (fun _ _ => True).
Proof. intros H. eapply traces_weaken; [exact H|]. by intros l [[]| |] ?. Qed.

(** [Q] of a result does not care for what was called before. *)
Lemma yields_bind {A B} (m : M A) (k : A -> M B) P (Q : list (Call * Ret) -> B -> Prop) :
  yields m P -> (forall a, yields (k a) (fun l b => forall l1, P l1 a -> Q (l1 ++ l) b)) -> yields (st_bind m k) Q.
Proof.
  intros Hm Hk. unfold yields in *. eapply traces_bind; [exact Hm| |].
  - intros l a [Hl Ha]. cbn in Ha. eapply traces_weaken; [apply Hk|]. cbn. intros l2 r [H2 HQ].
    split; [by apply law_app|]. destruct r as [[b|]| |]; [by apply HQ|done..].
  - intros l r [Hl _] Hr. split; [done|]. destruct r as [[a|e]| |]; [by destruct (Hr a)|done..].
Qed.

Lemma yields_owned {A} fd (m : M A) Q : yields m Q -> yields (owned kernel fd m) Q.
Proof.
  intros Hm. apply traces_owned. eapply traces_weaken; [exact Hm|]. cbn. intros l r [Hl HQ].
  destruct r as [[a|e]| |]; [done| | |done]; intros rc; (split; [|done]); by apply law_app.
Qed.

(** A descriptor made and given to [set_cloexec] before anything else. *)
Lemma yields_open {A} c op (k : Ret -> M A) (proj : A -> Z) :
  (forall r, acquired (c, r) = if 0 <=? rv r then [rv r] else []) ->
  (forall r, yields (k r) (fun _ a => proj a = rv r)) ->
  yields (st! r := syscall kernel c in
    if rv r <? 0 then net_err op
    else owned kernel (rv r) (st! _ := set_cloexec kernel (rv r) in k r)) (fun l a => gave (proj a) l).
Proof.
  intros Hc Hk. apply traces_sys. intros r. destruct (rv r <? 0) eqn:Er; bool_to_prop.
  { apply traces_fail. intros e. cbn [cloexec_next]. rewrite Hc, (proj2 (Z.leb_gt 0 (rv r))) by lia. done. }
  apply traces_owned. unfold set_cloexec, net_unit.
  eapply traces_weaken with (T := fun l (r0 : Run A) => cloexec_next l /\
    exists x l', l = (c_fcntl_setfd (rv r) FD_CLOEXEC, x) :: l' /\
      match r0 with ret a => proj a = rv r /\ 0 <= rv x | _ => True end).
  - intros w. unfold st_bind, syscall, st_lift, net_err. destruct (kernel _ _) as [k1 x].
    destruct (rv x <? 0) eqn:Ex; bool_to_prop; cbn [fst snd log].
    { eexists. split; [reflexivity|]. split; [done|]. by eexists _, _. }
    destruct (Hk r (mkWorld k1 (log w ++ [(c_fcntl_setfd (rv r) FD_CLOEXEC, x)]))) as (l & Hl & Hm & Hp).
    exists ((c_fcntl_setfd (rv r) FD_CLOEXEC, x) :: l). rewrite Hl. cbn [log]. rewrite <- app_assoc. split; [done|].
    split; [done|]. eexists _, _. split; [reflexivity|]. by destruct (snd _) as [[a|]| |].
  - intros l r0 (Hl & x & l' & -> & H0).
    assert (forall l2, cloexec_next (((c_fcntl_setfd (rv r) FD_CLOEXEC, x) :: l') ++ l2) ->
      cloexec_next ((c, r) :: ((c_fcntl_setfd (rv r) FD_CLOEXEC, x) :: l') ++ l2)) as Hcons.
    { intros l2 H2. cbn [app cloexec_next] in *. rewrite Hc. by destruct (0 <=? rv r). }
    destruct r0 as [[a|e]| |].
    + rewrite <- (app_nil_r (_ :: l')). split; [apply Hcons; by rewrite app_nil_r|]. destruct H0 as [-> Hx].
      exists x. split; [|done]. rewrite app_nil_r. by repeat constructor.
    + intros rc. split; [|done]. by apply Hcons, law_app.
    + intros rc. split; [|done]. by apply Hcons, law_app.
    + rewrite <- (app_nil_r (_ :: l')). split; [apply Hcons; by rewrite app_nil_r|done].
Qed.

Lemma yields_new_socket f ty : yields (new_socket kernel f ty) (fun l fd => gave fd l).
Proof.
  apply (yields_open _ _ (fun r => st_lift (ret (rv r))) (fun fd => fd)); [done|]. intros r. by apply yields_ret.
Qed.
Lemma marked_new_socket f ty : marked (new_socket kernel f ty).
Proof. eapply traces_weaken; [apply yields_new_socket|]. by intros l r [H _]. Qed.

Lemma marked_is_stale path : marked (is_stale_socket kernel path).
Proof.
  eapply (logs_ext (P := cloexec_next)).
  - apply (logs_next (P := cloexec_next) _ (fun r => match r with
      | ret probe => scoped kernel probe
          (match to_sockaddr_un path with
           | Err _ => st_lift (ret false)
           | Ok (addr, len) =>
             st! r := syscall kernel (c_connect probe addr len) in
             if rv r =? 0 then st_lift (ret false) else fun w => (w, ret (errno w =? ECONNREFUSED))
           end)
      | _ => st_lift (ret false) end) (marked_new_socket AF_UNIX SOCK_STREAM)).
    intros [[a|e]| |]; try by apply (logs_pure (P := cloexec_next)). apply (logs_scoped _ (P := cloexec_next)).
    destruct (to_sockaddr_un path) as [[addr len]|e]; [|by apply (logs_pure (P := cloexec_next))].
    apply (logs_bind (P := cloexec_next)); [by apply marked_sys|]. intros r.
    destruct (rv r =? 0); by apply (logs_pure (P := cloexec_next)).
  - intros w. unfold is_stale_socket, new_unix_socket. by destruct (new_socket kernel AF_UNIX SOCK_STREAM w) as [w' [[a|e]| |]].
Qed.

Lemma marked_bind_reclaiming fd path addr len : marked (bind_reclaiming kernel fd path addr len).
Proof.
  unfold bind_reclaiming, path_to_cstring. apply (logs_bind (P := cloexec_next)); [by apply marked_sys|]. intros r.
  destruct (rv r <? 0); [|apply (logs_lift (P := cloexec_next))].
  apply (logs_errno (P := cloexec_next) EADDRINUSE _ (st_lift (ret (rv r)))); [|apply (logs_lift (P := cloexec_next))].
  apply (logs_bind (P := cloexec_next)); [apply marked_is_stale|]. intros stale.
  destruct stale; repeat (apply (logs_bind (P := cloexec_next)); [first [by apply marked_sys|apply (logs_lift (P := cloexec_next))]|intros]);
    apply (logs_lift (P := cloexec_next)).
Qed.

(** What follows the opening: marked steps, then the descriptor. *)
Lemma yields_step {A B} (m : M A) (k : A -> M B) (Q : B -> Prop) :
  marked m -> (forall a, yields (k a) (fun _ => Q)) -> yields (st_bind m k) (fun _ => Q).
Proof.
  intros Hm Hk. eapply yields_bind; [by apply yields_marked|]. intros a.
  eapply traces_weaken; [apply Hk|]. cbn. intros l r [Hl HQ]. split; [done|]. by destruct r as [[b|]| |].
Qed.

Lemma yields_err {A} op (Q : A -> Prop) : yields (net_err (K := K) (A := A) op) (fun _ => Q).
Proof. by apply traces_fail. Qed.

Lemma opened {A} f ty (body : Z -> M A) (proj : A -> Z) :
  (forall fd, yields (body fd) (fun _ a => proj a = fd)) ->
  yields (st! fd := new_socket kernel f ty in owned kernel fd (body fd)) (fun l a => gave (proj a) l).
Proof.
  intros Hb. eapply yields_bind; [apply yields_new_socket|]. intros fd. apply yields_owned.
  eapply traces_weaken; [apply Hb|]. cbn. intros l r [Hl HQ]. split; [done|]. destruct r as [[a|]| |]; [|done..].
  intros l1 (x & Hx & H0). rewrite HQ. exists x. split; [|done]. apply elem_of_app. by left.
Qed.

Ltac yields_go := repeat first
  [ apply yields_step; [first [by apply marked_unit|by apply marked_sys|apply marked_bind_reclaiming|apply (logs_lift (P := cloexec_next))]|intros]
  | apply yields_ret; reflexivity | apply yields_err
  | match goal with
    | |- yields (let (_, _) := ?x in _) _ => destruct x
    | |- yields (if ?b then _ else _) _ => destruct b
    end ].

(** C10: Every socket the backend makes or accepts is marked close-on-exec by the
    call right after the one that made it, the probe of [unix_listen]
    included; and one it returns was marked with success. *)
Theorem bsd_marks_cloexec addr path fd :
  yields (tcp_connect t kernel addr) (fun l s => gave s l) /\
  yields (tcp_listen t kernel addr) (fun l s => gave s l) /\
  yields (unix_connect kernel path) (fun l s => gave s l) /\
  yields (unix_listen kernel path) (fun l s => gave s l) /\
  yields (udp_bind t kernel addr) (fun l s => gave s l) /\
  yields (tcp_accept t kernel fd) (fun l p => gave p.1 l) /\
  yields (unix_accept kernel fd) (fun l p => gave p.1 l).
Proof.
  split_and!.
  - apply (opened _ _ _ (fun s => s)). intros s. yields_go.
  - apply (opened _ _ _ (fun s => s)). intros s. yields_go.
  - apply (opened _ _ _ (fun s => s)). intros s. yields_go.
  - apply (opened _ _ _ (fun s => s)). intros s. yields_go.
  - apply (opened _ _ _ (fun s => s)). intros s. yields_go.
  - apply (yields_open _ _ _ fst); [done|]. intros r. yields_go.
  - apply (yields_open _ _ _ fst); [done|]. intros r. yields_go.
Qed.
End cloexec.

(** ** [unix_listen] and stale sockets *)

(** The kernel of [LinuxNet]'s examples, with the numbers of the BSDs. *)
Definition bsd_one_path (c : Call) (k : OnePath) : OnePath * Ret :=
  let (k', r) := one_path c k in
  (k', mkRet (rv r) (if err r =? Sys.ECONNREFUSED then ECONNREFUSED
                     else if err r =? Sys.EADDRINUSE then EADDRINUSE else err r) (out r)).
Definition bsd_run_addr : list Z := [9; AF_UNIX] ++ written 104 run_path.

(** [unix_listen] always ends, in at most twelve system calls, whatever the
    kernel answers; the only name it ever removes is the path it was given, and
    only after a probe connection to that path was refused and its socket
    closed; and when it returns a listener, the last three calls bound that
    descriptor to the path, narrowed the file to mode 0600 and started
    listening, in this order and all with success. *)
Lemma bsd_unix_listen_reclaims_only_dead {K} (kernel : Call -> K -> K * Ret) path (w : World K) addr len :
  to_sockaddr_un path = Ok (addr, len) ->
  exists w' r l, unix_listen kernel path w = (w', r) /\ log w' = log w ++ l /\
  (length l <= 12)%nat /\ unlinks_only_dead ECONNREFUSED path addr len None None l /\
  match r with
  | ret fd => bound_private SOMAXCONN path addr len fd l
  | fail _ => True
  | _ => False
  end.
Proof.
  intros E. assert (existsb (Z.eqb 0) path = false) as E0.
  { unfold to_sockaddr_un in E. by destruct (existsb _ _). }
  unfold unix_listen, owned, bind_reclaiming, is_stale_socket, new_unix_socket, new_socket, scoped, set_cloexec, owned,
    net_unit, net_err, path_to_cstring, to_cstring, drop_fd, syscall, st_bind, st_lift.
  rewrite E0, !E. destruct w as [k0 l0]. cbn [state log].
  repeat first [call1 kernel; cbv beta iota zeta|branch; cbv beta iota zeta].
  all: rewrite <- ?app_assoc; cbn [app]; eexists _, _, _; (split; [reflexivity|]); (split; [reflexivity|]).
  all: split; [cbn; lia|]; cbn [unlinks_only_dead fst snd]; (split; [|try done; try lia]).
  all: unfold refused_probe, is_close.
  all: try (repeat split; eauto 8; fail).
  all: unfold bound_private.
  all: match goal with |- exists l0 rb rc rl, ?l = _ /\ _ =>
    let n := eval cbv in (length l - 3)%nat in exists (take n l) end.
  all: eexists _, _, _; (split; [reflexivity|]); by repeat constructor.
Qed.

Lemma bsd_unix_listen_reclaims_only_dead_witness :
  exists w' r l,
    unix_listen bsd_one_path run_path (mkWorld (mkOnePath Dead (fun b => b) 3 0) []) = (w', r) /\
    log w' = [] ++ l /\ (length l <= 12)%nat /\
    unlinks_only_dead ECONNREFUSED run_path bsd_run_addr 9 None None l /\
    match r with
    | ret fd => bound_private SOMAXCONN run_path bsd_run_addr 9 fd l
    | fail _ => True
    | _ => False
    end.
Proof. apply (bsd_unix_listen_reclaims_only_dead bsd_one_path run_path). vm_compute. reflexivity. Defined.
