(* ===== verification/LinuxSecurity.v ===== *)
(** * Randomness and the sandbox of the Linux backend
      ([platform-linux/src/sys/security.rs], [platform-linux/src/security.rs])

    [getrandom] with its retries, the Landlock rule set and the seccomp
    program.  The program is data, so its meaning is given here by a small
    interpreter of classic BPF over the 64 bytes of [struct seccomp_data]. *)

From Stdlib Require Import ZArith Lia String.
From S2P Require Import Prelude Error Sys MockDevices.
From stdpp Require Import base numbers list strings gmap gmultiset.
Open Scope Z_scope.

Definition errno_err (op : string) (code : Z) : PlatformError :=
  error_new (if code =? ENOSYS then Unsupported else Other) (Errno code) op.

(** Access rights of Landlock's ABI v1. *)
Definition LANDLOCK_RULE_PATH_BENEATH := 1.
Definition ACCESS_FS_EXECUTE := 1.
Definition ACCESS_FS_WRITE_FILE := 2.
Definition ACCESS_FS_READ_FILE := 4.
Definition ACCESS_FS_READ_DIR := 8.
Definition ABI_V1_ALL_ACCESS : Z := fold_right Z.lor 0 (map (Z.shiftl 1) (seqZ 0 13)).
Definition READ_ONLY_ACCESS : Z :=
  Z.lor (Z.lor ACCESS_FS_EXECUTE ACCESS_FS_READ_FILE) ACCESS_FS_READ_DIR.
Definition PR_SET_NO_NEW_PRIVS := 38.

(** ** The seccomp program *)

Definition BPF_LD := 0.
Definition BPF_JMP := 5.
Definition BPF_RET := 6.
Definition BPF_W := 0.
Definition BPF_ABS := 32.
Definition BPF_JEQ := 16.
Definition BPF_K := 0.
Definition SECCOMP_RET_KILL_PROCESS := 2147483648.
Definition SECCOMP_RET_ERRNO := 327680.
Definition SECCOMP_RET_ALLOW := 2147418112.
Definition SECCOMP_RET_DATA := 65535.
Definition SYS_socket := 41.
Definition AF_INET := 2.
Definition AF_INET6 := 10.
Definition AF_PACKET := 17.
Definition AUDIT_ARCH_X86_64 := 3221225534.   (* 0xC000003E *)
Definition SECCOMP_DATA_NR_OFFSET := 0.
Definition SECCOMP_DATA_ARCH_OFFSET := 4.
Definition SECCOMP_DATA_ARG0_OFFSET := 16.

Definition bpf_stmt (code k : Z) : sock_filter := mkFilter (wrap 16 code) 0 0 k.
Definition bpf_jump (code k jt jf : Z) : sock_filter := mkFilter (wrap 16 code) jt jf k.

Definition build_seccomp_program : list sock_filter :=
  let ld_w_abs := Z.lor (Z.lor BPF_LD BPF_W) BPF_ABS in
  let jmp_jeq_k := Z.lor (Z.lor BPF_JMP BPF_JEQ) BPF_K in
  let ret_k := Z.lor BPF_RET BPF_K in
  [bpf_stmt ld_w_abs SECCOMP_DATA_ARCH_OFFSET;
   bpf_jump jmp_jeq_k AUDIT_ARCH_X86_64 0 8;
   bpf_stmt ld_w_abs SECCOMP_DATA_NR_OFFSET;
   bpf_jump jmp_jeq_k SYS_socket 0 4;
   bpf_stmt ld_w_abs SECCOMP_DATA_ARG0_OFFSET;
   bpf_jump jmp_jeq_k AF_INET 3 0;
   bpf_jump jmp_jeq_k AF_INET6 2 0;
   bpf_jump jmp_jeq_k AF_PACKET 1 0;
   bpf_stmt ret_k SECCOMP_RET_ALLOW;
   bpf_stmt ret_k (Z.lor SECCOMP_RET_ERRNO (Z.land EPERM SECCOMP_RET_DATA));
   bpf_stmt ret_k SECCOMP_RET_KILL_PROCESS].

(** ** Operations *)

Section security.
Context {K : Type} (kernel : Call -> K -> K * Ret).
Abbreviation M A := (World K -> World K * Run A).
Abbreviation sys c := (syscall kernel c).

Definition last_error {A} (op : string) : M A := fun w => (w, fail (errno_err op (errno w))).

(** [fill_random]: the buffer, [filled] bytes of it done.  The syscall
    writes [out_bytes] at the front of [buf[filled..]]; the slice panics when
    [filled] is past the end. *)
Fixpoint fill_loop (fuel : nat) (filled : Z) (buf : list Z) : M (list Z) :=
  if filled <? zlen buf then
    match fuel with
    | O => st_lift OutOfFuel
    | S fuel =>
      st! r := sys (c_getrandom (zlen buf - filled) 0) in
      let buf := overwrite buf (Z.to_nat filled) (out_bytes r) in
      if rv r <? 0 then
        if err r =? EINTR then fill_loop fuel filled buf
        else st_lift (fail (errno_err "getrandom" (err r)))
      else fill_loop fuel (filled + rv r) buf
    end
  else st_lift (ret buf).

Definition fill_random (fuel : nat) (buf : list Z) : M (list Z) := fill_loop fuel 0 buf.

(** Landlock.  Raw descriptors here, closed by hand. *)
Definition open_path_fd (path : OsString) : M Z :=
  st! c_path := st_lift (to_cstring path
    (with_path (error_new InvalidInput NoCode "confine_filesystem") path)) in
  st! r := sys (c_open c_path (Z.lor O_PATH O_CLOEXEC)) in
  if rv r <? 0 then st_lift (fail (with_path (errno_err "open" (err r)) path))
  else st_lift (ret (rv r)).

Definition set_no_new_privs : M unit :=
  st! r := sys (c_prctl PR_SET_NO_NEW_PRIVS 1) in
  if rv r <? 0 then last_error "prctl(PR_SET_NO_NEW_PRIVS)" else st_lift (ret tt).

Definition create_ruleset : M (option Z) :=
  st! r := sys (c_landlock_create_ruleset ABI_V1_ALL_ACCESS) in
  if rv r <? 0 then
    if (err r =? ENOSYS) || (err r =? EOPNOTSUPP) then st_lift (ret None)
    else st_lift (fail (errno_err "landlock_create_ruleset" (err r)))
  else st_lift (ret (Some (rv r))).

Definition add_rule (ruleset_fd : Z) (path : OsString) (allowed_access : Z) : M unit :=
  st! parent_fd := open_path_fd path in
  st! r := sys (c_landlock_add_rule ruleset_fd LANDLOCK_RULE_PATH_BENEATH allowed_access parent_fd) in
  st! _ := sys (c_close parent_fd) in
  if rv r <? 0 then st_lift (fail (with_path (errno_err "landlock_add_rule" (err r)) path))
  else st_lift (ret tt).

Fixpoint add_rules (ruleset_fd : Z) (roots : list OsString) (allowed_access : Z) : M unit :=
  match roots with
  | [] => st_lift (ret tt)
  | root :: roots =>
    st! _ := add_rule ruleset_fd root allowed_access in
    add_rules ruleset_fd roots allowed_access
  end.

Definition confine_filesystem (readable_roots writable_roots : list OsString) : M SandboxStatus :=
  st! ruleset := create_ruleset in
  match ruleset with
  | None => st_lift (ret NotEnforced)
  | Some ruleset_fd =>
    scoped kernel ruleset_fd
      (st! _ := add_rules ruleset_fd readable_roots READ_ONLY_ACCESS in
       st! _ := add_rules ruleset_fd writable_roots ABI_V1_ALL_ACCESS in
       st! _ := set_no_new_privs in
       st! r := sys (c_landlock_restrict_self ruleset_fd) in
       if rv r <? 0 then last_error "landlock_restrict_self" else st_lift (ret Enforced))
  end.

Definition block_inet_sockets : M SandboxStatus :=
  st! _ := set_no_new_privs in
  st! r := sys (c_prctl_seccomp build_seccomp_program) in
  if rv r <? 0 then
    if err r =? ENOSYS then st_lift (ret NotEnforced)
    else st_lift (fail (errno_err "prctl(PR_SET_SECCOMP)" (err r)))
  else st_lift (ret Enforced).
End security.

(** ** Classic BPF, as seccomp runs it

    The data are read 32 bits at a time, in the machine's byte order, at an
    aligned offset inside the structure.  [None] is a program the kernel
    would not have accepted: an unknown opcode, a load out of bounds, or the
    end of the program reached without a return. *)

Record seccomp_data := mkData { nr : Z; arch : Z; instruction_pointer : Z; args : list Z }.

Definition data_bytes (d : seccomp_data) : list Z :=
  le_bytes 4 (nr d) ++ le_bytes 4 (arch d) ++ le_bytes 8 (instruction_pointer d) ++
  concat (map (le_bytes 8) (args d)).

Definition load32 (bs : list Z) (off : Z) : option Z :=
  if (0 <=? off) && (off mod 4 =? 0) && (off + 4 <=? zlen bs)
  then Some (le_val (take 4 (drop (Z.to_nat off) bs))) else None.

Fixpoint bpf_run (fuel : nat) (prog : list sock_filter) (pc : nat) (A : Z) (data : list Z) : option Z :=
  match fuel with
  | O => None
  | S fuel =>
    match prog !! pc with
    | None => None
    | Some i =>
      if bf_code i =? 32 then
        match load32 data (bf_k i) with
        | Some A => bpf_run fuel prog (pc + 1) A data
        | None => None
        end
      else if bf_code i =? 21 then
        bpf_run fuel prog (pc + 1 + Z.to_nat (if A =? bf_k i then bf_jt i else bf_jf i)) A data
      else if bf_code i =? 6 then Some (bf_k i)
      else None
    end
  end.

Definition verdict (prog : list sock_filter) (d : seccomp_data) : option Z :=
  bpf_run (length prog) prog 0 0 (data_bytes d).

(** ** What the filter decides *)

Definition data_ok (d : seccomp_data) : Prop :=
  in_u 32 (nr d) /\ in_u 32 (arch d) /\ in_u 64 (instruction_pointer d) /\
  length (args d) = 6%nat /\ Forall (in_u 64) (args d).

(** The policy, as the comment on the builder states it. *)
Definition inet_policy (d : seccomp_data) : Z :=
  if negb (arch d =? AUDIT_ARCH_X86_64) then SECCOMP_RET_KILL_PROCESS
  else if negb (nr d =? SYS_socket) then SECCOMP_RET_ALLOW
  else if existsb (Z.eqb (wrap 32 (nth 0 (args d) 0))) [AF_INET; AF_INET6; AF_PACKET]
  then Z.lor SECCOMP_RET_ERRNO EPERM
  else SECCOMP_RET_ALLOW.

Lemma le_bytes_low n m x : take n (le_bytes (n + m) x) = le_bytes n x.
Proof. revert x. induction n as [|n IH]; intros x; [done|]. cbn. by rewrite IH. Qed.

Lemma le_val_wrap n x : le_val (le_bytes n x) = wrap (8 * Z.of_nat n) x.
Proof.
  unfold wrap. revert x. induction n as [|n IH]; intros x; [cbn; by rewrite Z.mod_1_r|].
  cbn [le_bytes le_val]. rewrite IH.
  replace (8 * Z.of_nat (S n)) with (8 + 8 * Z.of_nat n) by lia.
  rewrite Z.pow_add_r by lia. change (2 ^ 8) with 256.
  rewrite Z.rem_mul_r by lia. lia.
Qed.

Lemma data_fields d : data_ok d ->
  load32 (data_bytes d) 4 = Some (arch d) /\ load32 (data_bytes d) 0 = Some (nr d) /\
  load32 (data_bytes d) 16 = Some (wrap 32 (nth 0 (args d) 0)).
Proof.
  destruct d as [n a ip [|x xs]]; unfold data_ok; cbn [nr arch instruction_pointer args];
    intros (Hn & Ha & _ & Hl & _); [done|].
  unfold load32, data_bytes. cbn [nr arch instruction_pointer args map concat nth].
  set (rest := concat (map (le_bytes 8) xs)).
  rewrite !(proj2 (Z.leb_le _ _)) by (autorewrite with rust_rw; lia).
  pose proof (le_val_wrap 4 n) as En. pose proof (le_val_wrap 4 a) as Ea.
  rewrite wrap_small in En, Ea by done.
  split; [|split]; (etransitivity; [|apply f_equal; first [exact Ea|exact En|exact (le_val_wrap 4 x)]]); done.
Qed.

(** One instruction at a time. *)
Lemma bpf_ld f prog pc A data jt jf k v :
  prog !! pc = Some (mkFilter 32 jt jf k) -> load32 data k = Some v ->
  bpf_run (S f) prog pc A data = bpf_run f prog (pc + 1) v data.
Proof. cbn -[load32]. intros -> E. cbn -[load32]. by rewrite E. Qed.

Lemma bpf_jeq f prog pc A data jt jf k :
  prog !! pc = Some (mkFilter 21 jt jf k) ->
  bpf_run (S f) prog pc A data
  = if A =? k then bpf_run f prog (pc + 1 + Z.to_nat jt) A data
    else bpf_run f prog (pc + 1 + Z.to_nat jf) A data.
Proof. cbn -[load32]. intros ->. cbn -[load32]. by destruct (A =? k). Qed.

Lemma bpf_ret f prog pc A data jt jf k :
  prog !! pc = Some (mkFilter 6 jt jf k) -> bpf_run (S f) prog pc A data = Some k.
Proof. cbn -[load32]. by intros ->. Qed.

(** The program returns on every [struct seccomp_data], with the policy's
    verdict. *)
Lemma seccomp_policy d : data_ok d ->
  verdict build_seccomp_program d = Some (inet_policy d).
Proof.
  intros H. destruct (data_fields d H) as (Ea & En & Ex).
  unfold verdict, inet_policy. change (length build_seccomp_program) with 11%nat.
  generalize dependent (data_bytes d). intros data Ea En Ex.
  erewrite bpf_ld; [|reflexivity|exact Ea]. erewrite bpf_jeq by reflexivity.
  destruct (arch d =? _); [|by erewrite bpf_ret].
  erewrite bpf_ld; [|reflexivity|exact En]. erewrite bpf_jeq by reflexivity.
  destruct (nr d =? _); [|by erewrite bpf_ret].
  erewrite bpf_ld; [|reflexivity|exact Ex]. cbn [negb existsb].
  do 3 (erewrite bpf_jeq by reflexivity; destruct (_ =? _); [by erewrite bpf_ret|]).
  by erewrite bpf_ret.
Qed.

Definition inet_socket (nr : Z) : seccomp_data := mkData nr AUDIT_ARCH_X86_64 0 [AF_INET; 1; 0; 0; 0; 0].

(** The x32 system calls run under the same architecture with bit 30 of their
    number set: the filter lets [socket(AF_INET, ..)] through when it is
    asked for by its x32 number. *)
Example seccomp_x32_socket :
  verdict build_seccomp_program (inet_socket (Z.lor 1073741824 SYS_socket)) = Some SECCOMP_RET_ALLOW.
Proof. vm_compute. reflexivity. Qed.

(** ** What confinement asks of the kernel *)

Section confine.
Context {K : Type} (kernel : Call -> K -> K * Ret).

(** One rule: the root opened, the rule added for that descriptor, the
    descriptor closed. *)
Definition rule_added (rs : Z) (allowed : Z) (root : OsString) (l : list (Call * Ret)) : Prop :=
  exists ro ra rc, 0 <= rv ro /\ 0 <= rv ra /\
  l = [(c_open root (Z.lor O_PATH O_CLOEXEC), ro);
       (c_landlock_add_rule rs LANDLOCK_RULE_PATH_BENEATH allowed (rv ro), ra);
       (c_close (rv ro), rc)].

Inductive rules_added (rs allowed : Z) : list OsString -> list (Call * Ret) -> Prop :=
  | rules_nil : rules_added rs allowed [] []
  | rules_cons root roots l1 l2 : rule_added rs allowed root l1 -> rules_added rs allowed roots l2 ->
      rules_added rs allowed (root :: roots) (l1 ++ l2).

(** The thread was not restricted by this call. *)
Definition lenient (e : Call * Ret) : Prop :=
  match fst e with c_landlock_restrict_self _ | c_prctl_seccomp _ => rv (snd e) < 0 | _ => True end.

(** The whole exchange of a successful confinement. *)
Definition confined (readable writable : list OsString) (l : list (Call * Ret)) : Prop :=
  exists rc lr lw rp rr rx,
  l = (c_landlock_create_ruleset ABI_V1_ALL_ACCESS, rc) ::
      lr ++ lw ++ [(c_prctl PR_SET_NO_NEW_PRIVS 1, rp); (c_landlock_restrict_self (rv rc), rr);
                   (c_close (rv rc), rx)] /\
  0 <= rv rc /\ 0 <= rv rp /\ 0 <= rv rr /\
  rules_added (rv rc) READ_ONLY_ACCESS readable lr /\ rules_added (rv rc) ABI_V1_ALL_ACCESS writable lw.

Lemma no_new_privs_trace : traces (set_no_new_privs kernel)
  (outcome lenient (fun _ l => exists r, 0 <= rv r /\ l = [(c_prctl PR_SET_NO_NEW_PRIVS 1, r)])).
Proof.
  unfold set_no_new_privs, last_error. repeat trace_step; cbn; [|eauto]. by repeat constructor.
Qed.

Lemma open_trace root : traces (open_path_fd kernel root)
  (outcome lenient (fun fd l => exists ro, 0 <= rv ro /\ fd = rv ro /\
    l = [(c_open root (Z.lor O_PATH O_CLOEXEC), ro)])).
Proof.
  unfold open_path_fd, to_cstring. apply traces_pure.
  - intros a E. assert (a = root) as -> by (by destruct (existsb _ root); simplify_eq).
    repeat trace_step; cbn; [|eauto]. by repeat constructor.
  - by destruct (existsb _ root); [constructor|intros H; destruct (H root)].
Qed.

Lemma add_rule_trace rs root allowed : traces (add_rule kernel rs root allowed)
  (outcome lenient (fun _ => rule_added rs allowed root)).
Proof.
  unfold add_rule. eapply traces_then; [apply open_trace| |done].
  intros l fd (ro & Ho & -> & ->). repeat trace_step; cbn; [by repeat constructor|].
  do 3 eexists. split; [|split; [|reflexivity]]; done.
Qed.

Lemma add_rules_trace rs allowed roots : traces (add_rules kernel rs roots allowed)
  (outcome lenient (fun _ => rules_added rs allowed roots)).
Proof.
  induction roots as [|root roots IH]; cbn [add_rules]; [apply traces_lift; constructor|].
  eapply traces_then; [apply add_rule_trace| |done]. intros l [] Hl.
  eapply traces_weaken; [apply IH|]. intros l2 [[[]|e]| |] H; cbn in *; [by constructor| |done..].
  apply Forall_app. split; [|done]. destruct Hl as (? & ? & ? & _ & _ & ->). by repeat constructor.
Qed.

Lemma rules_lenient rs allowed roots l : rules_added rs allowed roots l -> Forall lenient l.
Proof.
  induction 1 as [|root roots l1 l2 Hl _ IH]; [constructor|]. apply Forall_app. split; [|done].
  destruct Hl as (? & ? & ? & _ & _ & ->). by repeat constructor.
Qed.

Lemma owns_last_error {A} h op (Q : A -> _) : owns h (last_error (K := K) op) Q h.
Proof. intros w w' r [= <- <-]. exists []. by rewrite app_nil_r. Qed.
Hint Resolve owns_last_error : owns.

Lemma owns_no_new_privs h : owns h (set_no_new_privs kernel) (fun _ => h) h.
Proof. unfold set_no_new_privs. owns_go. Qed.
Hint Resolve owns_no_new_privs : owns.

Lemma owns_add_rule h rs root a : owns h (add_rule kernel rs root a) (fun _ => h) h.
Proof.
  unfold add_rule. apply (owns_bind _ _ _ (fun fd => {[+ fd +]} ⊎ h)).
  - unfold open_path_fd, to_cstring. owns_go.
  - intros fd. owns_go.
Qed.
Hint Resolve owns_add_rule : owns.

Lemma owns_add_rules h rs roots a : owns h (add_rules kernel rs roots a) (fun _ => h) h.
Proof. induction roots as [|root roots IH]; cbn [add_rules]; owns_go. Qed.
Hint Resolve owns_add_rules : owns.

Lemma owns_confine h readable writable :
  owns h (confine_filesystem kernel readable writable) (fun _ => h) h.
Proof.
  unfold confine_filesystem, create_ruleset.
  apply (owns_bind _ _ _ (fun o => match o with Some fd => {[+ fd +]} ⊎ h | None => h end)).
  - owns_go.
  - intros [fd|]; [|owns_go]. apply owns_scoped. owns_go.
Qed.

(** C29: Confinement, whatever the kernel answers: when it reports [Enforced]
    it has created a rule set for every access right, added one rule per
    readable root with the read rights only and then one per writable root
    with all rights, each on that root's own descriptor, set no-new-privileges
    and restricted the thread, all with success and in this order; when it
    reports [NotEnforced] the kernel has no Landlock, and nothing but that was
    asked; when it fails, the thread was not restricted; it never panics; and
    on every path it closes each descriptor it opened, once, and no other. *)
Theorem confine_filesystem_trace h readable writable :
  owns h (confine_filesystem kernel readable writable) (fun _ => h) h /\
  traces (confine_filesystem kernel readable writable) (fun l r =>
    match r with
    | ret Enforced => confined readable writable l
    | ret NotEnforced => exists r0, l = [(c_landlock_create_ruleset ABI_V1_ALL_ACCESS, r0)] /\
        rv r0 < 0 /\ (err r0 = ENOSYS \/ err r0 = EOPNOTSUPP)
    | fail _ => Forall lenient l
    | _ => False
    end).
Proof.
  split; [apply owns_confine|].
  unfold confine_filesystem, create_ruleset.
  apply (traces_then lenient _ _ (fun o l => exists rc,
    l = [(c_landlock_create_ruleset ABI_V1_ALL_ACCESS, rc)] /\
    (rv rc < 0 /\ (err rc = ENOSYS \/ err rc = EOPNOTSUPP) /\ o = None \/
     0 <= rv rc /\ o = Some (rv rc)))).
  - repeat trace_step; cbn; [| |eauto].
    + apply orb_true_iff in E0 as [E0|E0]; bool_to_prop; eauto 8.
    + by repeat constructor.
  - intros l o (rc & -> & [(Hneg & Herr & ->)|(Hrc & ->)]); [apply traces_lift; cbn; eauto|].
    apply traces_scoped.
    eapply traces_then; [apply add_rules_trace| |]; cycle 1.
    { intros l e Hl. split; [done|]. intros ?. rewrite !Forall_app. by repeat constructor. }
    intros lr [] Hlr. pose proof (rules_lenient _ _ _ _ Hlr).
    eapply traces_then; [apply add_rules_trace| |]; cycle 1.
    { intros l e Hl. split; [done|]. intros ?. rewrite !Forall_app. by repeat constructor. }
    intros lw [] Hlw. pose proof (rules_lenient _ _ _ _ Hlw).
    eapply traces_then; [apply no_new_privs_trace| |]; cycle 1.
    { intros l e Hl. split; [done|]. intros ?. rewrite !Forall_app. by repeat constructor. }
    intros l [] (rp & Hp & ->). unfold last_error. repeat trace_step; (split; [done|]); intros rx.
    + rewrite !Forall_app. by repeat constructor.
    + exists rc, lr, lw, rp, r, rx. rewrite <- !app_assoc. done.
  - done.
Qed.

(** C27: [block_inet_sockets] reports [Enforced] only when it has set
    no-new-privileges and installed, with success, a program whose verdict on
    every [struct seccomp_data] is the stated policy: kill on a foreign
    architecture, [EPERM] for [socket] with one of the three denied domains,
    allow otherwise.  In every other case the thread was not restricted. *)
Theorem block_inet_sockets_trace : traces (block_inet_sockets kernel) (fun l r =>
  match r with
  | ret Enforced => exists prog rp rs,
      l = [(c_prctl PR_SET_NO_NEW_PRIVS 1, rp); (c_prctl_seccomp prog, rs)] /\
      0 <= rv rp /\ 0 <= rv rs /\ (forall d, data_ok d -> verdict prog d = Some (inet_policy d))
  | ret _ | fail _ => Forall lenient l
  | _ => False
  end).
Proof.
  unfold block_inet_sockets. eapply traces_then; [apply no_new_privs_trace| |done].
  intros l [] (rp & Hp & ->). repeat trace_step; cbn; [by repeat constructor..|].
  eexists _, rp, r. split; [reflexivity|]. split; [done|]. split; [done|]. apply seccomp_policy.
Qed.
End confine.

Lemma block_inet_sockets_trace_witness :
  traces (block_inet_sockets (fun c (k : unit) => (k, mkRet 0 0 ONone))) (fun l r =>
  match r with
  | ret Enforced => exists prog rp rs,
      l = [(c_prctl PR_SET_NO_NEW_PRIVS 1, rp); (c_prctl_seccomp prog, rs)] /\
      0 <= rv rp /\ 0 <= rv rs /\ (forall d, data_ok d -> verdict prog d = Some (inet_policy d))
  | ret _ | fail _ => Forall lenient l
  | _ => False
  end) /\ data_ok (inet_socket SYS_socket).
Proof.
  split; [apply block_inet_sockets_trace|].
  unfold data_ok, in_u. cbn. unfold SYS_socket, AUDIT_ARCH_X86_64, AF_INET. repeat (lia || constructor).
Defined.

(** ** Randomness *)

Section random.
Context {K : Type} (kernel : Call -> K -> K * Ret) (mu : K -> nat).

(** What [getrandom(2)] documents: a call either fails and writes nothing, or
    writes as many bytes as it says, at least one and no more than asked; and
    it is interrupted finitely often in a row ([mu] bounds how often). *)
Hypothesis getrandom_writes : forall n k, 0 < n ->
  let (k', r) := kernel (c_getrandom n 0) k in
  (rv r < 0 /\ out_bytes r = [] \/ 0 < rv r <= n /\ zlen (out_bytes r) = rv r) /\
  (mu k' <= mu k)%nat /\ (rv r < 0 -> err r = EINTR -> (mu k' < mu k)%nat).

(** All the bytes the kernel handed over. *)
Definition delivered (l : list (Call * Ret)) : list Z := concat (map (fun e => out_bytes (snd e)) l).

Definition fill_outcome (pre rest : list Z) (l : list (Call * Ret)) (r : Run (list Z)) : Prop :=
  match r with
  | ret b => b = pre ++ delivered l /\ length b = length (pre ++ rest)
  | fail e => exists l0 n r0, l = l0 ++ [(c_getrandom n 0, r0)] /\ rv r0 < 0 /\ err r0 <> EINTR /\
      e = errno_err "getrandom" (err r0)
  | _ => False
  end.

Lemma fill_loop_done fuel pre (w : World K) :
  fill_loop kernel fuel (zlen pre) (pre ++ []) w = (w, ret pre).
Proof. destruct fuel; cbn [fill_loop]; by rewrite app_nil_r, Z.ltb_irrefl. Qed.

Lemma fill_loop_outcome fuel : forall pre rest (w : World K),
  (length rest + mu (state w) <= fuel)%nat ->
  exists w' r l, fill_loop kernel fuel (zlen pre) (pre ++ rest) w = (w', r) /\
  log w' = log w ++ l /\ fill_outcome pre rest l r.
Proof.
  induction fuel as [|fuel IH]; intros pre rest w Hf; (destruct rest as [|b rest]; [
    exists w, (ret pre), []; rewrite fill_loop_done; unfold fill_outcome; cbn; by rewrite !app_nil_r|]).
  { cbn in Hf. lia. }
  cbn [fill_loop]. rewrite (proj2 (Z.ltb_lt _ _)) by (rewrite length_app; cbn; lia).
  replace (zlen (pre ++ b :: rest) - zlen pre) with (zlen (b :: rest)) by (rewrite length_app; lia).
  unfold st_bind, syscall. pose proof (getrandom_writes (zlen (b :: rest)) (state w) ltac:(cbn; lia)) as H.
  destruct (kernel _ (state w)) as [k1 r1]. destruct H as (Hr & Hmu & Hint).
  assert (length (out_bytes r1) <= length (b :: rest))%nat
    by (destruct Hr as [[_ ->]|[? ?]]; [cbn|]; lia).
  rewrite Nat2Z.id, overwrite_at by done.
  set (w1 := mkWorld k1 _).
  destruct (rv r1 <? 0) eqn:E; bool_to_prop.
  - destruct Hr as [[_ Hb]|]; [|lia]. rewrite Hb, app_nil_r. cbn [length drop].
    destruct (err r1 =? EINTR) eqn:E2; bool_to_prop.
    + destruct (IH pre (b :: rest) w1) as (w' & r & l & -> & Hl & HT); [cbn in *; lia|].
      exists w', r, ((c_getrandom (zlen (b :: rest)) 0, r1) :: l). split; [done|].
      split; [by rewrite Hl; cbn; rewrite <- app_assoc|].
      destruct r as [[b'|e]| |]; cbn in *; [by rewrite Hb| |done..].
      destruct HT as (l0 & n & r0 & -> & HT). by exists ((c_getrandom (zlen (b :: rest)) 0, r1) :: l0), n, r0.
    + eexists w1, _, [_]. split; [reflexivity|]. split; [done|]. by eexists [], _, r1.
  - destruct Hr as [[]|[Hr Hb]]; [lia|].
    replace (zlen pre + rv r1) with (zlen (pre ++ out_bytes r1)) by (rewrite length_app; lia).
    destruct (IH (pre ++ out_bytes r1) (drop (length (out_bytes r1)) (b :: rest)) w1)
      as (w' & r & l & -> & Hl & HT); [rewrite length_drop; cbn in *; lia|].
    exists w', r, ((c_getrandom (zlen (b :: rest)) 0, r1) :: l). split; [done|].
    split; [by rewrite Hl; cbn; rewrite <- app_assoc|].
    destruct r as [[b'|e]| |]; cbn -[app drop] in *; [|.. |done|done].
    + destruct HT as [-> ->]. split; [by rewrite <- app_assoc|].
      rewrite !length_app, length_drop. cbn in *. lia.
    + destruct HT as (l0 & n & r0 & -> & HT). by exists ((c_getrandom (zlen (b :: rest)) 0, r1) :: l0), n, r0.
Qed.

(** [fill_random] ends on every buffer, whatever the sizes of the short
    reads and however often it is interrupted (finitely often): the buffer it
    returns has the length it had and consists of exactly the bytes the kernel
    delivered, in order; it fails only with the error of a call that failed
    for another reason than an interruption. *)
Theorem linux_fill_random buf (w : World K) fuel : (length buf + mu (state w) <= fuel)%nat ->
  exists w' r l, fill_random kernel fuel buf w = (w', r) /\ log w' = log w ++ l /\
  match r with
  | ret b => b = delivered l /\ length b = length buf
  | fail e => exists l0 n r0, l = l0 ++ [(c_getrandom n 0, r0)] /\ rv r0 < 0 /\ err r0 <> EINTR /\
      e = errno_err "getrandom" (err r0)
  | _ => False
  end.
Proof. intros H. exact (fill_loop_outcome fuel [] buf w H). Qed.
End random.

(** Interrupted [k] times, then three bytes at a time. *)
Definition slow_random (c : Call) (k : nat) : nat * Ret :=
  match c, k with
  | c_getrandom _ _, S k => (k, mkRet (-1) EINTR ONone)
  | c_getrandom n _, O => (O, let m := Z.min n 3 in mkRet m 0 (OBytes (replicate (Z.to_nat m) 7)))
  | _, _ => (k, mkRet 0 0 ONone)
  end.

Lemma linux_fill_random_witness :
  exists w' r l, fill_random slow_random 20 (replicate 8 0) (mkWorld 2%nat []) = (w', r) /\
  log w' = [] ++ l /\
  match r with
  | ret b => b = delivered l /\ length b = 8%nat
  | fail e => exists l0 n r0, l = l0 ++ [(c_getrandom n 0, r0)] /\ rv r0 < 0 /\ err r0 <> EINTR /\
      e = errno_err "getrandom" (err r0)
  | _ => False
  end.
Proof.
  apply (linux_fill_random slow_random (fun k => k)); [|cbn; lia].
  intros n [|k] Hn; cbn; [|unfold EINTR; split; [left|split]; (done || lia)].
  rewrite length_replicate. split; [right|split]; lia.
Defined.
