(* ===== verification/LinuxSpawn.v ===== *)
(** * Spawning and waiting on Linux
      ([platform-linux/src/sys/spawn.rs])

    [posix_spawn] with its file actions, pidfds and [poll], [waitpid] with
    its status words, [kill].  The default build (the [track-p] arms make the
    same calls through another crate).  Freeing the file actions and the
    attributes is not modelled: it releases memory only. *)

From Stdlib Require Import ZArith Lia String.
From S2P Require Import Prelude Error Text Sys Process.
From stdpp Require Import base numbers list strings gmap gmultiset sorting.
Open Scope Z_scope.


Definition POSIX_SPAWN_SETPGROUP := 2.
Definition POSIX_SPAWN_SETSID := 128.
Definition POLLIN := 1.
Definition WNOHANG := 1.
Definition WUNTRACED := 2.
Definition WCONTINUED := 8.
Definition SIGHUP := 1.
Definition SIGINT := 2.
Definition SIGQUIT := 3.
Definition SIGKILL := 9.
Definition SIGTERM := 15.
Definition SIGCONT := 18.
Definition SIGSTOP := 19.
Definition I32_MAX := 2147483647.

(** What [std] reads of the process's surroundings: the environment, the
    clock in nanoseconds ([Instant::now]), the mode [metadata] reports for a
    path and the bytes of a file (or the [errno] of reading it). *)
Record Host (K : Type) := mkHost {
  environ : K -> list (OsString * OsString);
  now : K -> Z;
  file_mode : OsString -> K -> option Z;
  read_bytes : OsString -> K -> Z + list Z;
}.
Arguments environ {K}.
Arguments now {K}.
Arguments file_mode {K}.
Arguments read_bytes {K}.

Definition to_cstring_op (s : OsString) (op : string) : Run OsString :=
  to_cstring s (with_path (error_new InvalidInput NoCode op) s).

Definition errno_err (op : string) (code : Z) (path : OsString) : PlatformError :=
  let kind :=
    if code =? ENOENT then NotFound
    else if (code =? EACCES) || (code =? EPERM) then PermissionDenied
    else if code =? ENOTDIR then NotADirectory
    else if code =? EINVAL then InvalidInput
    else Other in
  let e := error_new kind (Errno code) op in
  match path with [] => e | _ => with_path e path end.

(** A [BTreeMap]'s entries, in key order. *)
Definition key_le (a b : OsString * OsString) : Prop := bytes_le (fst a) (fst b).
#[export] Instance key_le_dec : RelDecision key_le.
Proof. intros a b. unfold key_le. apply _. Defined.
Definition btree_entries (m : gmap (list Z) OsString) : list (OsString * OsString) :=
  merge_sort key_le (map_to_list m).

Definition DEVNULL : OsString := lit "/dev/null".

(** [-pid]: a debug build panics on [i32::MIN]. *)
Definition neg_pid (pid : Z) : Run Z := if pid =? - 2 ^ 31 then Panic else ret (- pid).

Definition signum_of (sig : Signal) : Z :=
  match sig with
  | Term => SIGTERM | Int => SIGINT | Hup => SIGHUP | Quit => SIGQUIT
  | Kill => SIGKILL | Stop => SIGSTOP | Cont => SIGCONT
  end.

(** The [W*] bit tests of libc on an [i32] status word. *)
Definition WIFEXITED (status : Z) : bool := Z.land status 127 =? 0.
Definition WEXITSTATUS (status : Z) : Z := Z.land (Z.shiftr status 8) 255.
Definition WIFSIGNALED (status : Z) : bool := 2 <=? sign 8 (Z.land status 127 + 1).
Definition WTERMSIG (status : Z) : Z := Z.land status 127.
Definition WIFSTOPPED (status : Z) : bool := Z.land status 255 =? 127.
Definition WSTOPSIG (status : Z) : Z := Z.land (Z.shiftr status 8) 255.

Definition decode (status : Z) : ExitStatus :=
  if WIFEXITED status then Code (WEXITSTATUS status)
  else if WIFSIGNALED status then Signaled (WTERMSIG status)
  else Code 1.

Definition decode_job (status : Z) : ExitStatus :=
  if WIFEXITED status then Code (WEXITSTATUS status)
  else if WIFSIGNALED status then Signaled (WTERMSIG status)
  else if WIFSTOPPED status then Stopped (WSTOPSIG status)
  else Continued.

(** [rsplit_once(')')], the part after. *)
Fixpoint after_last (c : Z) (s : str) : option str :=
  match s with
  | [] => None
  | b :: s' =>
    match after_last c s' with
    | Some r => Some r
    | None => if b =? c then Some s' else None
    end
  end.

(** The state field of [/proc/<pid>/stat]. *)
Definition parse_stat (path : OsString) (contents : str) : Run bool :=
  let e := with_path (error_new Other NoCode "parse /proc/<pid>/stat") path in
  match after_last 41 contents with
  | None => fail e
  | Some after_comm =>
    match split_whitespace after_comm with
    | [] => fail e
    | state :: _ => ret (bool_decide (state = lit "Z"))
    end
  end.

(** [i32]'s decimal form. *)
Definition dec_signed (n : Z) : str := if n <? 0 then 45 :: dec (- n) else dec n.

Section spawn.
Context {K : Type} (kernel : Call -> K -> K * Ret) (host : Host K).
(** The descriptor of a [Stdio::File]; [None] is a file of another backend. *)
Context (file_fd : nat -> option Z).
Abbreviation M A := (World K -> World K * Run A).
Abbreviation sys c := (syscall kernel c).

Definition build_env (env : EnvSpec) : M (list OsString) := fun w =>
  let pairs := match env with
               | EnvInherit => environ host (state w)
               | EnvExplicit map => btree_entries map
               end in
  let fix go (l : list (OsString * OsString)) : Run (list OsString) :=
    match l with
    | [] => ret []
    | (k, v) :: l =>
      do! kv := to_cstring_op (k ++ lit "=" ++ v) "posix_spawn env" in
      do! out := go l in ret (kv :: out)
    end in
  (w, go pairs).

Fixpoint to_cstrings (l : list OsString) (op : string) : Run (list OsString) :=
  match l with
  | [] => ret []
  | a :: l => do! c := to_cstring_op a op in do! cs := to_cstrings l op in ret (c :: cs)
  end.

Definition make_pipe : M (Z * Z) :=
  st! r := sys (c_pipe2 O_CLOEXEC) in
  if negb (rv r =? 0) then st_lift (fail (errno_err "pipe2" (err r) []))
  else st_lift (ret (out_pair r)).

(** What the loop over the three slots has built: the file actions, the
    child's pipe ends and the parent's, by slot. *)
Record Wiring := mkWiring { actions : list FileAction; child_ends : list Z; parent_ends : list (option Z) }.
Definition parent_fds (ends : list (option Z)) : list Z := omap id ends.
Definition ends_of (wr : Wiring) : list Z := child_ends wr ++ parent_fds (parent_ends wr).
Definition add_action (wr : Wiring) (a : FileAction) : Wiring :=
  mkWiring (actions wr ++ [a]) (child_ends wr) (parent_ends wr ++ [None]).
Definition add_pipe (wr : Wiring) (a : FileAction) (child parent : Z) : Wiring :=
  mkWiring (actions wr ++ [a]) (child_ends wr ++ [child]) (parent_ends wr ++ [Some parent]).
Definition skip_slot (wr : Wiring) : Wiring :=
  mkWiring (actions wr) (child_ends wr) (parent_ends wr ++ [None]).

(** One slot; an error drops the ends made so far, the slot's own first. *)
Definition wire_slot (fd : Z) (spec : Stdio) (wr : Wiring) : M Wiring :=
  match spec with
  | StdInherit => st_lift (ret (skip_slot wr))
  | StdNull =>
    let a := AddOpen fd DEVNULL (if fd =? 0 then O_RDONLY else O_WRONLY) in
    st! r := sys (c_actions_add a) in
    if negb (rv r =? 0) then bail kernel (ends_of wr) (errno_err "posix_spawn addopen" (rv r) DEVNULL)
    else st_lift (ret (add_action wr a))
  | StdPipe =>
    or_bail kernel (ends_of wr) make_pipe (fun '(read, write) =>
      let (child, parent) := if fd =? 0 then (read, write) else (write, read) in
      let a := AddDup2 child fd in
      st! r := sys (c_actions_add a) in
      if negb (rv r =? 0)
      then bail kernel (parent :: child :: ends_of wr) (errno_err "posix_spawn adddup2" (rv r) [])
      else st_lift (ret (add_pipe wr a child parent)))
  | StdFile file =>
    match file_fd file with
    | None => bail kernel (ends_of wr)
        (error_new Unsupported NoCode "posix_spawn: Stdio::File from a foreign backend")
    | Some src =>
      let a := AddDup2 src fd in
      st! r := sys (c_actions_add a) in
      if negb (rv r =? 0) then bail kernel (ends_of wr) (errno_err "posix_spawn adddup2" (rv r) [])
      else st_lift (ret (add_action wr a))
    end
  end.

Fixpoint wire (fd : Z) (stdio : list Stdio) (wr : Wiring) : M Wiring :=
  match stdio with
  | [] => st_lift (ret wr)
  | spec :: stdio => st! wr := wire_slot fd spec wr in wire (fd + 1) stdio wr
  end.

(** [pgid as pid_t]. *)
Definition target_pgid (group : GroupSpec) : option Z :=
  match group with
  | GroupInherit => None
  | JoinGroup pgid => Some (sign 32 pgid)
  | NewGroup => Some 0
  end.

(** The attributes; [posix_spawnattr_setflags] is called with all the bits at
    once. *)
Definition spawn_attr (group : GroupSpec) (detached : bool) (ends : list Z) : M SpawnAttr :=
  st! r := sys c_attr_init in
  if negb (rv r =? 0) then bail kernel ends (errno_err "posix_spawnattr_init" (rv r) [])
  else
    let target := target_pgid group in
    let spawn_flags :=
      Z.lor (match target with Some _ => POSIX_SPAWN_SETPGROUP | None => 0 end)
            (if detached then POSIX_SPAWN_SETSID else 0) in
    if spawn_flags =? 0 then st_lift (ret (mkSpawnAttr 0 0))
    else
      st! r := sys (c_attr_setflags spawn_flags) in
      if negb (rv r =? 0) then bail kernel ends (errno_err "posix_spawnattr_setpgroup" (rv r) [])
      else
        match target with
        | None => st_lift (ret (mkSpawnAttr spawn_flags 0))
        | Some pgid =>
          st! r := sys (c_attr_setpgroup pgid) in
          if negb (rv r =? 0) then bail kernel ends (errno_err "posix_spawnattr_setpgroup" (rv r) [])
          else st_lift (ret (mkSpawnAttr spawn_flags pgid))
        end.

Definition spawn (path argv0 : OsString) (args : list OsString) (cwd : OsString) (env : EnvSpec)
    (stdio : list Stdio) (group : GroupSpec) (detached : bool) : M (Z * list (option Z)) :=
  st! c_path := st_lift (to_cstring_op path "posix_spawn") in
  st! c_cwd := st_lift (to_cstring_op cwd "posix_spawn chdir") in
  st! c_argv := st_lift (to_cstrings (argv0 :: args) "posix_spawn argv") in
  st! c_env := build_env env in
  st! r := sys c_actions_init in
  if negb (rv r =? 0) then st_lift (fail (errno_err "posix_spawn_file_actions_init" (rv r) []))
  else
    st! r := sys (c_actions_add (AddChdir c_cwd)) in
    if negb (rv r =? 0) then st_lift (fail (errno_err "posix_spawn chdir" (rv r) cwd))
    else
      st! wr := wire 0 stdio (mkWiring [AddChdir c_cwd] [] []) in
      st! attr := spawn_attr group detached (ends_of wr) in
      st! r := sys (c_posix_spawn c_path (actions wr) attr c_argv c_env) in
      if negb (rv r =? 0) then bail kernel (ends_of wr) (errno_err "posix_spawn" (rv r) path)
      else fun w => (drop_fds kernel (child_ends wr) w, ret (out_int r, parent_ends wr)).

(** ** pidfds *)

Definition pidfd_open (pid : Z) : M Z :=
  st! r := sys (c_pidfd_open pid 0) in
  if rv r <? 0 then
    if err r =? ENOSYS then st_lift (fail (error_new Unsupported (Errno (err r)) "pidfd_open"))
    else st_lift (fail (errno_err "pidfd_open" (err r) []))
  else st_lift (ret (rv r)).

Fixpoint open_pidfds (pids : list Z) (pidfds : list Z) : M (list Z) :=
  match pids with
  | [] => st_lift (ret pidfds)
  | pid :: pids =>
    or_bail kernel pidfds (pidfd_open pid) (fun fd => open_pidfds pids (pidfds ++ [fd]))
  end.

Definition poll_once (fds : list (Z * Z)) (timeout_ms : Z) : M (Z * list Z) :=
  st! r := sys (c_poll fds timeout_ms) in
  if rv r <? 0 then st_lift (fail (errno_err "poll" (err r) []))
  else st_lift (ret (rv r, out_ints r)).

(** [position(|p| p.revents != 0)]. *)
Fixpoint position_ready (revents : list Z) : option nat :=
  match revents with
  | [] => None
  | v :: l => if negb (v =? 0) then Some O else S <$> position_ready l
  end.

(** [left.as_millis().min(i32::MAX)]: whole milliseconds, cut off. *)
Definition timeout_ms (deadline : option Z) (t : Z) : Z :=
  match deadline with
  | None => -1
  | Some d => Z.min (Z.max 0 (d - t) / 1000000) I32_MAX
  end.

Fixpoint poll_loop (fuel : nat) (fds : list (Z * Z)) (deadline : option Z) : M (option nat) := fun w =>
  match fuel with
  | O => (w, OutOfFuel)
  | S fuel =>
    match poll_once fds (timeout_ms deadline (now host (state w))) w with
    | (w, ret (n, revents)) =>
      if n =? 0 then (w, ret None)
      else
        match position_ready revents with
        | Some hit => (w, ret (Some hit))
        | None => (w, fail (error_new Other NoCode
            "poll reported readiness but no pollfd shows revents"))
        end
    | (w, fail e) =>
      if bool_decide (os e = Errno EINTR) then poll_loop fuel fds deadline w else (w, fail e)
    | (w, Panic) => (w, Panic)
    | (w, OutOfFuel) => (w, OutOfFuel)
    end
  end.

(** [Instant::now() + t] panics past the last instant. *)
Definition MAX_INSTANT : Z := 2 ^ 63 * 1000000000.

Definition poll_pids (fuel : nat) (pids : list Z) (timeout : option Z) : M (option nat) :=
  st! pidfds := open_pidfds pids [] in
  scoped_all kernel pidfds (fun w =>
    let fds := map (fun fd => (fd, POLLIN)) pidfds in
    match timeout with
    | None => poll_loop fuel fds None w
    | Some t =>
      let deadline := now host (state w) + t in
      if MAX_INSTANT <=? deadline then (w, Panic) else poll_loop fuel fds (Some deadline) w
    end).

(** ** Signals and liveness *)

Definition kill_group (pid : Z) (sig : Signal) : M unit :=
  st! target := st_lift (neg_pid pid) in
  st! r := sys (c_kill target (signum_of sig)) in
  if negb (rv r =? 0) then st_lift (fail (errno_err "kill" (err r) [])) else st_lift (ret tt).

Definition kill_single (pid : Z) (sig : Signal) : M unit :=
  st! r := sys (c_kill pid (signum_of sig)) in
  if negb (rv r =? 0) then st_lift (fail (errno_err "kill" (err r) [])) else st_lift (ret tt).

Definition is_alive (pid : Z) : M bool :=
  st! r := sys (c_kill pid 0) in
  if rv r =? 0 then st_lift (ret true)
  else if err r =? ESRCH then st_lift (ret false)
  else if err r =? EPERM then st_lift (ret true)
  else st_lift (fail (errno_err "kill" (err r) [])).

(** [read_to_string] refuses what is not UTF-8, without an OS code. *)
Definition is_zombie (pid : Z) : M bool := fun w =>
  let path := lit "/proc/" ++ dec_signed pid ++ lit "/stat" in
  (w, match read_bytes host path (state w) with
      | inl code => if code =? ENOENT then ret false
                    else fail (errno_err "read /proc/<pid>/stat" code path)
      | inr bytes => if utf8_valid bytes then parse_stat path bytes
                     else fail (errno_err "read /proc/<pid>/stat" 0 path)
      end).

(** ** Waiting *)

(** The two loops, by flags and decoder: [wait] and [wait_job] block,
    [try_wait] and [try_wait_job] may have nothing to report. *)
Fixpoint wait_loop (fuel : nat) (pid flags : Z) (dec_ : Z -> ExitStatus) : M ExitStatus :=
  match fuel with
  | O => st_lift OutOfFuel
  | S fuel =>
    st! r := sys (c_waitpid pid flags) in
    if rv r =? pid then st_lift (ret (dec_ (out_int r)))
    else if err r =? EINTR then wait_loop fuel pid flags dec_
    else st_lift (fail (errno_err "waitpid" (err r) []))
  end.

Fixpoint try_wait_loop (fuel : nat) (pid flags : Z) (dec_ : Z -> ExitStatus) : M (option ExitStatus) :=
  match fuel with
  | O => st_lift OutOfFuel
  | S fuel =>
    st! r := sys (c_waitpid pid flags) in
    if rv r =? pid then st_lift (ret (Some (dec_ (out_int r))))
    else if rv r =? 0 then st_lift (ret None)
    else if err r =? EINTR then try_wait_loop fuel pid flags dec_
    else st_lift (fail (errno_err "waitpid" (err r) []))
  end.

Definition wait (fuel : nat) (pid : Z) : M ExitStatus := wait_loop fuel pid 0 decode.
Definition try_wait (fuel : nat) (pid : Z) : M (option ExitStatus) := try_wait_loop fuel pid WNOHANG decode.
Definition wait_job (fuel : nat) (pid : Z) : M ExitStatus :=
  wait_loop fuel pid (Z.lor WUNTRACED WCONTINUED) decode_job.
Definition try_wait_job (fuel : nat) (pid : Z) : M (option ExitStatus) :=
  try_wait_loop fuel pid (Z.lor (Z.lor WNOHANG WUNTRACED) WCONTINUED) decode_job.
End spawn.

(** ** Who owns the pipe ends *)

Section descriptors.
Context {K : Type} (kernel : Call -> K -> K * Ret) (host : Host K) (file_fd : nat -> option Z).
Implicit Types h : gmultiset Z.

Lemma owns_make_pipe h : owns h (make_pipe kernel) (fun p => fds [fst p; snd p] ⊎ h) h.
Proof.
  unfold make_pipe. eapply owns_bind; [by apply owns_syscall|]. intros r. cbn [acquired fst snd].
  destruct (rv r =? 0); cbn [negb].
  - apply owns_ret. by rewrite (comm_L (⊎)).
  - rewrite list_to_set_disj_nil, (right_id_L ∅ (⊎)). apply owns_fail.
Qed.

Abbreviation held_ends wr := (fds (ends_of wr)).

Lemma ends_add wr a h : fds (ends_of (add_action wr a)) ⊎ h = fds (ends_of wr) ⊎ h.
Proof. unfold ends_of, add_action, parent_fds. cbn. by rewrite omap_app, app_nil_r. Qed.
Lemma ends_skip wr h : fds (ends_of (skip_slot wr)) ⊎ h = fds (ends_of wr) ⊎ h.
Proof. unfold ends_of, skip_slot, parent_fds. cbn. by rewrite omap_app, app_nil_r. Qed.
Lemma ends_pipe wr a c p h :
  fds (ends_of (add_pipe wr a c p)) ⊎ h = fds (p :: c :: ends_of wr) ⊎ h.
Proof.
  f_equal. apply list_to_set_disj_perm. unfold ends_of, add_pipe, parent_fds.
  cbn [child_ends parent_ends]. rewrite omap_app. cbn.
  rewrite (Permutation_app_comm (omap _ _)), <- (app_assoc (child_ends wr)). cbn.
  rewrite <- (Permutation_middle (child_ends wr) _ c), <- Permutation_middle. apply perm_swap.
Qed.

(** After a step that holds [l]: returned with [l'], or given up. *)
Lemma owns_wire_slot h fd spec wr :
  owns (fds (ends_of wr) ⊎ h) (wire_slot kernel file_fd fd spec wr) (fun wr' => fds (ends_of wr') ⊎ h) h.
Proof.
  destruct spec as [| | |f]; cbn [wire_slot].
  - apply owns_ret. apply ends_skip.
  - eapply owns_bind; [by apply owns_neutral|]. intros r. cbv beta.
    destruct (negb _); [apply owns_bail|]. apply owns_ret, ends_add.
  - eapply owns_or_bail; [apply owns_make_pipe|]. intros [rd wt]. cbn [fst snd].
    destruct (if fd =? 0 then (rd, wt) else (wt, rd)) as [child parent] eqn:E.
    assert (fds [rd; wt] ⊎ (fds (ends_of wr) ⊎ h) = fds (parent :: child :: ends_of wr) ⊎ h) as ->.
    { rewrite (assoc_L (⊎)), <- list_to_set_disj_app. f_equal. apply list_to_set_disj_perm. cbn.
      destruct (fd =? 0); simplify_eq; [apply perm_swap|done]. }
    eapply owns_bind; [by apply owns_neutral|]. intros r. cbv beta.
    destruct (negb _); [apply owns_bail|]. apply owns_ret, ends_pipe.
  - destruct (file_fd f) as [src|]; [|apply owns_bail].
    eapply owns_bind; [by apply owns_neutral|]. intros r. cbv beta.
    destruct (negb _); [apply owns_bail|]. apply owns_ret, ends_add.
Qed.

Lemma owns_wire h stdio : forall fd wr,
  owns (fds (ends_of wr) ⊎ h) (wire kernel file_fd fd stdio wr) (fun wr' => fds (ends_of wr') ⊎ h) h.
Proof.
  induction stdio as [|spec stdio IH]; intros fd wr; cbn [wire]; [by apply owns_ret|].
  eapply owns_bind; [apply owns_wire_slot|]. intros wr'. apply IH.
Qed.

Lemma owns_spawn_attr h group detached ends :
  owns (fds ends ⊎ h) (spawn_attr kernel group detached ends) (fun _ => fds ends ⊎ h) h.
Proof.
  unfold spawn_attr.
  repeat first
    [ apply owns_bail
    | apply owns_ret; reflexivity
    | eapply owns_bind; [by apply owns_neutral|]; intros ?; cbv beta
    | match goal with |- owns _ (if ?b then _ else _) _ _ => destruct b
                    | |- owns _ (match ?b with _ => _ end) _ _ => destruct b end ].
Qed.

Lemma owns_spawn h path argv0 args cwd env stdio group detached :
  owns h (spawn kernel host file_fd path argv0 args cwd env stdio group detached)
    (fun p => fds (parent_fds (snd p)) ⊎ h) h.
Proof.
  unfold spawn. do 3 (eapply owns_bind; [apply owns_pure|intros ?; cbv beta]).
  eapply (owns_bind _ _ _ (fun _ => h)).
  { intros w w' r. unfold build_env. intros [= <- <-]. exists []. rewrite app_nil_r. split; [done|].
    intros Hr. destruct (_ : Run (list OsString)) as [[]| |]; done. }
  intros c_env. eapply owns_bind; [by apply owns_neutral|]. intros r. cbv beta.
  destruct (negb _); [apply owns_fail|].
  eapply owns_bind; [by apply owns_neutral|]. intros r'. cbv beta.
  destruct (negb _); [apply owns_fail|].
  eapply (owns_bind _ _ _ (fun wr => fds (ends_of wr) ⊎ h)).
  { eapply owns_eq; [apply (owns_wire h stdio 0 (mkWiring [AddChdir a0] [] []))|..]; [|done|done].
    exact (left_id_L ∅ (⊎) h). }
  intros wr. eapply owns_bind; [apply owns_spawn_attr|]. intros attr. cbv beta.
  eapply owns_bind; [by apply owns_neutral|]. intros r2. cbv beta.
  destruct (negb _); [apply owns_bail|].
  intros w w' r3 [= <- <-]. destruct (drop_fds_log kernel (child_ends wr) w) as (l & Hl & HT).
  exists l. split; [done|]. intros _. cbn. unfold ends_of.
  rewrite list_to_set_disj_app, <- (assoc_L (⊎)). apply HT.
Qed.
End descriptors.

(** ** What the child starts with

    A descriptor table maps a number to what it is open on and whether it
    closes on [exec]; the file actions act on the child's copy of it. *)

Inductive OpenFile := Inherited (id : Z) | Opened (path : OsString) (flags : Z).
Abbreviation FdTable := (gmap Z (OpenFile * bool)).

Definition act (t : FdTable) (a : FileAction) : option FdTable :=
  match a with
  | AddChdir _ => Some t
  | AddOpen fd path flags => Some (<[fd := (Opened path flags, false)]> t)
  | AddDup2 fd new_fd => d ← t !! fd; Some (<[new_fd := (fst d, false)]> t)
  end.

Fixpoint act_all (t : FdTable) (l : list FileAction) : option FdTable :=
  match l with
  | [] => Some t
  | a :: l => t' ← act t a; act_all t' l
  end.

(** The descriptors open after [exec]. *)
Definition after_exec (t : FdTable) : FdTable := filter (fun e => snd (snd e) = false) t.

(** One standard stream: its number, what was asked, and the descriptor it is
    duplicated from (for a pipe or a file). *)
Record Slot := mkSlot { s_fd : Z; s_spec : Stdio; s_src : Z }.

Definition slot_actions (s : Slot) : list FileAction :=
  match s_spec s with
  | StdInherit => []
  | StdNull => [AddOpen (s_fd s) DEVNULL (if s_fd s =? 0 then O_RDONLY else O_WRONLY)]
  | StdPipe | StdFile _ => [AddDup2 (s_src s) (s_fd s)]
  end.

Definition slot_source (s : Slot) : list Z :=
  match s_spec s with StdPipe | StdFile _ => [s_src s] | _ => [] end.

(** What the child finds there, in terms of the parent's table. *)
Definition slot_target (t : FdTable) (s : Slot) : option (OpenFile * bool) :=
  match s_spec s with
  | StdInherit => t !! s_fd s
  | StdNull => Some (Opened DEVNULL (if s_fd s =? 0 then O_RDONLY else O_WRONLY), false)
  | StdPipe | StdFile _ => (fun d => (fst d, false)) <$> t !! s_src s
  end.

Lemma act_all_app t l1 l2 : act_all t (l1 ++ l2) = (t' ← act_all t l1; act_all t' l2).
Proof.
  revert t. induction l1 as [|a l1 IH]; intros t; [done|]. cbn [act_all app].
  destruct (act t a); cbn; [apply IH|done].
Qed.

Lemma slot_acts t s : Forall (fun src => is_Some (t !! src)) (slot_source s) ->
  exists t', act_all t (slot_actions s) = Some t' /\ t' !! s_fd s = slot_target t s /\
  forall i, i <> s_fd s -> t' !! i = t !! i.
Proof.
  destruct s as [fd spec src]. unfold slot_source, slot_actions, slot_target. cbn.
  intros H. destruct spec; cbn.
  1: by exists t.
  1: eexists; split; [reflexivity|]; split; [by rewrite lookup_insert_eq|]; intros i Hi; by rewrite lookup_insert_ne.
  all: inversion_clear H as [|? ? [d Hd] _]; rewrite Hd; cbn;
    eexists; split; [reflexivity|]; split; [by rewrite lookup_insert_eq|]; intros i Hi; by rewrite lookup_insert_ne.
Qed.

(** The actions of the streams do not interfere, when nothing is duplicated
    from a stream's own number. *)
Lemma slots_act l : forall t, NoDup (map s_fd l) ->
  Forall (fun src => is_Some (t !! src) /\ src ∉ map s_fd l) (concat (map slot_source l)) ->
  exists t', act_all t (concat (map slot_actions l)) = Some t' /\
  Forall (fun s => t' !! s_fd s = slot_target t s) l /\
  forall i, i ∉ map s_fd l -> t' !! i = t !! i.
Proof.
  induction l as [|s l IH]; intros t Hnd Hsrc; cbn [map concat] in *; [by exists t|].
  apply NoDup_cons in Hnd as [Hs Hnd]. apply Forall_app in Hsrc as [Hsrc1 Hsrc2].
  destruct (slot_acts t s) as (t1 & E1 & Ht1 & Hoth1).
  { eapply Forall_impl; [exact Hsrc1|]. by intros ? []. }
  destruct (IH t1 Hnd) as (t' & E2 & Hall & Hoth).
  { eapply Forall_impl; [exact Hsrc2|]. intros src [Hin Hni]. apply not_elem_of_cons in Hni as [? ?].
    by rewrite Hoth1. }
  exists t'. rewrite act_all_app, E1. split; [done|]. split.
  - constructor; [by rewrite Hoth|]. rewrite Forall_forall in *. intros s' Hs'. rewrite Hall by done.
    unfold slot_target. assert (s_fd s' <> s_fd s).
    { intros E. apply Hs. rewrite <- E. apply list_elem_of_fmap. eauto. }
    assert (forall src, src ∈ slot_source s' -> t1 !! src = t !! src) as Hsame.
    { intros src Hin. apply Hoth1. intros ->.
      destruct (proj1 (Forall_forall _ _) Hsrc2 (s_fd s)) as [_ Hn]; [|by apply Hn; left].
      apply list_elem_of_In, in_concat. exists (slot_source s').
      split; [apply in_map|]; by apply list_elem_of_In. }
    unfold slot_source in Hsame.
    destruct (s_spec s') eqn:Es; [by apply Hoth1|done|f_equal; apply Hsame; left..].
  - intros i Hi. apply not_elem_of_cons in Hi as [? ?]. rewrite Hoth by done. by apply Hoth1.
Qed.

Section wiring.
Context {K : Type} (kernel : Call -> K -> K * Ret) (host : Host K) (file_fd : nat -> option Z).

(** The streams of a spawn, with the pipes it made on the way. *)
Inductive wired (l : list (Call * Ret)) : Z -> list Stdio -> list Slot -> list (option Z) -> Prop :=
  | wired_nil fd : wired l fd [] [] []
  | wired_inherit fd ss sl p : wired l (fd + 1) ss sl p ->
      wired l fd (StdInherit :: ss) (mkSlot fd StdInherit 0 :: sl) (None :: p)
  | wired_null fd ss sl p : wired l (fd + 1) ss sl p ->
      wired l fd (StdNull :: ss) (mkSlot fd StdNull 0 :: sl) (None :: p)
  | wired_pipe fd ss sl p child parent r : (c_pipe2 O_CLOEXEC, r) ∈ l -> rv r = 0 ->
      out_pair r = (if fd =? 0 then (child, parent) else (parent, child)) ->
      wired l (fd + 1) ss sl p ->
      wired l fd (StdPipe :: ss) (mkSlot fd StdPipe child :: sl) (Some parent :: p)
  | wired_file fd ss sl p f src : file_fd f = Some src -> wired l (fd + 1) ss sl p ->
      wired l fd (StdFile f :: ss) (mkSlot fd (StdFile f) src :: sl) (None :: p).

(** The child's pipe ends. *)
Definition child_pipes (sl : list Slot) : list Z :=
  concat (map (fun s => match s_spec s with StdPipe => [s_src s] | _ => [] end) sl).

Lemma wired_mono l l' fd ss sl p : wired l fd ss sl p -> l ⊆ l' -> wired l' fd ss sl p.
Proof. induction 1; intros; econstructor; eauto. Qed.

(** No child was made by this call. *)
Definition no_child (e : Call * Ret) : Prop :=
  match fst e with c_posix_spawn _ _ _ _ _ => rv (snd e) <> 0 | _ => True end.

Definition extends (wr wr' : Wiring) (sl : list Slot) (p : list (option Z)) : Prop :=
  actions wr' = actions wr ++ concat (map slot_actions sl) /\
  child_ends wr' = child_ends wr ++ child_pipes sl /\ parent_ends wr' = parent_ends wr ++ p.

Lemma drop_fds_quiet fds (w : World K) : exists l, log (drop_fds kernel fds w) = log w ++ l /\ Forall no_child l.
Proof.
  destruct (drop_fds_closes kernel fds w) as (l & Hl & Hq). exists l. split; [done|].
  eapply List.Forall_impl; [|exact Hq]. intros e [fd E]. unfold no_child. by rewrite E.
Qed.

Lemma traces_bail {A} fds e (T : list (Call * Ret) -> Run A -> Prop) :
  (forall l, Forall no_child l -> T l (fail e)) -> traces (bail kernel fds e) T.
Proof. intros H w. destruct (drop_fds_quiet fds w) as (l & Hl & Hq). exists l. by split; [|apply H]. Qed.

Lemma traces_or_bail {A B} fds (m : World K -> World K * Run A) (k : A -> World K -> World K * Run B) P T :
  traces m (outcome no_child P) ->
  (forall l a, P a l -> traces (k a) (fun l2 => T (l ++ l2))) ->
  (forall l e, Forall no_child l -> T l (fail e)) -> traces (or_bail kernel fds m k) T.
Proof.
  intros Hm Hk Hf w. destruct (Hm w) as (l & Hl & HT). unfold or_bail, bail.
  destruct (m w) as [w1 [[a|e]| |]]; cbn [fst snd] in *; [|..|done|done].
  - destruct (Hk l a HT w1) as (l2 & Hl2 & HT2). exists (l ++ l2). by rewrite Hl2, Hl, app_assoc.
  - destruct (drop_fds_quiet fds w1) as (l2 & Hl2 & Hq). exists (l ++ l2).
    rewrite Hl2, Hl, app_assoc. split; [done|]. apply Hf. by apply Forall_app.
Qed.

Lemma make_pipe_trace : traces (make_pipe kernel) (outcome no_child (fun p l =>
  exists r, l = [(c_pipe2 O_CLOEXEC, r)] /\ rv r = 0 /\ p = out_pair r)).
Proof.
  unfold make_pipe. trace_step. destruct (rv r =? 0) eqn:E; bool_to_prop; apply traces_lift; cbn; [eauto|].
  by repeat constructor.
Qed.

Definition slot_post fd spec wr (wr' : Wiring) (l : list (Call * Ret)) : Prop :=
  Forall no_child l /\ exists s p, extends wr wr' [s] [p] /\
  forall l' ss sl ps, l ⊆ l' -> wired l' (fd + 1) ss sl ps -> wired l' fd (spec :: ss) (s :: sl) (p :: ps).

(** The end of a slot, after the calls [l0]: one action added. *)
Lemma add_action_trace l0 fd spec wr a fds e wr' s p : Forall no_child l0 -> extends wr wr' [s] [p] ->
  (forall l' ss sl ps, l0 ⊆ l' -> wired l' (fd + 1) ss sl ps -> wired l' fd (spec :: ss) (s :: sl) (p :: ps)) ->
  traces (st! r := syscall kernel (c_actions_add a) in
    if negb (rv r =? 0) then bail kernel fds (e r) else st_lift (ret wr'))
  (fun l => outcome no_child (slot_post fd spec wr) (l0 ++ l)).
Proof.
  intros H0 He Hw. trace_step. destruct (negb _).
  - apply traces_bail. intros l Hl. apply Forall_app. split; [done|]. by constructor.
  - apply traces_lift. split; [apply Forall_app; split; [done|by repeat constructor]|].
    exists s, p. split; [done|]. intros l' ss sl ps Hl'. apply Hw. set_solver.
Qed.

Lemma wire_slot_trace fd spec wr : traces (wire_slot kernel file_fd fd spec wr)
  (outcome no_child (slot_post fd spec wr)).
Proof.
  destruct spec as [| | |f]; cbn [wire_slot].
  - apply traces_lift. split; [constructor|]. exists (mkSlot fd StdInherit 0), None.
    split; [by unfold extends; rewrite !app_nil_r|]. intros. by constructor.
  - apply (add_action_trace [] _ _ _ _ _ _ _ (mkSlot fd StdNull 0) None); [done| |].
    + unfold extends, child_pipes. cbn. by rewrite !app_nil_r.
    + intros. by constructor.
  - eapply traces_or_bail; [apply make_pipe_trace| |done].
    intros l [rd wt] (r & -> & Hr & Ep).
    destruct (if fd =? 0 then (rd, wt) else (wt, rd)) as [child parent] eqn:E.
    apply (add_action_trace _ _ _ _ _ _ _ _ (mkSlot fd StdPipe child) (Some parent));
      [by repeat constructor|done|].
    intros l' ss sl ps Hl' Hw. apply wired_pipe with r; [apply Hl'; left|done| |done].
    rewrite <- Ep. by destruct (fd =? 0); simplify_eq.
  - destruct (file_fd f) as [src|] eqn:Ef; [|by apply traces_bail].
    apply (add_action_trace [] _ _ _ _ _ _ _ (mkSlot fd (StdFile f) src) None); [done| |].
    + unfold extends, child_pipes. cbn. by rewrite app_nil_r.
    + intros. by constructor.
Qed.

Lemma wire_trace stdio : forall fd wr, traces (wire kernel file_fd fd stdio wr)
  (outcome no_child (fun wr' l => Forall no_child l /\ exists sl p, extends wr wr' sl p /\ wired l fd stdio sl p)).
Proof.
  induction stdio as [|spec stdio IH]; intros fd wr; cbn [wire].
  - apply traces_lift. split; [constructor|]. exists [], []. split; [|constructor].
    unfold extends. by rewrite !app_nil_r.
  - eapply traces_then; [apply wire_slot_trace| |done]. intros l wr1 (Hq & s & p & He & Hw).
    eapply traces_weaken; [apply IH|]. intros l2 [[wr2|e]| |] H; cbn in *; [| |done..].
    + destruct H as (Hq2 & sl & ps & He2 & Hw2). split; [by apply Forall_app|].
      exists (s :: sl), (p :: ps). split.
      * destruct He as (A1 & C1 & P1), He2 as (A2 & C2 & P2). unfold extends, child_pipes in *.
        rewrite A2, C2, P2, A1, C1, P1. cbn. by rewrite !app_nil_r, <- !app_assoc.
      * apply Hw; [set_solver|]. eapply wired_mono; [exact Hw2|set_solver].
    + by apply Forall_app.
Qed.

(** The attributes asked for, and those the spawn is given. *)
Definition attr_of (group : GroupSpec) (detached : bool) : SpawnAttr :=
  mkSpawnAttr (Z.lor (match group with GroupInherit => 0 | _ => POSIX_SPAWN_SETPGROUP end)
                     (if detached then POSIX_SPAWN_SETSID else 0))
    (match group with JoinGroup pgid => sign 32 pgid | _ => 0 end).

(** A call that is only checked. *)
Lemma checked_trace {A} c fds e (k : World K -> World K * Run A) (P : A -> Prop) :
  (forall r, no_child (c, r)) -> traces k (outcome no_child (fun a l => Forall no_child l /\ P a)) ->
  traces (st! r := syscall kernel c in if negb (rv r =? 0) then bail kernel fds (e r) else k)
    (outcome no_child (fun a l => Forall no_child l /\ P a)).
Proof.
  intros Hc Hk. apply traces_sys. intros r. destruct (negb _).
  - apply traces_bail. intros l Hl. by constructor.
  - eapply traces_weaken; [exact Hk|]. intros l [[a|e']| |] H; cbn in *; [|by constructor|done..].
    split; [constructor|]; by try apply H.
Qed.

Lemma spawn_attr_trace group detached ends : traces (spawn_attr kernel group detached ends)
  (outcome no_child (fun attr l => Forall no_child l /\ attr = attr_of group detached)).
Proof.
  unfold spawn_attr, attr_of, target_pgid. apply checked_trace; [done|].
  destruct group, detached; cbn -[bail sign];
    repeat (apply checked_trace; [done|]); by apply traces_lift.
Qed.

(** The environment block a child is to get: the parent's variables as they
    are now, or exactly those given, by name; no entry holds a NUL. *)
Definition child_env (env : EnvSpec) (k : K) (envp : list OsString) : Prop :=
  Forall (fun e => 0 ∉ e) envp /\ exists vars, envp = map (fun v => fst v ++ lit "=" ++ snd v) vars /\
  match env with
  | EnvInherit => vars = environ host k
  | EnvExplicit m => vars ≡ₚ map_to_list m /\ Sorted key_le vars
  end.

(** The one call that makes the child, with the whole of its arguments. *)
Definition spawned path argv0 args cwd envp stdio group detached (l : list (Call * Ret))
    (pid : Z) (ends : list (option Z)) (sl : list Slot) : Prop :=
  exists pre r post, l = pre ++ (c_posix_spawn path (AddChdir cwd :: concat (map slot_actions sl))
     (attr_of group detached) (argv0 :: args) envp, r) :: post /\
  rv r = 0 /\ pid = out_int r /\ Forall no_child pre /\ Forall no_child post /\
  wired l 0 stdio sl ends.

Lemma to_cstring_op_spec a op :
  (to_cstring_op a op = ret a /\ 0 ∉ a) \/ exists e, to_cstring_op a op = fail e.
Proof.
  unfold to_cstring_op, to_cstring. destruct (existsb _ a) eqn:E; [eauto|left]. split; [done|].
  apply existsb_false_Forall in E. rewrite Forall_forall in E. intros H. by specialize (E 0 H).
Qed.
Lemma to_cstring_op_cases a op : to_cstring_op a op = ret a \/ exists e, to_cstring_op a op = fail e.
Proof. destruct (to_cstring_op_spec a op) as [[? _]|?]; auto. Qed.

Lemma to_cstrings_cases l op : to_cstrings l op = ret l \/ exists e, to_cstrings l op = fail e.
Proof.
  induction l as [|a l IH]; cbn; [by left|].
  destruct (to_cstring_op_cases a op) as [->|[e ->]]; [|eauto]. destruct IH as [->|[e ->]]; eauto.
Qed.

Lemma build_env_cases env (w : World K) : fst (build_env host env w) = w /\
  ((exists envp, snd (build_env host env w) = ret envp /\ child_env env (state w) envp) \/
   exists e, snd (build_env host env w) = fail e).
Proof.
  unfold build_env. split; [done|]. cbn [snd].
  set (pairs := match env with EnvInherit => _ | EnvExplicit map => _ end).
  match goal with |- (exists envp, ?go pairs = ret envp /\ _) \/ _ => assert (forall vars,
    (exists envp, go vars = ret envp /\ Forall (fun e => 0 ∉ e) envp /\ envp = map (fun v => fst v ++ lit "=" ++ snd v) vars)
    \/ exists e, go vars = fail e) as Hgo end.
  { induction vars as [|[k v] vars IH]; [left; by exists []|].
    destruct (to_cstring_op_spec (k ++ lit "=" ++ v) "posix_spawn env") as [[-> H0]|[e ->]]; [|right; by eexists].
    destruct IH as [(envp & -> & Hn & ->)|[e ->]]; [left|right; by eexists]. eexists. split; [reflexivity|].
    split; [|done]. by constructor. }
  destruct (Hgo pairs) as [(envp & -> & Hn & He)|[e ->]]; [left|right; by eexists].
  exists envp. split; [done|]. split; [done|]. exists pairs. split; [done|]. unfold pairs, btree_entries. destruct env as [|m]; [done|].
  split; [apply merge_sort_Permutation|]. apply Sorted_merge_sort. intros a b. apply (total bytes_le).
Qed.

Lemma build_env_trace env : traces (build_env host env)
  (outcome no_child (fun envp l => l = [] /\ exists k, child_env env k envp)).
Proof.
  intros w. exists []. destruct (build_env_cases env w) as [Hw H]. rewrite app_nil_r, Hw. split; [done|].
  destruct H as [(envp & -> & He)|[e ->]]; cbn; [|constructor]. split; [done|]. by eexists.
Qed.

Lemma traces_converted {A B} (r : Run A) a (k : A -> World K -> World K * Run B) P :
  (r = ret a \/ exists e, r = fail e) -> traces (k a) (outcome no_child P) ->
  traces (st_bind (st_lift r) k) (outcome no_child P).
Proof.
  intros [->|[e ->]] Hk.
  - apply traces_pure; [by intros ? [= <-]|]. intros H. by destruct (H a).
  - apply traces_pure; [done|]. constructor.
Qed.

Lemma spawn_trace path argv0 args cwd env stdio group detached :
  traces (spawn kernel host file_fd path argv0 args cwd env stdio group detached)
  (outcome no_child (fun p l => exists sl k envp, child_env env k envp /\
    spawned path argv0 args cwd envp stdio group detached l (fst p) (snd p) sl)).
Proof.
  unfold spawn.
  apply (traces_converted _ path); [apply to_cstring_op_cases|].
  apply (traces_converted _ cwd); [apply to_cstring_op_cases|].
  apply (traces_converted _ (argv0 :: args)); [apply to_cstrings_cases|].
  eapply traces_then; [apply build_env_trace| |done]. intros l envp (-> & k & Henv).
  trace_step. destruct (negb _); [apply traces_lift; by repeat constructor|].
  trace_step. destruct (negb _); [apply traces_lift; by repeat constructor|].
  eapply traces_then; [apply wire_trace| |intros l e Hl; repeat (constructor; [done|]); done].
  intros l wr (Hq & sl & p & (Ha & _ & Hp) & Hw).
  eapply traces_then; [apply spawn_attr_trace| |intros l2 e Hl; cbn in *; do 2 (constructor; [done|]); by apply Forall_app].
  intros l2 attr (Hq2 & ->). trace_step.
  destruct (rv r1 =? 0) eqn:E; bool_to_prop; cbn [negb]; [|apply traces_bail; intros l3 Hl; cbn in *;
    do 2 (constructor; [done|]); rewrite !Forall_app; repeat (split; [done|]); by constructor].
  intros w3. destruct (drop_fds_quiet (child_ends wr) w3) as (l3 & Hl3 & Hq3). exists l3. split; [done|].
  cbn [fst snd outcome]. exists sl, k, envp. split; [done|].
  cbn in Ha, Hp. unfold spawned. rewrite <- Ha, Hp in *. exists ((c_actions_init, r) :: (c_actions_add (AddChdir cwd), r0) :: l ++ l2), r1, l3.
  split; [cbn; by rewrite <- !app_assoc|]. split; [done|]. split; [done|].
  split; [do 2 (constructor; [done|]); by apply Forall_app|]. split; [done|].
  eapply wired_mono; [exact Hw|]. set_solver.
Qed.

Lemma wired_fds l stdio : forall fd sl p, wired l fd stdio sl p ->
  map s_fd sl = seqZ fd (Z.of_nat (length stdio)).
Proof.
  induction stdio as [|spec stdio IH]; intros fd sl p H; [by inversion H|].
  cbn [length]. rewrite Nat2Z.inj_succ, seqZ_cons by lia.
  replace (Z.pred _) with (Z.of_nat (length stdio)) by lia. rewrite <- Z.add_1_r.
  inversion H; subst; cbn; f_equal; by eapply IH.
Qed.

End wiring.

Section child.
Context {K : Type} (kernel : Call -> K -> K * Ret) (host : Host K) (file_fd : nat -> option Z).

(** The environment is read before any call is made. *)
Lemma spawn_env_now path argv0 args cwd env stdio group detached (w : World K) :
  spawn kernel host file_fd path argv0 args cwd env stdio group detached w =
  spawn kernel (mkHost K (fun _ => environ host (state w)) (now host) (file_mode host) (read_bytes host))
    file_fd path argv0 args cwd env stdio group detached w.
Proof.
  unfold spawn, st_bind, st_lift, build_env. destruct (to_cstring_op path _) as [[]| |]; [|reflexivity..].
  destruct (to_cstring_op cwd _) as [[]| |]; [|reflexivity..].
  destruct (to_cstrings _ _) as [[]| |]; reflexivity.
Qed.

Lemma spawn_trace_now path argv0 args cwd env stdio group detached (w : World K) : exists l,
  log (fst (spawn kernel host file_fd path argv0 args cwd env stdio group detached w)) = log w ++ l /\
  outcome no_child (fun p l => exists sl envp, child_env host env (state w) envp /\
    spawned file_fd path argv0 args cwd envp stdio group detached l (fst p) (snd p) sl) l
  (snd (spawn kernel host file_fd path argv0 args cwd env stdio group detached w)).
Proof.
  rewrite spawn_env_now. destruct (spawn_trace kernel (mkHost K (fun _ => environ host (state w)) (now host)
    (file_mode host) (read_bytes host)) file_fd path argv0 args cwd env stdio group detached w) as (l & Hl & H).
  exists l. split; [exact Hl|]. destruct (snd _) as [[p|e]| |]; [|exact H..].
  destruct H as (sl & k & envp & He & Hs). exists sl, envp. by split.
Qed.

(** C3: [spawn], whatever the kernel answers: it fails and no child was made,
    or it returns the pid of the child that the one successful [posix_spawn]
    among its calls made, with the path, the arguments and the group
    attributes asked for, with an environment of exactly the variables asked
    for (the parent's at the time, or those given, in the order of their
    names) and no NUL in it, and with file actions that change to the working
    directory first and then wire each standard stream.  In the child's
    descriptor table those actions put on each of 0, 1 and 2 what its
    specification says (the parent's own, [/dev/null] for the right
    direction, the child's end of the slot's pipe, or the given file) and
    leave every other descriptor, the close-on-exec pipe ends among them, as
    the parent has it, provided the sources are above 2.  On every path the
    caller ends up owning exactly the parent's pipe ends. *)
Theorem spawn_child h path argv0 args cwd env s0 s1 s2 group detached :
  owns h (spawn kernel host file_fd path argv0 args cwd env [s0; s1; s2] group detached)
    (fun p => fds (parent_fds (snd p)) ⊎ h) h /\
  forall w, exists l,
  log (fst (spawn kernel host file_fd path argv0 args cwd env [s0; s1; s2] group detached w)) = log w ++ l /\
  outcome no_child (fun p l => exists sl envp, child_env host env (state w) envp /\
    spawned file_fd path argv0 args cwd envp [s0; s1; s2] group detached l (fst p) (snd p) sl /\
    forall t, Forall (fun src => is_Some (t !! src) /\ 2 < src) (concat (map slot_source sl)) ->
    exists t', act_all t (AddChdir cwd :: concat (map slot_actions sl)) = Some t' /\
      Forall (fun s => t' !! s_fd s = slot_target t s) sl /\
      forall i, 2 < i -> t' !! i = t !! i) l
    (snd (spawn kernel host file_fd path argv0 args cwd env [s0; s1; s2] group detached w)).
Proof.
  split; [apply owns_spawn|]. intros w.
  destruct (spawn_trace_now path argv0 args cwd env [s0; s1; s2] group detached w) as (l & Hl & H).
  exists l. split; [done|]. revert H. unfold outcome. generalize (snd (spawn kernel host file_fd path argv0 args cwd env
    [s0; s1; s2] group detached w)). intros [[p|e]| |]; [|done..].
  intros (sl & envp & He & Hs). exists sl, envp. split; [done|]. split; [done|].
  intros t Ht. destruct Hs as (pre & r & post & _ & _ & _ & _ & _ & Hw).
  pose proof (wired_fds _ _ _ _ _ _ Hw) as Hfds. change (seqZ 0 _) with [0; 1; 2] in Hfds.
  destruct (slots_act sl t) as (t' & E & Hall & Hoth).
  - rewrite Hfds. by apply (bool_decide_unpack _).
  - rewrite Hfds. eapply Forall_impl; [exact Ht|]. cbn. intros src [? ?]. split; [done|].
    rewrite !not_elem_of_cons. repeat split; lia || apply not_elem_of_nil.
  - exists t'. split; [done|]. split; [done|]. intros i Hi. apply Hoth.
    rewrite Hfds, !not_elem_of_cons. repeat split; lia || apply not_elem_of_nil.
Qed.
End child.


(** A kernel that answers with fresh descriptors and pid 42. *)
Definition fresh_kernel (c : Call) (n : Z) : Z * Ret :=
  match c with
  | c_pipe2 _ => (n + 2, mkRet 0 0 (OPair n (n + 1)))
  | c_pidfd_open _ _ => (n + 1, mkRet n 0 ONone)
  | c_posix_spawn _ _ _ _ _ => (n, mkRet 0 0 (OInt 42))
  | _ => (n, mkRet 0 0 ONone)
  end.
Definition still_host {K} : Host K := mkHost K (fun _ => [(lit "A", lit "1")]) (fun _ => 0) (fun _ _ => None)
  (fun _ _ => inl ENOENT).

Example spawn_pipes :
  snd (spawn fresh_kernel still_host (fun _ => None) (lit "/bin/cat") (lit "cat") [] (lit "/tmp") EnvInherit
    [StdPipe; StdPipe; StdNull] NewGroup false (mkWorld 3 [])) = ret (42, [Some 4; Some 5; None]).
Proof. vm_compute. reflexivity. Qed.

(** ** Status words *)

(** How [wait(2)] encodes a status (a terminating signal may have the core
    flag set). *)
Definition status_word (s : ExitStatus) (core : bool) : Z :=
  match s with
  | Code c => Z.shiftl c 8
  | Signaled sig => Z.lor sig (if core then 128 else 0)
  | Stopped sig => Z.lor (Z.shiftl sig 8) 127
  | Continued => 65535
  end.

Definition status_ok (s : ExitStatus) : Prop :=
  match s with
  | Code c => 0 <= c < 256
  | Signaled sig => 1 <= sig <= 64
  | Stopped sig => 1 <= sig <= 64
  | Continued => True
  end.

Definition terminal (s : ExitStatus) : bool := match s with Code _ | Signaled _ => true | _ => false end.

Lemma in_range (P : Z -> bool) lo n : forallb P (seqZ lo n) = true ->
  forall x, lo <= x < lo + n -> P x = true.
Proof.
  intros H x Hx. rewrite forallb_forall in H. apply H. apply list_elem_of_In, elem_of_seqZ. lia.
Qed.

Definition decodes (core : bool) (s : ExitStatus) : bool :=
  bool_decide (decode_job (status_word s core) = s) &&
  (negb (terminal s) || bool_decide (decode (status_word s core) = s)).

(** C38: every status word decodes to the status it encodes: exits, signals
    with and without a core dump, and, for the job-control waits, stops and
    continuations; the plain decoder agrees on the terminal ones. *)
Theorem decode_status s core : status_ok s ->
  decode_job (status_word s core) = s /\ (terminal s = true -> decode (status_word s core) = s).
Proof.
  intros H. assert (decodes core s = true) as Hd.
  { destruct s as [c|sig|sig|]; cbn in H.
    - apply (in_range (fun c => decodes core (Code c)) 0 256); [by destruct core; vm_compute|lia].
    - apply (in_range (fun g => decodes core (Signaled g)) 1 64); [by destruct core; vm_compute|lia].
    - apply (in_range (fun g => decodes core (Stopped g)) 1 64); [by destruct core; vm_compute|lia].
    - by destruct core; vm_compute. }
  unfold decodes in Hd. apply andb_true_iff in Hd as [H1 H2]. apply bool_decide_eq_true in H1.
  split; [done|]. intros Ht. rewrite Ht in H2. by apply bool_decide_eq_true in H2.
Qed.

Lemma decode_status_witness :
  decode_job (status_word (Signaled 11) true) = Signaled 11 /\
  (terminal (Signaled 11) = true -> decode (status_word (Signaled 11) true) = Signaled 11).
Proof. apply decode_status. cbn. lia. Defined.

(** ** Zombies *)

(** the state is read from the field after the name, whatever the name
    contains: spaces, parentheses and digits do not move it. *)
Theorem parse_stat_state path pid comm st rest :
  (33 <= st < 127) -> Forall (fun c => c <> 41) (st :: rest) ->
  parse_stat path (pid ++ 32 :: 40 :: comm ++ 41 :: 32 :: st :: 32 :: rest) = ret (bool_decide (st = 90)).
Proof.
  intros Hst Hrest.
  assert (forall r, Forall (fun c => c <> 41) r -> after_last 41 r = None) as Hnone.
  { intros r. induction 1 as [|c r Hc _ IH]; [done|]. cbn. by rewrite IH, (proj2 (Z.eqb_neq c 41)). }
  assert (forall pre r, Forall (fun c => c <> 41) r -> after_last 41 (pre ++ 41 :: r) = Some r) as Hafter.
  { intros pre r Hr. induction pre as [|c pre IH]; cbn; [by rewrite Hnone|by rewrite IH]. }
  unfold parse_stat.
  replace (pid ++ _) with ((pid ++ 32 :: 40 :: comm) ++ 41 :: 32 :: st :: 32 :: rest)
    by (rewrite <- app_assoc; done).
  rewrite Hafter; [|inversion Hrest; repeat (constructor; [lia || done|]); done].
  unfold split_whitespace. cbn [chars]. rewrite (proj2 (Z.ltb_lt st 128)) by lia.
  cbn [Z.ltb Z.compare Pos.compare Pos.compare_cont ws_words].
  assert (is_whitespace st = false) as Hws.
  { unfold is_whitespace. repeat (apply orb_false_iff; split); try apply Z.eqb_neq; try lia.
    all: apply andb_false_iff; rewrite !Z.leb_gt; lia. }
  change (is_whitespace 32) with true. rewrite Hws.
  rewrite (bool_decide_eq_true_2 ([] = [])), (bool_decide_eq_false_2 ([st] = [])) by done.
  unfold of_chars. cbn [app map rev concat]. unfold encode_char. rewrite (proj2 (Z.ltb_lt st 128)) by lia.
  cbn [app]. do 2 f_equal. apply bool_decide_ext. split; [by intros [= ->]|by intros ->].
Qed.

Lemma parse_stat_state_witness :
  parse_stat [] (lit "7" ++ 32 :: 40 :: lit "a) Z (b" ++ 41 :: 32 :: 83 :: 32 :: lit "1 7") = ret (bool_decide (83 = 90)).
Proof. apply parse_stat_state; [lia|]. repeat (constructor; [done|]). constructor. Defined.

(** A process whose name is not UTF-8 cannot be asked about: [read_to_string]
    refuses its [stat] line, and the zombie is reported as an error without
    an OS code. *)
Example zombie_name_not_utf8 :
  let line := lit "7 (" ++ [255] ++ lit ") Z 1" in
  let host : Host unit := mkHost unit (fun _ => []) (fun _ => 0) (fun _ _ => None) (fun _ _ => inr line) in
  parse_stat (lit "/proc/7/stat") line = ret true /\
  snd (is_zombie host 7 (mkWorld tt [])) =
    fail (with_path (error_new Other (Errno 0) "read /proc/<pid>/stat") (lit "/proc/7/stat")).
Proof. vm_compute. done. Qed.

(** A group of 0 is the caller's own group: [kill] with 0 reaches the
    process that asked. *)
Example kill_group_zero :
  log (fst (kill_group fresh_kernel 0 Kill (mkWorld 3 []))) = [(c_kill 0 9, mkRet 0 0 ONone)].
Proof. reflexivity. Qed.

(** ** Waiting on pidfds *)

Section poll.
Context {K : Type} (kernel : Call -> K -> K * Ret) (host : Host K) (mu : K -> nat).

(** What [poll(2)] documents, and that time does not go back: when it returns
    0 the whole timeout has passed, otherwise it counts the entries whose
    [revents] it set; it is interrupted finitely often. *)
Class PollLaws := {
  time_passes c k : now host k <= now host (fst (kernel c k));
  poll_returns fds ms k : let (k', r) := kernel (c_poll fds ms) k in
    (mu k' <= mu k)%nat /\ (rv r < 0 -> err r = EINTR -> (mu k' < mu k)%nat) /\
    (rv r = 0 -> 0 <= ms /\ now host k + ms * 1000000 <= now host k') /\
    (0 < rv r -> exists i v, (i < length fds)%nat /\ out_ints r !! i = Some v /\ v <> 0);
}.
Context {L : PollLaws}.

Lemma position_ready_some revents i v : revents !! i = Some v -> v <> 0 ->
  exists j, position_ready revents = Some j /\ (j <= i)%nat.
Proof.
  revert i. induction revents as [|x l IH]; intros i Hi Hv; [done|]. cbn [position_ready].
  destruct (x =? 0) eqn:E; cbn [negb]; bool_to_prop.
  - destruct i as [|i]; cbn in Hi; [congruence|]. destruct (IH i Hi Hv) as (j & -> & Hj).
    exists (S j). split; [done|lia].
  - exists O. split; [done|lia].
Qed.

Definition poll_answer (fds : list (Z * Z)) (d : Z) (w' : World K) (r : Run (option nat)) : Prop :=
  match r with
  | ret None => d - 1000000 < now host (state w')
  | ret (Some i) => (i < length fds)%nat
  | fail e => os e <> Errno EINTR
  | _ => False
  end.

Lemma timeout_ms_close d t : d - t < 1000000 * (I32_MAX + 1) ->
  d - 1000000 < t + timeout_ms (Some d) t * 1000000.
Proof.
  unfold timeout_ms, I32_MAX. intros H. generalize (Z.max 0 (d - t)) (Z.le_max_r 0 (d - t)) (Z.max_lub_lt_iff 0 (d - t)).
  intros m Hm Hlt. pose proof (Z.mod_pos_bound m 1000000 ltac:(lia)) as Hb.
  pose proof (Z.div_mod m 1000000 ltac:(lia)) as Hq. revert Hb Hq.
  generalize (m / 1000000) (m mod 1000000). intros q r Hb Hq.
  specialize (Hlt (1000000 * (2147483647 + 1))). lia.
Qed.

Lemma poll_loop_answers fds d fuel : forall (w : World K),
  (mu (state w) < fuel)%nat -> d - now host (state w) < 1000000 * (I32_MAX + 1) ->
  exists w' r, poll_loop kernel host fuel fds (Some d) w = (w', r) /\ poll_answer fds d w' r.
Proof.
  induction fuel as [|fuel IH]; intros w Hf Hd; [lia|]. cbn [poll_loop].
  unfold poll_once, st_bind, syscall, st_lift.
  set (ms := timeout_ms (Some d) (now host (state w))).
  pose proof (poll_returns fds ms (state w)) as H. pose proof (time_passes (c_poll fds ms) (state w)) as Ht.
  destruct (kernel (c_poll fds ms) (state w)) as [k1 r1]. destruct H as (Hmu & Hint & H0 & Hpos).
  destruct (rv r1 <? 0) eqn:E; bool_to_prop.
  - case_bool_decide as Ee.
    + assert (err r1 = EINTR) as E2 by (unfold errno_err in Ee; cbn in Ee; congruence).
      apply IH; [specialize (Hint E E2); cbn; lia|cbn in *; lia].
    + eexists _, _. split; [reflexivity|]. done.
  - destruct (rv r1 =? 0) eqn:E0; bool_to_prop.
    + eexists _, _. split; [reflexivity|]. unfold poll_answer. cbn [state].
      destruct (H0 E0) as [_ Hnow]. pose proof (timeout_ms_close d _ Hd). unfold ms in Hnow. lia.
    + destruct Hpos as (i & v & Hi & Hv & Hne); [lia|].
      destruct (position_ready_some _ _ _ Hv Hne) as (j & -> & Hj).
      eexists _, _. split; [reflexivity|]. cbn. lia.
Qed.

Lemma owns_pidfd_open h pid : owns h (pidfd_open kernel pid) (fun fd => {[+ fd +]} ⊎ h) h.
Proof. unfold pidfd_open. owns_go. Qed.

Lemma owns_open_pidfds h pids : forall acc,
  owns (fds acc ⊎ h) (open_pidfds kernel pids acc) (fun l => fds l ⊎ h) h.
Proof.
  induction pids as [|pid pids IH]; intros acc; cbn [open_pidfds]; [by apply owns_ret|].
  eapply owns_or_bail; [apply owns_pidfd_open|]. intros fd. cbv beta.
  rewrite (assoc_L (⊎)), <- list_to_set_disj_cons. eapply owns_perm; [|apply IH].
  by rewrite <- Permutation_cons_append.
Qed.

Lemma owns_poll_loop h fuel fds d : owns h (poll_loop kernel host fuel fds d) (fun _ => h) h.
Proof.
  induction fuel as [|fuel IH]; intros w w' r; cbn [poll_loop].
  { intros [= <- <-]. exists []. by rewrite app_nil_r. }
  pose proof (owns_neutral kernel h (c_poll fds (timeout_ms d (now host (state w)))) h eq_refl ltac:(done)) as Ho.
  unfold poll_once, st_bind, st_lift. destruct (syscall kernel _ w) as [w1 [[r1|e]| |]] eqn:E.
  all: destruct (Ho _ _ _ E) as (l1 & Hl1 & H1).
  - destruct (rv r1 <? 0).
    + case_bool_decide; [|intros [= <- <-]; exists l1; split; [done|intros _; by apply H1]].
      intros H2. destruct (IH _ _ _ H2) as (l2 & Hl2 & HT). exists (l1 ++ l2).
      rewrite Hl2, Hl1, app_assoc. split; [done|]. intros Hr. rewrite replay_app, H1 by done. by apply HT.
    + destruct (rv r1 =? 0); [|destruct (position_ready _)]; intros [= <- <-]; exists l1;
        (split; [done|intros _; by apply H1]).
  - unfold syscall in E. by destruct (kernel _ _).
  - unfold syscall in E. by destruct (kernel _ _).
  - unfold syscall in E. by destruct (kernel _ _).
Qed.

Lemma owns_poll_pids h fuel pids timeout :
  owns h (poll_pids kernel host fuel pids timeout) (fun _ => h) h.
Proof.
  unfold poll_pids. apply (owns_bind _ _ _ (fun l => fds l ⊎ h)).
  - eapply owns_eq; [apply (owns_open_pidfds h pids [])|exact (left_id_L ∅ (⊎) h)|done|done].
  - intros l. apply owns_scoped_all. intros w w' r. destruct timeout as [t|]; [|apply owns_poll_loop].
    destruct (_ <=? _); [|apply owns_poll_loop]. intros [= <- <-]. exists []. by rewrite app_nil_r.
Qed.

Lemma clock_drop_fds l : forall (w : World K), now host (state w) <= now host (state (drop_fds kernel l w)).
Proof.
  induction l as [|fd l IH]; intros w; [cbn; lia|]. cbn [drop_fds fold_left].
  etransitivity; [|apply (IH (drop_fd kernel fd w))]. unfold drop_fd, syscall.
  pose proof (time_passes (c_close fd) (state w)). by destruct (kernel _ _).
Qed.

Lemma open_pidfds_total pids : forall acc (w : World K), exists w' r,
  open_pidfds kernel pids acc w = (w', r) /\ now host (state w) <= now host (state w') /\
  match r with ret l => length l = (length acc + length pids)%nat | fail _ => True | _ => False end.
Proof.
  induction pids as [|pid pids IH]; intros acc w; cbn [open_pidfds].
  - exists w, (ret acc). split; [done|]. split; [lia|]. cbn. lia.
  - unfold or_bail, pidfd_open, bail, st_bind, syscall, st_lift.
    pose proof (time_passes (c_pidfd_open pid 0) (state w)) as Ht.
    destruct (kernel _ (state w)) as [k1 r1]. cbn [fst] in Ht.
    pose proof (clock_drop_fds acc (mkWorld k1 (log w ++ [(c_pidfd_open pid 0, r1)]))) as Hd. cbn [state] in Hd.
    destruct (rv r1 <? 0); [destruct (err r1 =? ENOSYS)|].
    1,2: eexists _, _; split; [reflexivity|]; split; [lia|done].
    destruct (IH (acc ++ [rv r1]) (mkWorld k1 (log w ++ [(c_pidfd_open pid 0, r1)]))) as (w' & r & E & Hc & H).
    exists w', r. split; [done|]. split; [cbn in Hc; lia|]. destruct r as [[l|]| |]; try done.
    rewrite H, length_app. cbn. lia.
Qed.

(** [poll_pids] with a timeout below [i32::MAX] milliseconds always
    answers, however often it is interrupted (finitely often): it reports one
    of the pids it was given, or an error, or nothing, and then no more than a
    millisecond of the timeout is left; it panics only for a deadline no
    [Instant] can hold.  It closes every pidfd it opened, on every path. *)
Theorem poll_pids_answers h fuel pids timeout (w : World K) :
  (forall k, (mu k < fuel)%nat) -> timeout < 1000000 * (I32_MAX + 1) ->
  owns h (poll_pids kernel host fuel pids (Some timeout)) (fun _ => h) h /\
  exists w' r, poll_pids kernel host fuel pids (Some timeout) w = (w', r) /\
  match r with
  | ret None => now host (state w) + timeout - 1000000 < now host (state w')
  | ret (Some i) => (i < length pids)%nat
  | fail e => True
  | Panic => MAX_INSTANT <= now host (state w') + timeout
  | OutOfFuel => False
  end.
Proof.
  intros Hf Ht. split; [apply owns_poll_pids|]. unfold poll_pids.
  destruct (open_pidfds_total pids [] w) as (w1 & r & E & Hc & Hr).
  destruct r as [[l|e]| |]; try done.
  2: { exists w1, (fail e). unfold st_bind. by rewrite E. }
  rewrite (st_bind_ret _ _ _ _ _ E). unfold scoped_all.
  destruct (MAX_INSTANT <=? _) eqn:Em; bool_to_prop.
  { eexists _, _. split; [reflexivity|]. cbn beta iota. pose proof (clock_drop_fds l w1). lia. }
  destruct (poll_loop_answers (map (fun fd => (fd, POLLIN)) l) (now host (state w1) + timeout) fuel w1)
    as (w2 & r & -> & Hans); [done|lia|].
  pose proof (clock_drop_fds l w2) as Hd.
  destruct r as [[[i|]|e]| |]; cbn [poll_answer] in Hans; [| | |done..];
    eexists _, _; (split; [reflexivity|]); cbn beta iota; [|lia|done].
  rewrite length_map in Hans. cbn in Hr. lia.
Qed.
End poll.

(** A kernel whose clock is its state and whose [poll] sleeps. *)
Definition sleepy (c : Call) (k : Z) : Z * Ret :=
  match c with
  | c_poll fds ms => (k + Z.max 1 ms * 1000000, mkRet (if 0 <=? ms then 0 else -1) 0 ONone)
  | c_pidfd_open _ _ => (k, mkRet 3 0 ONone)
  | _ => (k, mkRet 0 0 ONone)
  end.
Definition clock_host : Host Z := mkHost Z (fun _ => []) (fun k => k) (fun _ _ => None) (fun _ _ => inl ENOENT).

Lemma poll_pids_answers_witness :
  owns ∅ (poll_pids sleepy clock_host 1 [7; 8] (Some 5000000)) (fun _ => ∅) ∅ /\
  exists w' r, poll_pids sleepy clock_host 1 [7; 8] (Some 5000000) (mkWorld 100 []) = (w', r) /\
  match r with
  | ret None => 100 + 5000000 - 1000000 < now clock_host (state w')
  | ret (Some i) => (i < 2)%nat
  | fail e => True
  | Panic => MAX_INSTANT <= now clock_host (state w') + 5000000
  | OutOfFuel => False
  end.
Proof.
  assert (PollLaws sleepy clock_host (fun _ => 0%nat)) as L.
  { split.
    - intros c k. destruct c; cbn; lia.
    - intros fds ms k. cbn. destruct (0 <=? ms) eqn:E; bool_to_prop; cbn; repeat split; intros; lia || done. }
  apply (poll_pids_answers (L := L) sleepy clock_host (fun _ => 0%nat) ∅ 1 [7; 8] 5000000 (mkWorld 100 []));
    [lia|unfold I32_MAX; lia].
Defined.

(** The rest of a millisecond is cut off: with less than a millisecond to
    wait, [poll] is not made to wait at all. *)
Example poll_pids_early : timeout_ms (Some 999999) 0 = 0.
Proof. reflexivity. Qed.

(** A timeout of [Duration::MAX] is past the last [Instant]. *)
Example poll_pids_max : snd (poll_pids sleepy clock_host 1 [7] (Some ((2 ^ 64 - 1) * 1000000000 + 999999999))
  (mkWorld 100 [])) = Panic.
Proof. vm_compute. reflexivity. Qed.
