(* ===== verification/LinuxProcess.v ===== *)
(** * The Linux process backend ([platform-linux/src/process.rs])

    [LinuxChild] and [LinuxSpawner] over the spawn layer.  A method that
    takes [&mut self] returns the child it leaves; an error leaves it as it
    was. *)

From Stdlib Require Import ZArith Lia String.
From S2P Require Import Prelude Error Sys Process LinuxSpawn.
From stdpp Require Import base numbers list strings gmap gmultiset.
Open Scope Z_scope.

Record LinuxChild := mkLinuxChild {
  lc_pid : Z;
  lc_group : option Z;
  lc_reaped : option ExitStatus;
  lc_pipes : list (option Z);
}.

Definition from_pid (pid : Z) (group : option Z) : LinuxChild :=
  mkLinuxChild pid group None [None; None; None].

Definition set_reaped (c : LinuxChild) (s : ExitStatus) : LinuxChild :=
  mkLinuxChild (lc_pid c) (lc_group c) (Some s) (lc_pipes c).

(** [matches!(s, Stopped(_) | Continued)]. *)
Definition still_there (s : ExitStatus) : bool :=
  match s with Stopped _ | Continued => true | _ => false end.

(** [Path::join] with a name that holds no [/], and [PATH]'s entries. *)
Definition join (dir program : OsString) : OsString :=
  match reverse dir with
  | [] => program
  | b :: _ => if b =? 47 then dir ++ program else dir ++ 47 :: program
  end.
Definition split_paths (path_var : OsString) : list OsString := split_char 58 path_var.

Fixpoint env_var (name : OsString) (vars : list (OsString * OsString)) : option OsString :=
  match vars with
  | [] => None
  | (k, v) :: vars => if bool_decide (k = name) then Some v else env_var name vars
  end.

Section process.
Context {K : Type} (kernel : Call -> K -> K * Ret) (host : Host K) (file_fd : nat -> option Z).
(** [thread::sleep]. *)
Context (sleep : Z -> K -> K).
Abbreviation M A := (World K -> World K * Run A).

(** ** The child *)

Definition child_wait (fuel : nat) (c : LinuxChild) : M ExitStatus :=
  scoped_all kernel (parent_fds (lc_pipes c))
    (match lc_reaped c with
     | Some status => st_lift (ret status)
     | None => wait kernel fuel (lc_pid c)
     end).

Definition child_id (c : LinuxChild) : Z := wrap 32 (lc_pid c).

Definition kill_tree (c : LinuxChild) (sig : Signal) : M unit :=
  match lc_group c with
  | None => st_lift (fail (error_new Unsupported NoCode "kill_tree"))
  | Some pgid => kill_group kernel pgid sig
  end.

Definition child_kill_single (c : LinuxChild) (sig : Signal) : M unit := kill_single kernel (lc_pid c) sig.

Definition child_try_wait (fuel : nat) (c : LinuxChild) : M (LinuxChild * option ExitStatus) :=
  match lc_reaped c with
  | Some status => st_lift (ret (c, Some status))
  | None =>
    st! r := try_wait kernel fuel (lc_pid c) in
    st_lift (ret (match r with Some s => set_reaped c s | None => c end, r))
  end.

Definition child_wait_job (fuel : nat) (c : LinuxChild) : M (LinuxChild * ExitStatus) :=
  match lc_reaped c with
  | Some status => st_lift (ret (c, status))
  | None =>
    st! status := wait_job kernel fuel (lc_pid c) in
    st_lift (ret (if still_there status then c else set_reaped c status, status))
  end.

Definition child_try_wait_job (fuel : nat) (c : LinuxChild) : M (LinuxChild * option ExitStatus) :=
  match lc_reaped c with
  | Some status => st_lift (ret (c, Some status))
  | None =>
    st! status := try_wait_job kernel fuel (lc_pid c) in
    st_lift (ret (match status with
                  | Some s => if still_there s then c else set_reaped c s
                  | None => c
                  end, status))
  end.

(** [self.pipes[i].take()]: the descriptor moves to the caller. *)
Definition take_pipe (i : nat) (c : LinuxChild) : LinuxChild * option Z :=
  (mkLinuxChild (lc_pid c) (lc_group c) (lc_reaped c) (<[i := None]> (lc_pipes c)),
   mjoin (lc_pipes c !! i)).
Definition take_stdin := take_pipe 0.
Definition take_stdout := take_pipe 1.
Definition take_stderr := take_pipe 2.

(** ** The spawner *)

Definition is_executable_file (path : OsString) (k : K) : bool :=
  match file_mode host path k with
  | Some mode => (Z.land mode 61440 =? 32768) && negb (Z.land mode 73 =? 0)
  | None => false
  end.

Fixpoint search_path (program : OsString) (dirs : list OsString) (k : K) : option OsString :=
  match dirs with
  | [] => None
  | dir :: dirs =>
    let candidate := join dir program in
    if is_executable_file candidate k then Some candidate else search_path program dirs k
  end.

Definition resolve (program : OsString) : M OsString := fun w =>
  let not_found := fail (with_path (error_new NotFound NoCode "resolve") program) in
  (w, if bool_decide (program = []) then fail (with_path (error_new InvalidInput NoCode "resolve") program)
      else if existsb (Z.eqb 47) program then
        if is_executable_file program (state w) then ret program else not_found
      else
        match env_var (lit "PATH") (environ host (state w)) with
        | None => not_found
        | Some path_var =>
          match search_path program (split_paths path_var) (state w) with
          | Some candidate => ret candidate
          | None => not_found
          end
        end).

Definition is_join (g : GroupSpec) : bool := match g with JoinGroup _ => true | _ => false end.
Definition is_new (g : GroupSpec) : bool := match g with NewGroup => true | _ => false end.

Definition spawner_spawn (cmd : Command) : M LinuxChild :=
  if detached cmd && is_join (c_group cmd)
  then st_lift (fail (error_new InvalidInput NoCode "spawn: detach cannot join an existing group"))
  else if detached cmd && is_new (c_group cmd)
  then st_lift (fail (error_new Unsupported NoCode "spawn: detach with GroupSpec::NewGroup"))
  else
    st! resolved := resolve (program cmd) in
    st! (pid, pipes) := spawn kernel host file_fd resolved (program cmd) (argv cmd) (cwd cmd) (c_env cmd)
      [c_stdin cmd; c_stdout cmd; c_stderr cmd] (c_group cmd) (detached cmd) in
    let group := match c_group cmd with
                 | GroupInherit => if detached cmd then Some pid else None
                 | NewGroup => Some pid
                 | JoinGroup pgid => Some (sign 32 pgid)
                 end in
    st_lift (ret (mkLinuxChild pid group None pipes)).

Definition adopt (pid : Z) : M unit := st_lift (fail (error_new Unsupported NoCode "adopt")).
Definition spawner_is_alive (pid : Z) : M bool := is_alive kernel (sign 32 pid).
Definition spawner_is_zombie (pid : Z) : M bool := is_zombie host (sign 32 pid).

(** ** [wait_any] over a slice of children

    The slice is part of the state, a child is its index.  All the children
    are this backend's own. *)

Abbreviation Table := (World K * list LinuxChild)%type.

Definition try_wait_at (fuel : nat) (i : nat) (s : Table) : Table * Run (option ExitStatus) :=
  match snd s !! i with
  | None => (s, Panic)
  | Some c =>
    match child_try_wait fuel c (fst s) with
    | (w, ret (c', r)) => ((w, <[i := c']> (snd s)), ret r)
    | (w, fail e) => ((w, snd s), fail e)
    | (w, Panic) => ((w, snd s), Panic)
    | (w, OutOfFuel) => ((w, snd s), OutOfFuel)
    end
  end.

Definition on_world {A} (m : M A) (s : Table) : Table * Run A :=
  let (w, r) := m (fst s) in ((w, snd s), r).

Definition table_now (s : Table) : Z := now host (state (fst s)).
Definition table_sleep (d : Z) (s : Table) : Table :=
  (mkWorld (sleep d (state (fst s))) (log (fst s)), snd s).

Definition native_wait_any (fuel : nat) (timeout : option Z) (s : Table) : Table * Run (option nat) :=
  let indices := seq 0 (length (snd s)) in
  let portable := Process.wait_any (try_wait_at fuel) table_now table_sleep fuel indices timeout in
  match snd s with
  | [] => (s, fail (error_new InvalidInput NoCode "wait_any"))
  | _ =>
    match scan (try_wait_at fuel) 0 indices s with
    | (s, ret (Some i)) => (s, ret (Some i))
    | (s, ret None) =>
      let pids := map lc_pid (snd s) in
      match on_world (poll_pids kernel host fuel pids timeout) s with
      | (s, ret (Some pos)) => (st! _ := try_wait_at fuel pos in st_lift (ret (Some pos))) s
      | (s, ret None) => (s, ret None)
      | (s, fail e) => if bool_decide (kind e = Unsupported) then portable s else (s, fail e)
      | (s, Panic) => (s, Panic)
      | (s, OutOfFuel) => (s, OutOfFuel)
      end
    | (s, r) => (s, r)
    end
  end.
End process.

(** ** A child is reaped once

    [reaps e]: the call handed over the final status of [pid], after which the
    kernel may give the number to another process. *)

Definition waits (pid : Z) (e : Call * Ret) : Prop :=
  match fst e with c_waitpid p _ => p = pid | _ => False end.
Definition reaps (pid : Z) (e : Call * Ret) : Prop :=
  match fst e with
  | c_waitpid p flags => p = pid /\ rv (snd e) = pid /\
      (Z.land flags WUNTRACED = 0 \/ still_there (decode_job (out_int (snd e))) = false)
  | _ => False
  end.

(** No wait for [pid] after the call that reaped it. *)
Fixpoint reaped_once (pid : Z) (l : list (Call * Ret)) : Prop :=
  match l with
  | [] => True
  | e :: l => (reaps pid e -> Forall (fun e => ~ waits pid e) l) /\ reaped_once pid l
  end.

Section child.
Context {K : Type} (kernel : Call -> K -> K * Ret).

Inductive Poll := PTryWait | PWaitJob | PTryWaitJob.

(** One use of the child, with the status it reported. *)
Definition poll (fuel : nat) (p : Poll) (c : LinuxChild) : World K -> World K * Run (LinuxChild * option ExitStatus) :=
  match p with
  | PTryWait => child_try_wait kernel fuel c
  | PWaitJob => st! (c, s) := child_wait_job kernel fuel c in st_lift (ret (c, Some s))
  | PTryWaitJob => child_try_wait_job kernel fuel c
  end.

(** A use that fails leaves the child as it was; the statuses reported, in
    order, and the child at the end. *)
Fixpoint polls (fuel : nat) (ps : list Poll) (c : LinuxChild) (w : World K)
    : World K * LinuxChild * list (option ExitStatus) :=
  match ps with
  | [] => (w, c, [])
  | p :: ps =>
    match poll fuel p c w with
    | (w, ret (c, s)) => let '(w, c, ss) := polls fuel ps c w in (w, c, s :: ss)
    | (w, _) => polls fuel ps c w
    end
  end.

(** What one loop asks: any number of interrupted calls that reaped nothing,
    then one that settles it. *)
Definition settled (pid flags : Z) (l : list (Call * Ret)) (last : Ret) : Prop :=
  exists l0, l = l0 ++ [(c_waitpid pid flags, last)] /\ Forall (fun e => rv (snd e) <> pid) l0.

Lemma try_wait_loop_trace fuel pid flags dec_ :
  traces (try_wait_loop kernel fuel pid flags dec_) (fun l r =>
    match r with
    | ret (Some s) => exists x, settled pid flags l x /\ rv x = pid /\ s = dec_ (out_int x)
    | ret None => Forall (fun e => rv (snd e) <> pid) l
    | fail _ | OutOfFuel => Forall (fun e => rv (snd e) <> pid) l
    | Panic => False
    end).
Proof.
  induction fuel as [|fuel IH]; cbn [try_wait_loop]; [by apply traces_lift|].
  trace_step. destruct (rv r =? pid) eqn:E; bool_to_prop.
  - apply traces_lift. exists r. split; [|done]. by exists [].
  - destruct (rv r =? 0); [apply traces_lift; by repeat constructor|].
    destruct (err r =? EINTR); [|apply traces_lift; by repeat constructor].
    eapply traces_weaken; [exact IH|]. intros l [[[s|]|e]| |] H; try done; try by constructor.
    destruct H as (x & (l0 & -> & Hl0) & Hx). exists x. split; [|done].
    eexists (_ :: l0). split; [reflexivity|]. by constructor.
Qed.

Lemma wait_loop_trace fuel pid flags dec_ :
  traces (wait_loop kernel fuel pid flags dec_) (fun l r =>
    match r with
    | ret s => exists x, settled pid flags l x /\ rv x = pid /\ s = dec_ (out_int x)
    | fail _ | OutOfFuel => Forall (fun e => rv (snd e) <> pid) l
    | Panic => False
    end).
Proof.
  induction fuel as [|fuel IH]; cbn [wait_loop]; [by apply traces_lift|].
  trace_step. destruct (rv r =? pid) eqn:E; bool_to_prop.
  - apply traces_lift. exists r. split; [|done]. by exists [].
  - destruct (err r =? EINTR); [|apply traces_lift; by repeat constructor].
    eapply traces_weaken; [exact IH|]. intros l [[s|e]| |] H; try done; try by constructor.
    destruct H as (x & (l0 & -> & Hl0) & Hx). exists x. split; [|done].
    eexists (_ :: l0). split; [reflexivity|]. by constructor.
Qed.

Lemma decode_final st : still_there (LinuxSpawn.decode st) = false.
Proof. unfold LinuxSpawn.decode. by repeat case_match. Qed.

Lemma not_reaps pid l : Forall (fun e : Call * Ret => rv (snd e) <> pid) l -> Forall (fun e => ~ reaps pid e) l.
Proof. intros H. eapply List.Forall_impl; [|exact H]. intros [[] r] Hr; cbn; tauto. Qed.

(** What a child that was not reaped becomes: reaped exactly when its last
    call reaped. *)
Definition poll_post (c : LinuxChild) (l : list (Call * Ret)) (r : Run (LinuxChild * option ExitStatus)) : Prop :=
  match r with
  | ret (c', s) => lc_pid c' = lc_pid c /\
      match s with
      | Some st => lc_reaped c' = (if still_there st then None else Some st)
      | None => lc_reaped c' = None
      end /\
      (lc_reaped c' = None /\ Forall (fun e => ~ reaps (lc_pid c) e) l \/
       is_Some (lc_reaped c') /\ exists l0 x, l = l0 ++ [x] /\ Forall (fun e => ~ reaps (lc_pid c) e) l0)
  | fail _ | OutOfFuel => Forall (fun e => ~ reaps (lc_pid c) e) l
  | Panic => False
  end.

Lemma poll_settled c flags l x st dec_ : lc_reaped c = None ->
  settled (lc_pid c) flags l x -> rv x = lc_pid c -> st = dec_ (out_int x) ->
  dec_ = decode_job /\ Z.land flags WUNTRACED <> 0 \/ (forall z, still_there (dec_ z) = false) ->
  poll_post c l (ret (if still_there st then c else set_reaped c st, Some st)).
Proof.
  intros Hc (l0 & -> & Hl0%not_reaps) Hx -> Hd. cbn. destruct (still_there (dec_ _)) eqn:E; cbn.
  - split; [done|]. split; [done|]. left. split; [done|]. apply Forall_app. split; [done|].
    constructor; [|done]. cbn. destruct Hd as [[-> Hf]|Hd]; [|by rewrite Hd in E].
    rewrite E. intros (_ & _ & [?|?]); done.
  - split; [done|]. split; [done|]. right. split; [done|]. by eexists l0, _.
Qed.

Lemma poll_trace fuel p c : lc_reaped c = None -> traces (poll fuel p c) (poll_post c).
Proof.
  intros Hc. destruct p; cbn [poll].
  - unfold child_try_wait. rewrite Hc. eapply traces_bind; [apply try_wait_loop_trace| |].
    + intros l [s|] H; apply traces_lift; rewrite app_nil_r.
      * destruct H as (x & Hs & Hx & ->).
        pose proof (poll_settled c _ _ _ _ LinuxSpawn.decode Hc Hs Hx eq_refl (or_intror decode_final)) as H.
        by rewrite decode_final in H.
      * cbn. split; [done|]. split; [done|]. left. by split; [|apply not_reaps].
    + intros l [[s|e]| |] H Hr; cbn in *; [by destruct (Hr s)|by apply not_reaps|done|by apply not_reaps].
  - apply (traces_bind _ _ (fun l r => match r with
      | ret (c', s) => poll_post c l (ret (c', Some s)) | fail e => poll_post c l (fail e)
      | Panic => False | OutOfFuel => poll_post c l OutOfFuel end)).
    + unfold child_wait_job. rewrite Hc. eapply traces_bind; [apply wait_loop_trace| |].
      * intros l s (x & Hs & Hx & ->). apply traces_lift. rewrite app_nil_r.
        apply (poll_settled c _ _ _ _ decode_job Hc Hs Hx eq_refl). by left.
      * intros l [[s|e]| |] H Hr; cbn in *; [by destruct (Hr s)|by apply not_reaps|done|by apply not_reaps].
    + intros l [c' s] H. apply traces_lift. by rewrite app_nil_r.
    + intros l [[[c' s]|e]| |] H Hr; cbn in *; [by destruct (Hr (c', s))|done..].
  - unfold child_try_wait_job. rewrite Hc. eapply traces_bind; [apply try_wait_loop_trace| |].
    + intros l [s|] H; apply traces_lift; rewrite app_nil_r.
      * destruct H as (x & Hs & Hx & ->).
        apply (poll_settled c _ _ _ _ decode_job Hc Hs Hx eq_refl). by left.
      * cbn. split; [done|]. split; [done|]. left. by split; [|apply not_reaps].
    + intros l [[s|e]| |] H Hr; cbn in *; [by destruct (Hr s)|by apply not_reaps|done|by apply not_reaps].
Qed.

(** A final status is reported from then on. *)
Fixpoint stable (ss : list (option ExitStatus)) : Prop :=
  match ss with
  | [] => True
  | s :: ss => match s with
               | Some st => still_there st = false -> Forall (eq (Some st)) ss
               | None => True
               end /\ stable ss
  end.

Lemma polls_reaped fuel ps : forall c (w : World K) st, lc_reaped c = Some st ->
  exists ss, polls fuel ps c w = (w, c, ss) /\ Forall (eq (Some st)) ss.
Proof.
  induction ps as [|p ps IH]; intros c w st Hc; cbn [polls]; [by exists []|].
  assert (poll fuel p c w = (w, ret (c, Some st))) as ->.
  { destruct p; cbn [poll]; unfold child_try_wait, child_wait_job, child_try_wait_job, st_bind; by rewrite Hc. }
  destruct (IH c w st Hc) as (ss & -> & Hss). exists (Some st :: ss). split; [done|]. by constructor.
Qed.

Lemma stable_constant st ss : Forall (eq (Some st)) ss -> stable ss.
Proof. induction 1 as [|s ss <- Hs IH]; [done|]. cbn. done. Qed.

Lemma closes_not_waits pid l : Forall (fun e : Call * Ret => exists fd, fst e = c_close fd) l ->
  Forall (fun e => ~ waits pid e) l.
Proof. intros H. eapply List.Forall_impl; [|exact H]. intros e [fd E]. unfold waits. rewrite E. tauto. Qed.

Lemma closes_not_reaps pid l : Forall (fun e : Call * Ret => exists fd, fst e = c_close fd) l ->
  Forall (fun e => ~ reaps pid e) l.
Proof. intros H. eapply List.Forall_impl; [|exact H]. intros e [fd E]. unfold reaps. rewrite E. tauto. Qed.

Lemma reaped_once_quiet pid l : Forall (fun e => ~ reaps pid e) l -> reaped_once pid l.
Proof. induction 1; cbn; [done|]. by split. Qed.

Lemma reaped_once_app pid l1 l2 : Forall (fun e => ~ reaps pid e) l1 -> reaped_once pid l2 ->
  reaped_once pid (l1 ++ l2).
Proof. induction 1; cbn; [done|]. intros. split; [done|]. auto. Qed.

(** The child is not reaped and nothing reaped it, or it is reaped, by the
    last of the calls. *)
Definition reap_state (pid : Z) (c : LinuxChild) (l : list (Call * Ret)) : Prop :=
  lc_pid c = pid /\
  (lc_reaped c = None /\ Forall (fun e => ~ reaps pid e) l \/
   is_Some (lc_reaped c) /\ exists l0 x, l = l0 ++ [x] /\ Forall (fun e => ~ reaps pid e) l0).

Lemma polls_state fuel ps : forall c (w : World K), lc_reaped c = None ->
  exists w' c' ss l, polls fuel ps c w = (w', c', ss) /\ log w' = log w ++ l /\
  reap_state (lc_pid c) c' l /\ stable ss /\
  (forall st, Some st ∈ ss -> still_there st = false -> lc_reaped c' = Some st).
Proof.
  induction ps as [|p ps IH]; intros c w Hc; cbn [polls].
  { exists w, c, [], []. rewrite app_nil_r. repeat split; [by left|]. intros st H. by apply elem_of_nil in H. }
  destruct (poll_trace fuel p c Hc w) as (l1 & Hl1 & HT).
  destruct (poll fuel p c w) as [w1 r]. cbn [fst snd] in *. unfold poll_post in HT.
  assert (Forall (fun e => ~ reaps (lc_pid c) e) l1 -> forall c1 : LinuxChild, lc_reaped c1 = None ->
    lc_pid c1 = lc_pid c -> exists w' c' ss l, polls fuel ps c1 w1 = (w', c', ss) /\ log w' = log w ++ l /\
    reap_state (lc_pid c) c' l /\ stable ss /\
    (forall st, Some st ∈ ss -> still_there st = false -> lc_reaped c' = Some st)) as Hnext.
  { intros Hq c1 Hc1 Hp1. destruct (IH c1 w1 Hc1) as (w' & c' & ss & l & E & Hl & Hs & Hst & Hfin).
    exists w', c', ss, (l1 ++ l). rewrite Hl, Hl1, app_assoc. do 2 (split; [done|]). split; [|done].
    rewrite Hp1 in Hs. destruct Hs as [Hp Hs]. split; [done|]. destruct Hs as [[? ?]|(? & l0 & x & -> & ?)].
    - left. split; [done|]. by apply Forall_app.
    - right. split; [done|]. exists (l1 ++ l0), x. rewrite app_assoc. split; [done|]. by apply Forall_app. }
  destruct r as [[[c1 s]|e]| |]; [|by apply Hnext..|done|by apply Hnext].
  destruct HT as (Hp & Hs & Hr). destruct (lc_reaped c1) as [st|] eqn:E1.
  - destruct Hr as [[? _]|[_ Hr]]; [done|].
    destruct (polls_reaped fuel ps c1 w1 st E1) as (ss & -> & Hss).
    destruct s as [st'|]; [|congruence]. destruct (still_there st') eqn:Es; simplify_eq.
    exists w1, c1, (Some st' :: ss), l1. split; [done|]. split; [done|]. split; [|split].
    + split; [done|]. right. by rewrite E1.
    + cbn. split; [done|]. by eapply stable_constant.
    + intros st Hin _. apply elem_of_cons in Hin as [[= ->]|Hin]; [done|].
      rewrite List.Forall_forall in Hss. apply list_elem_of_In in Hin. by rewrite <- (Hss _ Hin).
  - destruct Hr as [[_ Hq]|[[? ?] _]]; [|done].
    destruct (Hnext Hq c1 E1 Hp) as (w' & c' & ss & l & -> & Hl & Hst & Hss & Hfin).
    exists w', c', (s :: ss), l. do 3 (split; [done|]).
    assert (forall st, s = Some st -> still_there st = true) as Hs'.
    { intros st ->. destruct (still_there st); [done|congruence]. }
    split.
    + split; [|done]. destruct s as [st|]; [|done]. intros Hf. by rewrite (Hs' st eq_refl) in Hf.
    + intros st Hin Hf. apply elem_of_cons in Hin as [E|Hin]; [|by apply Hfin].
      by rewrite (Hs' st (eq_sym E)) in Hf.
Qed.

(** C25: however a child is polled (with and without job control, blocking or
    not, through interruptions and errors) and then waited for, no wait for
    its pid is made after the call that reaped it, so the number is never
    asked about once the kernel may have given it away; a final status, once
    reported, is what every later poll and the final wait report, and the
    wait closes the pipe ends that were not taken. *)
Theorem child_reaped_once fuel ps c (w : World K) : lc_reaped c = None ->
  let '(w1, c1, ss) := polls fuel ps c w in
  let (w2, r) := child_wait kernel fuel c1 w1 in
  exists l, log w2 = log w ++ l /\ reaped_once (lc_pid c) l /\ stable ss /\
  (forall st, Some st ∈ ss -> still_there st = false ->
     r = ret st /\ w2 = drop_fds kernel (parent_fds (lc_pipes c1)) w1).
Proof.
  intros Hc. destruct (polls_state fuel ps c w Hc) as (w1 & c1 & ss & l & -> & Hl & [Hp Hs] & Hst & Hfin).
  unfold child_wait, scoped_all. destruct (lc_reaped c1) as [st|] eqn:E1.
  - destruct Hs as [[? _]|[_ (l0 & x & -> & Hq)]]; [done|]. unfold st_lift.
    destruct (drop_fds_closes kernel (parent_fds (lc_pipes c1)) w1) as (l2 & Hl2 & Hq2).
    exists ((l0 ++ [x]) ++ l2). split; [by rewrite Hl2, Hl, <- !app_assoc|]. split; [|split; [done|]].
    + rewrite <- app_assoc. apply reaped_once_app; [done|]. cbn. split; [intros _; by apply closes_not_waits|].
      by apply reaped_once_quiet, closes_not_reaps.
    + intros st' Hin Hf. pose proof (Hfin st' Hin Hf). by simplify_eq.
  - destruct Hs as [[_ Hq]|[[? ?] _]]; [|done].
    destruct (wait_loop_trace fuel (lc_pid c1) 0 LinuxSpawn.decode w1) as (l1 & Hl1 & HT).
    unfold wait. destruct (wait_loop kernel fuel (lc_pid c1) 0 LinuxSpawn.decode w1) as [w2 r]. cbn [fst snd] in *.
    rewrite Hp in *.
    assert (exists l0 l3, l1 = l0 ++ l3 /\ Forall (fun e => ~ reaps (lc_pid c) e) l0 /\ (length l3 <= 1)%nat) as Hl3.
    { destruct r as [[s|e]| |]; [|..|done|].
      - destruct HT as (y & (l3 & -> & Hq3) & _). exists l3, [(c_waitpid (lc_pid c) 0, y)].
        split; [done|]. split; [by apply not_reaps|cbn; lia].
      - exists l1, []. rewrite app_nil_r. split; [done|]. split; [by apply not_reaps|cbn; lia].
      - exists l1, []. rewrite app_nil_r. split; [done|]. split; [by apply not_reaps|cbn; lia]. }
    destruct Hl3 as (l3 & l4 & -> & Hq3 & Hlen).
    assert (forall (w0 : World K) l5, log w0 = log w2 ++ l5 -> Forall (fun e => exists fd, fst e = c_close fd) l5 ->
      exists l0, log w0 = log w ++ l0 /\ reaped_once (lc_pid c) l0) as Hend.
    { intros w0 l5 Hl5 Hq5. exists ((l ++ l3) ++ l4 ++ l5). split; [by rewrite Hl5, Hl1, Hl, <- !app_assoc|].
      apply reaped_once_app; [by apply Forall_app|].
      destruct l4 as [|y [|z l4]]; [| |cbn in Hlen; lia]; cbn; [by apply reaped_once_quiet, closes_not_reaps|].
      split; [intros _; by apply closes_not_waits|by apply reaped_once_quiet, closes_not_reaps]. }
    assert (forall st, Some st ∈ ss -> still_there st = false -> False) as Hno by (by intros st Hin Hf; specialize (Hfin st Hin Hf)).
    destruct (drop_fds_closes kernel (parent_fds (lc_pipes c1)) w2) as (l5 & Hl5 & Hq5).
    destruct r as [r| |];
      [destruct (Hend _ _ Hl5 Hq5) as (l0 & ? & ?)|destruct (Hend _ _ Hl5 Hq5) as (l0 & ? & ?)|
       destruct (Hend w2 []) as (l0 & ? & ?); [by rewrite app_nil_r|done|]].
    all: exists l0; do 3 (split; [done|]); intros st Hin Hf; by destruct (Hno st Hin Hf).
Qed.
End child.

(** A child that stops, goes on and exits with 3. *)
Definition job_kernel (c : Call) (k : nat) : nat * Ret :=
  match c, k with
  | c_waitpid p _, 0%nat => (1%nat, mkRet (-1) EINTR ONone)
  | c_waitpid p _, 1%nat => (2%nat, mkRet p 0 (OInt 5247))
  | c_waitpid p _, 2%nat => (3%nat, mkRet p 0 (OInt 65535))
  | c_waitpid p _, 3%nat => (4%nat, mkRet p 0 (OInt 768))
  | c_waitpid p _, _ => (k, mkRet (-1) 10 ONone)
  | _, _ => (k, mkRet 0 0 ONone)
  end.

Lemma child_reaped_once_witness :
  let c := from_pid 7 (Some 7) in
  let '(w1, c1, ss) := polls job_kernel 5 [PWaitJob; PTryWaitJob; PWaitJob; PTryWait] c (mkWorld 0%nat []) in
  let (w2, r) := child_wait job_kernel 5 c1 w1 in
  exists l, log w2 = [] ++ l /\ reaped_once 7 l /\ stable ss /\
  (forall st, Some st ∈ ss -> still_there st = false ->
     r = ret st /\ w2 = drop_fds job_kernel (parent_fds (lc_pipes c1)) w1).
Proof.
  exact (child_reaped_once job_kernel 5 [PWaitJob; PTryWaitJob; PWaitJob; PTryWait] (from_pid 7 (Some 7))
    (mkWorld 0%nat []) eq_refl).
Defined.

Example job_statuses :
  snd (polls job_kernel 5 [PWaitJob; PTryWaitJob; PWaitJob; PTryWait] (from_pid 7 None) (mkWorld 0%nat []))
  = [Some (Stopped 20); Some Continued; Some (Code 3); Some (Code 3)].
Proof. vm_compute. reflexivity. Qed.

(** ** Groups *)

(** The process group the kernel puts a child in: a new session and group of
    its own, the group asked for (0 is a new one, led by the child), or its
    parent's. *)
Definition placed (pid : Z) (attr : SpawnAttr) : option Z :=
  if negb (Z.land (sa_flags attr) POSIX_SPAWN_SETSID =? 0) then Some pid
  else if negb (Z.land (sa_flags attr) POSIX_SPAWN_SETPGROUP =? 0) then
    Some (if sa_pgroup attr =? 0 then pid else sa_pgroup attr)
  else None.

Section groups.
Context {K : Type} (kernel : Call -> K -> K * Ret) (host : Host K) (file_fd : nat -> option Z).

Lemma resolve_trace program : traces (resolve host program) (outcome no_child (fun _ l => l = [])).
Proof.
  intros w. exists []. unfold resolve. cbn [fst snd]. rewrite app_nil_r. split; [done|].
  repeat case_match; simplify_eq; first [reflexivity|constructor].
Qed.

Lemma sign32_nonzero x : 0 < x < 2 ^ 32 -> sign 32 x <> 0.
Proof.
  unfold sign. intros H. change (2 ^ (32 - 1)) with 2147483648. change (2 ^ 32) with 4294967296 in *.
  case_match; lia.
Qed.

(** the group a spawned child's [kill_tree] signals is the group the
    kernel placed it in: its own when it leads one or a session, the joined
    one, and none (so that [kill_tree] refuses) when it stayed in its
    parent's; for every group but [JoinGroup(0)]. *)
Theorem kill_tree_target cmd :
  match c_group cmd with JoinGroup pgid => 0 < pgid < 2 ^ 32 | _ => True end ->
  traces (spawner_spawn kernel host file_fd cmd) (outcome no_child (fun c l =>
    exists path acts attr argv envp r, (c_posix_spawn path acts attr argv envp, r) ∈ l /\ rv r = 0 /\
    lc_pid c = out_int r /\ lc_reaped c = None /\ lc_group c = placed (lc_pid c) attr)).
Proof.
  intros Hg. unfold spawner_spawn.
  destruct (detached cmd && is_join (c_group cmd)) eqn:Ej; [apply traces_lift; by constructor|].
  destruct (detached cmd && is_new (c_group cmd)) eqn:En; [apply traces_lift; by constructor|].
  eapply traces_then; [apply resolve_trace| |done]. intros l path ->.
  eapply traces_then; [apply spawn_trace| |done].
  intros l [pid pipes] (sl & k & envp & _ & pre & r & post & -> & Hr & Hpid & _). cbn [fst snd] in *.
  apply traces_lift. cbn [app outcome]. do 6 eexists. split; [rewrite app_nil_r; apply elem_of_app; right; left|].
  cbn [lc_pid lc_reaped lc_group]. do 3 (split; [done|]).
  unfold attr_of, placed. cbn [sa_flags sa_pgroup].
  destruct (c_group cmd) as [| |pgid], (detached cmd); try discriminate; try done.
  change (Z.lor POSIX_SPAWN_SETPGROUP 0) with 2. change (Z.land 2 POSIX_SPAWN_SETSID =? 0) with true.
  change (Z.land 2 POSIX_SPAWN_SETPGROUP =? 0) with false. cbn [negb].
  by rewrite (proj2 (Z.eqb_neq _ _) (sign32_nonzero pgid Hg)).
Qed.

(** [resolve] answers with an executable regular file: the name itself
    when it holds a slash, otherwise the first match along [PATH], every
    earlier entry having none; it fails, with [NotFound] or (for the empty
    name) [InvalidInput], only when there is none. *)
Theorem resolve_first program (w : World K) :
  let dirs := default [] (split_paths <$> env_var (lit "PATH") (environ host (state w))) in
  let exec p := is_executable_file host p (state w) in
  fst (resolve host program w) = w /\
  match snd (resolve host program w) with
  | ret p => exec p = true /\
      (if existsb (Z.eqb 47) program then p = program
       else exists l1 dir l2, dirs = l1 ++ dir :: l2 /\ p = join dir program /\
              Forall (fun d => exec (join d program) = false) l1)
  | fail e => path e = Some program /\
      (program = [] /\ kind e = InvalidInput \/
       kind e = NotFound /\ (if existsb (Z.eqb 47) program then exec program = false
                             else Forall (fun d => exec (join d program) = false) dirs))
  | _ => False
  end.
Proof.
  intros dirs exec. split; [done|]. unfold resolve. cbn [snd].
  case_bool_decide; [by auto|]. destruct (existsb _ program).
  { unfold exec. destruct (is_executable_file _ _ _) eqn:E; cbn; auto. }
  assert (forall ds, match search_path host program ds (state w) with
    | Some p => exec p = true /\ exists l1 dir l2, ds = l1 ++ dir :: l2 /\ p = join dir program /\
        Forall (fun d => exec (join d program) = false) l1
    | None => Forall (fun d => exec (join d program) = false) ds end) as Hs.
  { unfold exec. induction ds as [|d ds IH]; cbn [search_path]; [constructor|].
    destruct (is_executable_file host (join d program) (state w)) eqn:E.
    - split; [done|]. by exists [], d, ds.
    - destruct (search_path _ _ _ _) as [p|]; [|by constructor].
      destruct IH as (Hp & l1 & dir & l2 & -> & -> & Hl1). split; [done|].
      exists (d :: l1), dir, l2. split; [done|]. split; [done|]. by constructor. }
  unfold dirs. destruct (env_var _ _) as [path_var|]; cbn [fmap option_fmap option_map default].
  - specialize (Hs (split_paths path_var)). destruct (search_path _ _ _ _); cbn; auto.
  - cbn. split; [done|]. right. split; [done|]. constructor.
Qed.
End groups.

Definition ls_cmd (g : GroupSpec) (d : bool) : Command :=
  mkCommand (lit "ls") [] (lit "/tmp") EnvInherit StdInherit StdInherit StdInherit g d.
Definition ls_host {K} : Host K := mkHost K (fun _ => [(lit "PATH", lit "/opt:/bin")]) (fun _ => 0)
  (fun p _ => if bool_decide (p = lit "/bin/ls") then Some 33261 else None) (fun _ _ => inl ENOENT).

Lemma kill_tree_target_witness :
  traces (spawner_spawn fresh_kernel ls_host (fun _ => None) (ls_cmd (JoinGroup 9) false)) (outcome no_child (fun c l =>
    exists path acts attr argv envp r, (c_posix_spawn path acts attr argv envp, r) ∈ l /\ rv r = 0 /\
    lc_pid c = out_int r /\ lc_reaped c = None /\ lc_group c = placed (lc_pid c) attr)).
Proof. apply kill_tree_target. cbn. lia. Defined.

Example resolve_ls : snd (resolve ls_host (lit "ls") (mkWorld tt [])) = ret (lit "/bin/ls").
Proof. vm_compute. reflexivity. Qed.

(** [JoinGroup(0)] places the child in a group of its own, and makes its
    [kill_tree] signal group 0: the group of the caller. *)
Example join_group_zero :
  match spawner_spawn fresh_kernel ls_host (fun _ => None) (ls_cmd (JoinGroup 0) false) (mkWorld 3 []) with
  | (w, ret c) => placed (lc_pid c) (attr_of (JoinGroup 0) false) = Some 42 /\
      exists l r, log (fst (kill_tree fresh_kernel c Kill w)) = l ++ [(c_kill 0 SIGKILL, r)]
  | _ => False
  end.
Proof. vm_compute. split; [done|]. eexists [_; _; _; _; _; _], _. reflexivity. Qed.

(** A detached child gets a session of its own; the other groups are
    refused, with nothing asked of the kernel. *)
Example detach_refused :
  spawner_spawn fresh_kernel ls_host (fun _ => None) (ls_cmd (JoinGroup 9) true) (mkWorld 3 []) =
    (mkWorld 3 [], fail (error_new InvalidInput NoCode "spawn: detach cannot join an existing group")) /\
  spawner_spawn fresh_kernel ls_host (fun _ => None) (ls_cmd NewGroup true) (mkWorld 3 []) =
    (mkWorld 3 [], fail (error_new Unsupported NoCode "spawn: detach with GroupSpec::NewGroup")).
Proof. split; reflexivity. Qed.

(** After the child was reaped its number may be another process's; the
    signal methods still use it. *)
Example kill_after_reap :
  log (fst (child_kill_single fresh_kernel (set_reaped (from_pid 7 (Some 7)) (Code 0)) Kill (mkWorld 3 [])))
  = [(c_kill 7 SIGKILL, mkRet 0 0 ONone)].
Proof. reflexivity. Qed.

(** The native [wait_any] gives up within the last millisecond, where the
    portable one goes on until the timeout is over. *)
Example native_wait_any_early :
  let k := fun (c : Call) (k : Z) => match c with c_waitpid _ _ => (k, mkRet 0 0 ONone) | _ => sleepy c k end in
  let s := (mkWorld 0 [], [from_pid 7 None]) in
  snd (native_wait_any k clock_host (fun d k => k + d) 2 (Some 1999999) s) = ret None /\
  table_now clock_host (fst (native_wait_any k clock_host (fun d k => k + d) 2 (Some 1999999) s)) = 1000000 /\
  table_now clock_host (fst (Process.wait_any (try_wait_at k 2) (table_now clock_host)
    (table_sleep (fun d k => k + d)) 3 [0%nat] (Some 1999999) s)) = 1999999.
Proof. vm_compute. done. Qed.

(** [is_alive(0)] asks about the caller's own group, [is_alive(u32::MAX)]
    about every process. *)
Example is_alive_zero :
  log (fst (spawner_is_alive fresh_kernel 0 (mkWorld 3 []))) = [(c_kill 0 0, mkRet 0 0 ONone)] /\
  log (fst (spawner_is_alive fresh_kernel (2 ^ 32 - 1) (mkWorld 3 []))) = [(c_kill (-1) 0, mkRet 0 0 ONone)].
Proof. vm_compute. done. Qed.
