(* ===== verification/LinuxTerm.v ===== *)
(** * The Linux terminal
      ([platform-linux/src/sys/termios.rs], [platform-linux/src/term.rs])

    The terminal attributes through [tcgetattr]/[tcsetattr], raw mode with
    its saved state, echo, and the foreground group; the instance of the
    terminal interface.  [cfmakeraw] is libc's, and a parameter. *)

From Stdlib Require Import ZArith Lia String.
From S2P Require Import Prelude Error Sys Terminal.
From stdpp Require Import base numbers list strings gmap gmultiset.
Open Scope Z_scope.

Definition ICANON := 2.
Definition ECHO := 8.
Definition TCSADRAIN := 1.
Definition SIGTTOU := 22.
Definition SIG_IGN := 1.
Definition SIG_ERR := -1.
Definition POLLIN := 1.
Definition I32_MAX := 2147483647.

Definition term_err (op : string) (code : Z) : PlatformError :=
  error_new (if code =? ENOTTY then Other else if code =? EBADF then InvalidInput else Other) (Errno code) op.

Definition stream_fd (stream : TermStream) : Z :=
  match stream with Stdin => 0 | Stdout => 1 | Stderr => 2 end.

(** [!mask] on a [tcflag_t]. *)
Definition not_u32 (mask : Z) : Z := Z.lxor mask (2 ^ 32 - 1).

Section term.
Context {K : Type} (kernel : Call -> K -> K * Ret) (cfmakeraw : Termios -> Termios).
Abbreviation M A := (World K -> World K * Run A).
Abbreviation sys c := (syscall kernel c).

Definition sys_is_tty (fd : Z) : M bool := st! r := sys (c_isatty fd) in st_lift (ret (rv r =? 1)).

Definition sys_window_size (fd : Z) : M (Z * Z) :=
  st! r := sys (c_ioctl_get_winsize fd) in
  if negb (rv r =? 0) then st_lift (fail (term_err "TIOCGWINSZ" (err r))) else st_lift (ret (out_pair r)).

Definition sys_enter_raw (fd : Z) : M Termios :=
  st! r := sys (c_tcgetattr fd) in
  if negb (rv r =? 0) then st_lift (fail (term_err "tcgetattr" (err r)))
  else
    let saved := out_termios r in
    st! r := sys (c_tcsetattr fd TCSADRAIN (cfmakeraw saved)) in
    if negb (rv r =? 0) then st_lift (fail (term_err "tcsetattr" (err r))) else st_lift (ret saved).

Definition restore (fd : Z) (saved : Termios) : M unit :=
  st! r := sys (c_tcsetattr fd TCSADRAIN saved) in
  if negb (rv r =? 0) then st_lift (fail (term_err "tcsetattr" (err r))) else st_lift (ret tt).

Definition sys_is_raw (fd : Z) : M bool :=
  st! r := sys (c_tcgetattr fd) in
  if negb (rv r =? 0) then st_lift (ret false)
  else st_lift (ret (Z.land (c_lflag (out_termios r)) (Z.lor ICANON ECHO) =? 0)).

Definition sys_set_echo (fd : Z) (on : bool) : M bool :=
  st! r := sys (c_tcgetattr fd) in
  if negb (rv r =? 0) then st_lift (fail (term_err "tcgetattr" (err r)))
  else
    let cur := out_termios r in
    let was_on := negb (Z.land (c_lflag cur) ECHO =? 0) in
    let lflag := if on then Z.lor (c_lflag cur) ECHO else Z.land (c_lflag cur) (not_u32 ECHO) in
    st! r := sys (c_tcsetattr fd TCSADRAIN (mkTermios lflag (rest cur))) in
    if negb (rv r =? 0) then st_lift (fail (term_err "tcsetattr" (err r))) else st_lift (ret was_on).

Definition sys_poll_readable (fd : Z) (timeout : option Z) : M bool :=
  let timeout_ms := match timeout with None => -1 | Some d => Z.min (d / 1000000) I32_MAX end in
  st! r := sys (c_poll [(fd, POLLIN)] timeout_ms) in
  if rv r <? 0 then st_lift (fail (term_err "poll" (err r))) else st_lift (ret (0 <? rv r)).

Definition sys_read_chunk (fd n : Z) : M (list Z) :=
  st! r := sys (c_read fd n) in
  if rv r <? 0 then st_lift (fail (term_err "read" (err r)))
  else st_lift (ret (take (Z.to_nat (rv r)) (out_bytes r))).

Definition ignore_sigttou : M unit :=
  st! r := sys (c_set_signal SIGTTOU SIG_IGN) in
  if rv r =? SIG_ERR then st_lift (fail (term_err "signal(SIGTTOU, SIG_IGN)" (err r))) else st_lift (ret tt).

Definition sys_give_terminal (fd pgid : Z) : M unit :=
  st! _ := ignore_sigttou in
  st! r := sys (c_tcsetpgrp fd pgid) in
  if negb (rv r =? 0) then st_lift (fail (term_err "tcsetpgrp" (err r))) else st_lift (ret tt).

(** ** [LinuxTerminal]: the world and the saved attributes *)

Record LinuxTerminal := mkLinuxTerminal { world : World K; saved : option Termios }.

Definition on_term {A} (m : M A) (t : LinuxTerminal) : LinuxTerminal * Run A :=
  let (w, r) := m (world t) in (mkLinuxTerminal w (saved t), r).

(** The first standard stream that is a tty. *)
Fixpoint find_tty (streams : list TermStream) : M (option Z) :=
  match streams with
  | [] => st_lift (ret None)
  | s :: streams =>
    st! tty := sys_is_tty (stream_fd s) in
    if tty then st_lift (ret (Some (stream_fd s))) else find_tty streams
  end.
Definition tty_fd : M (option Z) := find_tty [Stdin; Stdout; Stderr].

Definition linux_window_size : M WinSize :=
  st! fd := tty_fd in
  st! (r, c) := sys_window_size (default (stream_fd Stdout) fd) in
  st_lift (ret (mkWinSize r c)).

Definition linux_enter_raw (t : LinuxTerminal) : LinuxTerminal * Run unit :=
  match saved t with
  | Some _ => (t, ret tt)
  | None =>
    match sys_enter_raw (stream_fd Stdin) (world t) with
    | (w, ret s) => (mkLinuxTerminal w (Some s), ret tt)
    | (w, fail e) => (mkLinuxTerminal w None, fail e)
    | (w, Panic) => (mkLinuxTerminal w None, Panic)
    | (w, OutOfFuel) => (mkLinuxTerminal w None, OutOfFuel)
    end
  end.

(** [self.saved.take()] comes first. *)
Definition linux_leave_raw (t : LinuxTerminal) : LinuxTerminal * Run unit :=
  match saved t with
  | None => (t, ret tt)
  | Some s => let (w, r) := restore (stream_fd Stdin) s (world t) in (mkLinuxTerminal w None, r)
  end.

Definition linux_set_echo (on : bool) : LinuxTerminal -> LinuxTerminal * Run bool :=
  on_term (sys_set_echo (stream_fd Stdin) on).
Definition give_terminal (pgid : Z) : LinuxTerminal -> LinuxTerminal * Run unit :=
  on_term (sys_give_terminal (stream_fd Stdin) (sign 32 pgid)).

(** What a query answers; [isatty], [TIOCGWINSZ] and [tcgetattr] change
    nothing. *)
Definition answer {A} (d : Result A) (m : M A) (t : LinuxTerminal) : Result A :=
  match snd (m (world t)) with Done r => r | _ => d end.
Definition truth (m : M bool) (t : LinuxTerminal) : bool :=
  match snd (m (world t)) with ret b => b | _ => false end.

#[export] Instance linux_terminal : Terminal LinuxTerminal := {|
  is_tty_ stream := truth (sys_is_tty (stream_fd stream));
  window_size_ := answer (Err (term_err "TIOCGWINSZ" 0)) linux_window_size;
  enter_raw_ := linux_enter_raw;
  leave_raw_ := linux_leave_raw;
  is_raw_ := truth (sys_is_raw (stream_fd Stdin));
  poll_readable_ timeout := on_term (sys_poll_readable (stream_fd Stdin) timeout);
  read_chunk_ n := on_term (sys_read_chunk (stream_fd Stdin) n);
  set_echo_ := linux_set_echo;
|}.

(** ** What the terminal is left as *)

(** What the calls document: the attributes [attrs] are what [tcgetattr]
    reads and a successful [tcsetattr] writes; a call that fails, and every
    other call, leaves them.  [cfmakeraw] clears [ICANON] and [ECHO]. *)
Context (attrs : K -> Termios).
Class TtyLaws := {
  getattr_reads k fd : rv (snd (kernel (c_tcgetattr fd) k)) = 0 ->
    out_termios (snd (kernel (c_tcgetattr fd) k)) = attrs k;
  setattr_writes k a t : attrs (fst (kernel (c_tcsetattr 0 a t) k)) =
    (if rv (snd (kernel (c_tcsetattr 0 a t) k)) =? 0 then t else attrs k);
  others_leave k c : (forall a t, c <> c_tcsetattr 0 a t) -> attrs (fst (kernel c k)) = attrs k;
  makes_raw t : Z.land (c_lflag (cfmakeraw t)) (Z.lor ICANON ECHO) = 0;
}.
Context {L : TtyLaws}.
Abbreviation tty_attrs t := (attrs (state (world t))).

Lemma enter_raw_cases t : saved t = None ->
  (exists t', linux_enter_raw t = (t', ret tt) /\ saved t' = Some (tty_attrs t) /\
     tty_attrs t' = cfmakeraw (tty_attrs t)) \/
  (exists t' e, linux_enter_raw t = (t', fail e) /\ saved t' = None /\ tty_attrs t' = tty_attrs t).
Proof.
  intros Hs. unfold linux_enter_raw, sys_enter_raw, st_bind, syscall, st_lift. rewrite Hs.
  pose proof (getattr_reads (state (world t)) 0) as Hg.
  pose proof (others_leave (state (world t)) (c_tcgetattr 0) ltac:(done)) as Ho.
  change (stream_fd Stdin) with 0. destruct (kernel (c_tcgetattr 0) (state (world t))) as [k1 r1]. cbn in *.
  destruct (rv r1 =? 0) eqn:E1; cbn; bool_to_prop; [|right; by eexists _, _].
  rewrite (Hg E1). pose proof (setattr_writes k1 TCSADRAIN (cfmakeraw (attrs (state (world t))))) as Hw.
  destruct (kernel (c_tcsetattr 0 _ _) k1) as [k2 r2]. cbn in *.
  destruct (rv r2 =? 0) eqn:E2; cbn; [left|right].
  - eexists. split; [reflexivity|]. done.
  - eexists _, _. split; [reflexivity|]. cbn. by rewrite Hw, Ho.
Qed.

Lemma leave_raw_cases t s : saved t = Some s ->
  (exists t', linux_leave_raw t = (t', ret tt) /\ saved t' = None /\ tty_attrs t' = s) \/
  (exists t' e, linux_leave_raw t = (t', fail e) /\ saved t' = None /\ tty_attrs t' = tty_attrs t).
Proof.
  intros Hs. unfold linux_leave_raw, restore, st_bind, syscall, st_lift. rewrite Hs.
  change (stream_fd Stdin) with 0. pose proof (setattr_writes (state (world t)) TCSADRAIN s) as Hw.
  destruct (kernel (c_tcsetattr 0 _ _) (state (world t))) as [k1 r1]. cbn in *.
  destruct (rv r1 =? 0) eqn:E1; cbn; [left|right].
  - eexists. split; [reflexivity|]. done.
  - eexists _, _. split; [reflexivity|]. done.
Qed.

(** raw mode on Linux: whatever the body does to the attributes, after
    [with_raw] on a terminal that was not in raw mode the attributes are,
    flag for flag, what they were before, unless the kernel refused to
    restore them, which is reported when the body has no error of its own;
    when the terminal could not be put in raw mode nothing has changed and
    the body has not run; a second [enter_raw] inside changes nothing. *)
Theorem linux_with_raw {A} (body : LinuxTerminal -> LinuxTerminal * Run A) t :
  saved t = None -> (forall t1, saved (fst (body t1)) = saved t1) ->
  let (t', r) := with_raw body t in
  match linux_enter_raw t with
  | (t1, ret _) =>
    Z.land (c_lflag (tty_attrs t1)) (Z.lor ICANON ECHO) = 0 /\ linux_enter_raw t1 = (t1, ret tt) /\
    match body t1 with
    | (t2, Done out) => saved t' = None /\
        (tty_attrs t' = tty_attrs t /\ r = Done out \/
         tty_attrs t' = tty_attrs t2 /\ (is_ok out = true -> exists e, r = fail e))
    | (_, Panic) => r = Panic
    | (_, OutOfFuel) => r = OutOfFuel
    end
  | (_, _) => saved t' = None /\ tty_attrs t' = tty_attrs t /\ exists e, r = fail e
  end.
Proof.
  intros Hs Hb. unfold with_raw, st_bind. cbn [enter_raw_ leave_raw_ linux_terminal].
  destruct (enter_raw_cases t Hs) as [(t1 & -> & Hs1 & Ha1)|(t1 & e & -> & Hs1 & Ha1)].
  2: { repeat split; [done|done|by eexists]. }
  specialize (Hb t1). destruct (body t1) as [t2 r]. cbn [fst] in Hb. rewrite Hs1 in Hb.
  assert (linux_enter_raw t1 = (t1, ret tt)) as Hidem by (unfold linux_enter_raw; by rewrite Hs1).
  destruct r as [out| |].
  - destruct (leave_raw_cases t2 _ Hb) as [(t3 & -> & Hs3 & Ha3)|(t3 & e & -> & Hs3 & Ha3)].
    + rewrite Ha1. split; [apply makes_raw|]. split; [done|]. split; [done|]. left. split; [done|]. by destruct out.
    + rewrite Ha1. split; [apply makes_raw|]. split; [done|]. split; [done|]. right. split; [done|].
      intros Ho. destruct out; [by eexists|done].
  - rewrite Ha1. split; [apply makes_raw|]. done.
  - rewrite Ha1. split; [apply makes_raw|]. done.
Qed.

(** Echo: one bit of the local flags. *)
Definition echo_bit (t : Termios) : bool := Z.testbit (c_lflag t) 3.
Definition with_echo (on : bool) (t : Termios) : Termios :=
  mkTermios (if on then Z.lor (c_lflag t) ECHO else Z.land (c_lflag t) (not_u32 ECHO)) (rest t).

Lemma echo_mask x : negb (Z.land x ECHO =? 0) = Z.testbit x 3.
Proof.
  destruct (Z.testbit x 3) eqn:E.
  - apply negb_true_iff, Z.eqb_neq. intros H. apply (f_equal (fun z => Z.testbit z 3)) in H.
    rewrite Z.land_spec, E in H. discriminate H.
  - apply negb_false_iff, Z.eqb_eq. apply Z.bits_inj. intros i. rewrite Z.land_spec, Z.bits_0.
    destruct (Z.eq_dec i 3) as [->|Hi]; [by rewrite E|].
    change ECHO with (2 ^ 3). rewrite Z.pow2_bits_false by done. apply andb_false_r.
Qed.

Lemma with_echo_bits_raw on t i : 0 <= i -> Z.testbit (c_lflag (with_echo on t)) i =
  if i =? 3 then on else Z.testbit (c_lflag t) i && (on || (i <? 32)).
Proof.
  intros Hi. unfold with_echo, not_u32. cbn [c_lflag]. change ECHO with (2 ^ 3).
  change (2 ^ 32 - 1) with (Z.ones 32).
  destruct on; [rewrite Z.lor_spec|rewrite Z.land_spec, Z.lxor_spec, Z.testbit_ones by lia];
    rewrite Z.pow2_bits_eqb, (Z.eqb_sym 3) by lia; rewrite ?(proj2 (Z.leb_le 0 i) Hi);
    destruct (i =? 3) eqn:E; bool_to_prop; subst; cbn [andb orb xorb Z.ltb Z.compare Pos.compare Pos.compare_cont];
    rewrite ?orb_true_r, ?orb_false_r, ?andb_true_r, ?andb_false_r; done.
Qed.

Lemma high_bit x i : in_u 32 x -> 32 <= i -> Z.testbit x i = false.
Proof.
  unfold in_u. intros Hx Hi. destruct (Z.eq_dec x 0) as [->|]; [apply Z.bits_0|].
  apply Z.bits_above_log2; [lia|]. apply (Z.lt_le_trans _ 32); [|done]. apply Z.log2_lt_pow2; lia.
Qed.

Lemma with_echo_bits on t i : in_u 32 (c_lflag t) -> 0 <= i ->
  Z.testbit (c_lflag (with_echo on t)) i = if i =? 3 then on else Z.testbit (c_lflag t) i.
Proof.
  intros Hu Hi. rewrite with_echo_bits_raw by done. destruct (i =? 3); [done|].
  destruct (Z.ltb_spec i 32); [by rewrite orb_true_r, andb_true_r|]. by rewrite high_bit.
Qed.

Lemma with_echo_undo t : in_u 32 (c_lflag t) -> forall on, with_echo (echo_bit t) (with_echo on t) = t.
Proof.
  intros Hu on.
  assert (c_lflag (with_echo (echo_bit t) (with_echo on t)) = c_lflag t) as E.
  { apply Z.bits_inj. intros i. destruct (Z.lt_ge_cases i 0); [by rewrite !Z.testbit_neg_r|].
    rewrite !with_echo_bits_raw by done. unfold echo_bit. destruct (i =? 3) eqn:E; bool_to_prop; [by subst|].
    destruct (Z.ltb_spec i 32); [by rewrite !orb_true_r, !andb_true_r|]. by rewrite high_bit. }
  destruct (with_echo (echo_bit t) (with_echo on t)) as [l' r'] eqn:E'. unfold with_echo in E'.
  destruct t as [l r]. cbn [rest c_lflag] in *. by injection E' as _ <-; subst.
Qed.

Lemma set_echo_cases on t :
  (exists t', linux_set_echo on t = (t', ret (echo_bit (tty_attrs t))) /\ saved t' = saved t /\
     tty_attrs t' = with_echo on (tty_attrs t)) \/
  (exists t' e, linux_set_echo on t = (t', fail e) /\ saved t' = saved t /\ tty_attrs t' = tty_attrs t).
Proof.
  unfold linux_set_echo, on_term, sys_set_echo, st_bind, syscall, st_lift.
  pose proof (getattr_reads (state (world t)) 0) as Hg.
  pose proof (others_leave (state (world t)) (c_tcgetattr 0) ltac:(done)) as Ho.
  change (stream_fd Stdin) with 0. destruct (kernel (c_tcgetattr 0) (state (world t))) as [k1 r1]. cbn in *.
  destruct (rv r1 =? 0) eqn:E1; cbn; bool_to_prop; [|right; by eexists _, _].
  rewrite (Hg E1). fold (with_echo on (attrs (state (world t)))).
  pose proof (setattr_writes k1 TCSADRAIN (with_echo on (attrs (state (world t))))) as Hw.
  destruct (kernel (c_tcsetattr 0 _ _) k1) as [k2 r2]. cbn in *.
  destruct (rv r2 =? 0) eqn:E2; cbn; [left|right].
  - eexists. rewrite echo_mask. split; [reflexivity|]. done.
  - eexists _, _. split; [reflexivity|]. cbn. by rewrite Hw, Ho.
Qed.

(** [set_echo] reports whether echo was on and changes that bit of the
    attributes and no other; setting it back to what was reported gives the
    attributes back exactly; a refused change leaves them alone. *)
Theorem set_echo_one_bit on t : in_u 32 (c_lflag (tty_attrs t)) ->
  match linux_set_echo on t with
  | (t', ret was) => was = echo_bit (tty_attrs t) /\ rest (tty_attrs t') = rest (tty_attrs t) /\
      (forall i, 0 <= i -> Z.testbit (c_lflag (tty_attrs t')) i
         = if i =? 3 then on else Z.testbit (c_lflag (tty_attrs t)) i) /\
      match linux_set_echo was t' with
      | (t'', ret on') => on' = on /\ tty_attrs t'' = tty_attrs t
      | (t'', _) => tty_attrs t'' = tty_attrs t'
      end
  | (t', fail _) => tty_attrs t' = tty_attrs t
  | _ => False
  end.
Proof.
  intros Hu. destruct (set_echo_cases on t) as [(t' & -> & _ & Ha)|(t' & e & -> & _ & Ha)]; [|done].
  rewrite Ha. split; [done|]. split; [done|]. split; [intros i; by apply with_echo_bits|].
  destruct (set_echo_cases (echo_bit (tty_attrs t)) t') as [(t'' & -> & _ & Ha2)|(t'' & e & -> & _ & Ha2)].
  - rewrite Ha2, Ha, with_echo_undo by done. split; [|done].
    unfold echo_bit at 1. by rewrite with_echo_bits.
  - by rewrite Ha2.
Qed.
End term.

(** A terminal that keeps its attributes, and may refuse the [n]-th change. *)
Record Tty := mkTty { tty : Termios; changes : nat; refused : option nat }.
Definition tty_kernel (c : Call) (k : Tty) : Tty * Ret :=
  match c with
  | c_tcgetattr _ => (k, mkRet 0 0 (OTermios (tty k)))
  | c_tcsetattr fd _ t =>
    if (fd =? 0) && negb (bool_decide (refused k = Some (changes k)))
    then (mkTty t (S (changes k)) (refused k), mkRet 0 0 ONone)
    else (mkTty (tty k) (S (changes k)) (refused k), mkRet (-1) EINTR ONone)
  | c_read _ _ => (k, mkRet 1 0 (OBytes [88]))
  | _ => (k, mkRet 0 0 ONone)
  end.
Definition make_raw (t : Termios) : Termios := mkTermios (Z.land (c_lflag t) (not_u32 32843)) (rest t).
Definition cooked : Termios := mkTermios 35387 [1280; 5; 191].
Definition tty_term (refused : option nat) : LinuxTerminal := mkLinuxTerminal (mkWorld (mkTty cooked 0 refused) []) None.

#[export] Instance tty_laws : TtyLaws tty_kernel make_raw tty.
Proof.
  split.
  - done.
  - intros k a t. cbn. by destruct (negb _).
  - intros k c H. destruct c; try done. cbn. destruct (Z.eqb_spec fd 0) as [->|]; [|done].
    by destruct (H action t).
  - intros t. cbn. rewrite <- Z.land_assoc. change (Z.land (not_u32 32843) (Z.lor ICANON ECHO)) with 0. apply Z.land_0_r.
Qed.

Lemma linux_with_raw_witness :
  let body := @read_chunk_ _ (linux_terminal tty_kernel make_raw) 64 in
  let t := tty_term None in
  let attrs_of (x : LinuxTerminal) := tty (state (world x)) in
  let (t', r) := @with_raw _ (linux_terminal tty_kernel make_raw) _ body t in
  match linux_enter_raw tty_kernel make_raw t with
  | (t1, ret _) =>
    Z.land (c_lflag (attrs_of t1)) (Z.lor ICANON ECHO) = 0 /\
    linux_enter_raw tty_kernel make_raw t1 = (t1, ret tt) /\
    match body t1 with
    | (t2, Done out) => saved t' = None /\
        (attrs_of t' = attrs_of t /\ r = Done out \/
         attrs_of t' = attrs_of t2 /\ (is_ok out = true -> exists e, r = fail e))
    | (_, Panic) => r = Panic
    | (_, OutOfFuel) => r = OutOfFuel
    end
  | (_, _) => saved t' = None /\ attrs_of t' = attrs_of t /\ exists e, r = fail e
  end.
Proof.
  exact (linux_with_raw tty_kernel make_raw tty
    (@read_chunk_ _ (linux_terminal tty_kernel make_raw) 64) (tty_term None) eq_refl
    ltac:(intros t1; cbn; unfold on_term; by destruct (sys_read_chunk tty_kernel 0 64 (world t1)))).
Defined.

Lemma set_echo_one_bit_witness :
  let t := tty_term None in
  let attrs_of (x : LinuxTerminal) := tty (state (world x)) in
  match linux_set_echo tty_kernel false t with
  | (t', ret was) => was = echo_bit (attrs_of t) /\ rest (attrs_of t') = rest (attrs_of t) /\
      (forall i, 0 <= i -> Z.testbit (c_lflag (attrs_of t')) i
         = if i =? 3 then false else Z.testbit (c_lflag (attrs_of t)) i) /\
      match linux_set_echo tty_kernel was t' with
      | (t'', ret on') => on' = false /\ attrs_of t'' = attrs_of t
      | (t'', _) => attrs_of t'' = attrs_of t'
      end
  | (t', fail _) => attrs_of t' = attrs_of t
  | _ => False
  end.
Proof.
  exact (set_echo_one_bit tty_kernel make_raw tty false (tty_term None)
    ltac:(unfold in_u; cbn; lia)).
Defined.

(** A restore that fails has already given up the saved attributes: the
    terminal stays raw, and leaving raw mode again reports success and does
    nothing. *)
Example leave_raw_loses_saved :
  let '(t1, _) := linux_enter_raw tty_kernel make_raw (tty_term (Some 1%nat)) in
  let '(t2, r2) := linux_leave_raw tty_kernel t1 in
  let '(t3, r3) := linux_leave_raw tty_kernel t2 in
  r2 = fail (term_err "tcsetattr" EINTR) /\ r3 = ret tt /\
  tty (state (world t3)) = make_raw cooked /\ saved t3 = None.
Proof. vm_compute. done. Qed.
