(* ===== verification/LinuxTun.v ===== *)
(** * TUN devices on Linux
      ([platform-linux/src/sys/tun.rs], [platform-linux/src/tun.rs])

    [struct ifreq] as its 40 bytes, the [ioctl]s that create and configure
    the interface. *)

From Stdlib Require Import ZArith Lia String.
From S2P Require Import Prelude Error Sys LinuxFd LinuxNet.
From stdpp Require Import base numbers list strings gmap gmultiset.
Open Scope Z_scope.

Definition IFNAMSIZ : nat := 16.
Definition IFF_TUN := 1.
Definition IFF_NO_PI := 4096.
Definition IFF_UP := 1.
Definition IFF_RUNNING := 64.
Definition TUNSETIFF := 1074025674.   (* 0x400454ca *)
Definition SIOCGIFFLAGS := 35091.     (* 0x8913 *)
Definition SIOCSIFFLAGS := 35092.
Definition SIOCSIFADDR := 35094.
Definition SIOCSIFNETMASK := 35100.
Definition SIOCSIFMTU := 35106.
Definition DEV_NET_TUN : OsString := lit "/dev/net/tun".

Definition tun_kind_of (errno : Z) : ErrorKind :=
  if errno =? ENOENT then NotFound
  else if (errno =? EACCES) || (errno =? EPERM) then PermissionDenied
  else if errno =? EINVAL then InvalidInput
  else if errno =? ENODEV then NotFound
  else Other.

Record Ifreq := mkIfreq { if_name : list Z; if_data : list Z }.

Definition ifreq_bytes (r : Ifreq) : list Z := if_name r ++ if_data r.
Definition ifreq_of_bytes (bs : list Z) : Ifreq := mkIfreq (field bs 0 IFNAMSIZ) (field bs IFNAMSIZ 24).

Definition Ifreq_new (name : str) : Result Ifreq :=
  if Z.of_nat IFNAMSIZ <=? zlen name then Err (error_new InvalidInput NoCode "interface name too long")
  else Ok (mkIfreq (written IFNAMSIZ name) (zeros 24)).

(** [data[off..off + len].copy_from_slice(bs)]. *)
Definition set_data (r : Ifreq) (off : nat) (bs : list Z) : Ifreq :=
  mkIfreq (if_name r) (take off (if_data r) ++ bs ++ drop (off + length bs) (if_data r)).

Definition set_sockaddr_in (r : Ifreq) (octets : list Z) : Ifreq :=
  set_data (set_data (mkIfreq (if_name r) (zeros 24)) 0 (le_bytes 2 AF_INET)) 4 octets.

(** [Ipv4Addr::from(u32)] and the prefix's mask. *)
Definition octets_of (x : Z) : list Z := rev (le_bytes 4 x).
Definition netmask (prefix_len : Z) : list Z :=
  let bits := Z.min prefix_len 32 in
  octets_of (if bits =? 0 then 0 else wrap 32 (Z.shiftl (2 ^ 32 - 1) (32 - bits))).

Section tun.
Context {K : Type} (kernel : Call -> K -> K * Ret).
Abbreviation M A := (World K -> World K * Run A).
Abbreviation sys c := (syscall kernel c).

Definition tun_err {A} (op : string) : M A := fun w =>
  (w, fail (error_new (tun_kind_of (errno w)) (Errno (errno w)) op)).

Definition create_tun (name : str) : M Z :=
  st! r := sys (c_open DEV_NET_TUN O_RDWR) in
  if rv r <? 0 then tun_err "open /dev/net/tun"
  else
    let fd := rv r in
    owned kernel fd
      (st! req := st_lift (Done (Ifreq_new name)) in
       let req := set_data req 0 (le_bytes 2 (Z.lor IFF_TUN IFF_NO_PI)) in
       st! r := sys (c_ioctl fd TUNSETIFF (ifreq_bytes req)) in
       if rv r <? 0 then tun_err "ioctl(TUNSETIFF)" else st_lift (ret fd)).

Definition ioctl_socket : M Z :=
  st! r := sys (c_socket AF_INET SOCK_DGRAM 0) in
  if rv r <? 0 then tun_err "socket" else st_lift (ret (rv r)).

(** The request as the kernel left it. *)
Definition ioctl_ifreq (sock req_num : Z) (req : Ifreq) (op : string) : M Ifreq :=
  st! r := sys (c_ioctl sock req_num (ifreq_bytes req)) in
  if rv r <? 0 then tun_err op
  else st_lift (ret (match out r with OBytes bs => ifreq_of_bytes bs | _ => req end)).

Definition configure (name : str) (addr : list Z) (prefix_len mtu : Z) : M unit :=
  st! sock := ioctl_socket in
  scoped kernel sock
    (st! a := st_lift (Done (Ifreq_new name)) in
     st! _ := ioctl_ifreq sock SIOCSIFADDR (set_sockaddr_in a addr) "SIOCSIFADDR" in
     st! m := st_lift (Done (Ifreq_new name)) in
     st! _ := ioctl_ifreq sock SIOCSIFNETMASK (set_sockaddr_in m (netmask prefix_len)) "SIOCSIFNETMASK" in
     st! mt := st_lift (Done (Ifreq_new name)) in
     st! _ := ioctl_ifreq sock SIOCSIFMTU (set_data mt 0 (le_bytes 4 mtu)) "SIOCSIFMTU" in
     st! fl := st_lift (Done (Ifreq_new name)) in
     st! fl := ioctl_ifreq sock SIOCGIFFLAGS fl "SIOCGIFFLAGS" in
     let cur := le_val (field (if_data fl) 0 2) in
     let up := Z.lor (Z.lor cur IFF_UP) IFF_RUNNING in
     st! _ := ioctl_ifreq sock SIOCSIFFLAGS (set_data fl 0 (le_bytes 2 up)) "SIOCSIFFLAGS" in
     st_lift (ret tt)).

(** [LinuxTunDevice]: its descriptor and the name it was trace_given. *)
Record LinuxTunDevice := mkTunDevice { td_fd : Z; td_name : str }.

Definition create (name : str) (ipv4 : list Z) (prefix_len mtu : Z) : M LinuxTunDevice :=
  st! fd := create_tun name in
  owned kernel fd
    (st! _ := configure name ipv4 prefix_len mtu in
     st_lift (ret (mkTunDevice fd name))).

Definition tun_read (d : LinuxTunDevice) (n : Z) : M (list Z) := LinuxFd.read kernel (td_fd d) n.
Definition tun_write (d : LinuxTunDevice) (buf : list Z) : M Z := LinuxFd.write kernel (td_fd d) buf.
Definition tun_set_nonblocking (d : LinuxTunDevice) (nonblocking : bool) : M unit :=
  LinuxNet.set_nonblocking kernel (td_fd d) nonblocking.

(** ** The exchange *)

Lemma owns_tun_err {A} h op (Q : A -> _) : owns (K := K) h (tun_err op) Q h.
Proof. intros w w' r [= <- <-]. exists []. by rewrite app_nil_r. Qed.
Hint Resolve owns_tun_err : owns.

Lemma owns_create_tun h name : owns h (create_tun name) (fun fd => {[+ fd +]} ⊎ h) h.
Proof. unfold create_tun. owns_go. Qed.

Lemma owns_ioctl_ifreq h sock n req op : owns h (ioctl_ifreq sock n req op) (fun _ => h) h.
Proof. unfold ioctl_ifreq. owns_go. Qed.
Hint Resolve owns_ioctl_ifreq : owns.

Lemma owns_configure h name addr p mtu : owns h (configure name addr p mtu) (fun _ => h) h.
Proof.
  unfold configure. apply (owns_bind _ _ _ (fun fd => {[+ fd +]} ⊎ h)).
  - unfold ioctl_socket. owns_go.
  - intros sock. owns_go.
Qed.

Lemma ioctl_trace sock n req op : traces (ioctl_ifreq sock n req op)
  (outcome (fun _ => True) (fun req' l => exists r, l = [(c_ioctl sock n (ifreq_bytes req), r)] /\ 0 <= rv r /\
     req' = match out r with OBytes bs => ifreq_of_bytes bs | _ => req end)).
Proof.
  unfold ioctl_ifreq, tun_err. repeat trace_step; cbn; [by repeat constructor|eauto].
Qed.

(** The request that carries two bytes of flags, an address, or four bytes. *)
Definition named (name : str) (data : list Z) : list Z := written IFNAMSIZ name ++ data.
Definition inet_data (octets : list Z) : list Z := le_bytes 2 AF_INET ++ zeros 2 ++ octets ++ zeros 16.

Definition configured (name : str) (addr : list Z) (p mtu : Z) (l : list (Call * Ret)) : Prop :=
  exists rk ra rm ru rf rs rc cur,
  l = [(c_socket AF_INET SOCK_DGRAM 0, rk);
       (c_ioctl (rv rk) SIOCSIFADDR (named name (inet_data addr)), ra);
       (c_ioctl (rv rk) SIOCSIFNETMASK (named name (inet_data (netmask p))), rm);
       (c_ioctl (rv rk) SIOCSIFMTU (named name (le_bytes 4 mtu ++ zeros 20)), ru);
       (c_ioctl (rv rk) SIOCGIFFLAGS (named name (zeros 24)), rf);
       (c_ioctl (rv rk) SIOCSIFFLAGS (ifreq_bytes (set_data cur 0
          (le_bytes 2 (Z.lor (Z.lor (le_val (field (if_data cur) 0 2)) IFF_UP) IFF_RUNNING)))), rs);
       (c_close (rv rk), rc)] /\
  cur = match out rf with OBytes bs => ifreq_of_bytes bs | _ => mkIfreq (written IFNAMSIZ name) (zeros 24) end /\
  Forall (fun r => 0 <= rv r) [rk; ra; rm; ru; rf; rs].

Lemma Ifreq_new_ok name : (length name < 16)%nat ->
  Ifreq_new name = Ok (mkIfreq (written IFNAMSIZ name) (zeros 24)).
Proof. intros H. unfold Ifreq_new. rewrite (proj2 (Z.leb_gt _ _)); [done|]. unfold IFNAMSIZ. lia. Qed.

Lemma inet_request name octets : length octets = 4%nat ->
  ifreq_bytes (set_sockaddr_in (mkIfreq (written IFNAMSIZ name) (zeros 24)) octets)
  = named name (inet_data octets).
Proof. intros H. do 5 (destruct octets as [|? octets]; try discriminate H). reflexivity. Qed.

Ltac next := eapply traces_then; [apply ioctl_trace| |intros; split; [done|intros; apply List.Forall_forall; done]].

Lemma configure_trace name addr p mtu : (length name < 16)%nat -> length addr = 4%nat ->
  traces (configure name addr p mtu) (outcome (fun _ => True) (fun _ => configured name addr p mtu)).
Proof.
  intros Hn Ha. unfold configure. rewrite !Ifreq_new_ok by done.
  apply (traces_then (fun _ => True) _ _ (fun sock l => exists rk,
    l = [(c_socket AF_INET SOCK_DGRAM 0, rk)] /\ 0 <= rv rk /\ sock = rv rk)); [| |done].
  { unfold ioctl_socket, tun_err. repeat trace_step; cbn; [by repeat constructor|eauto]. }
  intros l sock (rk & -> & Hk & ->). apply traces_scoped.
  trace_given. next. intros l1 ? (ra & -> & Hra & _). trace_given. next. intros l2 ? (rm & -> & Hrm & _).
  trace_given. next. intros l3 ? (ru & -> & Hru & _). trace_given. next. intros l4 cur (rf & -> & Hrf & Hcur).
  next. intros l5 ? (rs & -> & Hrs & _). apply traces_lift. split; [done|]. intros rc. cbn [outcome].
  rewrite !inet_request by done. exists rk, ra, rm, ru, rf, rs, rc, cur.
  split; [reflexivity|]. split; [done|]. by repeat constructor.
Qed.
End tun.

(** The prefix of a mask: bit [i] of the address is set when it is among the
    first [n]. *)
Definition is_mask (n : Z) (octets : list Z) : Prop :=
  length octets = 4%nat /\ forall i, 0 <= i < 32 -> Z.testbit (le_val (rev octets)) i = (32 - n <=? i).

Definition mask_ok (n : Z) : bool :=
  forallb (fun i => Bool.eqb (Z.testbit (le_val (rev (netmask n))) i) (32 - n <=? i)) (seqZ 0 32).

Lemma netmask_is_mask p : 0 <= p -> is_mask (Z.min p 32) (netmask p).
Proof.
  intros Hp. assert (forallb mask_ok (seqZ 0 33) = true) as Hall by (vm_compute; reflexivity).
  assert (netmask p = netmask (Z.min p 32)) as ->.
  { unfold netmask. by replace (Z.min (Z.min p 32) 32) with (Z.min p 32) by lia. }
  rewrite forallb_forall in Hall. specialize (Hall (Z.min p 32)). split.
  - unfold netmask, octets_of. by rewrite length_rev, length_le_bytes.
  - intros i Hi. unfold mask_ok in Hall. rewrite forallb_forall in Hall.
    apply Bool.eqb_prop, Hall; apply list_elem_of_In, elem_of_seqZ; lia.
Qed.

(** [create], whatever the kernel answers: on success the device was
    opened and attached under the name, and the interface was given, in this
    order and each with success, the address, the contiguous mask of the
    prefix length (at most 32 bits), the MTU, and its current flags with up
    and running added; the configuration socket is closed; the caller owns
    the device's descriptor; on failure it owns nothing more than before. *)
Theorem tun_create {K} (kernel : Call -> K -> K * Ret) h name ipv4 p mtu :
  (length name < 16)%nat -> length ipv4 = 4%nat -> 0 <= p ->
  owns h (create kernel name ipv4 p mtu) (fun d => {[+ td_fd d +]} ⊎ h) h /\
  is_mask (Z.min p 32) (netmask p) /\
  traces (create kernel name ipv4 p mtu) (outcome (fun _ => True) (fun d l => td_name d = name /\
    exists ro rt l', 0 <= rv ro /\ 0 <= rv rt /\ td_fd d = rv ro /\
    l = (c_open DEV_NET_TUN O_RDWR, ro) ::
        (c_ioctl (rv ro) TUNSETIFF (named name (le_bytes 2 (Z.lor IFF_TUN IFF_NO_PI) ++ zeros 22)), rt) :: l' /\
    configured name ipv4 p mtu l')).
Proof.
  intros Hn Ha Hp. split; [|split; [by apply netmask_is_mask|]].
  - unfold create. apply (owns_bind _ _ _ (fun fd => {[+ fd +]} ⊎ h)); [apply owns_create_tun|].
    intros fd. apply owns_owned. eapply owns_bind; [apply owns_configure|]. intros []. by apply owns_ret.
  - unfold create, create_tun. rewrite Ifreq_new_ok by done.
    apply (traces_then (fun _ => True) _ _ (fun fd l => exists ro rt, 0 <= rv ro /\ 0 <= rv rt /\ fd = rv ro /\
      l = [(c_open DEV_NET_TUN O_RDWR, ro);
           (c_ioctl (rv ro) TUNSETIFF (named name (le_bytes 2 (Z.lor IFF_TUN IFF_NO_PI) ++ zeros 22)), rt)])).
    + trace_step. destruct (rv r <? 0) eqn:E; bool_to_prop.
      { unfold tun_err. trace_step. cbn. by repeat constructor. }
      apply traces_owned. trace_given. trace_step.
      destruct (rv r0 <? 0) eqn:E2; bool_to_prop; [unfold tun_err|]; trace_step.
      * intros rc. apply List.Forall_forall. done.
      * exists r, r0. done.
    + intros l fd (ro & rt & Hro & Hrt & -> & ->). apply traces_owned.
      eapply traces_then; [apply (configure_trace kernel name ipv4 p mtu Hn Ha)| |].
      * intros l' [] Hl'. apply traces_lift. split; [done|]. exists ro, rt, (l' ++ []).
        rewrite app_nil_r. done.
      * intros l' e _ rc. apply List.Forall_forall. done.
    + intros l e _. apply List.Forall_forall. done.
Qed.

Lemma tun_create_witness :
  let kernel := fun (c : Call) (k : unit) => (k, match c with
    | c_open _ _ => mkRet 3 0 ONone | c_socket _ _ _ => mkRet 4 0 ONone | _ => mkRet 0 0 ONone end) in
  owns ∅ (create kernel (lit "tun0") [10; 0; 0; 1] 24 1500) (fun d => {[+ td_fd d +]} ⊎ ∅) ∅ /\
  is_mask (Z.min 24 32) (netmask 24) /\
  traces (create kernel (lit "tun0") [10; 0; 0; 1] 24 1500) (outcome (fun _ => True) (fun d l => td_name d = lit "tun0" /\
    exists ro rt l', 0 <= rv ro /\ 0 <= rv rt /\ td_fd d = rv ro /\
    l = (c_open DEV_NET_TUN O_RDWR, ro) ::
        (c_ioctl (rv ro) TUNSETIFF (named (lit "tun0") (le_bytes 2 (Z.lor IFF_TUN IFF_NO_PI) ++ zeros 22)), rt) :: l' /\
    configured (lit "tun0") [10; 0; 0; 1] 24 1500 l')).
Proof. apply tun_create; [cbn; lia|reflexivity|lia]. Defined.

Example netmask_ex : netmask 24 = [255; 255; 255; 0] /\ netmask 10 = [255; 192; 0; 0] /\
  netmask 0 = [0; 0; 0; 0] /\ netmask 200 = [255; 255; 255; 255].
Proof. vm_compute. done. Qed.
