(* ===== verification/LinuxPty.v ===== *)
(** * Pseudo-terminals, signals and names on Linux
      ([platform-linux/src/sys/pty.rs], [src/pty.rs], [sys/signals.rs],
      [src/signals.rs], [sys/identity.rs])

    A pty pair, a child spawned on its slave, the master's operations; the
    one-slot signal source; the growing buffer of the account lookups. *)

From Stdlib Require Import ZArith Lia String.
From S2P Require Import Prelude Error Sys Process Terminal LinuxSpawn LinuxProcess.
From stdpp Require Import base numbers list strings gmap gmultiset.
Open Scope Z_scope.

Definition pty_kind (code : Z) : ErrorKind :=
  if code =? ENOENT then NotFound
  else if (code =? EACCES) || (code =? EPERM) then PermissionDenied
  else if code =? EAGAIN then WouldBlock
  else if code =? EINTR then Interrupted
  else Other.

(** [CStr::from_ptr]: up to the first NUL. *)
Fixpoint c_str (buf : list Z) : OsString :=
  match buf with
  | [] => []
  | b :: buf => if b =? 0 then [] else b :: c_str buf
  end.

Section pty.
Context {K : Type} (kernel : Call -> K -> K * Ret) (host : Host K).
Abbreviation M A := (World K -> World K * Run A).
Abbreviation sys c := (syscall kernel c).

Definition pty_err {A} (op : string) : M A := fun w =>
  (w, fail (error_new (pty_kind (errno w)) (Errno (errno w)) op)).

Definition open_pty_pair : M (Z * OsString) :=
  st! r := sys (c_posix_openpt (Z.lor (Z.lor O_RDWR O_NOCTTY) O_CLOEXEC)) in
  if rv r <? 0 then pty_err "posix_openpt"
  else
    let master := rv r in
    owned kernel master
      (st! r := sys (c_grantpt master) in
       if negb (rv r =? 0) then pty_err "grantpt"
       else
         st! r := sys (c_unlockpt master) in
         if negb (rv r =? 0) then pty_err "unlockpt"
         else
           st! r := sys (c_ptsname master 64) in
           if negb (rv r =? 0) then pty_err "ptsname_r"
           else st_lift (ret (master, c_str (out_bytes r)))).

Definition slave_actions (cwd slave_path : OsString) : list FileAction :=
  [AddChdir cwd; AddOpen 0 slave_path O_RDWR; AddDup2 0 1; AddDup2 0 2].

Definition spawn_attached (path argv0 : OsString) (args : list OsString) (cwd : OsString)
    (env : EnvSpec) (slave_path : OsString) : M Z :=
  st! c_path := st_lift (to_cstring_op path "posix_spawn") in
  st! c_cwd := st_lift (to_cstring_op cwd "posix_spawn chdir") in
  st! c_argv := st_lift (to_cstrings (argv0 :: args) "posix_spawn argv") in
  st! c_env := build_env host env in
  st! r := sys c_actions_init in
  if negb (rv r =? 0) then st_lift (fail (errno_err "posix_spawn_file_actions_init" (rv r) []))
  else
  st! r := sys (c_actions_add (AddChdir c_cwd)) in
  if negb (rv r =? 0) then st_lift (fail (errno_err "posix_spawn chdir" (rv r) cwd))
  else
  st! r := sys (c_actions_add (AddOpen 0 slave_path O_RDWR)) in
  if negb (rv r =? 0) then st_lift (fail (errno_err "posix_spawn addopen" (rv r) []))
  else
  st! r := sys (c_actions_add (AddDup2 0 1)) in
  if negb (rv r =? 0) then st_lift (fail (errno_err "posix_spawn adddup2" (rv r) []))
  else
  st! r := sys (c_actions_add (AddDup2 0 2)) in
  if negb (rv r =? 0) then st_lift (fail (errno_err "posix_spawn adddup2" (rv r) []))
  else
  st! r := sys c_attr_init in
  if negb (rv r =? 0) then st_lift (fail (errno_err "posix_spawnattr_init" (rv r) []))
  else
  st! r := sys (c_attr_setflags POSIX_SPAWN_SETSID) in
  if negb (rv r =? 0) then st_lift (fail (errno_err "posix_spawnattr_setflags" (rv r) []))
  else
  st! r := sys (c_posix_spawn c_path (slave_actions c_cwd slave_path) (mkSpawnAttr POSIX_SPAWN_SETSID 0)
                  c_argv c_env) in
  if negb (rv r =? 0) then st_lift (fail (errno_err "posix_spawn" (rv r) path))
  else st_lift (ret (out_int r)).

Definition resize (master : Z) (size : WinSize) : M unit :=
  st! r := sys (c_ioctl_set_winsize master (rows size) (cols size)) in
  if negb (rv r =? 0) then pty_err "TIOCSWINSZ" else st_lift (ret tt).

(** [EIO] is the slave side closed: the end of the input. *)
Definition pty_read (master n : Z) : M (list Z) :=
  st! r := sys (c_read master n) in
  if rv r <? 0 then if err r =? EIO then st_lift (ret []) else pty_err "read"
  else st_lift (ret (take (Z.to_nat (rv r)) (out_bytes r))).

Definition pty_write (master : Z) (buf : list Z) : M Z :=
  st! r := sys (c_write master buf) in
  if rv r <? 0 then pty_err "write" else st_lift (ret (rv r)).

(** [Pty::spawn]: the master's descriptor and the child. *)
Definition pty_spawn (cmd : Command) (size : WinSize) : M (Z * LinuxChild) :=
  if is_join (c_group cmd) then
    st_lift (fail (error_new InvalidInput NoCode
      "Pty::spawn: GroupSpec::JoinGroup is incompatible with a fresh pty session"))
  else
    st! resolved := resolve host (program cmd) in
    st! (master, slave_path) := open_pty_pair in
    owned kernel master
      (st! pid := spawn_attached resolved (program cmd) (argv cmd) (cwd cmd) (c_env cmd) slave_path in
       st! _ := resize master size in
       st_lift (ret (master, from_pid pid (Some pid)))).

(** ** Signals

    The slot is the process's one atomic; [record] is the handler, whose
    address is [handler]. *)

Context (handler : Z).

Definition sig_of_event (e : SignalEvent) : Z :=
  match e with Interrupt => SIGINT | Terminate => SIGTERM | Hangup => SIGHUP end.
Definition event_of (signum : Z) : option SignalEvent :=
  if signum =? SIGINT then Some Interrupt
  else if signum =? SIGTERM then Some Terminate
  else if signum =? SIGHUP then Some Hangup
  else None.

Definition install_one (signum : Z) : M unit :=
  st! r := sys (c_set_signal signum handler) in
  if rv r =? -1 then st_lift (fail (with_path (error_new InvalidInput (Errno (err r)) "signal") []))
  else st_lift (ret tt).

Fixpoint install (events : list SignalEvent) : M unit :=
  match events with
  | [] => st_lift (ret tt)
  | e :: events => st! _ := install_one (sig_of_event e) in install events
  end.

Definition record (signum pending : Z) : Z := signum.
(** [PENDING.swap(0)]. *)
Definition take_signum (pending : Z) : Z * option Z := (0, if pending =? 0 then None else Some pending).
Definition take_event (pending : Z) : Z * option SignalEvent :=
  let (p, s) := take_signum pending in (p, s ≫= event_of).
End pty.

(** ** Account names

    [call cap] is the libc lookup with a buffer of [cap] bytes: its return
    code and the name. *)

Fixpoint grow (fuel : nat) (call : Z -> Z * option str) (cap : Z) : Run (option str) :=
  match fuel with
  | O => OutOfFuel
  | S fuel =>
    let (rc, found) := call cap in
    if rc =? 0 then ret found
    else if rc =? ERANGE then
      let cap := cap * 2 in
      if Z.shiftl 1 20 <? cap then ret None else grow fuel call cap
    else ret None
  end.
Definition with_growing_buffer (call : Z -> Z * option str) : Run (option str) := grow 11 call 1024.

(** [getpwuid_r]/[getgrgid_r] as the closure sees them: an error code, no
    entry, or the bytes of the name. *)
Definition name_call (lookup : Z -> Z + option (list Z)) (cap : Z) : Z * option str :=
  match lookup cap with
  | inl rc => (rc, None)
  | inr None => (0, None)
  | inr (Some name) => (0, Some (from_utf8_lossy name))
  end.
Definition user_name (getpwuid_r : Z -> Z -> Z + option (list Z)) (uid : Z) : Run (option str) :=
  with_growing_buffer (name_call (getpwuid_r uid)).
Definition group_name (getgrgid_r : Z -> Z -> Z + option (list Z)) (gid : Z) : Run (option str) :=
  with_growing_buffer (name_call (getgrgid_r gid)).

(** ** The child on its terminal *)

Section attached.
Context {K : Type} (kernel : Call -> K -> K * Ret) (host : Host K).

Lemma owns_pty_err {A} h op (Q : A -> _) : owns (K := K) h (pty_err op) Q h.
Proof. intros w w' r [= <- <-]. exists []. by rewrite app_nil_r. Qed.
Hint Resolve owns_pty_err : owns.

Lemma owns_build_env h env : owns h (build_env host env) (fun _ => h) h.
Proof.
  intros w w' r H. destruct (build_env_cases host env w) as [Hw Hr]. rewrite H in *. cbn in *. subst w'.
  exists []. rewrite app_nil_r. split; [done|]. intros _. by destruct Hr as [(? & -> & _)|[? ->]].
Qed.
Hint Resolve owns_build_env : owns.

Lemma owns_resolve h program : owns h (resolve host program) (fun _ => h) h.
Proof.
  intros w w' r [= <- <-]. exists []. rewrite app_nil_r. split; [done|]. intros _.
  by repeat case_match.
Qed.
Hint Resolve owns_resolve : owns.

Lemma owns_spawn_attached h path argv0 args cwd env slave :
  owns h (spawn_attached kernel host path argv0 args cwd env slave) (fun _ => h) h.
Proof. unfold spawn_attached. owns_go. Qed.
Hint Resolve owns_spawn_attached : owns.

Lemma owns_pty_spawn h cmd size :
  owns h (pty_spawn kernel host cmd size) (fun p => {[+ fst p +]} ⊎ h) h.
Proof.
  unfold pty_spawn, resize. destruct (is_join _); [apply owns_fail|].
  eapply owns_bind; [apply owns_resolve|]. intros path. cbv beta.
  apply (owns_bind _ _ _ (fun p => {[+ fst p +]} ⊎ h)); [unfold open_pty_pair; owns_go|].
  intros [master slave]. cbn [fst]. apply owns_owned.
  apply (owns_bind _ _ _ (fun _ => {[+ master +]} ⊎ h)); [apply owns_spawn_attached|]. intros pid.
  apply (owns_bind _ _ _ (fun _ => {[+ master +]} ⊎ h)); [owns_go|]. intros []. by apply owns_ret.
Qed.

Definition opened_pty (master : Z) (slave : OsString) (l : list (Call * Ret)) : Prop :=
  exists ro rg ru rp,
  l = [(c_posix_openpt (Z.lor (Z.lor O_RDWR O_NOCTTY) O_CLOEXEC), ro); (c_grantpt master, rg);
       (c_unlockpt master, ru); (c_ptsname master 64, rp)] /\
  master = rv ro /\ 0 <= rv ro /\ rv rg = 0 /\ rv ru = 0 /\ rv rp = 0 /\ slave = c_str (out_bytes rp).

Definition attached (path argv0 : OsString) (args : list OsString) (cwd slave : OsString) (pid : Z)
    (l : list (Call * Ret)) : Prop :=
  exists l0 envp r,
  l = l0 ++ [(c_posix_spawn path (slave_actions cwd slave) (mkSpawnAttr POSIX_SPAWN_SETSID 0) (argv0 :: args) envp, r)] /\
  rv r = 0 /\ pid = out_int r /\ Forall no_child l0.

Lemma open_pty_trace : traces (open_pty_pair kernel)
  (outcome no_child (fun p l => opened_pty (fst p) (snd p) l)).
Proof.
  unfold open_pty_pair, pty_err. trace_step. destruct (rv r <? 0) eqn:E; bool_to_prop.
  { trace_step. cbn. by repeat constructor. }
  apply traces_owned.
  trace_step. destruct (rv r0 =? 0) eqn:E0; cbn [negb]; bool_to_prop; [|trace_step; intros rc; by repeat constructor].
  trace_step. destruct (rv r1 =? 0) eqn:E1; cbn [negb]; bool_to_prop; [|trace_step; intros rc; by repeat constructor].
  trace_step. destruct (rv r2 =? 0) eqn:E2; cbn [negb]; bool_to_prop; [|trace_step; intros rc; by repeat constructor].
  apply traces_lift. by exists r, r0, r1, r2.
Qed.

(** A call that is checked before anything else happens. *)
Lemma step_trace {A} l0 c (e : Ret -> PlatformError) (k : World K -> World K * Run A) P :
  (forall r, no_child (c, r)) -> Forall no_child l0 ->
  (forall l1, Forall no_child l1 -> traces k (fun l => outcome no_child P (l1 ++ l))) ->
  traces (st! r := syscall kernel c in if negb (rv r =? 0) then st_lift (fail (e r)) else k)
    (fun l => outcome no_child P (l0 ++ l)).
Proof.
  intros Hc H0 Hk. apply traces_sys. intros r. destruct (negb _).
  - apply traces_lift. cbn. apply Forall_app. split; [done|]. by constructor.
  - specialize (Hk (l0 ++ [(c, r)])). eapply traces_weaken; [apply Hk|].
    + apply Forall_app. split; [done|]. by constructor.
    + intros l x H. cbv beta in *. by rewrite <- app_assoc in H.
Qed.

Ltac prepare :=
  match goal with
  | |- traces _ (fun l => outcome _ _ (?l0 ++ l)) =>
    apply (step_trace l0); [done|done|]; let l := fresh "l" in let H := fresh "H" in intros l H
  end.

Lemma spawn_attached_trace path argv0 args cwd env slave :
  traces (spawn_attached kernel host path argv0 args cwd env slave)
  (outcome no_child (fun pid => attached path argv0 args cwd slave pid)).
Proof.
  unfold spawn_attached.
  apply (traces_converted _ path); [apply to_cstring_op_cases|].
  apply (traces_converted _ cwd); [apply to_cstring_op_cases|].
  apply (traces_converted _ (argv0 :: args)); [apply to_cstrings_cases|].
  eapply traces_then; [apply build_env_trace| |done]. intros l envp (-> & _).
  do 7 prepare.
  apply traces_sys. intros r. destruct (rv r =? 0) eqn:E; cbn [negb]; bool_to_prop; apply traces_lift; cbn.
  - by exists l5, envp, r.
  - apply Forall_app. split; [done|]. by constructor.
Qed.

Lemma slave_acts t cwd slave : act_all t (slave_actions cwd slave) =
  Some (<[2 := (Opened slave O_RDWR, false)]> (<[1 := (Opened slave O_RDWR, false)]>
    (<[0 := (Opened slave O_RDWR, false)]> t))).
Proof.
  unfold slave_actions. cbn [act_all act mbind option_bind]. rewrite lookup_insert_eq.
  cbn [mbind option_bind fst]. rewrite lookup_insert_ne, lookup_insert_eq by done. reflexivity.
Qed.

Lemma resize_trace master size : traces (resize kernel master size)
  (outcome (fun _ => True) (fun _ l => exists rw,
    l = [(c_ioctl_set_winsize master (rows size) (cols size), rw)] /\ rv rw = 0)).
Proof.
  unfold resize, pty_err. trace_step. destruct (rv r =? 0) eqn:E; cbn [negb]; bool_to_prop; trace_step; cbn; [eauto|].
  by repeat constructor.
Qed.

(** [Pty::spawn], whatever the kernel answers: on success the pair was
    opened and its slave unlocked before the child was made, the child leads
    a session of its own (so the group [kill_tree] signals is its own), its
    actions open the slave by name first as 0 and duplicate it to 1 and 2, so
    that its three streams are the slave and nothing else changes, and the
    window size was set on the master; the caller owns the master and nothing
    else, on failure nothing; and a group to join is refused before anything
    is asked of the kernel. *)
Theorem pty_spawn_child h cmd size :
  owns h (pty_spawn kernel host cmd size) (fun p => {[+ fst p +]} ⊎ h) h /\
  (is_join (c_group cmd) = true -> forall w, fst (pty_spawn kernel host cmd size w) = w /\
     exists e, snd (pty_spawn kernel host cmd size w) = fail e /\ kind e = InvalidInput) /\
  traces (pty_spawn kernel host cmd size) (fun l r => match r with
    | ret (master, child) => exists path slave l1 l2 rw,
        l = l1 ++ l2 ++ [(c_ioctl_set_winsize master (rows size) (cols size), rw)] /\ rv rw = 0 /\
        opened_pty master slave l1 /\
        attached path (program cmd) (argv cmd) (cwd cmd) slave (lc_pid child) l2 /\
        lc_group child = placed (lc_pid child) (mkSpawnAttr POSIX_SPAWN_SETSID 0) /\
        (forall t, exists t', act_all t (slave_actions (cwd cmd) slave) = Some t' /\
           (forall i, 0 <= i <= 2 -> t' !! i = Some (Opened slave O_RDWR, false)) /\
           forall i, 2 < i -> t' !! i = t !! i)
    | fail _ => True
    | _ => False
    end).
Proof.
  split; [apply owns_pty_spawn|]. split.
  { intros Hj w. unfold pty_spawn. rewrite Hj. split; [done|]. by eexists. }
  unfold pty_spawn. destruct (is_join _); [by apply traces_lift|].
  eapply traces_then; [apply resolve_trace| |done]. intros l path ->.
  eapply traces_then; [apply open_pty_trace| |done]. intros l1 [master slave] H1. cbn [fst snd] in H1.
  apply traces_owned.
  eapply traces_then; [apply spawn_attached_trace| |done]. intros l2 pid H2.
  eapply traces_then; [apply resize_trace| |done]. intros l3 [] (rw & -> & Hw).
  apply traces_lift. cbn [outcome app lc_pid lc_group from_pid].
  exists path, slave, l1, l2, rw. do 4 (split; [done|]). split; [done|].
  intros t. eexists. split; [apply slave_acts|].
  split.
  - intros i Hi. assert (i = 0 \/ i = 1 \/ i = 2) as [->|[->| ->]] by lia.
    + by rewrite !lookup_insert_ne, lookup_insert_eq by done.
    + by rewrite lookup_insert_ne, lookup_insert_eq by done.
    + by rewrite lookup_insert_eq.
  - intros i Hi. by rewrite !lookup_insert_ne by lia.
Qed.
End attached.

(** A window size that cannot be set loses the child: it was made, and the
    caller gets neither its pid nor its terminal. *)
Example pty_child_lost :
  let kernel := fun (c : Call) (k : Z) => match c with
    | c_posix_openpt _ => (k, mkRet 3 0 ONone)
    | c_ptsname _ _ => (k, mkRet 0 0 (OBytes (lit "/dev/pts/0" ++ [0])))
    | c_ioctl_set_winsize _ _ _ => (k, mkRet (-1) ENOTTY ONone)
    | _ => fresh_kernel c k end in
  let (w, r) := pty_spawn kernel ls_host (ls_cmd GroupInherit false) (mkWinSize 24 80) (mkWorld 0 []) in
  (exists e, r = fail e) /\ ~ Forall no_child (log w).
Proof.
  vm_compute. split; [by eexists|]. intros H. do 11 apply Forall_inv_tail in H. apply Forall_inv in H. by apply H.
Qed.

(** ** The growing buffer *)

(** the lookup always ends, after at most eleven calls; it finds the name
    the first sufficient buffer of 1 KiB, 2 KiB, ... 1 MiB gives, and
    otherwise reports no name. *)
Theorem growing_buffer call : exists o, with_growing_buffer call = ret o /\
  forall name, o = Some name <-> exists i, (i <= 10)%nat /\ call (1024 * 2 ^ Z.of_nat i) = (0, Some name) /\
    forall j, (j < i)%nat -> fst (call (1024 * 2 ^ Z.of_nat j)) = ERANGE.
Proof.
  assert (forall n i, (n + i = 11)%nat -> (forall j, (j < i)%nat -> fst (call (1024 * 2 ^ Z.of_nat j)) = ERANGE) ->
    (0 < n)%nat ->
    exists o, grow n call (1024 * 2 ^ Z.of_nat i) = ret o /\
    forall name, o = Some name <-> exists i, (i <= 10)%nat /\ call (1024 * 2 ^ Z.of_nat i) = (0, Some name) /\
      forall j, (j < i)%nat -> fst (call (1024 * 2 ^ Z.of_nat j)) = ERANGE) as H; [|apply (H 11%nat 0%nat); [done|lia|lia]].
  induction n as [|n IH]; intros i Hi Hb Hn; [lia|]. cbn [grow].
  destruct (call (1024 * 2 ^ Z.of_nat i)) as [rc found] eqn:E.
  assert (rc <> ERANGE -> forall name i', (i' <= 10)%nat -> call (1024 * 2 ^ Z.of_nat i') = (0, Some name) ->
    (forall j, (j < i')%nat -> fst (call (1024 * 2 ^ Z.of_nat j)) = ERANGE) -> i' = i) as Huniq.
  { intros Hne name i' Hi' E' Hb'. destruct (Nat.lt_trichotomy i i') as [Hlt|[?|Hlt]]; [|done|].
    - specialize (Hb' i Hlt). rewrite E in Hb'. done.
    - specialize (Hb i' Hlt). rewrite E' in Hb. done. }
  destruct (rc =? 0) eqn:E0; bool_to_prop.
  { exists found. split; [done|]. intros name. split.
    - intros ->. exists i. subst rc. split; [lia|]. done.
    - intros (i' & Hi' & E' & Hb'). assert (i' = i) as -> by (apply (Huniq ltac:(subst; done) name); done).
      rewrite E in E'. by simplify_eq. }
  destruct (rc =? ERANGE) eqn:E1; bool_to_prop.
  - replace (1024 * 2 ^ Z.of_nat i * 2) with (1024 * 2 ^ Z.of_nat (S i))
      by (rewrite Nat2Z.inj_succ, Z.pow_succ_r by lia; lia).
    assert (forall j, (j < S i)%nat -> fst (call (1024 * 2 ^ Z.of_nat j)) = ERANGE) as Hb2.
    { intros j Hj. destruct (Nat.eq_dec j i) as [->|]; [by rewrite E|apply Hb; lia]. }
    destruct (_ <? _) eqn:E2; bool_to_prop.
    + exists None. split; [done|]. intros name. split; [done|]. intros (i' & Hi' & E' & Hb').
      assert (10 < Z.of_nat (S i)) as Hbig.
      { apply (Z.pow_lt_mono_r_iff 2); [lia..|]. change (Z.shiftl 1 20) with (1024 * 2 ^ 10) in E2. lia. }
      specialize (Hb2 i' ltac:(lia)). rewrite E' in Hb2. by vm_compute in Hb2.
    + apply IH; [lia|done|]. destruct n; [|lia]. exfalso.
      assert (i = 10)%nat as -> by lia. vm_compute in E2. by apply E2.
  - exists None. split; [done|]. intros name. split; [done|]. intros (i' & Hi' & E' & Hb').
    assert (i' = i) as -> by (apply (Huniq E1 name); done). rewrite E in E'. by simplify_eq.
Qed.

(** ** The signal slot

    One slot: of several signals that arrive before a [take], the last is
    reported, once. *)
Lemma take_latest l s pending :
  take_event (fold_left (fun p signum => record signum p) (l ++ [sig_of_event s]) pending) = (0, Some s).
Proof. rewrite fold_left_app. by destruct s. Qed.
