(* ===== verification/LinuxCloexec.v ===== *)
(** * Descriptors stay out of spawned programs

    Every call of the backend that makes a descriptor asks for close-on-exec,
    so that a program started by another thread at any moment inherits none
    of them: across [LinuxFd], [LinuxNet], [LinuxSpawn], [LinuxPty],
    [LinuxSecurity] and [DBusTransport].  The TUN device is the exception. *)

From Stdlib Require Import ZArith Lia String.
From S2P Require Import Prelude Error Sys Fs Process Terminal LinuxFd LinuxNet DBusConn DBusTransport LinuxSecurity LinuxSpawn LinuxProcess LinuxPty LinuxTun.
From stdpp Require Import base numbers list strings gmap gmultiset.
Open Scope Z_scope.

(** Bit 19 of the flags is [O_CLOEXEC] and [SOCK_CLOEXEC]; [MFD_CLOEXEC] is
    bit 0; pidfds and Landlock rule sets are always close-on-exec. *)
Definition hides (c : Call) : bool :=
  match c with
  | c_open _ flags | c_openat _ _ flags _ | c_openat2 _ _ flags _ _ | c_pipe2 flags
  | c_accept4 _ _ flags | c_posix_openpt flags => Z.testbit flags 19
  | c_socket _ type _ => Z.testbit type 19
  | c_memfd_create _ flags => Z.testbit flags 0
  | _ => true
  end.

Definition hidden_log (l : list (Call * Ret)) : Prop := Forall (fun e => hides (fst e) = true) l.
#[export] Instance hidden_law : LogLaw hidden_log.
Proof. split; [constructor|intros; by apply Forall_app|by repeat constructor]. Qed.
Abbreviation asks := (logs hidden_log).

Lemma asks_sys {K} (kernel : Call -> K -> K * Ret) c : hides c = true -> asks (syscall kernel c).
Proof. intros H. apply logs_sys. by repeat constructor. Qed.

Lemma cloexec_flag f : Z.testbit (Z.lor f O_CLOEXEC) 19 = true.
Proof. rewrite Z.lor_spec. change O_CLOEXEC with (2 ^ 19). rewrite Z.pow2_bits_true by lia. apply orb_true_r. Qed.

Lemma cloexec_socket t : Z.testbit (Z.lor t SOCK_CLOEXEC) 19 = true.
Proof. apply cloexec_flag. Qed.

Lemma cloexec_wrapped f : Z.testbit (wrap 64 (Z.lor f O_CLOEXEC)) 19 = true.
Proof. unfold wrap. rewrite Z.mod_pow2_bits_low by lia. apply cloexec_flag. Qed.

(** The shapes the operations are made of. *)
Create HintDb asks discriminated.
#[export] Hint Resolve cloexec_flag cloexec_socket cloexec_wrapped : asks.

Ltac asks_step :=
  match goal with
  | |- asks (st_bind _ _) => apply (logs_bind (P := hidden_log)); [|intros]
  | |- asks (st_lift _) => apply (logs_lift (P := hidden_log))
  | |- asks (syscall _ _) => apply asks_sys; cbn [hides]; solve [reflexivity|eauto with asks]
  | |- asks (owned _ _ _) => apply (logs_owned _ (P := hidden_log))
  | |- asks (scoped _ _ _) => apply (logs_scoped _ (P := hidden_log))
  | |- asks (scoped_all _ _ _) => apply (logs_scoped_all _ (P := hidden_log))
  | |- asks (bail _ _ _) => apply (logs_bail _ (P := hidden_log))
  | |- asks (or_bail _ _ _ _) => apply (logs_or_bail _ (P := hidden_log)); [|intros]
  | |- asks (if ?b then _ else _) => destruct b
  | |- asks (match ?b with _ => _ end) => destruct b
  | |- asks _ => solve [eauto with asks]
  | |- asks (fun w => (w, _)) => apply (logs_pure (P := hidden_log)); reflexivity
  end.
Ltac asks_go := repeat (cbv beta zeta; asks_step).

(** ** The operations *)

Section ops.
Context {K : Type} (kernel : Call -> K -> K * Ret) (host : Host K) (file_fd : nat -> option Z).
Abbreviation M A := (World K -> World K * Run A).

Lemma asks_os_err {A} op path : logs hidden_log (A := A) (K := K) (os_err op path).
Proof. by apply (logs_pure (P := hidden_log)). Qed.

Lemma asks_net_err {A} op : logs hidden_log (A := A) (K := K) (net_err op).
Proof. by apply (logs_pure (P := hidden_log)). Qed.

Lemma asks_pty_err {A} op : logs hidden_log (A := A) (K := K) (pty_err op).
Proof. by apply (logs_pure (P := hidden_log)). Qed.

Lemma asks_last_error {A} op : logs hidden_log (A := A) (K := K) (last_error op).
Proof. by apply (logs_pure (P := hidden_log)). Qed.

#[local] Hint Resolve asks_os_err asks_net_err asks_pty_err asks_last_error : asks.

Lemma asks_openat d rel flags mode : asks (openat kernel d rel flags mode).
Proof. unfold openat, path_arg. asks_go. Qed.
#[local] Hint Resolve asks_openat : asks.

Lemma asks_openat2_raw d rel flags mode resolve : asks (openat2_raw kernel d rel flags mode resolve).
Proof.
  unfold openat2_raw, path_arg. asks_go. apply (logs_pure (P := hidden_log)). intros w. by destruct (errno w =? ENOSYS).
Qed.

Lemma asks_openat_r2 d rel flags mode : asks (openat_r2 kernel d rel flags mode).
Proof.
  eapply (logs_ext (P := hidden_log)).
  - apply (logs_next (P := hidden_log) _ (fun r => match r with
      | fail e => if bool_decide (kind e = Unsupported) then openat kernel d rel flags mode
                  else st_lift (fail e)
      | r => st_lift r end) (asks_openat2_raw d rel flags mode R2_RESOLVE)).
    intros [[a|e]| |]; asks_go.
  - intros w. unfold openat_r2. destruct (openat2_raw _ _ _ _ _ _ w) as [w' [[a|e]| |]]; try done.
    cbn [fst snd]. by destruct (bool_decide _).
Qed.
#[local] Hint Resolve asks_openat_r2 : asks.

Lemma asks_sys_unit c op path : hides c = true -> asks (sys_unit kernel c op path).
Proof. intros H. unfold sys_unit. apply (logs_bind (P := hidden_log)); [by apply asks_sys|]. intros. asks_go. Qed.

Lemma asks_net_unit c op : hides c = true -> asks (net_unit kernel c op).
Proof. intros H. unfold net_unit. apply (logs_bind (P := hidden_log)); [by apply asks_sys|]. intros. asks_go. Qed.
#[local] Hint Extern 1 (asks (sys_unit _ _ _ _)) => apply asks_sys_unit; reflexivity : asks.
#[local] Hint Extern 1 (asks (net_unit _ _ _)) => apply asks_net_unit; reflexivity : asks.

Lemma asks_mkdirat d rel : asks (mkdirat kernel d rel).
Proof. unfold mkdirat, path_arg. asks_go. Qed.
#[local] Hint Resolve asks_mkdirat : asks.

Lemma asks_readdir_loop fuel dir acc : asks (readdir_loop kernel fuel dir acc).
Proof. revert acc. induction fuel; intros; cbn [readdir_loop]; asks_go. Qed.
#[local] Hint Resolve asks_readdir_loop : asks.

(** [LinuxFd] *)
Lemma asks_files fuel d rel opts :
  asks (open_ambient kernel rel) /\ asks (open kernel d rel opts) /\ asks (open_dir kernel d rel) /\
  asks (create_dir kernel d rel) /\ asks (read_dir kernel fuel d) /\
  asks (try_clone kernel d) /\ asks (create_memfd kernel rel).
Proof.
  repeat split.
  - unfold open_ambient. asks_go.
  - unfold open. asks_go.
  - unfold open_dir. asks_go.
  - unfold create_dir. destruct (split_last_component rel) as [[parent leaf]|]; asks_go.
  - unfold read_dir, read_dir_fd. asks_go.
  - unfold try_clone, dup_cloexec. asks_go.
  - unfold create_memfd, memfd_create, path_arg. asks_go.
Qed.

Lemma asks_new_socket family type : asks (new_socket kernel family type).
Proof. unfold new_socket. asks_go. Qed.
#[local] Hint Resolve asks_new_socket : asks.

Lemma asks_new_unix_socket : asks (new_unix_socket kernel).
Proof. apply asks_new_socket. Qed.
#[local] Hint Resolve asks_new_unix_socket : asks.

Lemma asks_is_stale_socket path : asks (is_stale_socket kernel path).
Proof.
  eapply (logs_ext (P := hidden_log)).
  - apply (logs_next (P := hidden_log) _ (fun r => match r with
      | ret probe => scoped kernel probe
          (match to_sockaddr_un path with
           | Err _ => st_lift (ret false)
           | Ok (addr, len) =>
             st! r := syscall kernel (c_connect probe addr len) in
             if rv r =? 0 then st_lift (ret false) else fun w => (w, ret (errno w =? ECONNREFUSED))
           end)
      | _ => st_lift (ret false) end) asks_new_unix_socket).
    intros [[a|e]| |]; asks_go.
  - intros w. unfold is_stale_socket. by destruct (new_unix_socket kernel w) as [w' [[a|e]| |]].
Qed.
#[local] Hint Resolve asks_is_stale_socket : asks.

Lemma asks_bind_reclaiming fd path addr len : asks (bind_reclaiming kernel fd path addr len).
Proof.
  unfold bind_reclaiming, path_to_cstring. asks_go.
  apply (logs_errno (P := hidden_log) EADDRINUSE _ (st_lift (ret (rv a)))); asks_go.
Qed.
#[local] Hint Resolve asks_bind_reclaiming : asks.

(** [LinuxNet] *)
Lemma asks_sockets fd addr path :
  asks (tcp_connect kernel addr) /\ asks (tcp_listen kernel addr) /\ asks (tcp_accept kernel fd) /\
  asks (unix_connect kernel path) /\ asks (unix_listen kernel path) /\ asks (unix_accept kernel fd) /\
  asks (udp_bind kernel addr).
Proof.
  repeat split.
  - unfold tcp_connect, new_tcp_socket. asks_go.
  - unfold tcp_listen, new_tcp_socket. asks_go.
  - unfold tcp_accept. asks_go.
  - unfold unix_connect. asks_go.
  - unfold unix_listen, path_to_cstring. asks_go.
  - unfold unix_accept. asks_go.
  - unfold udp_bind, new_udp_socket. asks_go.
Qed.

(** [LinuxSecurity] *)
Lemma asks_add_rules rs roots allowed : asks (add_rules kernel rs roots allowed).
Proof. induction roots; cbn [add_rules]; unfold add_rule, open_path_fd; asks_go. Qed.
#[local] Hint Resolve asks_add_rules : asks.

Lemma asks_confine readable writable : asks (confine_filesystem kernel readable writable).
Proof. unfold confine_filesystem, create_ruleset, set_no_new_privs. asks_go. Qed.

(** [LinuxSpawn] *)
Lemma asks_build_env env : asks (build_env host env).
Proof. by apply (logs_pure (P := hidden_log)). Qed.

Lemma asks_make_pipe : asks (make_pipe kernel).
Proof. unfold make_pipe. asks_go. Qed.
#[local] Hint Resolve asks_build_env asks_make_pipe : asks.

Lemma asks_wire fd stdio wr : asks (wire kernel file_fd fd stdio wr).
Proof.
  revert fd wr. induction stdio as [|spec stdio IH]; intros fd wr; cbn [wire]; [apply (logs_lift (P := hidden_log))|].
  apply (logs_bind (P := hidden_log)); [|intros; apply IH]. destruct spec; cbn [wire_slot]; asks_go.
Qed.

Lemma asks_spawn_attr group detached ends : asks (spawn_attr kernel group detached ends).
Proof. unfold spawn_attr. asks_go. Qed.
#[local] Hint Resolve asks_wire asks_spawn_attr logs_drops : asks.

Lemma asks_done {A} l (r : Run A) : asks (fun w => (drop_fds kernel l w, r)).
Proof. exact (logs_drops kernel (P := hidden_log) l). Qed.
#[local] Hint Resolve asks_done : asks.

Lemma asks_spawn path argv0 args cwd env stdio group detached :
  asks (spawn kernel host file_fd path argv0 args cwd env stdio group detached).
Proof. unfold spawn. asks_go. Qed.

#[local] Hint Resolve asks_spawn : asks.

Lemma asks_open_pidfds pids pidfds : asks (open_pidfds kernel pids pidfds).
Proof. revert pidfds. induction pids; intros; cbn [open_pidfds]; unfold pidfd_open; asks_go. Qed.
#[local] Hint Resolve asks_open_pidfds : asks.

(** What the loop does with one answer. *)
Definition poll_reply (again : M (option nat)) (r : Run (Z * list Z)) : M (option nat) :=
  match r with
  | ret (n, revents) => st_lift (if n =? 0 then ret None else
      match position_ready revents with
      | Some hit => ret (Some hit)
      | None => fail (error_new Other NoCode "poll reported readiness but no pollfd shows revents")
      end)
  | fail e => if bool_decide (os e = Errno EINTR) then again else st_lift (fail e)
  | Panic => st_lift Panic
  | OutOfFuel => st_lift OutOfFuel
  end.

Lemma asks_poll_loop fuel fds deadline : asks (poll_loop kernel host fuel fds deadline).
Proof.
  induction fuel as [|fuel IH]; [by apply (logs_pure (P := hidden_log))|].
  eapply (logs_ext (P := hidden_log)).
  - apply (logs_state (fun k w =>
      let m := poll_once kernel fds (timeout_ms deadline (now host k)) in
      poll_reply (poll_loop kernel host fuel fds deadline) (snd (m w)) (fst (m w)))).
    intros k. apply (logs_next (P := hidden_log) (poll_once kernel fds (timeout_ms deadline (now host k)))).
    + unfold poll_once. asks_go.
    + intros [[[n revents]|e]| |]; cbn [poll_reply]; asks_go.
  - intros w. cbn [poll_loop]. unfold poll_reply.
    destruct (poll_once _ _ _ w) as [w' [[[n revents]|e]| |]]; cbn [fst snd]; try done.
    + destruct (n =? 0); [done|]. by destruct (position_ready revents).
    + by destruct (bool_decide _).
Qed.
#[local] Hint Resolve asks_poll_loop : asks.

Lemma asks_poll_pids fuel pids timeout : asks (poll_pids kernel host fuel pids timeout).
Proof.
  unfold poll_pids. asks_go. destruct timeout as [t|]; [|apply asks_poll_loop].
  apply (logs_state (fun k w => if MAX_INSTANT <=? now host k + t then (w, Panic)
    else poll_loop kernel host fuel (map (fun fd => (fd, POLLIN)) a) (Some (now host k + t)) w)).
  intros k. destruct (MAX_INSTANT <=? _); [by apply (logs_pure (P := hidden_log))|apply asks_poll_loop].
Qed.

Lemma asks_resolve program : asks (resolve host program).
Proof.
  apply (logs_pure (P := hidden_log)). intros w. unfold resolve. repeat case_match; done.
Qed.
#[local] Hint Resolve asks_resolve : asks.

(** [LinuxProcess] and [LinuxPty] *)
Lemma asks_spawner_spawn cmd : asks (spawner_spawn kernel host file_fd cmd).
Proof. unfold spawner_spawn. asks_go. Qed.

Lemma asks_pty_spawn cmd size : asks (pty_spawn kernel host cmd size).
Proof. unfold pty_spawn, open_pty_pair, spawn_attached, LinuxPty.resize. asks_go. Qed.

(** [DBusTransport] *)
Lemma asks_connect_one a : asks (connect_one kernel a).
Proof.
  unfold connect_one, bus_socket, bus_err. asks_go; by apply (logs_pure (P := hidden_log)).
Qed.
#[local] Hint Resolve asks_connect_one : asks.

Lemma asks_connect_each addrs : forall last_err, asks (connect_each kernel last_err addrs).
Proof.
  induction addrs as [|a addrs IH]; intros last_err; [by apply (logs_pure (P := hidden_log))|].
  eapply (logs_ext (P := hidden_log)).
  - apply (logs_next (P := hidden_log) _ (fun r => match r with
      | fail e => connect_each kernel (Some e) addrs
      | r => st_lift r end) (asks_connect_one a)).
    intros [[fd|e]| |]; first [apply IH|apply (logs_lift (P := hidden_log))].
  - intros w. cbn [connect_each]. by destruct (connect_one kernel a w) as [w' [[fd|e]| |]].
Qed.

Lemma asks_bus env uid address : asks (connect_session kernel env uid) /\ asks (connect_to kernel address).
Proof. split; [apply asks_connect_each|]. unfold connect_to. asks_go. Qed.
End ops.

(** A kernel that answers every call with descriptor 3. *)
Definition three_kernel (c : Call) (k : unit) : unit * Ret := (k, mkRet 3 0 ONone).

(** C36: The operations of the backend that open a descriptor, those of the TUN
    device apart, ask the kernel for it with close-on-exec in the same call
    that makes it: opening a file or a directory, cloning one, memory files,
    TCP, Unix and UDP sockets and the connections they accept, the pipes of a
    spawned child, the pidfds of a wait, the master of a pseudo-terminal, the
    descriptors of a sandbox and the socket of a D-Bus connection.  This holds
    whatever the kernel answers, in every call made up to the end of the
    operation, so no window is left in which a program spawned by another
    thread inherits one.  Creating a TUN device does not. *)
Theorem descriptors_close_on_exec {K} (kernel : Call -> K -> K * Ret) (host : Host K)
    (file_fd : nat -> option Z) fuel d rel opts addr pids timeout cmd size readable writable env uid address :
  Forall asks [open_ambient kernel rel; open kernel d rel opts; open_dir kernel d rel;
               try_clone kernel d; create_memfd kernel rel;
               tcp_connect kernel addr; tcp_listen kernel addr; unix_connect kernel rel;
               unix_listen kernel rel; udp_bind kernel addr;
               connect_session kernel env uid; connect_to kernel address] /\
  asks (create_dir kernel d rel) /\ asks (read_dir kernel fuel d) /\
  asks (tcp_accept kernel d) /\ asks (unix_accept kernel d) /\
  asks (spawner_spawn kernel host file_fd cmd) /\ asks (poll_pids kernel host fuel pids timeout) /\
  asks (pty_spawn kernel host cmd size) /\ asks (confine_filesystem kernel readable writable) /\
  ~ asks (LinuxTun.create three_kernel (lit "tun0") [10; 0; 0; 1] 24 1500).
Proof.
  pose proof (asks_files kernel fuel d rel opts) as (? & ? & ? & ? & ? & ? & ?).
  pose proof (asks_sockets kernel d addr rel) as (? & ? & ? & ? & ? & ? & ?).
  pose proof (asks_bus kernel env uid address) as [? ?].
  split_and!; eauto using asks_spawner_spawn, asks_poll_pids, asks_pty_spawn, asks_confine.
  - by repeat constructor.
  - intros Hleak. destruct (Hleak (mkWorld tt [])) as (l & Hl & Hh). vm_compute in Hl. subst l. apply Forall_inv in Hh. by vm_compute in Hh.
Qed.

(** The TUN device and the socket that configures it are opened without
    close-on-exec: a program spawned while they are open inherits both. *)
Example tun_leaks :
  filter (fun c => hides c = false) (map fst (log (fst (LinuxTun.create three_kernel (lit "tun0")
    [10; 0; 0; 1] 24 1500 (mkWorld tt []))))) =
  [c_open DEV_NET_TUN O_RDWR; c_socket LinuxNet.AF_INET SOCK_DGRAM 0].
Proof. vm_compute. reflexivity. Qed.

