(* ===== verification/WinFs.v ===== *)
(** * The Windows backend: files and directories
      ([platform-windows/src/sys/errmap.rs], [nt.rs], [handle.rs],
       [fileio.rs], [util/wide.rs] and [platform-windows/src/fs.rs], default
      build, 64-bit)

    An [OsString] of Windows is a list of UTF-16 code units, unpaired
    surrogates included; [Dir] operations are [NtCreateFile] opens relative
    to a directory handle.  [RtlNtStatusToDosError] is a table of the system,
    an argument of the definitions.  A [SystemTime] is in nanoseconds from
    the Unix epoch. *)

From Stdlib Require Import ZArith Lia String.
From S2P Require Import Prelude Error Sys Fs.
From stdpp Require Import base numbers list strings gmap gmultiset.
Open Scope Z_scope.

(** ** Constants *)

Definition ERROR_FILE_NOT_FOUND := 2.
Definition ERROR_PATH_NOT_FOUND := 3.
Definition ERROR_ACCESS_DENIED := 5.
Definition ERROR_NO_MORE_FILES := 18.
Definition ERROR_SHARING_VIOLATION := 32.
Definition ERROR_FILE_EXISTS := 80.
Definition ERROR_INVALID_PARAMETER := 87.
Definition ERROR_BROKEN_PIPE := 109.
Definition ERROR_DIR_NOT_EMPTY := 145.
Definition ERROR_ALREADY_EXISTS := 183.
Definition ERROR_DIRECTORY := 267.
Definition ERROR_NOT_FOUND := 1168.
Definition ERROR_NOT_A_REPARSE_POINT := 4390.

(** [NTSTATUS] is an [i32]. *)
Definition status (bits : Z) : Z := bits - 2 ^ 32.
Definition STATUS_SUCCESS := 0.
Definition STATUS_ACCESS_DENIED := status 3221225506.            (* 0xC0000022 *)
Definition STATUS_OBJECT_NAME_INVALID := status 3221225523.      (* 0xC0000033 *)
Definition STATUS_OBJECT_NAME_NOT_FOUND := status 3221225524.    (* 0xC0000034 *)
Definition STATUS_OBJECT_NAME_COLLISION := status 3221225525.    (* 0xC0000035 *)
Definition STATUS_OBJECT_PATH_NOT_FOUND := status 3221225530.    (* 0xC000003A *)
Definition STATUS_SHARING_VIOLATION := status 3221225539.        (* 0xC0000043 *)
Definition STATUS_DELETE_PENDING := status 3221225558.           (* 0xC0000056 *)
Definition STATUS_FILE_IS_A_DIRECTORY := status 3221225658.      (* 0xC00000BA *)
Definition STATUS_DIRECTORY_NOT_EMPTY := status 3221225729.      (* 0xC0000101 *)
Definition STATUS_NOT_A_DIRECTORY := status 3221225731.          (* 0xC0000103 *)
Definition STATUS_REPARSE_POINT_ENCOUNTERED := status 3221226763. (* 0xC000050B *)

Definition FILE_LIST_DIRECTORY := 1.
Definition FILE_WRITE_DATA := 2.
Definition FILE_APPEND_DATA := 4.
Definition FILE_TRAVERSE := 32.
Definition FILE_READ_ATTRIBUTES := 128.
Definition DELETE := 65536.
Definition SYNCHRONIZE := 1048576.
Definition FILE_GENERIC_READ := 1179785.
Definition FILE_GENERIC_WRITE := 1179926.
Definition FILE_SHARE_READ := 1.
Definition FILE_SHARE_WRITE := 2.
Definition FILE_SHARE_DELETE := 4.
Definition OPEN_EXISTING := 3.
Definition FILE_FLAG_BACKUP_SEMANTICS := 33554432.
Definition FILE_ATTRIBUTE_DIRECTORY := 16.
Definition FILE_ATTRIBUTE_REPARSE_POINT := 1024.
Definition FILE_OPEN := 1.
Definition FILE_CREATE := 2.
Definition FILE_OPEN_IF := 3.
Definition FILE_OVERWRITE := 4.
Definition FILE_OVERWRITE_IF := 5.
Definition FILE_DIRECTORY_FILE := 1.
Definition FILE_SYNCHRONOUS_IO_NONALERT := 32.
Definition FILE_NON_DIRECTORY_FILE := 64.
Definition FILE_OPEN_REPARSE_POINT := 2097152.
Definition OBJ_CASE_INSENSITIVE := 64.
Definition OBJ_DONT_REPARSE := 4096.
Definition FileBasicInfo := 0.
Definition FileStandardInfo := 1.
Definition FileFullDirectoryInfo := 14.
Definition FSCTL_SET_REPARSE_POINT := 589988.
Definition FSCTL_GET_REPARSE_POINT := 589992.
Definition MAXIMUM_REPARSE_DATA_BUFFER_SIZE : nat := 128 * 128.
Definition IO_REPARSE_TAG_SYMLINK := 2684354572.
Definition SYMLINK_FLAG_RELATIVE := 1.
Definition U32_MAX := 4294967295.
Definition U16_MAX := 65535.

(** ** Error maps *)

Definition kind_of_win32 (code : Z) : ErrorKind :=
  if (code =? ERROR_FILE_NOT_FOUND) || (code =? ERROR_PATH_NOT_FOUND) || (code =? ERROR_NOT_FOUND)
  then NotFound
  else if (code =? ERROR_ACCESS_DENIED) || (code =? ERROR_SHARING_VIOLATION) then PermissionDenied
  else if (code =? ERROR_FILE_EXISTS) || (code =? ERROR_ALREADY_EXISTS) then AlreadyExists
  else if code =? ERROR_DIR_NOT_EMPTY then DirectoryNotEmpty
  else if code =? ERROR_DIRECTORY then NotADirectory
  else if (code =? ERROR_INVALID_PARAMETER) || (code =? ERROR_NOT_A_REPARSE_POINT) then InvalidInput
  else Other.

Definition kind_of_ntstatus (s : Z) : ErrorKind :=
  if (s =? STATUS_OBJECT_NAME_NOT_FOUND) || (s =? STATUS_OBJECT_PATH_NOT_FOUND) then NotFound
  else if (s =? STATUS_ACCESS_DENIED) || (s =? STATUS_SHARING_VIOLATION) || (s =? STATUS_DELETE_PENDING)
  then PermissionDenied
  else if s =? STATUS_OBJECT_NAME_COLLISION then AlreadyExists
  else if s =? STATUS_FILE_IS_A_DIRECTORY then IsADirectory
  else if s =? STATUS_NOT_A_DIRECTORY then NotADirectory
  else if s =? STATUS_DIRECTORY_NOT_EMPTY then DirectoryNotEmpty
  else if s =? STATUS_OBJECT_NAME_INVALID then InvalidInput
  else if s =? STATUS_REPARSE_POINT_ENCOUNTERED then FilesystemLoop
  else Other.

Definition path_unless_empty (e : PlatformError) (path : OsString) : PlatformError :=
  match path with [] => e | _ => with_path e path end.

Definition win32_err (code : Z) (op : string) (path : OsString) : PlatformError :=
  path_unless_empty (error_new (kind_of_win32 code) (Win32 code) op) path.

Definition hresult_err (hr : Z) (op : string) : PlatformError :=
  let facility := Z.land (Z.shiftr hr 16) 8191 in
  if (hr <? 0) && (facility =? 7) then
    let code := Z.land hr 65535 in error_new (kind_of_win32 code) (Win32 code) op
  else error_new Other (Win32 (wrap 32 hr)) op.

(** ** Wide strings *)

Definition to_wide_nul (s : OsString) : list Z := s ++ [0].
Definition to_wide_nt_component (s : OsString) : list Z := map (fun u => if u =? 47 then 92 else u) s.

(** The bytes of code units, and [chunks_exact(2)] back. *)
Definition unit_bytes (units : list Z) : list Z := concat (map (le_bytes 2) units).
Fixpoint units_of (bs : list Z) : list Z :=
  match bs with
  | a :: b :: bs => a + 256 * b :: units_of bs
  | _ => []
  end.

(** ** Pure parts of [fileio.rs] *)

Definition file_type_of_attributes (attrs : Z) : FileType :=
  if negb (Z.land attrs FILE_ATTRIBUTE_REPARSE_POINT =? 0) then FtSymlink
  else if negb (Z.land attrs FILE_ATTRIBUTE_DIRECTORY =? 0) then FtDir
  else FtFile.

Definition EPOCH_DIFF_100NS := 116444736000000000.

(** The subtraction overflows an [i64] only for a negative [filetime]. *)
Definition filetime_to_system_time (filetime : Z) : Run Z :=
  let unix_100ns := filetime - EPOCH_DIFF_100NS in
  if unix_100ns <=? - 2 ^ 63 then Panic
  else if 0 <=? unix_100ns then
    ret (unix_100ns / 10000000 * 1000000000 + unix_100ns mod 10000000 * 100)
  else
    let abs := - unix_100ns in
    ret (- (abs / 10000000 * 1000000000 + abs mod 10000000 * 100)).

(** The chain of [FILE_FULL_DIR_INFO] records in what the kernel wrote:
    next offset at 0, attributes at 56, name length in bytes at 60, name at
    68. *)
Fixpoint dir_chain (fuel : nat) (buf : list Z) (offset : nat) : Run (list (OsString * FileType)) :=
  match fuel with
  | O => OutOfFuel
  | S fuel =>
    let entry := drop offset buf in
    let name_len := Z.to_nat (le_val (field entry 60 4) / 2) in
    let name := units_of (field entry 68 (2 * name_len)) in
    let attrs := le_val (field entry 56 4) in
    let next := Z.to_nat (le_val (field entry 0 4)) in
    let here := if bool_decide (name = lit ".") || bool_decide (name = lit "..") then []
                else [(name, file_type_of_attributes attrs)] in
    if Nat.eqb next 0 then ret here
    else do! more := dir_chain fuel buf (offset + next) in ret (here ++ more)
  end.

Definition nt_substitute_name (target : list Z) : list Z * bool :=
  match target with
  | _ :: 58 :: _ => ([92; 63; 63; 92] ++ target, true)
  | 92 :: 92 :: _ => ([92; 63; 63; 92; 85; 78; 67] ++ tl target, true)
  | _ => (target, false)
  end.

(** The 64-bit layout of [FILE_RENAME_INFORMATION]: the name starts at 20,
    before the padding at the end of the structure. *)
Definition rename_information (replace : bool) (root : Z) (name : list Z) : list Z :=
  [if replace then 1 else 0] ++ zeros 7 ++ le_bytes 8 root ++ le_bytes 4 (2 * zlen name) ++ unit_bytes name.

Definition PAYLOAD : nat := 8.
Definition PATH_BUFFER : nat := 20.

(** [buf[at..at + n].copy_from_slice(bs)]. *)
Definition put (buf : list Z) (at_ : nat) (bs : list Z) : Run (list Z) :=
  if Nat.leb (at_ + length bs) (length buf) then ret (overwrite buf at_ bs) else Panic.

Fixpoint put_units (buf : list Z) (at_ : nat) (units : list Z) : Run (list Z) :=
  match units with
  | [] => ret buf
  | u :: units => do! buf := put buf at_ (le_bytes 2 u) in put_units buf (at_ + 2) units
  end.

(** The [REPARSE_DATA_BUFFER] of [symlink]; the lengths are cut to 16 bits
    before the buffer is sized, the loops write every unit. *)
Definition reparse_buffer (target : OsString) : Run (list Z) :=
  let print_name := target in
  let (substitute_name, is_absolute) := nt_substitute_name (to_wide_nt_component target) in
  let flags := if is_absolute then 0 else SYMLINK_FLAG_RELATIVE in
  let sub_bytes := wrap 16 (2 * zlen substitute_name) in
  let print_bytes := wrap 16 (2 * zlen print_name) in
  let total_len := (PATH_BUFFER + Z.to_nat sub_bytes + Z.to_nat print_bytes)%nat in
  let header := le_bytes 4 IO_REPARSE_TAG_SYMLINK ++ le_bytes 2 (wrap 16 (Z.of_nat (total_len - PAYLOAD))) ++ [0; 0]
    ++ le_bytes 2 0 ++ le_bytes 2 sub_bytes ++ le_bytes 2 sub_bytes ++ le_bytes 2 print_bytes ++ le_bytes 4 flags in
  do! buf := put (zeros total_len) 0 header in
  do! buf := put_units buf PATH_BUFFER substitute_name in
  put_units buf (PATH_BUFFER + Z.to_nat sub_bytes) print_name.

(** What [read_link] makes of the buffer ([buf], zeroed and then filled) and
    the number of bytes the kernel says it wrote. *)
Definition parse_reparse (buf : list Z) (bytes_returned : Z) (rel : OsString) : Run OsString :=
  let bad := with_path (error_new InvalidInput NoCode "read_link") rel in
  if bytes_returned <? 8 then fail bad
  else if negb (le_val (field buf 0 4) =? IO_REPARSE_TAG_SYMLINK) then fail bad
  else
    let print_name_offset := Z.to_nat (le_val (field buf (PAYLOAD + 4) 2)) in
    let print_name_length := Z.to_nat (le_val (field buf (PAYLOAD + 6) 2)) in
    let start := (PATH_BUFFER + print_name_offset)%nat in
    if Nat.ltb (length buf) (start + print_name_length) then Panic
    else ret (units_of (field buf start print_name_length)).

Definition open_params (o : OpenOptions) : Result (Z * Z) :=
  let access := SYNCHRONIZE in
  let access := if o_read o then Z.lor access FILE_GENERIC_READ else access in
  let access := if o_append o
                then Z.lor access (Z.lor (Z.land FILE_GENERIC_WRITE (U32_MAX - FILE_WRITE_DATA)) FILE_APPEND_DATA)
                else if o_write o then Z.lor access FILE_GENERIC_WRITE else access in
  if negb (o_read o) && negb (o_write o) && negb (o_append o)
  then Err (error_new InvalidInput NoCode "open")
  else
    let disposition := match o_create_new o, o_create o, o_truncate o with
                       | true, _, _ => FILE_CREATE
                       | false, true, true => FILE_OVERWRITE_IF
                       | false, true, false => FILE_OPEN_IF
                       | false, false, true => FILE_OVERWRITE
                       | false, false, false => FILE_OPEN
                       end in
    Ok (access, disposition).

Section windows.
Context {K : Type} (kernel : Call -> K -> K * Ret) (RtlNtStatusToDosError : Z -> Z).
Abbreviation M A := (World K -> World K * Run A).
Abbreviation sys c := (syscall kernel c).

(** [last_win32_err]: [GetLastError] now. *)
Definition last_win32_err {A} (op : string) (path : OsString) : M A := fun w =>
  (w, fail (win32_err (errno w) op path)).

Definition nt_err (s : Z) (op : string) (path : OsString) : PlatformError :=
  path_unless_empty (error_new (kind_of_ntstatus s) (Win32 (RtlNtStatusToDosError s)) op) path.

(** A [BOOL] call. *)
Definition win_call (c : Call) (op : string) (path : OsString) : M Ret :=
  st! r := sys c in
  if rv r =? 0 then last_win32_err op path else st_lift (ret r).

(** ** [nt.rs] *)

Definition open_relative_attrs (root : Z) (rel : OsString) (access disposition options attributes : Z) : M Z :=
  let wide := to_wide_nt_component rel in
  if U16_MAX <? 2 * zlen wide
  then st_lift (fail (with_path (error_new InvalidInput NoCode "NtCreateFile") rel))
  else
    st! r := sys (w_nt_create_file root wide access attributes disposition options) in
    if negb (rv r =? STATUS_SUCCESS) then st_lift (fail (nt_err (rv r) "NtCreateFile" rel))
    else if valid_handle (out_int r) then st_lift (ret (out_int r))
    else st_lift (fail (with_path (error_new Other NoCode "NtCreateFile") rel)).

Definition open_relative (root : Z) (rel : OsString) (access disposition options : Z) : M Z :=
  open_relative_attrs root rel access disposition options OBJ_CASE_INSENSITIVE.

Definition open_relative_r2 (root : Z) (rel : OsString) (access disposition options : Z) : M Z :=
  open_relative_attrs root rel access disposition options (Z.lor OBJ_CASE_INSENSITIVE OBJ_DONT_REPARSE).

(** ** [handle.rs] and [fileio.rs] *)

Definition duplicate (h : Z) (inheritable : bool) : M Z :=
  st! r := win_call (w_duplicate_handle h inheritable) "DuplicateHandle" [] in
  if valid_handle (out_int r) then st_lift (ret (out_int r)) else last_win32_err "DuplicateHandle" [].

Definition open_ambient_dir (path : OsString) : M Z :=
  st! r := sys (w_create_file (to_wide_nul path)
    (Z.lor (Z.lor (Z.lor FILE_LIST_DIRECTORY FILE_READ_ATTRIBUTES) FILE_TRAVERSE) SYNCHRONIZE)
    (Z.lor (Z.lor FILE_SHARE_READ FILE_SHARE_WRITE) FILE_SHARE_DELETE)
    false OPEN_EXISTING FILE_FLAG_BACKUP_SEMANTICS) in
  if valid_handle (rv r) then st_lift (ret (rv r)) else last_win32_err "CreateFileW" path.

Definition read (h n : Z) : M (list Z) :=
  let len := Z.min n U32_MAX in
  st! r := sys (w_read_file h len) in
  if rv r =? 0 then fun w =>
    if errno w =? ERROR_BROKEN_PIPE then (w, ret []) else last_win32_err "ReadFile" [] w
  else st_lift (ret (out_bytes r)).

Definition write (h : Z) (buf : list Z) : M Z :=
  let len := Z.min (zlen buf) U32_MAX in
  st! r := win_call (w_write_file h (take (Z.to_nat len) buf)) "WriteFile" [] in
  st_lift (ret (wrap 32 (out_int r))).

(** [EndOfFile] and [NumberOfLinks]. *)
Definition file_standard_info (h : Z) (path : OsString) : M (Z * Z) :=
  st! r := win_call (w_get_file_info_ex h FileStandardInfo) "GetFileInformationByHandleEx" path in
  st_lift (ret (wrap 64 (nth 0 (out_ints r) 0), nth 1 (out_ints r) 0)).

(** [FileBasicInfo]: the attributes and [LastWriteTime]. *)
Definition metadata_by_handle (h : Z) (path : OsString) : M Metadata :=
  st! r := win_call (w_get_file_info_ex h FileBasicInfo) "GetFileInformationByHandleEx" path in
  let file_type := file_type_of_attributes (nth 0 (out_ints r) 0) in
  st! (raw_len, nlink) := file_standard_info h path in
  let len := if bool_decide (file_type = FtDir) then 0 else raw_len in
  st! modified := st_lift (filetime_to_system_time (nth 1 (out_ints r) 0)) in
  st_lift (ret (mkMetadata file_type len nlink modified)).

(** The serial number and the two halves of the index. *)
Definition file_id_by_handle (h : Z) (path : OsString) : M FileId :=
  st! r := win_call (w_get_file_info h) "GetFileInformationByHandle" path in
  st_lift (ret (mkFileId (nth 0 (out_ints r) 0)
    (Z.lor (Z.shiftl (nth 1 (out_ints r) 0) 32) (nth 2 (out_ints r) 0)))).

Fixpoint read_dir_entries (fuel : nat) (h : Z) (acc : list (OsString * FileType)) : M (list (OsString * FileType)) :=
  match fuel with
  | O => st_lift OutOfFuel
  | S fuel =>
    st! r := sys (w_get_file_info_ex h FileFullDirectoryInfo) in
    if rv r =? 0 then fun w =>
      if errno w =? ERROR_NO_MORE_FILES then (w, ret acc)
      else last_win32_err "GetFileInformationByHandleEx" [] w
    else
      st! here := st_lift (dir_chain (S (length (out_bytes r))) (out_bytes r) 0) in
      read_dir_entries fuel h (acc ++ here)
  end.

Definition mark_delete (h : Z) (path : OsString) : M unit :=
  st! _ := win_call (w_set_disposition h 1) "SetFileInformationByHandle" path in st_lift (ret tt).

Definition sync_all (h : Z) : M unit :=
  st! _ := win_call (w_flush_file_buffers h) "FlushFileBuffers" [] in st_lift (ret tt).

(** [or_else(|_| ..)]: any error of the first open leads to the second. *)
Definition open_for_rename (dir : Z) (from : OsString) : M Z := fun w =>
  match open_relative dir from (Z.lor DELETE SYNCHRONIZE) FILE_OPEN
          (Z.lor FILE_NON_DIRECTORY_FILE FILE_SYNCHRONOUS_IO_NONALERT) w with
  | (w, fail _) => open_relative dir from (Z.lor DELETE SYNCHRONIZE) FILE_OPEN
                     (Z.lor FILE_DIRECTORY_FILE FILE_SYNCHRONOUS_IO_NONALERT) w
  | other => other
  end.

Definition rename_at (dir : Z) (from to : OsString) (replace : bool) : M unit :=
  st! handle := open_for_rename dir from in
  scoped kernel handle
    (st! r := sys (w_nt_set_rename handle (rename_information replace dir (to_wide_nt_component to))) in
     if negb (rv r =? STATUS_SUCCESS) then st_lift (fail (nt_err (rv r) "NtSetInformationFile" to))
     else st_lift (ret tt)).

Definition symlink_at (dir : Z) (link_name target : OsString) (is_dir : bool) : M unit :=
  st! handle := open_relative dir link_name (Z.lor FILE_GENERIC_WRITE SYNCHRONIZE) FILE_CREATE
    (Z.lor (Z.lor (if is_dir then FILE_DIRECTORY_FILE else FILE_NON_DIRECTORY_FILE)
                  FILE_SYNCHRONOUS_IO_NONALERT) FILE_OPEN_REPARSE_POINT) in
  scoped kernel handle
    (st! buf := st_lift (reparse_buffer target) in
     st! _ := win_call (w_device_io_control handle FSCTL_SET_REPARSE_POINT buf 0) "DeviceIoControl" link_name in
     st_lift (ret tt)).

Definition read_link (dir : Z) (rel : OsString) : M OsString :=
  st! handle := open_relative dir rel (Z.lor FILE_READ_ATTRIBUTES SYNCHRONIZE) FILE_OPEN
    (Z.lor FILE_SYNCHRONOUS_IO_NONALERT FILE_OPEN_REPARSE_POINT) in
  scoped kernel handle
    (st! r := win_call (w_device_io_control handle FSCTL_GET_REPARSE_POINT []
                (Z.of_nat MAXIMUM_REPARSE_DATA_BUFFER_SIZE)) "DeviceIoControl" rel in
     st_lift (parse_reparse (written MAXIMUM_REPARSE_DATA_BUFFER_SIZE (out_bytes r)) (zlen (out_bytes r)) rel)).

(** ** [fs.rs] *)

Definition open (d : Z) (rel : OsString) (opts : OpenOptions) : M Z :=
  st! (access, disposition) := st_lift (Done (open_params opts)) in
  open_relative d rel access disposition (Z.lor FILE_NON_DIRECTORY_FILE FILE_SYNCHRONOUS_IO_NONALERT).

Definition open_dir (d : Z) (rel : OsString) : M Z :=
  open_relative_r2 d rel (Z.lor (Z.lor (Z.lor FILE_LIST_DIRECTORY FILE_READ_ATTRIBUTES) FILE_TRAVERSE) SYNCHRONIZE)
    FILE_OPEN (Z.lor FILE_DIRECTORY_FILE FILE_SYNCHRONOUS_IO_NONALERT).

Definition create_dir (d : Z) (rel : OsString) : M unit :=
  st! handle := open_relative_r2 d rel (Z.lor FILE_LIST_DIRECTORY SYNCHRONIZE) FILE_CREATE
    (Z.lor FILE_DIRECTORY_FILE FILE_SYNCHRONOUS_IO_NONALERT) in
  scoped kernel handle (st_lift (ret tt)).

(** The attributes-only open that does not follow a link. *)
Definition open_attributes (d : Z) (rel : OsString) : M Z :=
  open_relative d rel (Z.lor FILE_READ_ATTRIBUTES SYNCHRONIZE) FILE_OPEN
    (Z.lor FILE_SYNCHRONOUS_IO_NONALERT FILE_OPEN_REPARSE_POINT).

Definition metadata (d : Z) (rel : OsString) : M Metadata :=
  st! handle := open_attributes d rel in scoped kernel handle (metadata_by_handle handle rel).

Definition dir_access (d : Z) (rel : OsString) (mode : AccessMode) : M unit :=
  if negb (a_read mode || a_write mode || a_execute mode) then st_lift (ret tt)
  else
    let mask := Z.lor SYNCHRONIZE FILE_READ_ATTRIBUTES in
    let mask := if a_read mode then Z.lor mask FILE_GENERIC_READ else mask in
    let mask := if a_write mode then Z.lor mask FILE_GENERIC_WRITE else mask in
    st! handle := open_relative d rel mask FILE_OPEN FILE_SYNCHRONOUS_IO_NONALERT in
    scoped kernel handle (st_lift (ret tt)).

Definition unix_mode (d : Z) (rel : OsString) : M (option UnixMode) := st_lift (ret None).
Definition set_unix_mode (d : Z) (rel : OsString) (mode : Mode) : M unit :=
  st_lift (fail (error_new Unsupported NoCode "set_unix_mode")).

Definition file_id (d : Z) (rel : OsString) : M FileId :=
  st! handle := open_attributes d rel in scoped kernel handle (file_id_by_handle handle rel).

Definition read_dir (fuel : nat) (d : Z) : M (list DirEntry) :=
  st! handle := open_relative d [] (Z.lor FILE_LIST_DIRECTORY SYNCHRONIZE) FILE_OPEN
    (Z.lor FILE_DIRECTORY_FILE FILE_SYNCHRONOUS_IO_NONALERT) in
  scoped kernel handle
    (st! es := read_dir_entries fuel handle [] in
     st_lift (ret (map (fun e => mkDirEntry (fst e) (snd e)) es))).

(** Deletion completes when the handle is closed. *)
Definition remove (kind_option : Z) (d : Z) (rel : OsString) : M unit :=
  st! handle := open_relative d rel (Z.lor DELETE SYNCHRONIZE) FILE_OPEN
    (Z.lor (Z.lor kind_option FILE_SYNCHRONOUS_IO_NONALERT) FILE_OPEN_REPARSE_POINT) in
  scoped kernel handle (mark_delete handle rel).
Definition remove_file := remove FILE_NON_DIRECTORY_FILE.
Definition remove_dir := remove FILE_DIRECTORY_FILE.

(** The kind of link is that of an existing target under the same handle. *)
Definition symlink (d : Z) (target link_name : OsString) : M unit := fun w =>
  let (w, r) := metadata d target w in
  match r with
  | Panic => (w, Panic)
  | OutOfFuel => (w, OutOfFuel)
  | Done m => symlink_at d link_name target
                (match m with Ok m => bool_decide (file_type m = FtDir) | Err _ => false end) w
  end.

Definition rename (d : Z) (from to : OsString) : M unit := rename_at d from to true.
Definition rename_no_replace (d : Z) (from to : OsString) : M unit := rename_at d from to false.

Definition flush (f : Z) : M unit := st_lift (ret tt).
Definition try_clone (f : Z) : M Z := duplicate f false.
Definition create_memfd (name : str) : M Z := st_lift (fail (error_new Unsupported NoCode "create_memfd")).

Definition windows_fs (fuel : nat) : FsBackend (World K) Z Z := {|
  open_ := open;
  read_ := read;
  write_ := write;
  sync_all_ := sync_all;
  drop_file_ := drop_fd kernel;
  remove_file_ := remove_file;
  rename_ := rename;
  sync_dir_ _ := st_lift (ret tt);
  read_dir_ := read_dir fuel;
  metadata_ := metadata;
  unix_mode_ := unix_mode;
  read_link_ := read_link;
|}.
End windows.

(** ** Handles: each one opened is returned or closed once *)

Lemma handles_one x : handles [x] = if valid_handle x then [x] else [].
Proof. unfold handles. cbn. by destruct (valid_handle x). Qed.

Section ownership.
Context {K : Type} (kernel : Call -> K -> K * Ret) (dos : Z -> Z).
Implicit Types h : gmultiset Z.

Lemma owns_last_win32_err {A} h op path (Q : A -> _) : owns (K := K) h (last_win32_err op path) Q h.
Proof. intros w w' r [= <- <-]. exists []. by rewrite app_nil_r. Qed.
Hint Resolve owns_last_win32_err : owns.

Lemma owns_win_call h c op path : released c = None -> (forall r, acquired (c, r) = []) ->
  owns h (win_call kernel c op path) (fun _ => h) h.
Proof.
  intros Hc Ha. unfold win_call. eapply owns_bind; [by apply owns_neutral|]. intros. owns_go.
Qed.
Hint Extern 2 (owns _ (win_call _ _ _ _) _ _) => apply owns_win_call; [reflexivity|reflexivity] : owns.

Lemma owns_open_relative_attrs h root rel access disposition options attributes :
  owns h (open_relative_attrs kernel dos root rel access disposition options attributes)
    (fun fd => {[+ fd +]} ⊎ h) h.
Proof.
  unfold open_relative_attrs. destruct (U16_MAX <? _); [apply owns_fail|].
  eapply owns_bind; [by apply owns_syscall|]. intros r. cbv beta. cbn [acquired fst snd].
  change STATUS_SUCCESS with 0. destruct (rv r =? 0); cbn [negb]; rewrite ?handles_one.
  - destruct (valid_handle (out_int r)).
    + apply owns_ret. by rewrite list_to_set_disj_cons, list_to_set_disj_nil, (right_id_L ∅ (⊎)), (comm_L (⊎)).
    + rewrite list_to_set_disj_nil, (right_id_L ∅ (⊎)). apply owns_fail.
  - rewrite list_to_set_disj_nil, (right_id_L ∅ (⊎)). apply owns_fail.
Qed.

Lemma owns_open_relative h root rel access disposition options :
  owns h (open_relative kernel dos root rel access disposition options) (fun fd => {[+ fd +]} ⊎ h) h.
Proof. apply owns_open_relative_attrs. Qed.
Lemma owns_open_relative_r2 h root rel access disposition options :
  owns h (open_relative_r2 kernel dos root rel access disposition options) (fun fd => {[+ fd +]} ⊎ h) h.
Proof. apply owns_open_relative_attrs. Qed.
Lemma owns_open_attributes h d rel :
  owns h (open_attributes kernel dos d rel) (fun fd => {[+ fd +]} ⊎ h) h.
Proof. apply owns_open_relative_attrs. Qed.
Hint Resolve owns_open_relative owns_open_relative_r2 owns_open_attributes : owns.

Lemma owns_duplicate h fd b : owns h (duplicate kernel fd b) (fun fd' => {[+ fd' +]} ⊎ h) h.
Proof.
  unfold duplicate, win_call. intros w w' r. unfold st_bind, syscall.
  destruct (kernel _ (state w)) as [k1 r1]. destruct (rv r1 =? 0) eqn:E1; unfold last_win32_err, st_lift;
    [|destruct (valid_handle (out_int r1)) eqn:E2]; intros [= <- <-];
    (eexists; split; [reflexivity|]); intros _; cbn; unfold replay1; cbn [fst released];
    cbn [acquired fst snd]; rewrite E1, ?handles_one, ?E2, ?list_to_set_disj_cons, list_to_set_disj_nil.
  - by rewrite (right_id_L ∅ (⊎)).
  - by rewrite (right_id_L ∅ (⊎)), (comm_L (⊎)).
  - by rewrite (right_id_L ∅ (⊎)).
Qed.

Lemma owns_open_ambient_dir h path : owns h (open_ambient_dir kernel path) (fun fd => {[+ fd +]} ⊎ h) h.
Proof.
  unfold open_ambient_dir. eapply owns_bind; [by apply owns_syscall|]. intros r. cbv beta. cbn [acquired fst snd].
  rewrite handles_one. destruct (valid_handle (rv r)).
  - apply owns_ret. by rewrite list_to_set_disj_cons, list_to_set_disj_nil, (right_id_L ∅ (⊎)), (comm_L (⊎)).
  - rewrite list_to_set_disj_nil, (right_id_L ∅ (⊎)). apply owns_last_win32_err.
Qed.

Lemma win_owns_read h fd n : owns h (read kernel fd n) (fun _ => h) h.
Proof. unfold read. owns_go. intros w. apply (owns_errno h (st_lift (ret []))); owns_go. Qed.
Lemma win_owns_write h fd bs : owns h (write kernel fd bs) (fun _ => h) h.
Proof. unfold write. owns_go. Qed.
Lemma owns_sync_all h fd : owns h (sync_all kernel fd) (fun _ => h) h.
Proof. unfold sync_all. owns_go. Qed.
Lemma owns_mark_delete h fd path : owns h (mark_delete kernel fd path) (fun _ => h) h.
Proof. unfold mark_delete. owns_go. Qed.
Hint Resolve owns_duplicate win_owns_read win_owns_write owns_sync_all owns_mark_delete : owns.

Lemma owns_metadata_by_handle h fd path : owns h (metadata_by_handle kernel fd path) (fun _ => h) h.
Proof.
  unfold metadata_by_handle. eapply owns_bind; [eauto with owns|]. intros r. cbv beta zeta.
  eapply (owns_bind _ _ _ (fun _ => h)); [unfold file_standard_info; owns_go|].
  intros [len nlink]. owns_go.
Qed.
Lemma owns_file_id_by_handle h fd path : owns h (file_id_by_handle kernel fd path) (fun _ => h) h.
Proof. unfold file_id_by_handle. owns_go. Qed.
Hint Resolve owns_metadata_by_handle owns_file_id_by_handle : owns.

Lemma owns_read_dir_entries h fuel fd : forall acc,
  owns h (read_dir_entries kernel fuel fd acc) (fun _ => h) h.
Proof.
  induction fuel as [|fuel IH]; intros acc; cbn [read_dir_entries]; [by apply owns_pure|]. owns_go.
  intros w. apply (owns_errno h (st_lift (ret acc))); owns_go.
Qed.
Hint Resolve owns_read_dir_entries : owns.

Lemma owns_open_for_rename h d from : owns h (open_for_rename kernel dos d from) (fun fd => {[+ fd +]} ⊎ h) h.
Proof.
  intros w w' r. unfold open_for_rename.
  match goal with |- context [open_relative ?k ?dd ?a ?b ?c ?e ?f w] =>
    destruct (open_relative k dd a b c e f w) as [w1 r1] eqn:E1 end.
  destruct (owns_open_relative h _ _ _ _ _ _ _ _ E1) as (l1 & Hl1 & H1).
  destruct r1 as [[fd|e]| |].
  2: { intros E2. destruct (owns_open_relative h _ _ _ _ _ _ _ _ E2) as (l2 & Hl2 & H2).
       exists (l1 ++ l2). rewrite Hl2, Hl1, app_assoc. split; [done|]. intros Hr.
       rewrite replay_app, H1 by done. by apply H2. }
  all: intros [= <- <-]; exists l1; split; [done|]; intros Hr; by rewrite H1.
Qed.
Hint Resolve owns_open_for_rename : owns.

Lemma owns_rename_at h d from to b : owns h (rename_at kernel dos d from to b) (fun _ => h) h.
Proof. unfold rename_at. owns_go. Qed.
Lemma owns_symlink_at h d l t b : owns h (symlink_at kernel dos d l t b) (fun _ => h) h.
Proof. unfold symlink_at. owns_go. Qed.
Lemma win_owns_read_link h d rel : owns h (read_link kernel dos d rel) (fun _ => h) h.
Proof. unfold read_link. owns_go. Qed.
Hint Resolve owns_rename_at owns_symlink_at win_owns_read_link : owns.

Lemma win_owns_open h d rel o : owns h (open kernel dos d rel o) (fun fd => {[+ fd +]} ⊎ h) h.
Proof. unfold open. destruct (open_params o) as [[a b]|e]; owns_go. Qed.
Lemma owns_open_dir h d rel : owns h (open_dir kernel dos d rel) (fun fd => {[+ fd +]} ⊎ h) h.
Proof. unfold open_dir. owns_go. Qed.
Lemma win_owns_create_dir h d rel : owns h (create_dir kernel dos d rel) (fun _ => h) h.
Proof. unfold create_dir. owns_go. Qed.
Lemma win_owns_metadata h d rel : owns h (metadata kernel dos d rel) (fun _ => h) h.
Proof. unfold metadata. owns_go. Qed.
Lemma owns_access h d rel m : owns h (dir_access kernel dos d rel m) (fun _ => h) h.
Proof. unfold dir_access. owns_go. Qed.
Lemma owns_file_id h d rel : owns h (file_id kernel dos d rel) (fun _ => h) h.
Proof. unfold file_id. owns_go. Qed.
Lemma win_owns_read_dir h fuel d : owns h (read_dir kernel dos fuel d) (fun _ => h) h.
Proof. unfold read_dir. owns_go. Qed.
Lemma owns_remove h o d rel : owns h (remove kernel dos o d rel) (fun _ => h) h.
Proof. unfold remove. owns_go. Qed.
Hint Resolve win_owns_open owns_open_dir win_owns_create_dir win_owns_metadata owns_access owns_file_id win_owns_read_dir
  owns_remove : owns.

Lemma win_owns_symlink h d t l : owns h (symlink kernel dos d t l) (fun _ => h) h.
Proof.
  intros w w' r. unfold symlink. destruct (metadata kernel dos d t w) as [w1 r1] eqn:E1.
  destruct (win_owns_metadata h _ _ _ _ _ E1) as (l1 & Hl1 & H1). destruct r1 as [m| |].
  { intros E2. destruct (owns_symlink_at h _ _ _ _ _ _ _ E2) as (l2 & Hl2 & H2).
    exists (l1 ++ l2). rewrite Hl2, Hl1, app_assoc. split; [done|]. intros Hr.
    rewrite replay_app, H1 by done. destruct m; by apply H2. }
  all: intros [= <- <-]; exists l1; split; [done|]; intros Hr; by rewrite H1.
Qed.

Lemma remove_returns o d rel (w : World K) : snd (remove kernel dos o d rel w) <> OutOfFuel.
Proof.
  unfold remove, open_relative, open_relative_attrs, st_bind, st_lift, scoped, mark_delete, win_call, st_bind,
    syscall, last_win32_err. destruct (U16_MAX <? _); [done|].
  destruct (kernel _ (state w)) as [k r]. destruct (negb _); [done|]. destruct (valid_handle _); [|done].
  destruct (kernel _ (state _)) as [k2 r2]. by destruct (rv r2 =? 0).
Qed.

Lemma win_owns_write_atomic h fuel d rel contents pid n :
  owns h (write_atomic (B := windows_fs kernel dos fuel) d rel contents pid n) (fun _ => h) h.
Proof.
  assert (forall g fuel' tmp f bs,
    owns g (write_loop (B := windows_fs kernel dos fuel) fuel' tmp f bs) (fun _ => g) g) as Hl.
  { intros g. induction fuel' as [|fuel' IH]; intros tmp f bs; cbn [write_loop]; owns_go. }
  unfold write_atomic. cbv zeta. apply owns_cleanup with (Q := fun _ => h).
  - apply (owns_bind _ _ _ (fun fd => {[+ fd +]} ⊎ h)); [apply win_owns_open|]. intros fd.
    apply owns_closing. eapply owns_bind; [apply Hl|]. intros u. apply owns_sync_all.
  - apply owns_remove.
  - intros w. apply remove_returns.
  - intros u. eapply owns_bind; [apply owns_rename_at|]. intros u'. apply owns_pure.
Qed.
End ownership.

(** ** The layouts read back *)

Lemma units_of_unit_bytes units : Forall (in_u 16) units -> units_of (unit_bytes units) = units.
Proof.
  induction 1 as [|u units Hu _ IH]; [done|]. unfold unit_bytes in *. cbn [map concat le_bytes app units_of].
  f_equal; [|exact IH]. unfold in_u in Hu. change (2 ^ 16) with 65536 in Hu.
  rewrite (Z.mod_small (u / 256)); [|split; [apply Z.div_pos; lia|apply Z.div_lt_upper_bound; lia]].
  pose proof (Z.div_mod u 256). lia.
Qed.

Lemma length_unit_bytes units : length (unit_bytes units) = (2 * length units)%nat.
Proof.
  induction units as [|u units IH]; [done|]. unfold unit_bytes in *. cbn [map concat].
  rewrite length_app, IH, length_le_bytes. cbn. lia.
Qed.

(** The number at a known place of a layout. *)
Lemma field_num n x (a c : list Z) : in_u (8 * Z.of_nat n) x ->
  le_val (field (a ++ le_bytes n x ++ c) (length a) n) = x.
Proof.
  intros Hx. rewrite <- (length_le_bytes n x) at 2. by rewrite field_app, le_val_bytes.
Qed.

Lemma put_at pre old post bs : length old = length bs ->
  put (pre ++ old ++ post) (length pre) bs = ret (pre ++ bs ++ post).
Proof.
  intros H. unfold put. rewrite !length_app, H.
  rewrite (proj2 (Nat.leb_le _ _)) by lia. rewrite overwrite_at by (rewrite length_app; lia).
  by rewrite <- H, drop_app_length, <- app_assoc.
Qed.

Lemma put_units_at units : forall pre old post, length old = (2 * length units)%nat ->
  put_units (pre ++ old ++ post) (length pre) units = ret (pre ++ unit_bytes units ++ post).
Proof.
  induction units as [|u units IH]; intros pre old post H; cbn [put_units].
  - by destruct old.
  - destruct old as [|a [|b old]]; [cbn in H; lia..|]. change ((a :: b :: old) ++ post) with ([a; b] ++ (old ++ post)).
    rewrite put_at by done.
    replace (length pre + 2)%nat with (length (pre ++ le_bytes 2 u)) by (rewrite length_app; done).
    rewrite app_assoc. rewrite (IH (pre ++ le_bytes 2 u)); [|cbn in *; lia].
    unfold unit_bytes. cbn [map concat]. by rewrite <- !app_assoc.
Qed.

(** What [symlink] hands to the file system for [target]. *)
Definition reparse_header (sub_bytes print_bytes flags : Z) : list Z :=
  le_bytes 4 IO_REPARSE_TAG_SYMLINK ++ le_bytes 2 (wrap 16 (12 + sub_bytes + print_bytes)) ++ [0; 0]
    ++ le_bytes 2 0 ++ le_bytes 2 sub_bytes ++ le_bytes 2 sub_bytes ++ le_bytes 2 print_bytes ++ le_bytes 4 flags.

Lemma reparse_buffer_layout target sub abs :
  nt_substitute_name (to_wide_nt_component target) = (sub, abs) ->
  2 * zlen sub <= U16_MAX -> 2 * zlen target <= U16_MAX ->
  reparse_buffer target = ret (reparse_header (2 * zlen sub) (2 * zlen target)
    (if abs : bool then 0 else SYMLINK_FLAG_RELATIVE) ++ unit_bytes sub ++ unit_bytes target).
Proof.
  intros Hsub Hs Ht. unfold reparse_buffer. rewrite Hsub. cbv zeta. unfold U16_MAX in *.
  rewrite !(wrap_small 16 (2 * _)) by (unfold in_u; change (2 ^ 16) with 65536; lia).
  replace (Z.of_nat (PATH_BUFFER + Z.to_nat (2 * zlen sub) + Z.to_nat (2 * zlen target) - PAYLOAD))
    with (12 + 2 * zlen sub + 2 * zlen target) by (unfold PATH_BUFFER, PAYLOAD; lia).
  change (le_bytes 4 _ ++ le_bytes 2 (wrap 16 _) ++ _) with (reparse_header (2 * zlen sub) (2 * zlen target)
    (if abs then 0 else SYMLINK_FLAG_RELATIVE)).
  set (header := reparse_header _ _ _). assert (length header = 20%nat) as Hh by done.
  set (n := Z.to_nat (2 * zlen sub)). set (m := Z.to_nat (2 * zlen target)).
  replace (zeros (PATH_BUFFER + n + m)) with ([] ++ zeros 20 ++ (zeros n ++ zeros m))
    by (unfold zeros, PATH_BUFFER; by rewrite !replicate_add).
  change 0%nat with (length (@nil Z)) at 2. rewrite put_at by done. cbn [app].
  unfold PATH_BUFFER. rewrite <- Hh. rewrite put_units_at by (unfold zeros; rewrite length_replicate; lia).
  replace (length header + n)%nat with (length (header ++ unit_bytes sub))
    by (rewrite length_app, length_unit_bytes; lia).
  rewrite app_assoc. rewrite <- (app_nil_r (zeros m)).
  rewrite put_units_at by (unfold zeros; rewrite length_replicate; lia).
  by rewrite app_nil_r, <- app_assoc.
Qed.

(** C14: a link target survives the reparse point: for a target whose two
    copies fit the 16 KiB of a reparse buffer, [symlink] builds a buffer
    whose tag, lengths and flag are those of a symbolic link (relative or
    absolute), whose substitute name is the NT form of the target with
    backslashes, and from which [read_link] returns the target unit for unit,
    slashes included. *)
Theorem symlink_roundtrip target rel (sub := fst (nt_substitute_name (to_wide_nt_component target)))
    (abs := snd (nt_substitute_name (to_wide_nt_component target)))
    (Hu : Forall (in_u 16) target)
    (Hfit : 20 + 2 * zlen sub + 2 * zlen target <= Z.of_nat MAXIMUM_REPARSE_DATA_BUFFER_SIZE) :
  exists buf, reparse_buffer target = ret buf /\
  parse_reparse (written MAXIMUM_REPARSE_DATA_BUFFER_SIZE buf) (zlen buf) rel = ret target /\
  zlen buf = 20 + 2 * zlen sub + 2 * zlen target /\
  le_val (field buf 0 4) = IO_REPARSE_TAG_SYMLINK /\ le_val (field buf 4 2) = zlen buf - 8 /\
  field buf (20 + Z.to_nat (le_val (field buf 8 2))) (Z.to_nat (le_val (field buf 10 2))) = unit_bytes sub /\
  le_val (field buf 16 4) = if abs then 0 else SYMLINK_FLAG_RELATIVE.
Proof.
  assert (Z.of_nat MAXIMUM_REPARSE_DATA_BUFFER_SIZE = 16384) as HM by reflexivity. rewrite HM in Hfit.
  pose proof (reparse_buffer_layout target sub abs) as E.
  rewrite E by first [by unfold sub, abs; destruct (nt_substitute_name _)|unfold U16_MAX; lia]. clear E.
  set (header := reparse_header _ _ _). eexists. split; [reflexivity|].
  assert (zlen (header ++ unit_bytes sub ++ unit_bytes target) = 20 + 2 * zlen sub + 2 * zlen target) as Hlen.
  { rewrite !length_app, !length_unit_bytes. change (length header) with 20%nat. lia. }
  assert (forall x, 0 <= x <= 16384 -> le_val (le_bytes 2 x) = x) as Hv.
  { intros x Hx. apply le_val_bytes. unfold in_u. change (2 ^ _) with 65536. lia. }
  split_and!.
  - rewrite written_app by lia. set (z := zeros _). unfold parse_reparse. rewrite Hlen.
    rewrite (proj2 (Z.ltb_ge _ _)) by lia. rewrite <- app_assoc.
    change (le_val (field (header ++ _) 0 4)) with IO_REPARSE_TAG_SYMLINK. rewrite Z.eqb_refl. cbn [negb].
    change (field (header ++ _) (PAYLOAD + 4) 2) with (le_bytes 2 (2 * zlen sub)).
    change (field (header ++ _) (PAYLOAD + 6) 2) with (le_bytes 2 (2 * zlen target)).
    rewrite !Hv by lia. cbv zeta.
    replace (PATH_BUFFER + Z.to_nat (2 * zlen sub))%nat with (length (header ++ unit_bytes sub))
      by (rewrite length_app, length_unit_bytes; change (length header) with 20%nat; unfold PATH_BUFFER; lia).
    replace (Z.to_nat (2 * zlen target)) with (length (unit_bytes target)) by (rewrite length_unit_bytes; lia).
    rewrite (proj2 (Nat.ltb_ge _ _)) by (rewrite !length_app; lia).
    rewrite <- app_assoc, (app_assoc header). by rewrite field_app, units_of_unit_bytes.
  - done.
  - reflexivity.
  - change (field (header ++ _) 4 2) with (le_bytes 2 (wrap 16 (12 + 2 * zlen sub + 2 * zlen target))).
    rewrite wrap_small by (unfold in_u; change (2 ^ 16) with 65536; lia). rewrite Hv, Hlen by lia. lia.
  - change (field (header ++ _) 8 2) with (le_bytes 2 0). change (field (header ++ _) 10 2) with (le_bytes 2 (2 * zlen sub)).
    rewrite !Hv by lia. change (20 + Z.to_nat 0)%nat with (length header).
    replace (Z.to_nat (2 * zlen sub)) with (length (unit_bytes sub)) by (rewrite length_unit_bytes; lia).
    apply field_app.
  - change (field (header ++ _) 16 4) with (le_bytes 4 (if abs then 0 else SYMLINK_FLAG_RELATIVE)).
    by destruct abs.
Qed.

Lemma symlink_roundtrip_witness :
  exists buf, reparse_buffer (lit "C:/dir") = ret buf /\
  parse_reparse (written MAXIMUM_REPARSE_DATA_BUFFER_SIZE buf) (zlen buf) (lit "l") = ret (lit "C:/dir") /\
  zlen buf = 20 + 2 * 10 + 2 * 6 /\
  le_val (field buf 0 4) = IO_REPARSE_TAG_SYMLINK /\ le_val (field buf 4 2) = zlen buf - 8 /\
  field buf (20 + Z.to_nat (le_val (field buf 8 2))) (Z.to_nat (le_val (field buf 10 2))) =
    unit_bytes (lit "\??\C:\dir") /\
  le_val (field buf 16 4) = 0.
Proof.
  apply (symlink_roundtrip (lit "C:/dir") (lit "l")).
  - apply (bool_decide_unpack _). vm_compute. reflexivity.
  - vm_compute. discriminate.
Defined.

(** The lengths wrap at 32768 units; the buffer is then too short for the
    loop that fills it. *)
Example symlink_long_target_panics : reparse_buffer (replicate (Z.to_nat 32768) 97) = Panic.
Proof. vm_compute. reflexivity. Qed.

(** ** Listing a directory *)

(** The documented layout of a chain of records, with whatever bytes stand
    for the times, the sizes and the padding. *)
Definition dir_record (next : Z) (name : list Z) (attrs : Z) (times ea pad : list Z) : list Z :=
  le_bytes 4 next ++ times ++ le_bytes 4 attrs ++ le_bytes 4 (2 * zlen name) ++ ea ++ unit_bytes name ++ pad.

Inductive dir_records : list (list Z * Z) -> list Z -> Prop :=
  | records_last name attrs times ea pad : length times = 52%nat -> length ea = 4%nat ->
      dir_records [(name, attrs)] (dir_record 0 name attrs times ea pad)
  | records_more name attrs times ea pad next es rest : length times = 52%nat -> length ea = 4%nat ->
      next = zlen (dir_record next name attrs times ea pad) -> dir_records es rest ->
      dir_records ((name, attrs) :: es) (dir_record next name attrs times ea pad ++ rest).

Definition entry_ok (e : list Z * Z) : Prop :=
  Forall (in_u 16) (fst e) /\ in_u 32 (2 * zlen (fst e)) /\ in_u 32 (snd e).

Definition visible (e : list Z * Z) : list (OsString * FileType) :=
  if bool_decide (fst e = lit ".") || bool_decide (fst e = lit "..") then []
  else [(fst e, file_type_of_attributes (snd e))].

Lemma record_fields next name attrs times ea pad rest :
  length times = 52%nat -> length ea = 4%nat -> entry_ok (name, attrs) -> in_u 32 next ->
  let entry := dir_record next name attrs times ea pad ++ rest in
  le_val (field entry 0 4) = next /\ le_val (field entry 56 4) = attrs /\
  le_val (field entry 60 4) = 2 * zlen name /\
  units_of (field entry 68 (2 * Z.to_nat (zlen name))) = name.
Proof.
  intros Ht He (Hn & Hl & Ha) Hx. cbv zeta. unfold dir_record. cbn [fst snd] in *.
  assert (forall x, in_u 32 x -> in_u (8 * Z.of_nat 4) x) as H32 by done.
  split_and!.
  - rewrite <- app_assoc. apply (field_num 4 next []). auto.
  - replace 56%nat with (length (le_bytes 4 next ++ times)) by (rewrite length_app, Ht; done).
    rewrite <- !app_assoc, (app_assoc (le_bytes 4 next)). apply field_num; auto.
  - replace 60%nat with (length (le_bytes 4 next ++ times ++ le_bytes 4 attrs))
      by (rewrite !length_app, Ht; done).
    rewrite <- !app_assoc, (app_assoc times), (app_assoc (le_bytes 4 next)). apply field_num; auto.
  - replace 68%nat with (length (le_bytes 4 next ++ times ++ le_bytes 4 attrs ++ le_bytes 4 (2 * zlen name) ++ ea))
      by (rewrite !length_app, Ht, He; done).
    replace (2 * Z.to_nat (zlen name))%nat with (length (unit_bytes name)) by (rewrite length_unit_bytes; lia).
    rewrite <- !app_assoc, (app_assoc _ ea), (app_assoc _ (_ ++ ea)), (app_assoc times), (app_assoc (le_bytes 4 next)).
    rewrite field_app. by apply units_of_unit_bytes.
Qed.

Lemma dir_chain_records es buf : dir_records es buf -> Forall entry_ok es -> zlen buf < 2 ^ 32 ->
  forall pre fuel, (length es <= fuel)%nat ->
  dir_chain fuel (pre ++ buf) (length pre) = ret (concat (map visible es)).
Proof.
  induction 1 as [name attrs times ea pad Ht He|name attrs times ea pad next es rest Ht He Hnext Hr IH];
    intros Hok Hlen pre fuel Hf; apply Forall_cons_1 in Hok as [Hok1 Hok];
    (destruct fuel as [|fuel]; [cbn in Hf; lia|]); cbn [dir_chain]; rewrite drop_app_length; cbv zeta.
  - assert (in_u 32 0) as H0 by by split.
    destruct (record_fields 0 name attrs times ea pad [] Ht He Hok1 H0) as (E1 & E2 & E3 & E4).
    rewrite app_nil_r in *. rewrite E1, E2, E3. rewrite (Z.mul_comm 2), Z.div_mul by done. rewrite E4.
    cbn [Z.to_nat Nat.eqb]. cbn [map concat]. by rewrite app_nil_r.
  - assert (in_u 32 next) as Hx by (rewrite length_app in Hlen; split; lia).
    destruct (record_fields next name attrs times ea pad rest Ht He Hok1 Hx) as (E1 & E2 & E3 & E4).
    rewrite E1, E2, E3. rewrite (Z.mul_comm 2), Z.div_mul by done. rewrite E4.
    assert (68 <= zlen (dir_record next name attrs times ea pad)) as H68.
    { unfold dir_record. rewrite !length_app, Ht, He, !length_le_bytes. lia. }
    rewrite (proj2 (Nat.eqb_neq _ _)) by lia.
    replace (length pre + Z.to_nat next)%nat
      with (length (pre ++ dir_record next name attrs times ea pad)) by (rewrite length_app; lia).
    rewrite app_assoc, IH; [done|done|rewrite length_app in Hlen; lia|cbn in Hf; lia].
Qed.

Lemma records_count es buf : dir_records es buf -> (length es <= length buf)%nat.
Proof.
  induction 1 as [name attrs times ea pad Ht He|name attrs times ea pad next es rest Ht He Hnext Hr IH].
  - unfold dir_record. rewrite !length_app, !length_le_bytes. cbn. lia.
  - unfold dir_record in *. rewrite !length_app, !length_le_bytes in *. cbn in *. lia.
Qed.

Section listing.
Context {K : Type} (kernel : Call -> K -> K * Ret) (batches : K -> list (list (list Z * Z))).

(** The kernel hands out the rest of the directory a buffer at a time, and
    then says that there are no more files. *)
Class ListsDir := {
  list_batch : forall h k b bs, batches k = b :: bs -> exists k' buf e,
    kernel (w_get_file_info_ex h FileFullDirectoryInfo) k = (k', mkRet 1 e (OBytes buf)) /\
    dir_records b buf /\ Forall entry_ok b /\ zlen buf < 2 ^ 32 /\ batches k' = bs;
  list_end : forall h k, batches k = [] -> exists k',
    kernel (w_get_file_info_ex h FileFullDirectoryInfo) k = (k', mkRet 0 ERROR_NO_MORE_FILES ONone);
}.

(** the directory listing of the Windows backend is complete: with one
    round per buffer the kernel fills and one for the end, it returns, and
    what it returns is every entry of every buffer in order, except [.] and
    [..], each with the type its attributes say. *)
Theorem windows_listing_complete `{!ListsDir} h acc (w : World K) :
  exists w', read_dir_entries kernel (S (length (batches (state w)))) h acc w =
    (w', ret (acc ++ concat (map visible (concat (batches (state w)))))).
Proof.
  remember (batches (state w)) as bs eqn:Eb. symmetry in Eb. revert acc w Eb.
  induction bs as [|b bs IH]; intros acc w Eb; cbn [read_dir_entries length].
  - destruct (list_end h _ Eb) as (k' & E).
    rewrite (st_sys _ _ _ _ _ _ E). cbn [rv Z.eqb]. rewrite errno_last. cbn. rewrite app_nil_r. by eexists.
  - destruct (list_batch h _ _ _ Eb) as (k' & buf & e & E & Hr & Hok & Hlen & Eb').
    rewrite (st_sys _ _ _ _ _ _ E). cbn [rv Z.eqb out_bytes out].
    assert (dir_chain (S (length buf)) buf 0 = ret (concat (map visible b))) as ->.
    { apply (dir_chain_records b buf Hr Hok Hlen []). pose proof (records_count _ _ Hr). lia. }
    unfold st_bind at 1, st_lift at 1.
    destruct (IH (acc ++ concat (map visible b)) (mkWorld k' (log w ++ [(w_get_file_info_ex h FileFullDirectoryInfo,
      mkRet 1 e (OBytes buf))])) Eb') as (w' & E2). exists w'. etransitivity; [exact E2|]. do 3 f_equal.
    cbn [concat map]. by rewrite map_app, concat_app, <- app_assoc.
Qed.
End listing.

(** A directory that fits one buffer: [.], [b] and a directory [s]. *)
Definition three_names : list (list Z * Z) := [(lit ".", 16); (lit "b", 32); (lit "s", 16)].
Definition one_record (next : Z) (e : list Z * Z) : list Z := dir_record next (fst e) (snd e) (zeros 52) (zeros 4) (zeros 2).
Definition three_buffer : list Z :=
  one_record 72 (lit ".", 16) ++ one_record 72 (lit "b", 32) ++ one_record 0 (lit "s", 16).
Definition list_kernel (c : Call) (k : bool) : bool * Ret :=
  match c with
  | w_get_file_info_ex _ _ => if k then (false, mkRet 1 0 (OBytes three_buffer)) else (false, mkRet 0 ERROR_NO_MORE_FILES ONone)
  | _ => (k, mkRet 0 0 ONone)
  end.
#[export] Instance list_kernel_lists : ListsDir list_kernel (fun k : bool => if k then [three_names] else []).
Proof.
  split; intros h [|]; intros; simplify_eq/=.
  - exists false, three_buffer, 0. split; [done|]. split; [|by split; [apply (bool_decide_unpack _); vm_compute|]].
    by repeat (apply records_more || apply records_last).
  - by exists false.
Qed.

Lemma windows_listing_complete_witness :
  exists w', read_dir_entries list_kernel 2 7 [] (mkWorld true []) =
    (w', ret [(lit "b", FtFile); (lit "s", FtDir)]).
Proof.
  apply (windows_listing_complete list_kernel (fun k : bool => if k then [three_names] else []) 7 [] (mkWorld true [])).
Defined.

(** ** What a successful call asked for *)

Section calls.
Context {K : Type} (kernel : Call -> K -> K * Ret) (dos : Z -> Z).

Lemma win_syscall_ret c (w w' : World K) r : syscall kernel c w = (w', ret r) -> log w' = log w ++ [(c, r)].
Proof. unfold syscall. destruct (kernel c (state w)) as [k r1]. intros. by simplify_eq. Qed.

Lemma win_call_ret c op path (w w' : World K) r : win_call kernel c op path w = (w', ret r) ->
  rv r <> 0 /\ log w' = log w ++ [(c, r)].
Proof.
  unfold win_call. intros (w1 & r1 & H1 & H2)%st_bind_inv. apply win_syscall_ret in H1.
  unfold last_win32_err, st_lift in H2. destruct (rv r1 =? 0) eqn:E; simplify_eq. by bool_to_prop.
Qed.

(** The handle of a successful open. *)
Definition opened (h : Z) (r : Ret) : Prop := rv r = STATUS_SUCCESS /\ out_int r = h /\ valid_handle h = true.

Lemma open_relative_attrs_ret root rel access disposition options attributes (w w' : World K) h :
  open_relative_attrs kernel dos root rel access disposition options attributes w = (w', ret h) ->
  exists r, opened h r /\
  log w' = log w ++ [(w_nt_create_file root (to_wide_nt_component rel) access attributes disposition options, r)].
Proof.
  unfold open_relative_attrs. destruct (U16_MAX <? _); [done|].
  intros (w1 & r & H1%win_syscall_ret & H2)%st_bind_inv. unfold st_lift in H2.
  destruct (rv r =? STATUS_SUCCESS) eqn:E; [|done]. destruct (valid_handle (out_int r)) eqn:E2; [|done].
  cbn [negb] in H2. simplify_eq. bool_to_prop. by exists r.
Qed.

(** The bytes accepted in a sequence of writes to [h]. *)
Definition win_accepted (e : Call * Ret) : list Z :=
  match fst e with w_write_file _ buf => take (Z.to_nat (wrap 32 (out_int (snd e)))) buf | _ => [] end.
Definition win_write_to (h : Z) (e : Call * Ret) : Prop :=
  (exists buf, fst e = w_write_file h buf) /\ rv (snd e) <> 0.

Lemma win_write_loop_ret fuel tmp h : forall fuel' bs (w w' : World K) u,
  write_loop (B := windows_fs kernel dos fuel) fuel' tmp h bs w = (w', ret u) ->
  exists ws, log w' = log w ++ ws /\ Forall (win_write_to h) ws /\ concat (map win_accepted ws) = bs.
Proof.
  induction fuel' as [|fuel' IH]; intros bs w w' u H; cbn [write_loop] in H; [done|].
  destruct bs as [|b bs].
  { unfold st_lift in H. simplify_eq. exists []. by rewrite app_nil_r. }
  set (buf := b :: bs) in *. apply st_bind_inv in H as (w1 & n & H1 & H2).
  cbn [write_ windows_fs] in H1. unfold write in H1.
  apply st_bind_inv in H1 as (w2 & r & (Hr & H3)%win_call_ret & H4). unfold st_lift in H4. simplify_eq.
  destruct (wrap 32 (out_int r) =? 0) eqn:E2; [done|].
  destruct (IH _ _ _ _ H2) as (ws & Hl & Hw & Hc).
  exists ((w_write_file h (take (Z.to_nat (Z.min (zlen buf) U32_MAX)) buf), r) :: ws).
  rewrite Hl, H3, <- app_assoc. split; [done|]. split.
  { constructor; [|done]. split; [by eexists|done]. }
  cbn [map concat]. rewrite Hc. unfold win_accepted. cbn [fst snd].
  assert (in_u 32 (wrap 32 (out_int r))) as Hn by by apply wrap_in_u.
  set (n := wrap 32 (out_int r)) in *. unfold in_u in Hn. change (2 ^ 32) with (U32_MAX + 1) in Hn.
  rewrite take_take. transitivity (take (Z.to_nat n) buf ++ drop (Z.to_nat n) buf); [|apply take_drop]. f_equal.
  destruct (decide (n <= zlen buf)).
  - f_equal. clearbody n buf. lia.
  - clearbody n buf. by rewrite !take_ge by lia.
Qed.

Lemma open_for_rename_ret d from (w w' : World K) h : open_for_rename kernel dos d from w = (w', ret h) ->
  exists l r kind_option, opened h r /\
  log w' = log w ++ l ++ [(w_nt_create_file d (to_wide_nt_component from) (Z.lor DELETE SYNCHRONIZE)
    OBJ_CASE_INSENSITIVE FILE_OPEN (Z.lor kind_option FILE_SYNCHRONOUS_IO_NONALERT), r)] /\
  (length l <= 1)%nat /\ Forall (fun e => rv (snd e) <> STATUS_SUCCESS \/ valid_handle (out_int (snd e)) = false) l.
Proof.
  unfold open_for_rename.
  match goal with |- context [open_relative ?k ?dd ?a ?b ?c ?e ?f w] =>
    destruct (open_relative k dd a b c e f w) as [w1 r1] eqn:E1 end.
  destruct r1 as [[h1|e]| |]; intros H; simplify_eq.
  - apply open_relative_attrs_ret in E1 as (r & Ho & L). exists [], r, FILE_NON_DIRECTORY_FILE.
    split; [done|]. split; [exact L|]. split; [cbn; lia|done].
  - apply open_relative_attrs_ret in H as (r & Ho & L). revert E1. unfold open_relative, open_relative_attrs.
    destruct (U16_MAX <? _).
    { intros [= <- <-]. exists [], r, FILE_DIRECTORY_FILE.
      split; [done|]. split; [exact L|]. split; [cbn; lia|done]. }
    unfold st_bind, syscall. destruct (kernel _ (state w)) as [k2 r2].
    destruct (negb (rv r2 =? STATUS_SUCCESS)) eqn:E2; [|destruct (valid_handle (out_int r2)) eqn:E3; [done|]];
      intros [= <- <-]; eexists [(_, r2)], r, FILE_DIRECTORY_FILE;
      (split; [done|split; [rewrite L; cbn [log]; by rewrite <- app_assoc|split; [cbn; lia|]]]);
      (constructor; [cbn [snd]|done]).
    + left. intros E. by rewrite E in E2.
    + by right.
Qed.

(** when [write_atomic] succeeds on Windows, the calls it made are, in
    this order and nothing else: the exclusive creation of the temporary name
    with write access, writes to that handle whose accepted bytes are exactly
    the content, a flush of the file to the disk, its close, the opening of
    the temporary name for renaming (as a directory only if it could not be
    opened as a file), one rename over the target under the same directory
    handle, and the close of that handle.  So nothing but the temporary name
    is touched before the content is on the disk. *)
Theorem windows_write_atomic_order fuel d rel contents pid n (w w' : World K)
    (Hok : write_atomic (B := windows_fs kernel dos fuel) d rel contents pid n w = (w', ret tt)) :
  exists h ws h2 lo r1 r2 r3 r4 r5 r6 kind_option, let tmp := to_wide_nt_component (tmp_name rel pid n) in
  log w' = log w ++
    [(w_nt_create_file d tmp (Z.lor SYNCHRONIZE FILE_GENERIC_WRITE) OBJ_CASE_INSENSITIVE FILE_CREATE
        (Z.lor FILE_NON_DIRECTORY_FILE FILE_SYNCHRONOUS_IO_NONALERT), r1)] ++ ws ++
    [(w_flush_file_buffers h, r2); (c_close h, r3)] ++ lo ++
    [(w_nt_create_file d tmp (Z.lor DELETE SYNCHRONIZE) OBJ_CASE_INSENSITIVE FILE_OPEN
        (Z.lor kind_option FILE_SYNCHRONOUS_IO_NONALERT), r4);
     (w_nt_set_rename h2 (rename_information true d (to_wide_nt_component rel)), r5); (c_close h2, r6)] /\
  opened h r1 /\ Forall (win_write_to h) ws /\ concat (map win_accepted ws) = contents /\ rv r2 <> 0 /\
  opened h2 r4 /\ rv r5 = STATUS_SUCCESS /\ (length lo <= 1)%nat.
Proof.
  unfold write_atomic in Hok. cbv zeta in Hok. set (tmp := tmp_name rel pid n) in *.
  destruct (write_and_sync d tmp contents w) as [w1 [[u|e]| |]] eqn:E1; try done.
  2: { by destruct (remove_file_ d tmp w1). }
  apply st_bind_inv in Hok as (w2 & u2 & H2 & H3). cbn [sync_dir_ windows_fs] in H3. unfold st_lift in H3.
  simplify_eq. cbn [rename_ windows_fs] in *. unfold rename, rename_at in H2.
  apply st_bind_inv in H2 as (w2a & h2 & (lo & r4 & ko & Ho2 & L4 & Hlo & _)%open_for_rename_ret & H2).
  unfold scoped in H2.
  destruct ((st! r := syscall kernel (w_nt_set_rename h2 _) in _) w2a) as [w3 [[u3|e3]| |]] eqn:E3; simplify_eq.
  apply st_bind_inv in E3 as (w4 & r5 & L5%win_syscall_ret & H5). unfold st_lift in H5.
  destruct (rv r5 =? STATUS_SUCCESS) eqn:E5; [|done]. cbn [negb] in H5. simplify_eq. bool_to_prop.
  destruct (drop_fd_log kernel h2 w3) as [r6 L6].
  unfold write_and_sync in E1. apply st_bind_inv in E1 as (w5 & h & H4 & H6).
  cbn [open_ windows_fs] in H4. unfold open in H4. apply st_bind_inv in H4 as (w6 & p & H7 & H4).
  cbn in H7. unfold st_lift in H7. simplify_eq. apply open_relative_attrs_ret in H4 as (r1 & Ho1 & L1).
  unfold with_open_file in H6.
  destruct ((st! _ := write_loop (S (length contents)) tmp h contents in sync_all_ h) w5) as [w7 r] eqn:E7.
  simplify_eq. apply st_bind_inv in E7 as (w8 & u8 & H8 & H9).
  apply win_write_loop_ret in H8 as (ws & L2 & Hw & Hc). cbn [sync_all_ windows_fs] in H9. unfold sync_all in H9.
  apply st_bind_inv in H9 as (w9 & r2 & (Hr2 & L3)%win_call_ret & H9). unfold st_lift in H9. simplify_eq.
  cbn [drop_file_ windows_fs] in *. destruct (drop_fd_log kernel h w7) as [r3 Ld].
  exists h, ws, h2, lo, r1, r2, r3, r4, r5, r6, ko. cbv zeta. split.
  - rewrite L6, L5, L4, Ld, L3, L2, L1. by rewrite <- !app_assoc.
  - by split_and!.
Qed.
End calls.

(** A system whose opens give handle 4 and whose disk takes two bytes at a
    time. *)
Definition small_disk (c : Call) (k : unit) : unit * Ret :=
  (k, match c with
      | w_nt_create_file _ _ _ _ _ _ => mkRet 0 0 (OInt 4)
      | w_nt_set_rename _ _ => mkRet 0 0 ONone
      | w_write_file _ buf => mkRet 1 0 (OInt (Z.min 2 (zlen buf)))
      | _ => mkRet 1 0 ONone
      end).

Lemma windows_write_atomic_order_witness :
  let w := mkWorld tt [] in
  let w' := fst (write_atomic (B := windows_fs small_disk (fun s => s) 0) 5 (lit "f") [1; 2; 3] 42 0 w) in
  exists h ws h2 lo r1 r2 r3 r4 r5 r6 kind_option, let tmp := to_wide_nt_component (tmp_name (lit "f") 42 0) in
  log w' = log w ++
    [(w_nt_create_file 5 tmp (Z.lor SYNCHRONIZE FILE_GENERIC_WRITE) OBJ_CASE_INSENSITIVE FILE_CREATE
        (Z.lor FILE_NON_DIRECTORY_FILE FILE_SYNCHRONOUS_IO_NONALERT), r1)] ++ ws ++
    [(w_flush_file_buffers h, r2); (c_close h, r3)] ++ lo ++
    [(w_nt_create_file 5 tmp (Z.lor DELETE SYNCHRONIZE) OBJ_CASE_INSENSITIVE FILE_OPEN
        (Z.lor kind_option FILE_SYNCHRONOUS_IO_NONALERT), r4);
     (w_nt_set_rename h2 (rename_information true 5 (to_wide_nt_component (lit "f"))), r5); (c_close h2, r6)] /\
  opened h r1 /\ Forall (win_write_to h) ws /\ concat (map win_accepted ws) = [1; 2; 3] /\ rv r2 <> 0 /\
  opened h2 r4 /\ rv r5 = STATUS_SUCCESS /\ (length lo <= 1)%nat.
Proof.
  cbv zeta. apply (windows_write_atomic_order small_disk (fun s => s) 0 5 (lit "f") [1; 2; 3] 42 0).
  vm_compute. reflexivity.
Defined.

(** the Windows filesystem operations neither leak a handle nor close one
    they do not own, whatever the system answers and however they end: the
    opens, [try_clone] and [open_ambient] hand over exactly the handle they
    return, and every other operation, [write_atomic] and the removals among
    them, leaves none behind, on success and on every error path. *)
Theorem windows_fs_handles {K} (kernel : Call -> K -> K * Ret) dos h fuel d rel :
  (forall o, owns h (open kernel dos d rel o) (fun fd => {[+ fd +]} ⊎ h) h) /\
  owns h (open_dir kernel dos d rel) (fun fd => {[+ fd +]} ⊎ h) h /\
  owns h (open_ambient_dir kernel rel) (fun fd => {[+ fd +]} ⊎ h) h /\
  owns h (try_clone kernel d) (fun fd => {[+ fd +]} ⊎ h) h /\
  owns h (create_dir kernel dos d rel) (fun _ => h) h /\
  owns h (metadata kernel dos d rel) (fun _ => h) h /\
  (forall m, owns h (dir_access kernel dos d rel m) (fun _ => h) h) /\
  owns h (file_id kernel dos d rel) (fun _ => h) h /\
  owns h (read_dir kernel dos fuel d) (fun _ => h) h /\
  owns h (remove_file kernel dos d rel) (fun _ => h) h /\ owns h (remove_dir kernel dos d rel) (fun _ => h) h /\
  owns h (read_link kernel dos d rel) (fun _ => h) h /\
  (forall target, owns h (symlink kernel dos d target rel) (fun _ => h) h) /\
  (forall to, owns h (rename kernel dos d rel to) (fun _ => h) h) /\
  forall contents pid n,
    owns h (write_atomic (B := windows_fs kernel dos fuel) d rel contents pid n) (fun _ => h) h.
Proof.
  split_and!; intros; eauto using win_owns_open, owns_open_dir, owns_open_ambient_dir, owns_duplicate, win_owns_create_dir,
    win_owns_metadata, owns_access, owns_file_id, win_owns_read_dir, owns_remove, win_owns_read_link, win_owns_symlink,
    owns_rename_at, win_owns_write_atomic.
Qed.

(** ** What the code does that a caller may not expect *)

(** A volume without reparse points refuses the control code; the file that
    was created to carry the link stays. *)
Definition no_links (c : Call) (k : unit) : unit * Ret :=
  (k, match c with
      | w_nt_create_file _ _ _ _ disposition _ =>
        if disposition =? FILE_CREATE then mkRet 0 0 (OInt 4) else mkRet STATUS_OBJECT_NAME_NOT_FOUND 0 ONone
      | w_device_io_control _ _ _ _ => mkRet 0 1 ONone
      | _ => mkRet 1 0 ONone
      end).

Example symlink_leaves_file :
  let '(w, r) := symlink no_links (fun s => s) 5 (lit "t") (lit "l") (mkWorld tt []) in
  r = fail (with_path (error_new Other (Win32 1) "DeviceIoControl") (lit "l")) /\
  map fst (log w) =
    [w_nt_create_file 5 (lit "t") (Z.lor FILE_READ_ATTRIBUTES SYNCHRONIZE) OBJ_CASE_INSENSITIVE FILE_OPEN
       (Z.lor FILE_SYNCHRONOUS_IO_NONALERT FILE_OPEN_REPARSE_POINT);
     w_nt_create_file 5 (lit "l") (Z.lor FILE_GENERIC_WRITE SYNCHRONIZE) OBJ_CASE_INSENSITIVE FILE_CREATE
       (Z.lor (Z.lor FILE_NON_DIRECTORY_FILE FILE_SYNCHRONOUS_IO_NONALERT) FILE_OPEN_REPARSE_POINT);
     w_device_io_control 4 FSCTL_SET_REPARSE_POINT
       (reparse_header 2 2 SYMLINK_FLAG_RELATIVE ++ unit_bytes (lit "t") ++ unit_bytes (lit "t")) 0;
     c_close 4].
Proof. vm_compute. split; reflexivity. Qed.

(** A file that another process holds without sharing deletion: the refusal
    of the first open is replaced by that of the second, which asks for a
    directory. *)
Definition locked_file (c : Call) (k : unit) : unit * Ret :=
  (k, match c with
      | w_nt_create_file _ _ _ _ _ options =>
        if Z.testbit options 0 then mkRet STATUS_NOT_A_DIRECTORY 0 ONone else mkRet STATUS_SHARING_VIOLATION 0 ONone
      | _ => mkRet 1 0 ONone
      end).

Example rename_hides_sharing_violation :
  match snd (rename locked_file (fun s => 267) 5 (lit "a") (lit "b") (mkWorld tt [])) with
  | fail e => kind e = NotADirectory
  | _ => False
  end.
Proof. vm_compute. reflexivity. Qed.

(** A rename opens its source through a link, a removal does not. *)
Example rename_follows_link :
  omap (fun e => match fst e with w_nt_create_file _ _ _ _ _ options => Some (Z.testbit options 21) | _ => None end)
    (log (fst (rename small_disk (fun s => s) 5 (lit "a") (lit "b") (mkWorld tt []))) ++
     log (fst (remove_file small_disk (fun s => s) 5 (lit "a") (mkWorld tt [])))) = [false; true].
Proof. vm_compute. reflexivity. Qed.

Example filetime_ex : filetime_to_system_time EPOCH_DIFF_100NS = ret 0 /\
  filetime_to_system_time (EPOCH_DIFF_100NS + 12345678) = ret 1234567800 /\
  filetime_to_system_time (EPOCH_DIFF_100NS - 1) = ret (-100).
Proof. vm_compute. split_and!; reflexivity. Qed.

(** One tick is a hundred nanoseconds, on both sides of 1970. *)
Lemma filetime_ticks t : - 2 ^ 63 < t - EPOCH_DIFF_100NS ->
  filetime_to_system_time t = ret ((t - EPOCH_DIFF_100NS) * 100).
Proof.
  intros H. unfold filetime_to_system_time. set (u := t - EPOCH_DIFF_100NS) in *. clearbody u. cbv zeta.
  rewrite (proj2 (Z.leb_gt _ _)) by lia.
  assert (forall x, x / 10000000 * 1000000000 + x mod 10000000 * 100 = x * 100) as E.
  { intros x. pose proof (Z.div_mod x 10000000). lia. }
  destruct (0 <=? u); rewrite E; do 2 f_equal; lia.
Qed.
