(* ===== verification/WinProcess.v ===== *)
(** * The Windows backend: processes
      ([platform-windows/src/sys/proc.rs], [platform-windows/src/process.rs],
       default build)

    Spawning with [CreateProcessW] and job objects, waiting, the lookup of a
    program, and the children handed out.  The command line comes from
    [Winargv]; paths, arguments and the environment are UTF-16 code units. *)

From Stdlib Require Import ZArith Lia String.
From S2P Require Import Prelude Error Text Sys Fs Process Winargv WinFs.
From stdpp Require Import base numbers list strings gmap gmultiset sorting.
Open Scope Z_scope.

Definition PROCESS_TERMINATE := 1.
Definition PROCESS_SET_QUOTA := 256.
Definition PROCESS_QUERY_LIMITED_INFORMATION := 4096.
Definition STD_INPUT_HANDLE := 4294967286.
Definition STD_OUTPUT_HANDLE := 4294967285.
Definition STD_ERROR_HANDLE := 4294967284.
Definition JOB_OBJECT_LIMIT_KILL_ON_JOB_CLOSE := 8192.
Definition CREATE_SUSPENDED := 4.
Definition DETACHED_PROCESS := 8.
Definition CREATE_NEW_PROCESS_GROUP := 512.
Definition CREATE_UNICODE_ENVIRONMENT := 1024.
Definition INFINITE := 4294967295.
Definition WAIT_OBJECT_0 := 0.
Definition WAIT_TIMEOUT := 258.
Definition STILL_ACTIVE := 259.
Definition MAXIMUM_WAIT_OBJECTS : nat := 64.

(** What the standard library asks of the system: the clock and [sleep] in
    nanoseconds, the environment, [metadata(path).is_file()]. *)
Record Host (K : Type) := mkHost {
  now : K -> Z;
  sleep : Z -> K -> K;
  var_os : OsString -> K -> option OsString;
  is_file : OsString -> K -> bool;
}.
Arguments mkHost {K} _ _ _ _.
Arguments now {K} _ _.
Arguments sleep {K} _ _ _.
Arguments var_os {K} _ _ _.
Arguments is_file {K} _ _ _.

(** ** The environment block *)

(** The code points of a WTF-16 string, unpaired surrogates as they are; the
    order of [OsString] on Windows is the order of these. *)
Fixpoint code_points (units : list Z) : list Z :=
  match units with
  | hi :: (lo :: rest) as tail =>
    if (55296 <=? hi) && (hi <? 56320) && (56320 <=? lo) && (lo <? 57344)
    then 65536 + (hi - 55296) * 1024 + (lo - 56320) :: code_points rest
    else hi :: code_points tail
  | units => units
  end.

Definition os_le (a b : OsString * OsString) : Prop := bytes_le (code_points (fst a)) (code_points (fst b)).
#[export] Instance os_le_dec : RelDecision os_le.
Proof. intros a b. unfold os_le. apply _. Defined.

(** [BTreeMap] iteration. *)
Definition env_entries (m : gmap (list Z) OsString) : list (OsString * OsString) :=
  merge_sort os_le (map_to_list m).

Definition env_text (l : list (OsString * OsString)) : list Z :=
  concat (map (fun kv => fst kv ++ [61] ++ snd kv ++ [0]) l).

Definition env_block (env : EnvSpec) : option (list Z) :=
  match env with
  | EnvInherit => None
  | EnvExplicit map =>
    let block := env_text (env_entries map) ++ [0] in
    Some (if zlen block =? 1 then block ++ [0] else block)
  end.

(** ** Paths, as far as the lookup uses them *)

Definition is_sep (u : Z) : bool := (u =? 92) || (u =? 47).

(** The length of the prefix ([C:], [\\server\share], [\\?\..], [\\.\..]) and
    whether it is verbatim, where only a backslash separates.  The share of a
    verbatim network path counts as directories here. *)
Fixpoint component_len (sep : Z -> bool) (s : list Z) : nat :=
  match s with
  | [] => O
  | u :: s => if sep u then O else S (component_len sep s)
  end.

Definition is_letter (u : Z) : bool := ((65 <=? u) && (u <=? 90)) || ((97 <=? u) && (u <=? 122)).

Definition prefix (s : list Z) : nat * bool :=
  match s with
  | 92 :: 92 :: 63 :: 92 :: rest => ((4 + component_len (Z.eqb 92) rest)%nat, true)
  | a :: b :: 46 :: c :: rest =>
    if is_sep a && is_sep b && is_sep c then ((4 + component_len is_sep rest)%nat, false)
    else if is_letter a && (b =? 58) then (2%nat, false) else (O, false)
  | a :: b :: rest =>
    if is_sep a && is_sep b then
      let server := component_len is_sep rest in
      let share := component_len is_sep (drop (S server) rest) in
      if Nat.eqb server 0 || Nat.eqb share 0 then (O, false) else ((2 + server + 1 + share)%nat, false)
    else if is_letter a && (b =? 58) then (2%nat, false) else (O, false)
  | _ => (O, false)
  end.

Fixpoint split_on_sep (sep : Z -> bool) (s cur : list Z) : list (list Z) :=
  match s with
  | [] => [cur]
  | u :: s => if sep u then cur :: split_on_sep sep s [] else split_on_sep sep s (cur ++ [u])
  end.

(** [Path::file_name]: the last component when it is a name. *)
Definition file_name (s : list Z) : option (list Z) :=
  let (n, verbatim) := prefix s in
  let sep := if verbatim then Z.eqb 92 else is_sep in
  let normal c := match c with [] => false | [46] => verbatim | _ => true end in
  match last (List.filter normal (split_on_sep sep (drop n s) [])) with
  | Some [46; 46] => None
  | r => r
  end.

(** What follows the last dot, and whether something precedes it. *)
Fixpoint after_last_dot (s : list Z) : option (bool * list Z) :=
  match s with
  | [] => None
  | u :: s =>
    match after_last_dot s with
    | Some (_, e) => Some (true, e)
    | None => if u =? 46 then Some (false, s) else None
    end
  end.

(** [has_extension]: there is an extension and it is not empty. *)
Definition has_extension (program : OsString) : bool :=
  match file_name program with
  | None => false
  | Some name =>
    match after_last_dot name with
    | Some (true, e) => negb (bool_decide (e = []))
    | _ => false
    end
  end.

(** [PathBuf::join] with a name that holds no separator: a drive in it
    replaces the directory. *)
Definition path_join (dir name : OsString) : OsString :=
  if Nat.eqb (fst (prefix name)) 0 then
    let drive_only := bool_decide (fst (prefix dir) = length dir) && bool_decide (length dir = 2%nat) in
    match last dir with
    | Some u => if is_sep u || drive_only then dir ++ name else dir ++ [92] ++ name
    | None => name
    end
  else name.

(** [env::split_paths]: [;] outside quotes; the quotes go. *)
Fixpoint split_paths_loop (s cur : list Z) (in_quote : bool) : list (list Z) :=
  match s with
  | [] => match cur with [] => [] | _ => [cur] end
  | u :: s =>
    if u =? 34 then split_paths_loop s cur (negb in_quote)
    else if (u =? 59) && negb in_quote then cur :: split_paths_loop s [] false
    else split_paths_loop s (cur ++ [u]) in_quote
  end.
Definition split_paths (s : OsString) : list OsString := split_paths_loop s [] false.

(** [to_string_lossy], read back as units: an unpaired surrogate becomes
    U+FFFD. *)
Fixpoint lossy_units (units : list Z) : list Z :=
  let alone u := if (55296 <=? u) && (u <? 57344) then 65533 else u in
  match units with
  | hi :: (lo :: rest) as tail =>
    if (55296 <=? hi) && (hi <? 56320) && (56320 <=? lo) && (lo <? 57344)
    then hi :: lo :: lossy_units rest else alone hi :: lossy_units tail
  | [u] => [alone u]
  | [] => []
  end.

Fixpoint trim_start (s : list Z) : list Z :=
  match s with
  | [] => []
  | u :: s' => if is_whitespace u then trim_start s' else s
  end.
Definition trim (s : list Z) : list Z := reverse (trim_start (reverse (trim_start s))).

Definition DEFAULT_PATHEXT : OsString := lit ".COM;.EXE;.BAT;.CMD".

Section processes.
Context {K : Type} (kernel : Call -> K -> K * Ret) (host : Host K).
(** The handle of a [Stdio::File], when it is this backend's own. *)
Context (file_handle : nat -> option Z).
Abbreviation M A := (World K -> World K * Run A).
Abbreviation sys c := (syscall kernel c).

(** ** Standard streams *)

Definition inheritable_nul (read : bool) : M Z :=
  st! r := sys (w_create_file (to_wide_nul (lit "NUL")) (if read then FILE_GENERIC_READ else FILE_GENERIC_WRITE)
    (Z.lor FILE_SHARE_READ FILE_SHARE_WRITE) true OPEN_EXISTING 0) in
  if valid_handle (rv r) then st_lift (ret (rv r)) else last_win32_err "CreateFileW" (lit "NUL").

(** The child's end and the parent's, which loses its inherit flag. *)
Definition make_pipe (stdin_slot : bool) : M (Z * Z) :=
  st! r := win_call kernel (w_create_pipe true) "CreatePipe" [] in
  let read := nth 0 (out_ints r) 0 in
  let write := nth 1 (out_ints r) 0 in
  let bad := st_lift (fail (error_new Other NoCode "CreatePipe")) in
  if negb (valid_handle read) then bad
  else if negb (valid_handle write) then owned kernel read bad
  else
    let (child, parent) := if stdin_slot then (read, write) else (write, read) in
    owned kernel child (owned kernel parent
      (st! _ := win_call kernel (w_set_inherit parent 0) "SetHandleInformation" [] in
       st_lift (ret (child, parent)))).

Definition inheritable_dup_of_file (file : nat) : M Z :=
  match file_handle file with
  | None => st_lift (fail (error_new Unsupported NoCode "CreateProcessW: Stdio::File from a foreign backend"))
  | Some h => duplicate kernel h true
  end.

Definition inheritable_dup_of_std (slot : Z) : M (option Z) :=
  st! r := sys (w_get_std_handle slot) in
  if negb (valid_handle (rv r)) then st_lift (ret None)
  else
    st! d := win_call kernel (w_duplicate_handle (rv r) true) "DuplicateHandle" [] in
    st_lift (ret (if valid_handle (out_int d) then Some (out_int d) else None)).

(** The two arrays of [spawn], filled from the front. *)
Record Slots := mkSlots { slot_handles : list (option Z); parent_pipes : list (option Z) }.
Definition held_slots (sl : Slots) : list Z := omap id (slot_handles sl) ++ omap id (parent_pipes sl).
Definition add_slot (sl : Slots) (h p : option Z) : Slots :=
  mkSlots (slot_handles sl ++ [h]) (parent_pipes sl ++ [p]).

Definition fill_slot (slot : Z) (spec : Stdio) (sl : Slots) : M Slots :=
  let stdin_slot := slot =? STD_INPUT_HANDLE in
  match spec with
  | StdNull => or_bail kernel (held_slots sl) (inheritable_nul stdin_slot) (fun h =>
      st_lift (ret (add_slot sl (Some h) None)))
  | StdInherit => or_bail kernel (held_slots sl) (inheritable_dup_of_std slot) (fun h =>
      st_lift (ret (add_slot sl h None)))
  | StdPipe => or_bail kernel (held_slots sl) (make_pipe stdin_slot) (fun '(child, parent) =>
      st_lift (ret (add_slot sl (Some child) (Some parent))))
  | StdFile f => or_bail kernel (held_slots sl) (inheritable_dup_of_file f) (fun h =>
      st_lift (ret (add_slot sl (Some h) None)))
  end.

Fixpoint fill_slots (slots : list (Z * Stdio)) (sl : Slots) : M Slots :=
  match slots with
  | [] => st_lift (ret sl)
  | (slot, spec) :: slots => st! sl := fill_slot slot spec sl in fill_slots slots sl
  end.

(** ** Jobs *)

Definition create_kill_on_close_job : M Z :=
  st! r := sys w_create_job in
  let job := rv r in
  if negb (valid_handle job) then last_win32_err "CreateJobObjectW" []
  else owned kernel job
    (st! _ := win_call kernel (w_set_job_limits job JOB_OBJECT_LIMIT_KILL_ON_JOB_CLOSE) "SetInformationJobObject" [] in
     st_lift (ret job)).

Definition assign_to_job (job process : Z) : M unit :=
  st! _ := win_call kernel (w_assign_process job process) "AssignProcessToJobObject" [] in st_lift (ret tt).

Definition resume_thread (thread : Z) : M unit :=
  st! r := sys (w_resume_thread thread) in
  if rv r =? U32_MAX then last_win32_err "ResumeThread" [] else st_lift (ret tt).

Definition terminate_job (job : Z) : M unit :=
  st! _ := win_call kernel (w_terminate_job job 1) "TerminateJobObject" [] in st_lift (ret tt).
Definition terminate_process (process : Z) : M unit :=
  st! _ := win_call kernel (w_terminate_process process 1) "TerminateProcess" [] in st_lift (ret tt).

Definition adopt (pid : Z) : M (Z * Z) :=
  st! r := sys (w_open_process (Z.lor PROCESS_SET_QUOTA PROCESS_TERMINATE) pid) in
  let process := rv r in
  if negb (valid_handle process) then last_win32_err "OpenProcess" []
  else owned kernel process
    (st! job := create_kill_on_close_job in
     owned kernel job
       (st! _ := assign_to_job job process in st_lift (ret (process, job)))).

(** ** [spawn] *)

(** The closure [sequence]: suspended, assigned, resumed. *)
Definition group_child (process thread : Z) : M Z :=
  st! job := create_kill_on_close_job in
  owned kernel job
    (st! _ := assign_to_job job process in
     st! _ := (if valid_handle thread then resume_thread thread
               else st_lift (fail (error_new Other NoCode "CreateProcessW thread"))) in
     st_lift (ret job)).

Definition is_inherit (s : Stdio) : bool := match s with StdInherit => true | _ => false end.
Definition STD_SLOTS : list Z := [STD_INPUT_HANDLE; STD_OUTPUT_HANDLE; STD_ERROR_HANDLE].

Definition creation_flags (env : EnvSpec) (new_group detached : bool) : Z :=
  Z.lor (Z.lor (match env_block env with Some _ => CREATE_UNICODE_ENVIRONMENT | None => 0 end)
               (if new_group then CREATE_SUSPENDED else 0))
        (if detached then Z.lor CREATE_NEW_PROCESS_GROUP DETACHED_PROCESS else 0).

Record Spawned := mkSpawned { sp_process : Z; sp_job : option Z; sp_pid : Z; sp_pipes : list (option Z) }.

(** [c] after a failure of [m]; what [c] says is ignored. *)
Definition on_error {A C} (m : M A) (c : M C) : M A := fun w =>
  match m w with
  | (w, fail e) => let (w, _) := c w in (w, fail e)
  | (w, Panic) => (w, Panic)
  | (w, OutOfFuel) => (w, OutOfFuel)
  | (w, ret a) => (w, ret a)
  end.

(** After a successful [CreateProcessW]: the handles it gave and the slots. *)
Definition finish_spawn (process thread pid : Z) (new_group : bool) (sl : Slots) : M Spawned :=
  let started job := fun w =>
    (drop_fds kernel (handles [thread] ++ omap id (slot_handles sl)) w,
     ret (mkSpawned process job pid (parent_pipes sl))) in
  if negb new_group then started None
  else or_bail kernel (handles [thread] ++ process :: held_slots sl)
    (on_error (group_child process thread) (terminate_process process)) (fun job => started (Some job)).

Definition spawn (command_line : list Z) (cwd : OsString) (env : EnvSpec) (stdio : list Stdio)
    (new_group detached : bool) : M Spawned :=
  let use_handles := existsb (fun s => negb (is_inherit s)) stdio in
  st! sl := (if use_handles then fill_slots (zip STD_SLOTS stdio) (mkSlots [] [])
             else st_lift (ret (mkSlots [None; None; None] [None; None; None]))) in
  st! r := sys (w_create_process (command_line ++ [0]) use_handles (creation_flags env new_group detached)
    (env_block env) (to_wide_nul cwd)
    (if use_handles then Some (map (default 0) (slot_handles sl)) else None)) in
  if rv r =? 0 then fun w => bail kernel (held_slots sl) (win32_err (errno w) "CreateProcessW" cwd) w
  else
    let process := nth 0 (out_ints r) 0 in
    let thread := nth 1 (out_ints r) 0 in
    if negb (valid_handle process) then bail kernel (held_slots sl) (error_new Other NoCode "CreateProcessW")
    else finish_spawn process thread (nth 2 (out_ints r) 0) new_group sl.

(** ** Waiting *)

Definition wait_chunk (chunk : list Z) (ms : Z) : M (option nat) :=
  st! r := sys (w_wait_multiple chunk ms) in
  if rv r =? WAIT_TIMEOUT then st_lift (ret None)
  else
    let idx := wrap 32 (rv r - WAIT_OBJECT_0) in
    if idx <? zlen chunk then st_lift (ret (Some (Z.to_nat idx)))
    else last_win32_err "WaitForMultipleObjects" [].

(** [raw.chunks(64).enumerate()], one sweep; [base] is what comes before. *)
Fixpoint sweep (fuel : nat) (raw : list Z) (base : nat) : M (option nat) :=
  match fuel with
  | O => st_lift OutOfFuel
  | S fuel =>
    match raw with
    | [] => st_lift (ret None)
    | _ =>
      st! hit := wait_chunk (take MAXIMUM_WAIT_OBJECTS raw) 0 in
      match hit with
      | Some hit => st_lift (ret (Some (base + hit)%nat))
      | None => sweep fuel (drop MAXIMUM_WAIT_OBJECTS raw) (base + MAXIMUM_WAIT_OBJECTS)
      end
    end
  end.

Definition pause (d : Z) (w : World K) : World K := mkWorld (sleep host d (state w)) (log w).

Fixpoint wait_many_loop (fuel : nat) (raw : list Z) (deadline : option Z) : M (option nat) :=
  match fuel with
  | O => st_lift OutOfFuel
  | S fuel =>
    st! hit := sweep (S (length raw)) raw 0 in
    match hit with
    | Some i => st_lift (ret (Some i))
    | None => fun w =>
      match deadline with
      | Some d => if d <=? now host (state w) then (w, ret None)
                  else wait_many_loop fuel raw deadline (pause 10000000 w)
      | None => wait_many_loop fuel raw deadline (pause 10000000 w)
      end
    end
  end.

(** [Instant + Duration] panics past what a [Duration] holds. *)
Definition MAX_INSTANT : Z := 2 ^ 64 * 1000000000.

Definition wait_many (fuel : nat) (raw : list Z) (timeout : option Z) : M (option nat) :=
  if Nat.leb (length raw) MAXIMUM_WAIT_OBJECTS then
    wait_chunk raw (match timeout with Some t => Z.min (t / 1000000) (INFINITE - 1) | None => INFINITE end)
  else fun w =>
    match timeout with
    | None => wait_many_loop fuel raw None w
    | Some t =>
      let deadline := now host (state w) + t in
      if MAX_INSTANT <=? deadline then (w, Panic) else wait_many_loop fuel raw (Some deadline) w
    end.

Definition exit_code (process : Z) : M ExitStatus :=
  st! r := win_call kernel (w_get_exit_code process) "GetExitCodeProcess" [] in
  st_lift (ret (Code (sign 32 (out_int r)))).

Definition try_wait (process : Z) : M (option ExitStatus) :=
  st! r := sys (w_wait_single process 0) in
  if negb (rv r =? WAIT_OBJECT_0) then st_lift (ret None)
  else st! s := exit_code process in st_lift (ret (Some s)).

Definition wait (process : Z) : M ExitStatus :=
  st! r := sys (w_wait_single process INFINITE) in
  if negb (rv r =? WAIT_OBJECT_0) then last_win32_err "WaitForSingleObject" [] else exit_code process.

Definition is_alive (pid : Z) : M bool :=
  st! r := sys (w_open_process PROCESS_QUERY_LIMITED_INFORMATION pid) in
  let process := rv r in
  if negb (valid_handle process) then fun w => (w, ret (negb (errno w =? ERROR_INVALID_PARAMETER)))
  else scoped kernel process
    (st! r := win_call kernel (w_get_exit_code process) "GetExitCodeProcess" [] in
     st_lift (ret (out_int r =? STILL_ACTIVE))).

(** ** [process.rs]: children *)

Record WindowsChild := mkWindowsChild {
  wc_process : Z; wc_job : option Z; wc_pid : Z; wc_reaped : option ExitStatus; wc_pipes : list (option Z);
}.

Definition from_parts (process : Z) (job : option Z) (pid : Z) : WindowsChild :=
  mkWindowsChild process job pid None [None; None; None].

Definition disown (c : WindowsChild) : WindowsChild * option Z :=
  (mkWindowsChild (wc_process c) None (wc_pid c) (wc_reaped c) (wc_pipes c), wc_job c).

(** What the drop of a child closes. *)
Definition child_handles (c : WindowsChild) : list Z :=
  wc_process c :: option_list (wc_job c) ++ omap id (wc_pipes c).

Definition child_wait (c : WindowsChild) : M ExitStatus :=
  scoped_all kernel (child_handles c)
    (match wc_reaped c with Some status => st_lift (ret status) | None => wait (wc_process c) end).

Definition unsupported {A} (op : string) : M A := st_lift (fail (error_new Unsupported NoCode op)).

Definition kill_tree (c : WindowsChild) (sig : Signal) : M unit :=
  if negb (bool_decide (sig = Kill)) then unsupported "kill_tree"
  else match wc_job c with Some job => terminate_job job | None => unsupported "kill_tree" end.

Definition kill_single (c : WindowsChild) (sig : Signal) : M unit :=
  if negb (bool_decide (sig = Kill)) then unsupported "kill_single" else terminate_process (wc_process c).

Definition child_try_wait (c : WindowsChild) : M (WindowsChild * option ExitStatus) :=
  match wc_reaped c with
  | Some status => st_lift (ret (c, Some status))
  | None =>
    st! r := try_wait (wc_process c) in
    st_lift (ret (mkWindowsChild (wc_process c) (wc_job c) (wc_pid c) r (wc_pipes c), r))
  end.

Definition wait_job (c : WindowsChild) : M ExitStatus := unsupported "wait_job".
Definition try_wait_job (c : WindowsChild) : M (option ExitStatus) := unsupported "try_wait_job".

Definition take_pipe (i : nat) (c : WindowsChild) : WindowsChild * option Z :=
  (mkWindowsChild (wc_process c) (wc_job c) (wc_pid c) (wc_reaped c) (<[i := None]> (wc_pipes c)),
   mjoin (wc_pipes c !! i)).

(** [WindowsGroupHandle]. *)
Record GroupHandle := mkGroupHandle { gh_process : Z; gh_job : Z }.
Definition group_kill_tree (g : GroupHandle) (sig : Signal) : M unit :=
  if negb (bool_decide (sig = Kill)) then unsupported "kill_tree" else terminate_job (gh_job g).
Definition group_kill_single (g : GroupHandle) (sig : Signal) : M unit :=
  if negb (bool_decide (sig = Kill)) then unsupported "kill_single" else terminate_process (gh_process g).

(** ** [process.rs]: the spawner *)

Fixpoint try_extensions (base : OsString) (exts : list OsString) (k : K) : option OsString :=
  match exts with
  | [] => None
  | ext :: exts => if is_file host (base ++ ext) k then Some (base ++ ext) else try_extensions base exts k
  end.

Definition extensions (pathext : OsString) : list OsString :=
  List.filter (fun e => negb (bool_decide (e = []))) (map trim (Prelude.split_char 59 (lossy_units pathext))).

Definition resolve_with_pathext (base pathext : OsString) (k : K) : option OsString :=
  if has_extension base && is_file host base k then Some base
  else try_extensions base (extensions pathext) k.

Fixpoint search_path (program pathext : OsString) (dirs : list OsString) (k : K) : option OsString :=
  match dirs with
  | [] => None
  | dir :: dirs =>
    if bool_decide (dir = []) then search_path program pathext dirs k
    else
      match resolve_with_pathext (path_join dir program) pathext k with
      | Some hit => Some hit
      | None => search_path program pathext dirs k
      end
  end.

(** An absolute path holds a separator. *)
Definition is_pathy (program : OsString) : bool := existsb is_sep program.

Definition resolve (program : OsString) : M OsString := fun w =>
  let k := state w in
  let not_found := fail (with_path (error_new NotFound NoCode "resolve") program) in
  (w, if bool_decide (program = []) then fail (with_path (error_new InvalidInput NoCode "resolve") program)
      else
        let pathext := default DEFAULT_PATHEXT (var_os host (lit "PATHEXT") k) in
        let hit :=
          if is_pathy program then resolve_with_pathext program pathext k
          else p ← var_os host (lit "PATH") k; search_path program pathext (split_paths p) k in
        match hit with Some hit => ret hit | None => not_found end).

(** [winargv::build_command_line]. *)
Definition build_command_line (program : OsString) (args : list OsString) : Result (list Z) :=
  match Quoting.build_command_line_wide program args with
  | Ok line => Ok line
  | Err e => Err (with_path e program)
  end.

Definition is_join (g : GroupSpec) : bool := match g with JoinGroup _ => true | _ => false end.
Definition is_new (g : GroupSpec) : bool := match g with NewGroup => true | _ => false end.

Definition spawner_spawn (cmd : Command) : M WindowsChild :=
  if is_join (c_group cmd) then unsupported "spawn: GroupSpec::JoinGroup"
  else if detached cmd && is_new (c_group cmd) then unsupported "spawn: detach with GroupSpec::NewGroup"
  else
    st! resolved := resolve (program cmd) in
    st! line := st_lift (Done (build_command_line resolved (argv cmd))) in
    st! sp := spawn line (cwd cmd) (c_env cmd) [c_stdin cmd; c_stdout cmd; c_stderr cmd]
                (is_new (c_group cmd)) (detached cmd) in
    st_lift (ret (mkWindowsChild (sp_process sp) (sp_job sp) (sp_pid sp) None (sp_pipes sp))).

Definition spawner_adopt (pid : Z) : M GroupHandle :=
  st! (process, job) := adopt pid in st_lift (ret (mkGroupHandle process job)).
Definition spawner_is_alive (pid : Z) : M bool := is_alive pid.
Definition spawner_is_zombie (pid : Z) : M bool := unsupported "is_zombie".

(** ** [wait_any]: the children are part of the state, all this backend's *)

Abbreviation Table := (World K * list WindowsChild)%type.

Definition try_wait_at (i : nat) (s : Table) : Table * Run (option ExitStatus) :=
  match snd s !! i with
  | None => (s, Panic)
  | Some c =>
    match child_try_wait c (fst s) with
    | (w, ret (c', r)) => ((w, <[i := c']> (snd s)), ret r)
    | (w, fail e) => ((w, snd s), fail e)
    | (w, Panic) => ((w, snd s), Panic)
    | (w, OutOfFuel) => ((w, snd s), OutOfFuel)
    end
  end.

Definition on_world {A} (m : M A) (s : Table) : Table * Run A :=
  let (w, r) := m (fst s) in ((w, snd s), r).

Definition native_wait_any (fuel : nat) (timeout : option Z) (s : Table) : Table * Run (option nat) :=
  match snd s with
  | [] => (s, fail (error_new InvalidInput NoCode "wait_any"))
  | _ =>
    match scan try_wait_at 0 (seq 0 (length (snd s))) s with
    | (s, ret (Some i)) => (s, ret (Some i))
    | (s, ret None) =>
      (st! hit := on_world (wait_many fuel (map wc_process (snd s)) timeout) in
       match hit with
       | Some index => st! _ := try_wait_at index in st_lift (ret (Some index))
       | None => st_lift (ret None)
       end) s
    | (s, r) => (s, r)
    end
  end.
End processes.

(** ** Handles: each one opened is returned or closed once *)

Definition spawned_handles (sp : Spawned) : list Z :=
  sp_process sp :: option_list (sp_job sp) ++ omap id (sp_pipes sp).

Section ownership.
Context {K : Type} (kernel : Call -> K -> K * Ret) (host : Host K) (file_handle : nat -> option Z).
Implicit Types h : gmultiset Z.

Hint Resolve owns_last_win32_err : owns.
Hint Extern 2 (owns _ (win_call _ _ _ _) _ _) => apply owns_win_call; [reflexivity|reflexivity] : owns.

Lemma fds_one x h : fds [x] ⊎ h = {[+ x +]} ⊎ h.
Proof. by rewrite list_to_set_disj_cons, list_to_set_disj_nil, (right_id_L ∅ (⊎)). Qed.

(** A call that returns one handle when it is valid. *)
Lemma owns_new_handle {A} h c (k bad : Ret -> World K -> World K * Run A) Q E :
  released c = None -> (forall r, acquired (c, r) = handles [rv r]) ->
  (forall r, owns ({[+ rv r +]} ⊎ h) (k r) Q E) -> (forall r, owns h (bad r) Q E) ->
  owns h (st! r := syscall kernel c in if valid_handle (rv r) then k r else bad r) Q E.
Proof.
  intros Hc Ha Hk Hb. eapply owns_bind; [by apply owns_syscall|]. intros r. cbv beta.
  rewrite Ha, handles_one, (comm_L (⊎)). destruct (valid_handle (rv r)).
  - rewrite fds_one. apply Hk.
  - rewrite list_to_set_disj_nil, (left_id_L ∅ (⊎)). apply Hb.
Qed.

Lemma owns_new_handle' {A} h c (k bad : Ret -> World K -> World K * Run A) Q E :
  released c = None -> (forall r, acquired (c, r) = handles [rv r]) ->
  (forall r, owns ({[+ rv r +]} ⊎ h) (k r) Q E) -> (forall r, owns h (bad r) Q E) ->
  owns h (st! r := syscall kernel c in if negb (valid_handle (rv r)) then bad r else k r) Q E.
Proof.
  intros Hc Ha Hk Hb w w' r. pose proof (owns_new_handle h c k bad Q E Hc Ha Hk Hb w w' r) as H.
  unfold st_bind in *. destruct (syscall kernel c w) as [w1 [[x|]| |]]; [|auto..].
  by destruct (valid_handle (rv x)).
Qed.

Lemma owns_inheritable_nul h b : owns h (inheritable_nul kernel b) (fun fd => {[+ fd +]} ⊎ h) h.
Proof. unfold inheritable_nul. apply owns_new_handle; [done|done|intros r..]; [by apply owns_ret|eauto with owns]. Qed.

(** A new pipe, of which the code checks both ends. *)
Lemma owns_new_pipe {A} h inherit op e (k : Z -> Z -> World K -> World K * Run A) Q :
  (forall r w, owns (fds [r; w] ⊎ h) (k r w) Q h) ->
  owns h (st! r := win_call kernel (w_create_pipe inherit) op [] in
          if negb (valid_handle (nth 0 (out_ints r) 0)) then st_lift (fail e)
          else if negb (valid_handle (nth 1 (out_ints r) 0)) then owned kernel (nth 0 (out_ints r) 0) (st_lift (fail e))
          else k (nth 0 (out_ints r) 0) (nth 1 (out_ints r) 0)) Q h.
Proof.
  intros Hk. unfold win_call. eapply (owns_bind _ _ _ (fun r =>
    (if valid_handle (nth 0 (out_ints r) 0) then fds (handles (take 2 (out_ints r))) else ∅) ⊎ h)).
  - eapply owns_bind; [by apply owns_syscall|]. intros r. cbv beta. cbn [acquired fst snd].
    destruct (rv r =? 0); cbn [negb orb].
    + rewrite list_to_set_disj_nil, (right_id_L ∅ (⊎)). apply owns_last_win32_err.
    + apply owns_ret. destruct (valid_handle (nth 0 (out_ints r) 0)); cbn [negb];
        by rewrite (comm_L (⊎)).
  - intros r. cbv beta. destruct (valid_handle (nth 0 _ 0)) eqn:E0; cbn [negb].
    2: { rewrite (left_id_L ∅ (⊎)). apply owns_fail. }
    destruct (out_ints r) as [|rd [|wt rest]]; [done|..]; cbn [nth take] in *.
    + rewrite handles_one, E0, fds_one. apply owns_owned, owns_fail.
    + unfold handles. cbn [List.filter]. rewrite E0. destruct (valid_handle wt); cbn [negb]; [apply Hk|].
      rewrite fds_one. apply owns_owned, owns_fail.
Qed.

Lemma win_owns_make_pipe h b : owns h (make_pipe kernel b) (fun p => fds [fst p; snd p] ⊎ h) h.
Proof.
  apply (owns_new_pipe h true "CreatePipe" (error_new Other NoCode "CreatePipe") (fun rd wt =>
    let (child, parent) := if b then (rd, wt) else (wt, rd) in
    owned kernel child (owned kernel parent
      (st! _ := win_call kernel (w_set_inherit parent 0) "SetHandleInformation" [] in
       st_lift (ret (child, parent)))))). intros rd wt.
  assert (forall c p, [rd; wt] ≡ₚ [p; c] -> owns (fds [rd; wt] ⊎ h)
    (owned kernel c (owned kernel p
      (st! _ := win_call kernel (w_set_inherit p 0) "SetHandleInformation" [] in
       st_lift (ret (c, p))))) (fun q => fds [fst q; snd q] ⊎ h) h) as Hend.
  { intros c p Hp. apply owns_owned, owns_owned.
    assert (fds [rd; wt] ⊎ h = {[+ p +]} ⊎ ({[+ c +]} ⊎ h)) as ->.
    { rewrite (list_to_set_disj_perm _ _ Hp), list_to_set_disj_cons, <- (assoc_L (⊎)). f_equal. apply fds_one. }
    apply (owns_bind _ _ _ (fun _ => {[+ p +]} ⊎ ({[+ c +]} ⊎ h))); [owns_go|]. intros _. apply owns_ret. cbn [fst snd].
    rewrite list_to_set_disj_cons, <- (assoc_L (⊎)), fds_one, !(assoc_L (⊎)). f_equal. apply (comm_L (⊎)). }
  destruct b; apply Hend; [apply perm_swap|done].
Qed.

Lemma owns_dup_of_file h f :
  owns h (inheritable_dup_of_file kernel file_handle f) (fun fd => {[+ fd +]} ⊎ h) h.
Proof.
  unfold inheritable_dup_of_file. destruct (file_handle f); [apply owns_duplicate|apply owns_fail].
Qed.

Lemma owns_dup_of_std h s :
  owns h (inheritable_dup_of_std kernel s) (fun o => fds (option_list o) ⊎ h) h.
Proof.
  unfold inheritable_dup_of_std. eapply owns_bind; [by apply owns_neutral|]. intros r. cbv beta.
  assert (fds (option_list None) ⊎ h = h) as Hn by apply (left_id_L ∅ (⊎)).
  destruct (negb _); [by apply owns_ret|]. unfold win_call.
  eapply (owns_bind _ _ _ (fun d => fds (handles [out_int d]) ⊎ h)).
  - eapply owns_bind; [by apply owns_syscall|]. intros d. cbv beta. cbn [acquired fst snd].
    destruct (rv d =? 0).
    + rewrite list_to_set_disj_nil, (right_id_L ∅ (⊎)). apply owns_last_win32_err.
    + apply owns_ret. apply (comm_L (⊎)).
  - intros d. apply owns_ret. rewrite handles_one. by destruct (valid_handle (out_int d)).
Qed.

Lemma held_add sl c p :
  held_slots (add_slot sl c p) ≡ₚ option_list c ++ option_list p ++ held_slots sl.
Proof.
  unfold held_slots, add_slot. cbn. rewrite !omap_app.
  assert (forall o : option Z, omap id [o] = option_list o) as E by (intros []; done).
  rewrite !E. solve_Permutation.
Qed.

Lemma slot_end h sl c p :
  fds (option_list c) ⊎ (fds (option_list p) ⊎ (fds (held_slots sl) ⊎ h)) = fds (held_slots (add_slot sl c p)) ⊎ h.
Proof. by rewrite (list_to_set_disj_perm _ _ (held_add sl c p)), !list_to_set_disj_app, <- !(assoc_L (⊎)). Qed.

Lemma slot_end1 h sl (c : Z) :
  {[+ c +]} ⊎ (fds (held_slots sl) ⊎ h) = fds (held_slots (add_slot sl (Some c) None)) ⊎ h.
Proof. rewrite <- slot_end. unfold option_list; cbn [option_rect]. by rewrite fds_one, list_to_set_disj_nil, (left_id_L ∅ (⊎)). Qed.

Lemma owns_fill_slot h slot spec sl :
  owns (fds (held_slots sl) ⊎ h) (fill_slot kernel file_handle slot spec sl)
    (fun sl' => fds (held_slots sl') ⊎ h) h.
Proof.
  unfold fill_slot. destruct spec as [| | |f].
  - eapply owns_or_bail; [apply owns_dup_of_std|]. intros o. apply owns_ret.
    rewrite <- slot_end. unfold option_list; cbn [option_rect]. by rewrite list_to_set_disj_nil, (left_id_L ∅ (⊎)).
  - eapply owns_or_bail; [apply owns_inheritable_nul|]. intros c. apply owns_ret. by rewrite slot_end1.
  - eapply owns_or_bail; [apply win_owns_make_pipe|]. intros [c p]. apply owns_ret. cbn [fst snd].
    rewrite <- slot_end. unfold option_list; cbn [option_rect]. rewrite (assoc_L (⊎)), <- list_to_set_disj_app. done.
  - eapply owns_or_bail; [apply owns_dup_of_file|]. intros c. apply owns_ret. by rewrite slot_end1.
Qed.

Lemma owns_fill_slots h slots : forall sl,
  owns (fds (held_slots sl) ⊎ h) (fill_slots kernel file_handle slots sl)
    (fun sl' => fds (held_slots sl') ⊎ h) h.
Proof.
  induction slots as [|[slot spec] slots IH]; intros sl; cbn [fill_slots]; [by apply owns_ret|].
  eapply owns_bind; [apply owns_fill_slot|intros sl'; apply IH].
Qed.

Lemma owns_job h : owns h (create_kill_on_close_job kernel) (fun j => {[+ j +]} ⊎ h) h.
Proof.
  unfold create_kill_on_close_job. apply owns_new_handle'; [done|done|intros r..]; [|eauto with owns].
  apply owns_owned. owns_go.
Qed.

Lemma owns_assign h j p : owns h (assign_to_job kernel j p) (fun _ => h) h.
Proof. unfold assign_to_job. owns_go. Qed.
Lemma owns_resume h t : owns h (resume_thread kernel t) (fun _ => h) h.
Proof. unfold resume_thread. owns_go. Qed.
Lemma owns_terminate_process h p : owns h (terminate_process kernel p) (fun _ => h) h.
Proof. unfold terminate_process. owns_go. Qed.
Lemma owns_terminate_job h p : owns h (terminate_job kernel p) (fun _ => h) h.
Proof. unfold terminate_job. owns_go. Qed.
Hint Resolve owns_job owns_assign owns_resume owns_terminate_process owns_terminate_job : owns.

Lemma owns_group_child h p t : owns h (group_child kernel p t) (fun j => {[+ j +]} ⊎ h) h.
Proof.
  unfold group_child. eapply owns_bind; [apply owns_job|]. intros j. apply owns_owned.
  eapply owns_bind; [apply owns_assign|]. intros [].
  eapply (owns_bind _ _ _ (fun _ => {[+ j +]} ⊎ h)); [owns_go|]. intros []. by apply owns_ret.
Qed.

Lemma owns_exit_code h p : owns h (exit_code kernel p) (fun _ => h) h.
Proof. unfold exit_code. owns_go. Qed.
Hint Resolve owns_exit_code : owns.
Lemma owns_pause {A} h d (m : World K -> World K * Run A) Q E :
  owns h m Q E -> owns h (fun w => m (pause host d w)) Q E.
Proof. intros Hm w w' r H. exact (Hm _ _ _ H). Qed.
Lemma owns_wait h p : owns h (wait kernel p) (fun _ => h) h.
Proof. unfold wait. owns_go. Qed.

Lemma owns_adopt h pid : owns h (adopt kernel pid) (fun pj => fds [fst pj; snd pj] ⊎ h) h.
Proof.
  unfold adopt. apply owns_new_handle'; [done|done|intros r..]; [|eauto with owns]. apply owns_owned.
  eapply owns_bind; [apply owns_job|]. intros j. apply owns_owned.
  eapply owns_bind; [apply owns_assign|]. intros []. apply owns_ret. cbn [fst snd].
  by rewrite list_to_set_disj_cons, <- (assoc_L (⊎)), fds_one, !(assoc_L (⊎)), (comm_L (⊎) {[+ j +]}).
Qed.

Lemma owns_is_alive h pid : owns h (is_alive kernel pid) (fun _ => h) h.
Proof.
  unfold is_alive. apply owns_new_handle'; [done|done|intros r..]; [apply owns_scoped; owns_go|].
  intros w w' r'. intros [= <- <-]. exists []. by rewrite app_nil_r.
Qed.

(** A release that ends the scope of [l], with whatever else is owned. *)
Lemma owns_dropping {A} h l (a : A) (Q : A -> _) E : Q a = h ->
  owns (fds l ⊎ h) (fun w => (drop_fds kernel l w, ret a)) Q E.
Proof.
  intros HQ w w' r [= <- <-]. destruct (drop_fds_log kernel l w) as (l' & Hl & HT). exists l'.
  split; [done|]. intros Hr. cbn [held]. rewrite HQ. apply HT.
Qed.

Lemma owns_on_error {A C} h (m : World K -> World K * Run A) (c : World K -> World K * Run C) Q E :
  owns h m Q E -> owns E c (fun _ => E) E -> (forall w, snd (c w) <> OutOfFuel) ->
  owns h (on_error m c) Q E.
Proof.
  intros Hm Hc Hf. refine (owns_cleanup _ _ _ (fun a => st_lift (ret a)) _ _ _ Hm Hc Hf _).
  intros a. by apply owns_ret.
Qed.

Lemma terminate_returns p w : snd (terminate_process kernel p w) <> OutOfFuel.
Proof.
  unfold terminate_process, win_call, st_bind, syscall, last_win32_err, st_lift.
  destruct (kernel _ _). by destruct (rv r =? 0).
Qed.

Lemma owns_finish h p t pid g sl :
  owns (fds (handles [t] ++ p :: held_slots sl) ⊎ h) (finish_spawn kernel p t pid g sl)
    (fun sp => fds (spawned_handles sp) ⊎ h) h.
Proof.
  unfold finish_spawn. cbv zeta.
  assert (handles [t] ++ p :: held_slots sl
    ≡ₚ (handles [t] ++ omap id (slot_handles sl)) ++ p :: omap id (parent_pipes sl)) as Hp.
  { unfold held_slots. solve_Permutation. }
  destruct g; cbn [negb].
  - eapply owns_or_bail.
    + apply owns_on_error; [apply owns_group_child|eauto with owns|apply terminate_returns].
    + intros j. rewrite (list_to_set_disj_perm _ _ Hp), list_to_set_disj_app, !(assoc_L (⊎)).
      rewrite (comm_L (⊎) {[+ j +]}), <- !(assoc_L (⊎)). apply owns_dropping.
      unfold spawned_handles, option_list. cbn [sp_process sp_job sp_pipes option_rect app].
      rewrite !list_to_set_disj_cons. multiset_solver.
  - eapply owns_perm; [symmetry; exact Hp|].
    rewrite list_to_set_disj_app, <- (assoc_L (⊎)). by apply owns_dropping.
Qed.

Lemma win_owns_spawn h line cwd env stdio g d :
  owns h (spawn kernel file_handle line cwd env stdio g d) (fun sp => fds (spawned_handles sp) ⊎ h) h.
Proof.
  unfold spawn. eapply (owns_bind _ _ _ (fun sl => fds (held_slots sl) ⊎ h)).
  { destruct (existsb _ stdio).
    - pose proof (owns_fill_slots h (zip STD_SLOTS stdio) (mkSlots [] [])) as H.
      eapply owns_eq; [exact H| |done|done]. apply (left_id_L ∅ (⊎)).
    - apply owns_ret. apply (left_id_L ∅ (⊎)). }
  intros sl. eapply owns_bind; [by apply owns_syscall|]. intros r. cbv beta. cbn [acquired fst snd].
  destruct (rv r =? 0); cbn [orb].
  { rewrite list_to_set_disj_nil, (right_id_L ∅ (⊎)). intros w. apply owns_bail. }
  cbv zeta. destruct (valid_handle (nth 0 (out_ints r) 0)) eqn:E0; cbn [negb].
  2: { rewrite list_to_set_disj_nil, (right_id_L ∅ (⊎)). apply owns_bail. }
  eapply owns_eq; [apply (owns_finish h)| |done|done].
  destruct (out_ints r) as [|p [|t rest]]; [done|..]; cbn [nth take] in *;
    unfold handles; cbn [List.filter]; rewrite E0; [|destruct (valid_handle t)]; cbn [app valid_handle Z.eqb negb andb];
    rewrite !list_to_set_disj_cons; multiset_solver.
Qed.
End ownership.

(** ** What [spawn] does to the new child, in order *)

Inductive Step := Created (process : Z) (suspended : bool) | Limited (job limits : Z)
  | Assigned (job process : Z) | Resumed (thread : Z) | Killed (process : Z).

(** The calls that succeeded; of [TerminateProcess], the attempt. *)
Definition step_of (e : Call * Ret) : option Step :=
  let r := snd e in
  match fst e with
  | w_create_process _ _ flags _ _ _ =>
    if (rv r =? 0) || negb (valid_handle (nth 0 (out_ints r) 0)) then None
    else Some (Created (nth 0 (out_ints r) 0) (Z.testbit flags 2))
  | w_set_job_limits job limits => if rv r =? 0 then None else Some (Limited job limits)
  | w_assign_process job process => if rv r =? 0 then None else Some (Assigned job process)
  | w_resume_thread thread => if rv r =? U32_MAX then None else Some (Resumed thread)
  | w_terminate_process process _ => Some (Killed process)
  | _ => None
  end.
Definition steps (l : list (Call * Ret)) : list Step := omap step_of l.

Lemma steps_app l1 l2 : steps (l1 ++ l2) = steps l1 ++ steps l2.
Proof. apply omap_app. Qed.

(** ** A piece of code seen through some of its calls

    [view] picks what is of interest in a log; closing a handle is not. *)
Section view.
Context {K : Type} (kernel : Call -> K -> K * Ret) {X : Type} (view : Call * Ret -> option X).
Context (closes : forall fd r, view (c_close fd, r) = None).
Abbreviation M A := (World K -> World K * Run A).
Abbreviation seen l := (omap view l).

(** [m] does nothing of interest, and comes back. *)
Definition quiet {A} (m : M A) : Prop :=
  traces m (fun l r => seen l = [] /\ match r with Done _ => True | _ => False end).

Lemma seen_cons c r l : seen ((c, r) :: l) = match view (c, r) with Some x => x :: seen l | None => seen l end.
Proof. done. Qed.

Lemma quiet_lift {A} (r : Result A) : quiet (st_lift (Done r)).
Proof. by apply traces_lift. Qed.

Lemma quiet_sys {A} c (k : Ret -> M A) :
  (forall r, view (c, r) = None) -> (forall r, quiet (k r)) -> quiet (st! r := syscall kernel c in k r).
Proof.
  intros Hc Hk. apply traces_sys. intros r. eapply traces_weaken; [apply Hk|]. intros l x [Hl Hx].
  split; [|done]. by rewrite seen_cons, Hc.
Qed.

Lemma quiet_bind {A B} (m : M A) (k : A -> M B) :
  quiet m -> (forall a, quiet (k a)) -> quiet (st_bind m k).
Proof.
  intros Hm Hk. eapply traces_bind; [exact Hm| |].
  - intros l a [Hl _]. eapply traces_weaken; [apply Hk|]. intros l2 r [Hl2 Hr].
    rewrite omap_app, Hl, Hl2. done.
  - intros l [[a|e]| |] [Hl Hr] Hno; cbn; [by destruct (Hno a)|done..].
Qed.

Lemma drop_fds_seen fds (w : World K) :
  exists l, log (drop_fds kernel fds w) = log w ++ l /\ seen l = [].
Proof.
  destruct (drop_fds_closes kernel fds w) as (l & Hl & H). exists l. split; [done|]. clear Hl.
  induction H as [|[c r] l [fd Hc] _ IH]; [done|]. cbn in Hc. subst c. by rewrite seen_cons, closes.
Qed.

Lemma quiet_owned {A} fd (m : M A) : quiet m -> quiet (owned kernel fd m).
Proof.
  intros Hm. apply traces_owned. eapply traces_weaken; [exact Hm|]. intros l [[a|e]| |] [Hl Hr]; [done| |done..].
  intros rc. by rewrite omap_app, Hl, seen_cons, closes.
Qed.

(** [or_bail] of a quiet piece. *)
Lemma traces_or_quiet {A B} fds (m : M A) (k : A -> M B) (T : list (Call * Ret) -> Run B -> Prop) :
  quiet m ->
  (forall l e, seen l = [] -> T l (fail e)) ->
  (forall l a, seen l = [] -> traces (k a) (fun l2 => T (l ++ l2))) ->
  traces (or_bail kernel fds m k) T.
Proof.
  intros Hm Hf Hk w. destruct (Hm w) as (l & Hl & Hs & Hr). unfold or_bail, bail.
  destruct (m w) as [w1 [[a|e]| |]]; cbn [fst snd] in *; [| |done..].
  - destruct (Hk l a Hs w1) as (l2 & Hl2 & HT). exists (l ++ l2). by rewrite Hl2, Hl, app_assoc.
  - destruct (drop_fds_seen fds w1) as (l2 & Hl2 & Hs2). exists (l ++ l2).
    rewrite Hl2, Hl, app_assoc. split; [done|]. apply Hf. by rewrite omap_app, Hs, Hs2.
Qed.

Lemma quiet_or_bail {A B} fds (m : M A) (k : A -> M B) :
  quiet m -> (forall a, quiet (k a)) -> quiet (or_bail kernel fds m k).
Proof.
  intros Hm Hk. apply traces_or_quiet; [done|done|]. intros l a Hl.
  eapply traces_weaken; [apply Hk|]. intros l2 r [Hl2 Hr]. by rewrite omap_app, Hl, Hl2.
Qed.

Lemma quiet_last_err {A} op path : quiet (A := A) (last_win32_err op path).
Proof. intros w. exists []. by rewrite app_nil_r. Qed.

Lemma quiet_win_call c op path : (forall r, view (c, r) = None) -> quiet (win_call kernel c op path).
Proof.
  intros Hc. unfold win_call. apply quiet_sys; [done|]. intros r.
  destruct (rv r =? 0); [apply quiet_last_err|apply quiet_lift].
Qed.

Lemma quiet_on_error {A C} (m : M A) (c : M C) : quiet m -> quiet c -> quiet (on_error m c).
Proof.
  intros Hm Hc w. unfold on_error. destruct (Hm w) as (l & Hl & Hs & Hr).
  destruct (m w) as [w1 [[a|e]| |]]; cbn [fst snd] in *; [by exists l| |done..].
  destruct (Hc w1) as (l2 & Hl2 & Hs2 & _). destruct (c w1) as [w2 r2]. exists (l ++ l2).
  cbn [fst snd] in *. by rewrite Hl2, Hl, app_assoc, omap_app, Hs, Hs2.
Qed.

Lemma quiet_bail {A} l e : quiet (A := A) (bail kernel l e).
Proof. intros w. destruct (drop_fds_seen l w) as (l2 & Hl2 & Hs). by exists l2. Qed.
Lemma quiet_dropping {A} l (a : A) : quiet (fun w => (drop_fds kernel l w, ret a)).
Proof. intros w. destruct (drop_fds_seen l w) as (l2 & Hl2 & Hs). by exists l2. Qed.
End view.

(** [view] ignores a call: by computation, or by what is known of it. *)
Ltac quiet_go :=
  repeat first
    [ apply quiet_last_err | apply quiet_lift | apply quiet_bail; by auto | apply quiet_dropping; by auto
    | apply quiet_on_error | apply quiet_win_call; by auto
    | apply quiet_sys; [by auto|intros ?] | apply quiet_or_bail; [by auto| |intros ?]
    | apply quiet_bind; [|intros ?] | apply quiet_owned; [by auto|]
    | match goal with |- quiet _ (if ?b then _ else _) => destruct b
                    | |- quiet _ (match ?b with _ => _ end) => destruct b end ].

(** The calls that set up the streams. *)
Definition slot_call (c : Call) : bool :=
  match c with
  | w_create_file _ _ _ _ _ _ | w_create_pipe _ | w_set_inherit _ _ | w_get_std_handle _
  | w_duplicate_handle _ _ | c_close _ => true
  | _ => false
  end.

Lemma quiet_fill_slots {K X} (kernel : Call -> K -> K * Ret) (view : Call * Ret -> option X) file_handle slots :
  (forall c r, slot_call c = true -> view (c, r) = None) ->
  forall sl, quiet view (fill_slots kernel file_handle slots sl).
Proof.
  intros Hv. induction slots as [|[slot spec] slots IH]; intros sl; cbn [fill_slots]; [apply quiet_lift|].
  apply quiet_bind; [|apply IH].
  unfold fill_slot, inheritable_nul, inheritable_dup_of_std, inheritable_dup_of_file, duplicate, make_pipe.
  cbv zeta. quiet_go.
Qed.

Section order.
Context {K : Type} (kernel : Call -> K -> K * Ret) (file_handle : nat -> option Z).
Abbreviation M A := (World K -> World K * Run A).

Lemma drop_fds_steps fds (w : World K) :
  exists l, log (drop_fds kernel fds w) = log w ++ l /\ steps l = [].
Proof. by apply drop_fds_seen. Qed.

(** What [group_child] does: the steps of a success are fixed, a failure
    never resumed the child. *)
Definition confined (process : Z) (job : Z) (s : list Step) : Prop :=
  exists thread, s = [Limited job JOB_OBJECT_LIMIT_KILL_ON_JOB_CLOSE; Assigned job process; Resumed thread].
Definition not_resumed (s : list Step) : Prop := Forall (fun x => match x with Resumed _ => False | _ => True end) s.

(** [m] returns [a] after the steps [P a], or fails without resuming. *)
Definition stepping {A} (P : A -> list Step -> Prop) (l : list (Call * Ret)) (r : Run A) : Prop :=
  match r with ret a => P a (steps l) | fail _ => not_resumed (steps l) | _ => False end.

Lemma job_steps : traces (create_kill_on_close_job kernel)
  (stepping (fun job s => s = [Limited job JOB_OBJECT_LIMIT_KILL_ON_JOB_CLOSE])).
Proof.
  unfold create_kill_on_close_job, win_call. trace_step. cbv zeta.
  destruct (negb _); [intros w; exists []; rewrite app_nil_r; by repeat constructor|]. apply traces_owned.
  intros w. unfold st_bind, syscall, last_win32_err, st_lift. destruct (kernel _ _) as [k1 r1].
  eexists [(_, r1)]. destruct (rv r1 =? 0) eqn:E; (split; [done|]); cbn; [intros rc; unfold steps; cbn; rewrite E; constructor|].
  unfold steps. cbn. by rewrite E.
Qed.

Lemma assign_steps job p : traces (assign_to_job kernel job p) (stepping (fun _ s => s = [Assigned job p])).
Proof.
  intros w. unfold assign_to_job, win_call, st_bind, syscall, last_win32_err, st_lift. destruct (kernel _ _) as [k1 r1].
  eexists [(_, r1)]. destruct (rv r1 =? 0) eqn:E; (split; [done|]); unfold stepping, steps; cbn; rewrite E; by repeat constructor.
Qed.

Lemma resume_steps t : traces (resume_thread kernel t) (stepping (fun _ s => s = [Resumed t])).
Proof.
  intros w. unfold resume_thread, st_bind, syscall, last_win32_err, st_lift. destruct (kernel _ _) as [k1 r1].
  eexists [(_, r1)]. destruct (rv r1 =? U32_MAX) eqn:E; (split; [done|]); unfold stepping, steps; cbn; rewrite E; by repeat constructor.
Qed.

(** A step after others. *)
Lemma stepping_bind {A B} (m : M A) (k : A -> M B) P Q :
  traces m (stepping P) ->
  (forall a s, P a s -> not_resumed s) ->
  (forall a s, P a s -> traces (k a) (stepping (fun b s2 => Q b (s ++ s2)))) ->
  traces (st_bind m k) (stepping Q).
Proof.
  intros Hm Hn Hk. eapply traces_bind; [exact Hm| |].
  - intros l a Ha. cbn in Ha. eapply traces_weaken; [by apply Hk|]. intros l2 [[b|e]| |] H2; cbn in *; [| |done..].
    + by rewrite steps_app.
    + rewrite steps_app. apply Forall_app. split; [by eapply Hn|done].
  - intros l [[a|e]| |] HT Hno; cbn in *; [by destruct (Hno a)|done..].
Qed.

Lemma stepping_ret {A B} (m : M A) (b : B) P Q :
  traces m (stepping P) -> (forall a s, P a s -> Q b s) ->
  traces (st! _ := m in st_lift (ret b)) (stepping Q).
Proof.
  intros Hm Hk. eapply traces_bind; [exact Hm| |].
  - intros l a Ha. apply traces_lift. rewrite app_nil_r. by eapply Hk.
  - intros l [[a|e]| |] HT Hno; cbn in *; [by destruct (Hno a)|done..].
Qed.

Lemma stepping_owned {A} fd (m : M A) P : traces m (stepping P) -> traces (owned kernel fd m) (stepping P).
Proof.
  intros Hm. apply traces_owned. eapply traces_weaken; [exact Hm|].
  intros l [[a|e]| |] H; cbn in *; [done| |done..]. intros rc. rewrite steps_app.
  apply Forall_app. by split; [|constructor].
Qed.

Lemma group_child_steps p t : traces (group_child kernel p t) (stepping (confined p)).
Proof.
  unfold group_child. eapply stepping_bind; [apply job_steps|intros j s ->; by repeat constructor|].
  intros j s ->. apply stepping_owned.
  eapply stepping_bind; [apply assign_steps|intros _ s ->; by repeat constructor|]. intros _ s ->.
  eapply (stepping_ret _ _ (fun _ s => s = [Resumed t])); [|intros _ s ->; by exists t].
  destruct (valid_handle t); [apply resume_steps|apply traces_lift; constructor].
Qed.

Lemma suspended_flag env d : Z.testbit (creation_flags env true d) 2 = true.
Proof. by destruct env, d. Qed.

(** The outcome of a grouped [spawn]. *)
Definition grouped_outcome (l : list (Call * Ret)) (r : Run Spawned) : Prop :=
  match r with
  | ret sp => exists job s, sp_job sp = Some job /\ confined (sp_process sp) job s /\
      steps l = Created (sp_process sp) true :: s
  | fail _ => steps l = [] \/
      exists p s, steps l = Created p true :: s ++ [Killed p] /\ not_resumed s
  | _ => False
  end.

Lemma killed_after p (w : World K) : exists l, log (fst (terminate_process kernel p w)) = log w ++ l /\
  steps l = [Killed p].
Proof.
  unfold terminate_process, win_call, st_bind, syscall, last_win32_err, st_lift. destruct (kernel _ _) as [k1 r1].
  eexists [(_, r1)]. by destruct (rv r1 =? 0).
Qed.

Lemma finish_steps p t pid sl :
  traces (finish_spawn kernel p t pid true sl) (fun l r => match r with
    | ret sp => exists job, sp_process sp = p /\ sp_job sp = Some job /\ confined p job (steps l)
    | fail _ => exists s, steps l = s ++ [Killed p] /\ not_resumed s
    | _ => False
    end).
Proof.
  intros w. unfold finish_spawn, or_bail, on_error, bail. cbn [negb]. cbv zeta.
  destruct (group_child_steps p t w) as (l & Hl & HT).
  destruct (group_child kernel p t w) as [w1 [[j|e]| |]]; cbn [fst snd stepping] in *; [| |done..].
  - destruct (drop_fds_steps (handles [t] ++ omap id (slot_handles sl)) w1) as (l2 & Hl2 & Hs).
    exists (l ++ l2). cbn [fst snd]. rewrite Hl2, Hl, app_assoc. split; [done|]. exists j.
    rewrite steps_app, Hs, app_nil_r. done.
  - destruct (killed_after p w1) as (l2 & Hl2 & Hs2). destruct (terminate_process kernel p w1) as [w2 r2].
    cbn [fst] in *. cbv zeta.
    destruct (drop_fds_steps (handles [t] ++ p :: held_slots sl) w2) as (l3 & Hl3 & Hs3).
    exists (l ++ l2 ++ l3). cbn [fst snd]. rewrite Hl3, Hl2, Hl, !app_assoc. split; [done|].
    exists (steps l). by rewrite !steps_app, Hs2, Hs3, app_nil_r.
Qed.

Lemma spawn_steps line cwd env stdio d :
  traces (spawn kernel file_handle line cwd env stdio true d) grouped_outcome.
Proof.
  unfold spawn. eapply traces_bind with (T1 := fun l r => steps l = [] /\ match r with Done _ => True | _ => False end).
  { destruct (existsb _ stdio); [apply (quiet_fill_slots _ step_of); by intros []|apply (quiet_lift step_of)]. }
  2: { intros l [[a|e]| |] [Hl Hr] Hno; cbn; [by destruct (Hno a)|by left|done..]. }
  intros l sl [Hl _]. apply traces_sys. intros r w.
  assert (forall f e w, exists l2, log (drop_fds kernel f w) = log w ++ l2 /\
    ((rv r =? 0) || negb (valid_handle (nth 0 (out_ints r) 0)) = true ->
     grouped_outcome (l ++ (w_create_process (line ++ [0]) (existsb (fun s => negb (is_inherit s)) stdio)
       (creation_flags env true d) (env_block env) (to_wide_nul cwd)
       (if existsb (fun s => negb (is_inherit s)) stdio then Some (map (default 0) (slot_handles sl)) else None), r) :: l2)
       (fail e))) as Hbail.
  { intros f e w1. destruct (drop_fds_steps f w1) as (l2 & Hl2 & Hs2). exists l2. split; [done|]. intros E.
    left. rewrite steps_app, Hl. unfold steps in *. cbn [omap list_omap app]. unfold step_of at 1. cbn [fst snd].
    by rewrite E. }
  destruct (rv r =? 0) eqn:E0.
  { destruct (Hbail (held_slots sl) (win32_err (errno w) "CreateProcessW" cwd) w) as (l2 & Hl2 & H).
    exists l2. split; [done|]. by apply H. }
  cbv zeta. destruct (valid_handle (nth 0 (out_ints r) 0)) eqn:E1; cbn [negb].
  2: { destruct (Hbail (held_slots sl) (error_new Other NoCode "CreateProcessW") w) as (l2 & Hl2 & H).
       exists l2. split; [done|]. by apply H. }
  destruct (finish_steps (nth 0 (out_ints r) 0) (nth 1 (out_ints r) 0) (nth 2 (out_ints r) 0) sl w) as (l2 & Hl2 & HT).
  exists l2. split; [done|].
  match goal with |- grouped_outcome (l ++ ?e :: l2) _ =>
    assert (steps (l ++ e :: l2) = Created (nth 0 (out_ints r) 0) true :: steps l2) as Hs end.
  { rewrite steps_app, Hl. unfold steps. cbn [omap list_omap app]. unfold step_of at 1. cbn [fst snd].
    by rewrite E0, E1, suspended_flag. }
  unfold grouped_outcome. rewrite Hs. destruct (snd _) as [[sp|e]| |]; [| |done..].
  - destruct HT as (j & <- & ? & ?). by exists j, (steps l2).
  - right. destruct HT as (s & -> & ?). by eexists _, s.
Qed.
End order.

(** ** Properties *)

(** whatever the system answers, [spawn] ends owning exactly the handles
    of the child it returns (its process, its job, its pipe ends), and nothing
    new when it fails; [adopt] ends with the process and the job; [is_alive]
    and a [wait], which consumes the child, leave nothing open. *)
Theorem windows_spawn_handles {K} (kernel : Call -> K -> K * Ret) file_handle h line cwd env stdio g d pid c :
  owns h (spawn kernel file_handle line cwd env stdio g d) (fun sp => fds (spawned_handles sp) ⊎ h) h /\
  owns h (adopt kernel pid) (fun pj => fds [fst pj; snd pj] ⊎ h) h /\
  owns h (is_alive kernel pid) (fun _ => h) h /\
  owns (fds (child_handles c) ⊎ h) (child_wait kernel c) (fun _ => h) h.
Proof.
  split; [apply win_owns_spawn|]. split; [apply owns_adopt|]. split; [apply owns_is_alive|].
  unfold child_wait. apply owns_scoped_all. destruct (wc_reaped c); [by apply owns_ret|apply owns_wait].
Qed.

(** C13: a child that is to have its own group is created suspended; its job
    is limited to die with its handle, the child is put into it and only then
    resumed.  When [spawn] fails after the creation the child was never
    resumed and is terminated. *)
Theorem windows_group_confined {K} (kernel : Call -> K -> K * Ret) file_handle line cwd env stdio d w :
  exists l, log (fst (spawn kernel file_handle line cwd env stdio true d w)) = log w ++ l /\
  match snd (spawn kernel file_handle line cwd env stdio true d w) with
  | ret sp => exists job thread, sp_job sp = Some job /\
      steps l = [Created (sp_process sp) true; Limited job JOB_OBJECT_LIMIT_KILL_ON_JOB_CLOSE;
                 Assigned job (sp_process sp); Resumed thread]
  | fail _ => steps l = [] \/ exists p s, steps l = Created p true :: s ++ [Killed p] /\ not_resumed s
  | _ => False
  end.
Proof.
  destruct (spawn_steps kernel file_handle line cwd env stdio d w) as (l & Hl & H). exists l. split; [done|].
  destruct (snd _) as [[sp|e]| |]; [|done..]. destruct H as (job & s & Hj & [t ->] & Hs). by exists job, t.
Qed.
