(* ===== verification/WinLaunch.v ===== *)
(** * The Windows backend: what reaches a new process, and waiting for it

    The environment block read back, the command line the new process gets,
    the lookup of a program against the list of its candidates, and
    [wait_many] against the contract of [WaitForMultipleObjects].  The
    definitions are those of [WinProcess]. *)

From Stdlib Require Import ZArith Lia String.
From S2P Require Import Prelude Error Text Sys Fs Process Winargv WinFs WinProcess.
From stdpp Require Import base numbers list strings gmap gmultiset sorting.
Open Scope Z_scope.

(** ** The environment block, as the new process reads it *)

(** Strings that end in NUL, up to an empty one; a name ends at the first
    equals sign after its first unit. *)
Fixpoint block_strings (l cur : list Z) : list (list Z) :=
  match l with
  | [] => []
  | u :: l =>
    if u =? 0 then match cur with [] => [] | _ => cur :: block_strings l [] end
    else block_strings l (cur ++ [u])
  end.

Fixpoint break_eq (e : list Z) : list Z * list Z :=
  match e with
  | [] => ([], [])
  | u :: e => if u =? 61 then ([], e) else let (k, v) := break_eq e in (u :: k, v)
  end.

Definition entry_of (e : list Z) : OsString * OsString :=
  match e with
  | [] => ([], [])
  | u :: e => let (k, v) := break_eq e in (u :: k, v)
  end.

Definition read_block (block : list Z) : gmap (list Z) OsString :=
  list_to_map (map entry_of (block_strings block [])).

Definition entry_ok (kv : OsString * OsString) : Prop :=
  fst kv <> [] /\ no_nul (fst kv) /\ no_nul (snd kv) /\ Forall (fun u => u <> 61) (tl (fst kv)).

#[export] Instance entry_ok_dec kv : Decision (entry_ok kv).
Proof. unfold entry_ok, no_nul. apply _. Defined.

Lemma break_eq_text k v : Forall (fun u => u <> 61) k -> break_eq (k ++ 61 :: v) = (k, v).
Proof.
  induction 1 as [|u k Hu _ IH]; cbn [app break_eq]; [done|].
  apply Z.eqb_neq in Hu. by rewrite Hu, IH.
Qed.

Lemma entry_of_text k v : entry_ok (k, v) -> entry_of (k ++ [61] ++ v) = (k, v).
Proof.
  intros (Hk & _ & _ & He). destruct k as [|u k]; [done|]. cbn [fst tl] in He.
  cbn [app entry_of]. by rewrite (break_eq_text k v He).
Qed.

Lemma block_strings_text s : no_nul s -> forall cur rest, cur ++ s <> [] ->
  block_strings (s ++ 0 :: rest) cur = (cur ++ s) :: block_strings rest [].
Proof.
  unfold no_nul. induction 1 as [|u s Hu _ IH]; intros cur rest Hne; cbn [app block_strings].
  - rewrite Z.eqb_refl, app_nil_r in *. by destruct cur.
  - apply Z.eqb_neq in Hu. rewrite Hu, IH by (by destruct cur). by rewrite <- app_assoc.
Qed.

Lemma read_env_text l : Forall entry_ok l ->
  map entry_of (block_strings (env_text l ++ [0]) []) = l.
Proof.
  induction 1 as [|[k v] l Hkv _ IH]; [done|]. cbn [env_text map concat fst snd].
  pose proof Hkv as (Hk & Hnk & Hnv & _). cbn [fst snd] in *.
  assert (((k ++ [61] ++ v ++ [0]) ++ concat (map (fun kv => fst kv ++ [61] ++ snd kv ++ [0]) l)) ++ [0]
    = (k ++ [61] ++ v) ++ 0 :: (env_text l ++ [0])) as ->.
  { unfold env_text. by repeat (rewrite <- app_assoc; cbn [app]). }
  rewrite block_strings_text.
  - cbn [map app]. rewrite IH. f_equal. by apply entry_of_text.
  - apply Forall_app_2; [done|]. by constructor.
  - cbn [app]. by destruct k.
Qed.

(** ** The lookup, against the list of what it may find *)

Definition candidates_at (pathext base : OsString) : list OsString :=
  (if has_extension base then [base] else []) ++ map (app base) (extensions pathext).

Definition candidates (program pathext : OsString) (path : option OsString) : list OsString :=
  if is_pathy program then candidates_at pathext program
  else concat (map (fun dir => candidates_at pathext (path_join dir program))
    (List.filter (fun dir => negb (bool_decide (dir = []))) (default [] (split_paths <$> path)))).

Lemma find_app {A} (p : A -> bool) l1 l2 :
  find p (l1 ++ l2) = match find p l1 with Some x => Some x | None => find p l2 end.
Proof. induction l1 as [|x l1 IH]; cbn; [done|]. by destruct (p x). Qed.

Section lookup.
Context {K : Type} (host : Host K).

Lemma try_extensions_find base exts k :
  try_extensions host base exts k = find (fun p => is_file host p k) (map (app base) exts).
Proof. induction exts as [|e exts IH]; cbn; [done|]. by destruct (is_file host (base ++ e) k). Qed.

Lemma resolve_with_pathext_find base pathext k :
  resolve_with_pathext host base pathext k = find (fun p => is_file host p k) (candidates_at pathext base).
Proof.
  unfold resolve_with_pathext, candidates_at. rewrite find_app, <- try_extensions_find.
  destruct (has_extension base); cbn; [|done]. by destruct (is_file host base k).
Qed.

Lemma search_path_find program pathext k dirs :
  search_path host program pathext dirs k = find (fun p => is_file host p k)
    (concat (map (fun dir => candidates_at pathext (path_join dir program))
      (List.filter (fun dir => negb (bool_decide (dir = []))) dirs))).
Proof.
  induction dirs as [|dir dirs IH]; cbn [search_path List.filter map concat]; [done|].
  destruct (bool_decide (dir = [])); cbn [negb map concat]; [done|].
  rewrite find_app, <- resolve_with_pathext_find, IH. done.
Qed.
End lookup.

(** ** The command line that reaches [CreateProcessW] *)

Definition line_of (e : Call * Ret) : option (list Z) :=
  match fst e with w_create_process line _ _ _ _ _ => Some line | _ => None end.

Section launch.
Context {K : Type} (kernel : Call -> K -> K * Ret) (host : Host K) (file_handle : nat -> option Z).

Lemma finish_quiet p t pid g sl : quiet line_of (finish_spawn kernel p t pid g sl).
Proof.
  unfold finish_spawn, group_child, create_kill_on_close_job, assign_to_job, resume_thread, terminate_process.
  cbv zeta. quiet_go.
Qed.

Lemma spawn_line line cwd env stdio g d :
  traces (spawn kernel file_handle line cwd env stdio g d) (fun l r =>
    omap line_of l = [line ++ [0]] \/ omap line_of l = [] /\ forall sp, r <> ret sp).
Proof.
  unfold spawn. eapply traces_bind with (T1 := fun l r => omap line_of l = [] /\ match r with Done _ => True | _ => False end).
  { destruct (existsb _ stdio); [apply (quiet_fill_slots _ line_of); by intros []|apply (quiet_lift line_of)]. }
  2: { intros l [[a|e]| |] [Hl Hr] Hno; [by destruct (Hno a)|by right|done..]. }
  intros l sl [Hl _]. apply traces_sys. intros r. cbv zeta.
  eapply traces_weaken; [instantiate (1 := fun l2 _ => omap line_of l2 = [])|].
  - assert (forall A (m : World K -> World K * Run A), quiet line_of m -> traces m (fun l2 _ => omap line_of l2 = [])) as Hq.
    { intros A m Hm. eapply traces_weaken; [exact Hm|]. by intros ? ? [? _]. }
    destruct (rv r =? 0); [intros w; by apply (Hq _ _ (quiet_bail kernel line_of (fun _ _ => eq_refl) _ _))|].
    destruct (negb _); apply Hq; [by apply quiet_bail|apply finish_quiet].
  - intros l2 x H. left. rewrite omap_app, Hl, seen_cons, H. done.
Qed.
End launch.

(** ** [wait_many] *)

(** The contract of [WaitForMultipleObjects] for at most 64 handles that stay
    open: the index of a signaled one, or, within a limit, that none was.
    A process handle stays signaled. *)
Class WaitsForHandles {K} (kernel : Call -> K -> K * Ret) (host : Host K) (signaled : K -> Z -> Prop) := {
  wait_answer chunk ms k : chunk <> [] -> (length chunk <= 64)%nat ->
    let (k', r) := kernel (w_wait_multiple chunk ms) k in
    (exists i h, rv r = Z.of_nat i /\ chunk !! i = Some h /\ signaled k' h) \/
    (rv r = WAIT_TIMEOUT /\ ms <> INFINITE /\ Forall (fun h => ~ signaled k h) chunk);
  wait_keeps chunk ms k h : signaled k h -> signaled (fst (kernel (w_wait_multiple chunk ms) k)) h;
  sleep_keeps d k h : signaled k h -> signaled (sleep host d k) h;
  wait_clock chunk ms k : now host k <= now host (fst (kernel (w_wait_multiple chunk ms) k));
  sleep_clock d k : now host k + d <= now host (sleep host d k);
}.

Section waiting.
Context {K : Type} {kernel : Call -> K -> K * Ret} {host : Host K} {signaled : K -> Z -> Prop}.
Context {HW : WaitsForHandles kernel host signaled}.
Implicit Types w : World K.

(** What a wait over [raw] that began in [w] may report. *)
Definition reports (raw : list Z) (w w' : World K) (o : option nat) : Prop :=
  match o with
  | Some i => exists h, raw !! i = Some h /\ signaled (state w') h
  | None => Forall (fun h => ~ signaled (state w) h) raw /\
      (forall h, signaled (state w) h -> signaled (state w') h) /\ now host (state w) <= now host (state w')
  end.

Lemma wait_chunk_reports chunk ms w : chunk <> [] -> (length chunk <= 64)%nat ->
  exists w' o, wait_chunk kernel chunk ms w = (w', ret o) /\ reports chunk w w' o /\ (o = None -> ms <> INFINITE).
Proof.
  intros Hne Hlen. unfold wait_chunk, st_bind, syscall, st_lift.
  pose proof (wait_answer chunk ms (state w) Hne Hlen) as H.
  pose proof (fun h => wait_keeps (kernel := kernel) (host := host) chunk ms (state w) h) as Hk.
  pose proof (wait_clock (kernel := kernel) (host := host) chunk ms (state w)) as Hc.
  destruct (kernel _ (state w)) as [k' r]. cbn [fst] in Hk, Hc.
  destruct H as [(i & h & Hi & Hh & Hs)|(Ht & Hms & Hn)].
  - pose proof (lookup_lt_Some _ _ _ Hh) as Hlt.
    assert ((rv r =? WAIT_TIMEOUT) = false) as -> by (apply Z.eqb_neq; unfold WAIT_TIMEOUT; lia).
    assert (wrap 32 (rv r - WAIT_OBJECT_0) = Z.of_nat i) as ->.
    { unfold WAIT_OBJECT_0, wrap. rewrite Hi, Z.sub_0_r. apply Z.mod_small. change (2 ^ 32) with 4294967296. lia. }
    rewrite (proj2 (Z.ltb_lt (Z.of_nat i) (Z.of_nat (length chunk)))), Nat2Z.id by lia.
    eexists _, (Some i). split; [done|]. split; [|done]. by exists h.
  - rewrite Ht. cbn. eexists _, None. split; [done|]. split; [|done]. split; [done|]. cbn. auto.
Qed.

Lemma sweep_reports fuel : forall raw base w, (length raw < fuel)%nat ->
  exists w' o, sweep kernel fuel raw base w = (w', ret o) /\
  match o with
  | Some j => exists i, j = (base + i)%nat /\ reports raw w w' (Some i)
  | None => reports raw w w' None
  end.
Proof.
  induction fuel as [|fuel IH]; intros raw base w Hf; [lia|]. destruct raw as [|h0 raw'].
  { exists w, None. split; [done|]. split; [done|]. split; [done|lia]. }
  set (raw := h0 :: raw') in *. cbn [sweep]. fold raw. change (match raw with [] => _ | _ => ?x end) with x.
  unfold st_bind.
  destruct (wait_chunk_reports (take MAXIMUM_WAIT_OBJECTS raw) 0 w) as (w1 & o & E & Hr & _);
    [done|rewrite length_take; unfold MAXIMUM_WAIT_OBJECTS; lia|]. rewrite E.
  destruct o as [i|].
  - exists w1, (Some (base + i)%nat). split; [done|]. exists i. split; [done|].
    destruct Hr as (h & Hh & Hs). exists h. split; [|done]. by apply lookup_take_Some in Hh as [? _].
  - destruct Hr as (Hn & Hk & Hc).
    destruct (IH (drop MAXIMUM_WAIT_OBJECTS raw) (base + MAXIMUM_WAIT_OBJECTS)%nat w1) as (w2 & o & E2 & Hr2).
    { rewrite length_drop. unfold raw in *. cbn [length] in *. unfold MAXIMUM_WAIT_OBJECTS. lia. }
    exists w2, o. split; [done|]. destruct o as [j|].
    + destruct Hr2 as (i & -> & h & Hh & Hs). exists (MAXIMUM_WAIT_OBJECTS + i)%nat. split; [lia|].
      exists h. split; [by rewrite lookup_drop in Hh|done].
    + destruct Hr2 as (Hn2 & Hk2 & Hc2). split; [|split; [auto|lia]].
      rewrite <- (take_drop MAXIMUM_WAIT_OBJECTS raw). apply Forall_app_2; [done|].
      eapply Forall_impl; [exact Hn2|]. auto.
Qed.

(** Ten milliseconds a round. *)
Lemma wait_many_loop_reports fuel raw deadline : forall w,
  match wait_many_loop kernel host fuel raw deadline w with
  | (w', ret o) => reports raw w w' o /\ (o = None -> deadline <> None)
  | (_, OutOfFuel) => (fuel = O \/ Forall (fun h => ~ signaled (state w) h) raw) /\
      (forall d, deadline = Some d -> fuel = O \/ Z.of_nat fuel * 10000000 < d - now host (state w) + 10000000)
  | _ => False
  end.
Proof.
  induction fuel as [|fuel IH]; intros w; [split; by left|]. cbn [wait_many_loop]. unfold st_bind at 1.
  destruct (sweep_reports (S (length raw)) raw 0 w) as (w1 & o & E & Hr); [lia|]. rewrite E.
  destruct o as [j|]; [destruct Hr as (i & -> & Hr); by split|]. destruct Hr as (Hn & Hk & Hc).
  pose proof (sleep_clock (kernel := kernel) (host := host) 10000000 (state w1)) as Hs.
  assert (match deadline with Some d => now host (state w1) < d | None => True end ->
    match wait_many_loop kernel host fuel raw deadline (pause host 10000000 w1) with
    | (w', ret o) => reports raw w w' o /\ (o = None -> deadline <> None)
    | (_, OutOfFuel) => (S fuel = O \/ Forall (fun h => ~ signaled (state w) h) raw) /\
        (forall d, deadline = Some d -> S fuel = O \/ Z.of_nat (S fuel) * 10000000 < d - now host (state w) + 10000000)
    | _ => False
    end) as Hnext.
  { intros Hd. specialize (IH (pause host 10000000 w1)).
    destruct (wait_many_loop _ _ _ _ _ _) as [w2 [[[i|]|e]| |]]; [done| |done..|]; unfold pause in IH; cbn [state] in IH.
    - destruct IH as [(Hn2 & Hk2 & Hc2) Hd2]. cbn [state] in Hc2. split; [|done]. split; [done|]. split; [|lia].
      intros h Hh. apply Hk2. by apply sleep_keeps, Hk.
    - destruct IH as [_ Hf]. split; [by right|]. intros d ->. right. destruct (Hf d eq_refl) as [->|?]; lia. }
  destruct deadline as [d|]; [|by apply Hnext]. destruct (d <=? now host (state w1)) eqn:Ed; bool_to_prop.
  - by split.
  - by apply Hnext.
Qed.
End waiting.

(** What a new process makes of its command line. *)
Definition child_line (resolved : OsString) (args : list OsString) (line : list Z) : Prop :=
  no_nul line /\
  (classify resolved = Executable -> program_ok resolved ->
   Split.model_split line = Some (resolved :: args)) /\
  (classify resolved = Batch -> exists text, line = arg_text resolved ++ text /\
   Cmd.cmd_args (length args) text = Some args /\
   Cmd.cmd_scan false text = (false, replicate (length args) SPACE)).

Lemma build_child_line resolved args line :
  build_command_line resolved args = Ok line -> child_line resolved args line.
Proof.
  unfold build_command_line. destruct (Quoting.build_command_line_wide resolved args) as [line'|] eqn:Eb; [|done].
  intros [= <-]. apply build_ok_inv in Eb as (Hline & Hnul & _). split; [done|]. split.
  - intros Hc Hp. rewrite Hline, Hc. by apply split_executable.
  - intros Hc. exists (batch_text args). rewrite Hline, Hc. split; [done|].
    split; [by apply cmd_args_text|apply cmd_scan_text].
Qed.

Lemma resolve_pure {K} (host : Host K) p w : exists r, resolve host p w = (w, Done r).
Proof. unfold resolve. destruct (bool_decide _); [eauto|]. case_match; eauto. Qed.

(** ** Properties *)

(** the new process reads back exactly the environment it was given,
    when no name is empty, no name or value holds a NUL and no name holds an
    equals sign past its first unit. *)
Theorem env_block_roundtrip (m : gmap (list Z) OsString) :
  map_Forall (fun k v => entry_ok (k, v)) m ->
  exists block, env_block (EnvExplicit m) = Some block /\ read_block block = m.
Proof.
  intros Hm.
  assert (env_entries m ≡ₚ map_to_list m) as Hp by apply merge_sort_Permutation.
  assert (Forall entry_ok (env_entries m)) as Hf.
  { rewrite Hp. by apply map_Forall_to_list in Hm; eapply Forall_impl; [exact Hm|intros []]. }
  assert (list_to_map (env_entries m) = m) as Hl.
  { rewrite <- (list_to_map_to_list m) at 2. apply list_to_map_proper; [|done].
    rewrite Hp. apply NoDup_fst_map_to_list. }
  eexists. split; [reflexivity|]. unfold read_block.
  destruct (zlen _ =? 1) eqn:E; bool_to_prop.
  - destruct (env_entries m) as [|[k v] l] eqn:El; [done|]. exfalso.
    rewrite length_app in E. cbn [env_text map concat fst snd length] in E. rewrite !length_app in E.
    cbn [length] in E. lia.
  - by rewrite read_env_text.
Qed.

Lemma env_block_roundtrip_witness :
  exists block, env_block (EnvExplicit {[lit "A" := lit "1"; lit "=C:" := lit "C:\x=y"; lit "Path" := []]}) = Some block /\
    read_block block = {[lit "A" := lit "1"; lit "=C:" := lit "C:\x=y"; lit "Path" := []]}.
Proof. apply env_block_roundtrip, (bool_decide_unpack _). by vm_compute. Defined.

(** A NUL in a value is not refused: what follows it is read as a variable. *)
Example env_value_injects :
  let m := {[lit "A" := lit "1" ++ 0 :: lit "PATH=C:\evil"]} : gmap (list Z) OsString in
  read_block (default [] (env_block (EnvExplicit m)))
  = {[lit "A" := lit "1"; lit "PATH" := lit "C:\evil"]}.
Proof. by vm_compute. Qed.

(** [resolve] gives the first file of its candidates: a name with a
    separator as it is (if it has an extension) and then with each extension
    of [PATHEXT]; another name so in each directory of [PATH], where an empty
    entry is passed over. *)
Theorem windows_resolve_first {K} (host : Host K) program w : program <> [] ->
  resolve host program w = (w,
    match find (fun p => is_file host p (state w))
      (candidates program (default DEFAULT_PATHEXT (var_os host (lit "PATHEXT") (state w)))
        (var_os host (lit "PATH") (state w))) with
    | Some hit => ret hit
    | None => fail (with_path (error_new NotFound NoCode "resolve") program)
    end).
Proof.
  intros Hne. unfold resolve, candidates. rewrite bool_decide_false by done.
  destruct (is_pathy program); [by rewrite resolve_with_pathext_find|].
  destruct (var_os host (lit "PATH") (state w)) as [p|]; [|done]. cbn [mbind option_bind default fmap option_fmap option_map].
  by rewrite search_path_find.
Qed.

Definition ex_files : list OsString := [lit "C:\bin\tool.EXE"; lit "C:\bin\tool"; lit "D:\x\tool.BAT"].
Definition ex_host : Host unit := {|
  now _ := 0; sleep _ k := k;
  var_os name _ := if bool_decide (name = lit "PATH") then Some (lit ";D:\x;C:\bin") else None;
  is_file p _ := bool_decide (p ∈ ex_files);
|}.

Lemma windows_resolve_first_witness :
  resolve ex_host (lit "tool") (mkWorld tt []) = (mkWorld tt [], ret (lit "D:\x\tool.BAT")).
Proof. rewrite windows_resolve_first by done. by vm_compute. Defined.

(** C12: [spawn] calls [CreateProcessW] at most once, and with a line that
    names the program [resolve] found and holds no NUL before its end.  For an
    executable (whose path, like that of any file there, holds no quote and
    does not end in a backslash) the MSVCRT rules split the line back into that
    program and the arguments of the command; for a batch file what follows the program reads
    back as the arguments and shows [cmd.exe] only spaces outside quotes. *)
Theorem windows_spawn_argv {K} (kernel : Call -> K -> K * Ret) host file_handle cmd w :
  let (w', r) := spawner_spawn kernel host file_handle cmd w in
  exists l, log w' = log w ++ l /\
  ((omap line_of l = [] /\ forall c, r <> ret c) \/
   exists resolved line, resolve host (program cmd) w = (w, ret resolved) /\
     omap line_of l = [line ++ [0]] /\ child_line resolved (argv cmd) line).
Proof.
  unfold spawner_spawn, unsupported, st_bind, st_lift.
  destruct (is_join _); [exists []; rewrite app_nil_r; auto|].
  destruct (_ && _); [exists []; rewrite app_nil_r; auto|].
  destruct (resolve_pure host (program cmd) w) as [[resolved|e] Er]; rewrite Er;
    [|exists []; rewrite app_nil_r; auto].
  destruct (build_command_line resolved (argv cmd)) as [line|e] eqn:Eb;
    [|exists []; rewrite app_nil_r; auto].
  apply build_child_line in Eb.
  match goal with |- context [spawn ?k ?f ?a ?b ?c ?d ?g ?h w] =>
    destruct (spawn_line k f a b c d g h w) as (l & Hl & HT); destruct (spawn k f a b c d g h w) as [w2 r2] end.
  cbn [fst snd] in *. destruct HT as [H|[H Hno]].
  - destruct r2 as [[sp|e]| |]; exists l; (split; [done|]); right; by exists resolved, line.
  - destruct r2 as [[sp|e]| |]; [by destruct (Hno sp)|..]; exists l; (split; [done|]); by left.
Qed.

(** C33: [wait_many] over one or more handles, in chunks of 64, reports a
    handle that is signaled, and a timeout only when none was signaled at the
    start; it does not fail.  It panics only when the deadline overflows, and
    goes on for ever only without a timeout and with nothing signaled: with one
    it is over after a round every ten milliseconds. *)
Theorem wait_many_correct {K} (kernel : Call -> K -> K * Ret) (host : Host K) signaled
    `{!WaitsForHandles kernel host signaled} fuel raw timeout w :
  raw <> [] ->
  match wait_many kernel host fuel raw timeout w with
  | (w', ret (Some i)) => exists h, raw !! i = Some h /\ signaled (state w') h
  | (_, ret None) => timeout <> None /\ Forall (fun h => ~ signaled (state w) h) raw
  | (_, fail _) => False
  | (_, Panic) => exists t, timeout = Some t /\ MAX_INSTANT <= now host (state w) + t
  | (_, OutOfFuel) => (fuel = O \/ Forall (fun h => ~ signaled (state w) h) raw) /\
      (forall t, timeout = Some t -> fuel = O \/ Z.of_nat fuel < t / 10000000 + 2)
  end.
Proof.
  intros Hne. unfold wait_many. destruct (Nat.leb (length raw) MAXIMUM_WAIT_OBJECTS) eqn:Hlen.
  - apply Nat.leb_le in Hlen.
    match goal with |- context [wait_chunk _ _ ?ms _] =>
      destruct (wait_chunk_reports raw ms w Hne Hlen) as (w' & o & -> & Hr & Ho) end.
    destruct o as [i|]; [done|]. destruct Hr as [Hn _]. split; [|done]. intros ->. by apply Ho.
  - pose proof (fun d => wait_many_loop_reports (signaled := signaled) fuel raw d w) as Hl.
    destruct timeout as [t|].
    + destruct (MAX_INSTANT <=? _) eqn:Em; bool_to_prop; [by exists t|].
      specialize (Hl (Some (now host (state w) + t))).
      destruct (wait_many_loop _ _ _ _ _ _) as [w' [[[i|]|e]| |]]; [by destruct Hl|by destruct Hl as [[? _] _]|done..|].
      destruct Hl as [H1 H2]. split; [done|]. intros t' [= <-].
      destruct (H2 _ eq_refl) as [?|H]; [by left|right].
      assert (Z.of_nat fuel - 1 < t / 10000000 + 1); [|lia].
      apply Z.mul_lt_mono_pos_r with 10000000; [lia|].
      pose proof (Z.div_mod t 10000000). pose proof (Z.mod_pos_bound t 10000000). lia.
    + specialize (Hl None).
      destruct (wait_many_loop _ _ _ _ _ _) as [w' [[[i|]|e]| |]];
        [by destruct Hl|destruct Hl as [_ H]; by destruct (H eq_refl)|done..|].
      destruct Hl as [H1 _]. by split.
Qed.

Definition answer (x : Z) : Ret := mkRet x 0 ONone.

(** Handle 7 is signaled; a wait without a limit on others lasts until all
    are. *)
Fixpoint first_signaled (all : bool) (chunk : list Z) : option nat :=
  match chunk with
  | [] => None
  | h :: chunk => if all || (h =? 7) then Some O else S <$> first_signaled all chunk
  end.
Definition ex_kernel (c : Call) (k : bool * Z) : (bool * Z) * Ret :=
  match c with
  | w_wait_multiple chunk ms =>
    match first_signaled (fst k) chunk with
    | Some i => (k, answer (Z.of_nat i))
    | None => if ms =? INFINITE then ((true, snd k), answer 0) else (k, answer WAIT_TIMEOUT)
    end
  | _ => (k, answer 1)
  end.
Definition ex_clock : Host (bool * Z) := {|
  now k := snd k; sleep d k := (fst k, snd k + d); var_os _ _ := None; is_file _ _ := false;
|}.
Definition ex_signaled (k : bool * Z) (h : Z) : Prop := fst k = true \/ h = 7.

Lemma first_signaled_spec all chunk :
  match first_signaled all chunk with
  | Some i => exists h, chunk !! i = Some h /\ (all = true \/ h = 7)
  | None => Forall (fun h => ~ (all = true \/ h = 7)) chunk
  end.
Proof.
  induction chunk as [|h chunk IH]; cbn [first_signaled]; [done|].
  destruct all; [exists h; auto|]. cbn [orb]. destruct (h =? 7) eqn:E; bool_to_prop; [exists h; auto|].
  destruct (first_signaled false chunk); cbn; [done|]. constructor; [intros [?|?]; done|done].
Qed.

#[export] Instance ex_waits : WaitsForHandles ex_kernel ex_clock ex_signaled.
Proof.
  split.
  - intros chunk ms [all t] Hne _. unfold ex_kernel, ex_signaled. cbn [fst snd].
    pose proof (first_signaled_spec all chunk) as H. destruct (first_signaled all chunk) as [i|].
    + left. destruct H as (h & ? & ?). by exists i, h.
    + destruct (ms =? INFINITE) eqn:E; bool_to_prop.
      * left. destruct chunk as [|h chunk]; [done|]. exists 0%nat, h. auto.
      * by right.
  - intros chunk ms [all t] h Hs. unfold ex_kernel, ex_signaled in *. cbn [fst snd] in *.
    destruct (first_signaled all chunk), (ms =? INFINITE); cbn; auto.
  - intros d [all t] h Hs. exact Hs.
  - intros chunk ms [all t]. unfold ex_kernel. cbn [fst snd].
    destruct (first_signaled all chunk), (ms =? INFINITE); cbn; lia.
  - intros d [all t]. cbn. lia.
Qed.

Definition ex_handles : list Z := map (fun n => 1000 + Z.of_nat n) (seq 0 68) ++ [7; 5].

Lemma wait_many_correct_witness :
  let w := mkWorld (false, 0) [] in
  match wait_many ex_kernel ex_clock 3 ex_handles (Some 5000) w with
  | (w', ret (Some i)) => exists h, ex_handles !! i = Some h /\ ex_signaled (state w') h
  | _ => False
  end /\
  snd (wait_many ex_kernel ex_clock 3 ex_handles (Some 5000) w) = ret (Some 68%nat).
Proof.
  split; [|by vm_compute].
  exact (wait_many_correct ex_kernel ex_clock ex_signaled 3 ex_handles (Some 5000) (mkWorld (false, 0) []) ltac:(done)).
Defined.

(** A limit below a millisecond is no limit to wait for: the call only looks. *)
Example wait_many_truncates :
  log (fst (wait_many ex_kernel ex_clock 1 [5] (Some 999999) (mkWorld (false, 0) [])))
  = [(w_wait_multiple [5] 0, answer WAIT_TIMEOUT)].
Proof. by vm_compute. Qed.

(** A process that has ended with exit code 259 is reported alive, although
    a wait on it returns at once. *)
Definition ended_259 (c : Call) (k : unit) : unit * Ret :=
  match c with
  | w_open_process _ _ => (k, answer 40)
  | w_get_exit_code _ => (k, mkRet 1 0 (OInt 259))
  | _ => (k, answer 0)
  end.

Example ended_259_is_alive :
  snd (is_alive ended_259 8 (mkWorld tt [])) = ret true /\
  snd (try_wait ended_259 40 (mkWorld tt [])) = ret (Some (Code 259)).
Proof. by vm_compute. Qed.
