(* ===== verification/WinNet.v ===== *)
(** * Sockets of the Windows backend
      ([platform-windows/src/sys/net.rs], default build,
       [platform-windows/src/net.rs])

    Winsock calls over the surface of [Sys]; a [SOCKET] is closed by
    [c_close].  Paths are UTF-16, the [sun_path] of an address is UTF-8. *)

From Stdlib Require Import ZArith Lia String.
From S2P Require Import Prelude Error Text Sys LinuxNet NetApi WinFs WinProcess.
From stdpp Require Import base numbers list strings gmap gmultiset.
Open Scope Z_scope.

Definition AF_INET6 := 23.
Definition SOL_SOCKET := 65535.
Definition SO_REUSEADDR := 4.
Definition SO_RCVTIMEO := 4102.
Definition SOMAXCONN := 2147483647.
Definition INVALID_SOCKET := -1.
Definition FIONBIO := -2147195266.
Definition I32_MAX := 2147483647.
Definition WSAEINTR := 10004.
Definition WSAEACCES := 10013.
Definition WSAEINVAL := 10022.
Definition WSAEWOULDBLOCK := 10035.
Definition WSAEMSGSIZE := 10040.
Definition WSAEADDRINUSE := 10048.
Definition WSAEADDRNOTAVAIL := 10049.
Definition WSAECONNABORTED := 10053.
Definition WSAECONNRESET := 10054.
Definition WSAENOBUFS := 10055.
Definition WSAENOTCONN := 10057.
Definition WSAETIMEDOUT := 10060.
Definition WSAECONNREFUSED := 10061.

Definition wsa_kind (code : Z) : ErrorKind :=
  if code =? WSAECONNREFUSED then ConnectionRefused
  else if code =? WSAECONNRESET then ConnectionReset
  else if code =? WSAECONNABORTED then ConnectionAborted
  else if code =? WSAENOTCONN then NotConnected
  else if code =? WSAEADDRINUSE then AddrInUse
  else if code =? WSAEADDRNOTAVAIL then AddrNotAvailable
  else if code =? WSAETIMEDOUT then TimedOut
  else if code =? WSAEACCES then PermissionDenied
  else if code =? WSAEINVAL then InvalidInput
  else if code =? WSAEWOULDBLOCK then WouldBlock
  else if code =? WSAEINTR then Interrupted
  else Other.

(** ** Addresses *)

(** The 28 bytes that hold either address. *)
Definition ADDR : nat := 28.
Definition sockaddr_in6 (ip : list Z) (port flowinfo scope : Z) : list Z :=
  le_bytes 2 AF_INET6 ++ le_bytes 2 (swap16 port) ++ le_bytes 4 flowinfo ++ ip ++ le_bytes 4 scope.

Definition to_sockaddr (addr : SocketAddr) : list Z * Z :=
  match addr with
  | V4 ip port => (written ADDR (sockaddr_in ip port), 16)
  | V6 ip port flowinfo scope => (written ADDR (sockaddr_in6 ip port flowinfo scope), 28)
  end.

Definition from_sockaddr (buf : list Z) : Result SocketAddr :=
  let family := le_val (field buf 0 2) in
  if family =? AF_INET then
    Ok (V4 (field buf 4 4) (swap16 (le_val (field buf 2 2))))
  else if family =? AF_INET6 then
    Ok (V6 (field buf 8 16) (swap16 (le_val (field buf 2 2)))
           (le_val (field buf 4 4)) (le_val (field buf 24 4)))
  else Err (error_new Other NoCode "unrecognized address family").

(** [OsStr::to_str]: UTF-8, unless a surrogate stands alone. *)
Definition is_surrogate (c : Z) : bool := (55296 <=? c) && (c <? 57344).
Definition to_str (path : OsString) : option str :=
  if existsb is_surrogate (code_points path) then None else Some (of_chars (code_points path)).

(** [PathBuf::from] a [str]. *)
Definition utf16_units (c : Z) : list Z :=
  if c <? 65536 then [c] else [55296 + (c - 65536) / 1024; 56320 + (c - 65536) mod 1024].
Definition wide_of_str (s : str) : OsString := concat (map utf16_units (chars s)).

Definition UNIX_PATH_CAP : Z := 108.

Definition to_sockaddr_un (path : OsString) : Result (list Z) :=
  match to_str path with
  | None => Err (error_new InvalidInput NoCode "AF_UNIX path is not valid UTF-8")
  | Some bytes =>
    if UNIX_PATH_CAP - 1 <? zlen bytes then
      Err (error_new InvalidInput NoCode "AF_UNIX path exceeds sun_path's 107-byte usable capacity")
    else Ok (le_bytes 2 AF_UNIX ++ written 108 bytes)
  end.

(** [position(|b| b == 0)], and what is before it. *)
Fixpoint until_nul (bytes : list Z) : list Z :=
  match bytes with
  | [] => []
  | b :: bytes => if b =? 0 then [] else b :: until_nul bytes
  end.

Definition from_sockaddr_un (buf : list Z) (len : Z) : Result (option OsString) :=
  let len := if len <? 0 then 0 else len in
  if len <=? 2 then Ok None
  else if negb (le_val (field buf 0 2) =? AF_UNIX) then
    Err (error_new Other NoCode "unrecognized address family")
  else
    let path_end := Z.min len (zlen buf) in
    match until_nul (field buf 2 (Z.to_nat path_end - 2)) with
    | [] => Ok None
    | path_bytes =>
      if utf8_valid path_bytes then Ok (Some (wide_of_str path_bytes))
      else Err (error_new Other NoCode "AF_UNIX peer path is not valid UTF-8")
    end.

(** Of a [Duration] in nanoseconds, as milliseconds in 32 bits. *)
Definition timeout_millis (timeout : option Z) : Z :=
  match timeout with Some d => Z.min (d / 1000000) U32_MAX | None => 0 end.

(** What one call takes of a buffer: its length saturates at an [i32]. *)
Definition clamped (buf : list Z) : list Z := take (Z.to_nat (Z.min (zlen buf) I32_MAX)) buf.

Inductive SockOpt := ReuseAddr | NoDelay (on : bool) | RecvTimeoutMillis (ms : Z).

Definition STALE_PROBE_ENOBUFS_RETRIES : nat := 20.
Definition STALE_PROBE_ENOBUFS_RETRY_DELAY : Z := 25000000.

Section net.
Context {K : Type} (kernel : Call -> K -> K * Ret) (host : Host K).
Abbreviation M A := (World K -> World K * Run A).
Abbreviation sys := (syscall kernel).

(** The process-wide [Once]: what the log says of an earlier [WSAStartup]; a
    start that failed has poisoned it. *)
Definition startup_result (w : World K) : option Z :=
  head (omap (fun e => match fst e with w_wsa_startup _ => Some (rv (snd e)) | _ => None end) (log w)).

Definition ensure_wsa_started : M unit := fun w =>
  match startup_result w with
  | Some r => (w, if r =? 0 then ret tt else Panic)
  | None => (st! r := sys (w_wsa_startup 514) in st_lift (if rv r =? 0 then ret tt else Panic)) w
  end.

Definition wsa_err {A} (op : string) : M A := fun w =>
  (w, fail (error_new (wsa_kind (errno w)) (Win32 (errno w)) op)).

(** A call whose result is zero, or an error. *)
Definition wsa_unit (c : Call) (op : string) : M unit :=
  st! r := sys c in
  if negb (rv r =? 0) then wsa_err op else st_lift (ret tt).

Definition new_socket (family type protocol : Z) : M Z :=
  st! r := sys (w_socket family type protocol) in
  if rv r =? INVALID_SOCKET then wsa_err "socket" else st_lift (ret (rv r)).

Definition family_of (addr : SocketAddr) : Z :=
  match addr with V4 _ _ => AF_INET | V6 _ _ _ _ => AF_INET6 end.

(** [raw_socket]. *)
Definition raw_socket (addr : SocketAddr) (stream : bool) : M Z :=
  let (type, protocol) := if stream then (SOCK_STREAM, IPPROTO_TCP) else (SOCK_DGRAM, 0) in
  new_socket (family_of addr) type protocol.

Definition raw_connect (s : Z) (addr : SocketAddr) : M unit :=
  let (buf, len) := to_sockaddr addr in
  wsa_unit (w_connect s (take (Z.to_nat len) buf)) "connect".
Definition raw_bind (s : Z) (addr : SocketAddr) : M unit :=
  let (buf, len) := to_sockaddr addr in
  wsa_unit (w_bind s (take (Z.to_nat len) buf)) "bind".
Definition raw_listen (s : Z) : M unit := wsa_unit (w_listen s SOMAXCONN) "listen".

(** The accepted [SOCKET] has no owner yet when its address is read. *)
Definition raw_accept (s : Z) : M (Z * SocketAddr) :=
  st! r := sys (w_accept s (Z.of_nat ADDR)) in
  if rv r =? INVALID_SOCKET then wsa_err "accept"
  else
    st! peer := st_lift (Done (from_sockaddr (written ADDR (out_storage r)))) in
    st_lift (ret (rv r, peer)).

Definition raw_sock_addr (s : Z) (peer : bool) : M SocketAddr :=
  let (c, op) := if peer then (w_getpeername s (Z.of_nat ADDR), "getpeername"%string)
                 else (w_getsockname s (Z.of_nat ADDR), "getsockname"%string) in
  st! r := sys c in
  if negb (rv r =? 0) then wsa_err op
  else st_lift (Done (from_sockaddr (written ADDR (out_storage r)))).

Definition raw_recv (s n : Z) : M (list Z) :=
  st! r := sys (w_recv s (Z.min n I32_MAX)) in
  if rv r <? 0 then wsa_err "recv" else st_lift (ret (take (Z.to_nat (rv r)) (out_bytes r))).

Definition raw_send (s : Z) (buf : list Z) : M Z :=
  st! r := sys (w_send s (clamped buf)) in
  if rv r <? 0 then wsa_err "send" else st_lift (ret (rv r)).

Definition new_tcp_socket (addr : SocketAddr) : M Z :=
  st! _ := ensure_wsa_started in raw_socket addr true.

Definition set_sockopt (s : Z) (opt : SockOpt) : M unit :=
  let '(level, name, value, op) :=
    match opt with
    | ReuseAddr => (SOL_SOCKET, SO_REUSEADDR, 1, "setsockopt(SO_REUSEADDR)"%string)
    | NoDelay on => (IPPROTO_TCP, TCP_NODELAY, if on then 1 else 0, "setsockopt(TCP_NODELAY)"%string)
    | RecvTimeoutMillis ms => (SOL_SOCKET, SO_RCVTIMEO, ms, "setsockopt(SO_RCVTIMEO)"%string)
    end in
  wsa_unit (w_setsockopt s level name value) op.

Definition tcp_connect (addr : SocketAddr) : M Z :=
  st! s := new_tcp_socket addr in
  owned kernel s (st! _ := raw_connect s addr in st_lift (ret s)).

Definition tcp_listen (addr : SocketAddr) : M Z :=
  st! s := new_tcp_socket addr in
  owned kernel s
    (st! _ := set_sockopt s ReuseAddr in
     st! _ := raw_bind s addr in
     st! _ := raw_listen s in
     st_lift (ret s)).

Definition tcp_accept (listen : Z) : M (Z * SocketAddr) := raw_accept listen.

Definition set_nonblocking (s : Z) (nonblocking : bool) : M unit :=
  wsa_unit (w_ioctlsocket s FIONBIO (if nonblocking then 1 else 0)) "ioctlsocket(FIONBIO)".
Definition set_nodelay (s : Z) (nodelay : bool) : M unit := set_sockopt s (NoDelay nodelay).
Definition set_read_timeout (s : Z) (timeout : option Z) : M unit :=
  set_sockopt s (RecvTimeoutMillis (timeout_millis timeout)).
Definition peer_addr (s : Z) : M SocketAddr := raw_sock_addr s true.
Definition local_addr (s : Z) : M SocketAddr := raw_sock_addr s false.

(** *** Unix domain sockets *)

Definition raw_unix_socket : M Z := new_socket AF_UNIX SOCK_STREAM 0.
Definition raw_connect_unix (s : Z) (path : OsString) : M unit :=
  st! buf := st_lift (Done (to_sockaddr_un path)) in wsa_unit (w_connect s buf) "connect".
Definition raw_bind_unix (s : Z) (path : OsString) : M unit :=
  st! buf := st_lift (Done (to_sockaddr_un path)) in wsa_unit (w_bind s buf) "bind".

Definition raw_accept_unix (s : Z) : M (Z * option OsString) :=
  st! r := sys (w_accept s 110) in
  if rv r =? INVALID_SOCKET then wsa_err "accept"
  else
    st! peer := st_lift (Done (from_sockaddr_un (written 110 (out_storage r)) (out_len r))) in
    st_lift (ret (rv r, peer)).

Definition unix_name (c : Call) (op : string) : M (option OsString) :=
  st! r := sys c in
  if negb (rv r =? 0) then wsa_err op
  else st_lift (Done (from_sockaddr_un (written 110 (out_storage r)) (out_len r))).
Definition raw_local_addr_unix (s : Z) : M (option OsString) := unix_name (w_getsockname s 110) "getsockname".
Definition unix_peer_addr (s : Z) : M (option OsString) := unix_name (w_getpeername s 110) "getpeername".
Definition unix_local_addr (s : Z) : M (option OsString) := raw_local_addr_unix s.

Definition new_unix_socket : M Z := st! _ := ensure_wsa_started in raw_unix_socket.

Definition unix_connect (path : OsString) : M Z :=
  st! s := new_unix_socket in
  owned kernel s (st! _ := raw_connect_unix s path in st_lift (ret s)).

Definition win32_code (e : PlatformError) (code : Z) : bool :=
  match os e with Win32 c => c =? code | _ => false end.

(** One turn of the loop with the probe open: what to answer, or try again. *)
Definition probe_verdict (retries : nat) (probe : Z) (path : OsString) : M (option bool) := fun w =>
  match raw_connect_unix probe path w with
  | (w, ret _) => (w, ret (Some false))
  | (w, fail e) =>
    if bool_decide (kind e = ConnectionRefused) then (w, ret (Some true))
    else if win32_code e WSAENOBUFS && negb (Nat.eqb retries 0)
    then (pause host STALE_PROBE_ENOBUFS_RETRY_DELAY w, ret None)
    else (w, ret (Some false))
  | (w, Panic) => (w, Panic)
  | (w, OutOfFuel) => (w, OutOfFuel)
  end.

(** [retries] turns are left after this one. *)
Fixpoint stale_loop (retries : nat) (path : OsString) : M bool := fun w =>
  match new_unix_socket w with
  | (w, ret probe) =>
    match scoped kernel probe (probe_verdict retries probe path) w with
    | (w, ret (Some b)) => (w, ret b)
    | (w, ret None) => match retries with O => (w, ret false) | S retries => stale_loop retries path w end
    | (w, fail e) => (w, fail e)
    | (w, Panic) => (w, Panic)
    | (w, OutOfFuel) => (w, OutOfFuel)
    end
  | (w, fail _) => (w, ret false)
  | (w, Panic) => (w, Panic)
  | (w, OutOfFuel) => (w, OutOfFuel)
  end.

Definition is_stale_socket (path : OsString) : M bool := stale_loop STALE_PROBE_ENOBUFS_RETRIES path.

Definition is_stale_bind_candidate (e : PlatformError) : bool :=
  bool_decide (kind e = AddrInUse) || win32_code e 0.

(** The first [bind], and the second when the path is a dead listener's. *)
Definition bind_reclaiming (s : Z) (path : OsString) : M unit := fun w =>
  match raw_bind_unix s path w with
  | (w, ret _) => (w, ret tt)
  | (w, fail e) =>
    (if is_stale_bind_candidate e then
       st! stale := is_stale_socket path in
       if (stale : bool) then
         st! _ := sys (w_delete_file (to_wide_nul path)) in raw_bind_unix s path
       else st_lift (fail e)
     else st_lift (fail e)) w
  | (w, Panic) => (w, Panic)
  | (w, OutOfFuel) => (w, OutOfFuel)
  end.

Definition unix_listen (path : OsString) : M Z :=
  st! s := new_unix_socket in
  owned kernel s
    (st! _ := bind_reclaiming s path in
     st! _ := raw_listen s in
     st_lift (ret s)).

Definition unix_accept (listen : Z) : M (Z * option OsString) := raw_accept_unix listen.

(** *** UDP *)

Definition raw_sendto (s : Z) (buf : list Z) (addr : SocketAddr) : M Z :=
  let (addr_buf, addr_len) := to_sockaddr addr in
  st! r := sys (w_sendto s (clamped buf) (take (Z.to_nat addr_len) addr_buf)) in
  if rv r <? 0 then wsa_err "sendto" else st_lift (ret (rv r)).

Definition raw_recvfrom (s n : Z) : M (list Z * SocketAddr) :=
  st! r := sys (w_recvfrom s (Z.min n I32_MAX) (Z.of_nat ADDR)) in
  if rv r <? 0 then wsa_err "recvfrom"
  else
    st! peer := st_lift (Done (from_sockaddr (written ADDR (out_storage r)))) in
    st_lift (ret (take (Z.to_nat (rv r)) (out_bytes r), peer)).

Definition new_udp_socket (addr : SocketAddr) : M Z :=
  st! _ := ensure_wsa_started in raw_socket addr false.
Definition udp_bind (addr : SocketAddr) : M Z :=
  st! s := new_udp_socket addr in
  owned kernel s (st! _ := raw_bind s addr in st_lift (ret s)).
Definition udp_send_to := raw_sendto.
Definition udp_recv_from := raw_recvfrom.

(** ** [net.rs] *)

Definition windows_tcp_stream : TcpStream (World K) :=
  mkTcpStream raw_recv raw_send set_nodelay peer_addr local_addr set_read_timeout.
Definition windows_tcp_listener : TcpListener (World K) := mkTcpListener tcp_accept local_addr.
Definition windows_unix_stream : UnixStream (World K) :=
  mkUnixStream raw_recv raw_send unix_peer_addr unix_local_addr.
Definition windows_unix_listener : UnixListener (World K) := mkUnixListener unix_accept unix_local_addr.
Definition windows_udp_socket : UdpSocket (World K) := mkUdpSocket udp_send_to udp_recv_from local_addr.
Definition windows_net : Net (World K) :=
  mkNet tcp_connect tcp_listen unix_connect unix_listen udp_bind set_nonblocking
    windows_tcp_stream windows_tcp_listener windows_unix_stream windows_unix_listener windows_udp_socket.
End net.

(** ** Round trips *)

Lemma code_points_ind (P : list Z -> Prop) :
  P [] -> (forall u, P [u]) -> (forall a b us, P us -> P (b :: us) -> P (a :: b :: us)) -> forall us, P us.
Proof.
  intros H0 H1 H2 us. assert (P us /\ forall a, P (a :: us)) as [H _]; [|done].
  induction us as [|b us [IH IH']]; [done|]. split; [apply IH'|]. intros a. by apply H2.
Qed.

Definition pair_of (hi lo : Z) : bool :=
  (55296 <=? hi) && (hi <? 56320) && (56320 <=? lo) && (lo <? 57344).
Lemma code_points_cons a b us : code_points (a :: b :: us) =
  if pair_of a b then 65536 + (a - 55296) * 1024 + (b - 56320) :: code_points us else a :: code_points (b :: us).
Proof. done. Qed.

Lemma wide_code_points us : Forall (in_u 16) us -> concat (map utf16_units (code_points us)) = us.
Proof.
  unfold in_u. change (2 ^ 16) with 65536. intros H. induction us as [|u|a b us IH IH'] using code_points_ind.
  - done.
  - apply Forall_cons_iff in H as [H _]. cbn. unfold utf16_units. by rewrite (proj2 (Z.ltb_lt u 65536)) by lia.
  - apply Forall_cons_iff in H as [Ha H]. apply Forall_cons_iff in H as Hb. destruct Hb as [Hb Hus].
    rewrite code_points_cons. destruct (pair_of a b) eqn:E; unfold pair_of in E; cbn [map concat].
    + rewrite (IH Hus). bool_to_prop. unfold utf16_units.
      rewrite (proj2 (Z.ltb_ge (65536 + (a - 55296) * 1024 + (b - 56320)) 65536)) by lia. cbn [app].
      repeat f_equal; Z.to_euclidean_division_equations; lia.
    + rewrite IH' by done. unfold utf16_units. by rewrite (proj2 (Z.ltb_lt a 65536)) by lia.
Qed.

Lemma code_points_scalar us : Forall (in_u 16) us -> existsb is_surrogate (code_points us) = false ->
  Forall scalar (code_points us).
Proof.
  unfold in_u, scalar. change (2 ^ 16) with 65536. intros H. induction us as [|u|a b us IH IH'] using code_points_ind.
  - done.
  - apply Forall_cons_iff in H as [H _]. cbn. unfold is_surrogate. intros E. constructor; [|done].
    rewrite orb_false_r in E. apply andb_false_iff in E as [E|E]; bool_to_prop; lia.
  - apply Forall_cons_iff in H as [Ha H]. apply Forall_cons_iff in H as Hb. destruct Hb as [Hb Hus].
    rewrite code_points_cons. destruct (pair_of a b) eqn:E; unfold pair_of in E; cbn [existsb]; intros E'; apply orb_false_iff in E' as [E1 E2].
    + constructor; [|by apply IH]. bool_to_prop. lia.
    + constructor; [|by apply IH']. unfold is_surrogate in E1. apply andb_false_iff in E1 as [E1|E1]; bool_to_prop; lia.
Qed.

Lemma wide_of_to_str us bytes : Forall (in_u 16) us -> to_str us = Some bytes ->
  wide_of_str bytes = us /\ utf8_valid bytes = true.
Proof.
  unfold to_str, wide_of_str. intros H. destruct (existsb _ _) eqn:E; [done|]. intros [= <-].
  destruct (chars_of_chars _ (code_points_scalar us H E)) as [-> ->]. by rewrite wide_code_points.
Qed.

(** What is before the first NUL, as bytes and as units. *)
Lemma until_nul_app l r : Forall (fun b => b <> 0) l -> until_nul (l ++ r) = l ++ until_nul r.
Proof.
  induction 1 as [|b l Hb _ IH]; [done|]. cbn. by rewrite (proj2 (Z.eqb_neq b 0) Hb), IH.
Qed.

Lemma until_nul_chars cs : Forall scalar cs -> until_nul (of_chars cs) = of_chars (until_nul cs).
Proof.
  unfold of_chars. induction 1 as [|c cs Hc _ IH]; [done|]. cbn [map concat until_nul].
  destruct (c =? 0) eqn:E; bool_to_prop.
  - subst c. done.
  - rewrite until_nul_app, IH; [done|]. apply encode_char_nonzero. unfold scalar in Hc. lia.
Qed.

Lemma until_nul_units us : Forall (in_u 16) us -> until_nul (code_points us) = code_points (until_nul us).
Proof.
  unfold in_u. intros H. induction us as [|u|a b us IH IH'] using code_points_ind; [done| |].
  - cbn. by destruct (u =? 0).
  - apply Forall_cons_iff in H as [Ha H]. apply Forall_cons_iff in H as Hb. destruct Hb as [Hb Hus].
    rewrite code_points_cons. destruct (pair_of a b) eqn:E.
    + specialize (IH Hus). unfold pair_of in E. bool_to_prop. cbn [until_nul].
      rewrite (proj2 (Z.eqb_neq (65536 + (a - 55296) * 1024 + (b - 56320)) 0)), (proj2 (Z.eqb_neq a 0)),
        (proj2 (Z.eqb_neq b 0)) by lia. rewrite IH, code_points_cons. unfold pair_of.
      rewrite (proj2 (Z.leb_le 55296 a)), (proj2 (Z.ltb_lt a 56320)), (proj2 (Z.leb_le 56320 b)),
        (proj2 (Z.ltb_lt b 57344)) by lia. done.
    + specialize (IH' H). cbn [until_nul] in *. destruct (a =? 0); [done|]. rewrite IH'.
      destruct (b =? 0); [done|]. by rewrite code_points_cons, E.
Qed.

Lemma until_nul_str us bytes : Forall (in_u 16) us -> to_str us = Some bytes ->
  to_str (until_nul us) = Some (until_nul bytes).
Proof.
  unfold to_str. intros H. destruct (existsb _ _) eqn:E; [done|]. intros [= <-].
  pose proof (code_points_scalar us H E) as Hs. rewrite until_nul_chars, <- until_nul_units by done.
  assert (forall l, existsb is_surrogate l = false -> existsb is_surrogate (until_nul l) = false) as Hl.
  { induction l as [|c l IH]; [done|]. cbn. intros [E1 E2]%orb_false_iff. destruct (c =? 0); [done|]. cbn. by rewrite E1, IH. }
  by rewrite Hl.
Qed.

Lemma until_nul_zeros bytes m : until_nul (bytes ++ zeros m) = until_nul bytes.
Proof.
  induction bytes as [|b bytes IH]; cbn; [by destruct m|]. by destruct (b =? 0); [|rewrite IH].
Qed.

Lemma until_nul_incl (P : Z -> Prop) l : Forall P l -> Forall P (until_nul l).
Proof. induction 1 as [|b l Hb _ IH]; [done|]. cbn. destruct (b =? 0); by constructor. Qed.

(** A socket address survives the layout of the kernel; a Unix path that fits
    survives [sun_path] up to its first NUL, which nothing refuses. *)
Theorem win_sockaddr_roundtrip a path : addr_ok a -> Forall (in_u 16) path ->
  (from_sockaddr (fst (to_sockaddr a)) = Ok a /\ length (fst (to_sockaddr a)) = ADDR) /\
  match to_sockaddr_un path with
  | Err e => kind e = InvalidInput /\
      match to_str path with None => existsb is_surrogate (code_points path) = true
                           | Some bytes => 107 < zlen bytes end
  | Ok addr => length addr = 110%nat /\
      from_sockaddr_un addr 110 = Ok (match until_nul path with [] => None | p => Some p end)
  end.
Proof.
  intros Ha Hp. split.
  - destruct a as [ip port|ip port flowinfo scope]; cbn [fst to_sockaddr].
    + destruct Ha as [Hip Hport]. repeat (destruct ip as [|? ip]; try discriminate Hip). split; [|done].
      rewrite <- (swap16_swap port) at 2 by done.
      rewrite <- (le_val_le_bytes 2 16 (swap16 port)) by first [done|apply swap16_in]. reflexivity.
    + destruct Ha as (Hip & Hport & Hf & Hs). repeat (destruct ip as [|? ip]; try discriminate Hip).
      split; [|done]. rewrite <- (swap16_swap port) at 2 by done.
      rewrite <- (le_val_le_bytes 2 16 (swap16 port)) by first [done|apply swap16_in].
      rewrite <- (le_val_le_bytes 4 32 flowinfo) at 2 by done.
      rewrite <- (le_val_le_bytes 4 32 scope) at 2 by done. reflexivity.
  - unfold to_sockaddr_un. destruct (to_str path) as [bytes|] eqn:Eb.
    2: { unfold to_str in Eb. by destruct (existsb _ _). }
    unfold UNIX_PATH_CAP. destruct (108 - 1 <? zlen bytes) eqn:El; bool_to_prop; [split; [done|lia]|].
    rewrite written_app by lia.
    split; [rewrite !length_app, length_le_bytes; unfold zeros; rewrite length_replicate; lia|].
    unfold from_sockaddr_un. cbn [Z.ltb Z.leb Z.compare Pos.compare Pos.compare_cont].
    assert (le_val (field (le_bytes 2 AF_UNIX ++ bytes ++ zeros (108 - length bytes)) 0 2) = AF_UNIX) as -> by done.
    rewrite Z.eqb_refl. cbn [negb].
    replace (Z.to_nat _ - 2)%nat with (length (bytes ++ zeros (108 - length bytes))).
    2: { unfold zeros. rewrite !length_app, length_le_bytes, length_replicate. lia. }
    pose proof (field_app (le_bytes 2 AF_UNIX) (bytes ++ zeros (108 - length bytes)) []) as Hf.
    rewrite app_nil_r in Hf. change (length (le_bytes 2 AF_UNIX)) with 2%nat in Hf. rewrite Hf.
    rewrite until_nul_zeros. pose proof (until_nul_str _ _ Hp Eb) as Eu.
    assert (Forall (in_u 16) (until_nul path)) as Hq by by apply until_nul_incl.
    destruct (wide_of_to_str _ _ Hq Eu) as [Hw Hu]. destruct (until_nul bytes) as [|b r]; [by rewrite <- Hw|].
    rewrite Hu, Hw. by destruct (until_nul path).
Qed.

Lemma win_sockaddr_roundtrip_witness :
  let a := V6 (zeros 15 ++ [1]) 8080 0 7 in let path := lit "C:\s" ++ [55357; 56832; 0; 65] in
  (from_sockaddr (fst (to_sockaddr a)) = Ok a /\ length (fst (to_sockaddr a)) = ADDR) /\
  match to_sockaddr_un path with
  | Err e => kind e = InvalidInput /\
      match to_str path with None => existsb is_surrogate (code_points path) = true
                           | Some bytes => 107 < zlen bytes end
  | Ok addr => length addr = 110%nat /\
      from_sockaddr_un addr 110 = Ok (match until_nul path with [] => None | p => Some p end)
  end.
Proof.
  apply win_sockaddr_roundtrip; [repeat split; vm_compute; done|].
  apply Forall_forall. intros x Hx. vm_compute in Hx. unfold in_u.
  destruct_or! Hx; by subst.
Defined.

(** Two paths that differ after a NUL are one address, and one file name. *)
Example interior_nul_unnoticed :
  match to_sockaddr_un (lit "s" ++ [0; 97]), to_sockaddr_un (lit "s") with
  | Ok a, Ok b => from_sockaddr_un a 110 = from_sockaddr_un b 110
  | _, _ => False
  end.
Proof. vm_compute. reflexivity. Qed.

(** ** Descriptors *)

Section descriptors.
Context {K : Type} (kernel : Call -> K -> K * Ret) (host : Host K).
Implicit Types h : gmultiset Z.

Lemma owns_wsa_err {A} h op (Q : A -> _) : owns (K := K) h (wsa_err op) Q h.
Proof. intros w w' r [= <- <-]. exists []. by rewrite app_nil_r. Qed.
Hint Resolve owns_wsa_err : owns.

Lemma owns_wsa_unit h c op : released c = None -> (forall r, acquired (c, r) = []) ->
  owns h (wsa_unit kernel c op) (fun _ => h) h.
Proof. intros Hc Ha. unfold wsa_unit. eapply owns_bind; [by apply owns_neutral|]. intros. owns_go. Qed.
Hint Extern 2 (owns _ (wsa_unit _ _ _) _ _) => apply owns_wsa_unit; [reflexivity|reflexivity] : owns.

Lemma sock_owns_socket h c op : released c = None ->
  (forall r, acquired (c, r) = if rv r =? -1 then [] else [rv r]) ->
  owns h (st! r := syscall kernel c in if rv r =? INVALID_SOCKET then wsa_err op else st_lift (ret (rv r)))
    (fun fd => {[+ fd +]} ⊎ h) h.
Proof.
  intros Hc Ha. eapply owns_bind; [by apply owns_syscall|]. intros r. cbn beta. rewrite Ha. unfold INVALID_SOCKET.
  destruct (rv r =? -1).
  - rewrite list_to_set_disj_nil, (right_id_L ∅ (⊎)). owns_go.
  - apply owns_ret. rewrite list_to_set_disj_cons, list_to_set_disj_nil, (right_id_L ∅ (⊎)). apply (comm_L (⊎)).
Qed.

Lemma owns_ensure h : owns (K := K) h (ensure_wsa_started kernel) (fun _ => h) h.
Proof.
  intros w. unfold ensure_wsa_started. destruct (startup_result w) as [r|].
  - revert w. change (owns (K := K) h (st_lift (if r =? 0 then ret tt else Panic)) (fun _ => h) h). apply owns_pure.
  - revert w. change (owns (K := K) h (st! r := syscall kernel (w_wsa_startup 514) in
      st_lift (if rv r =? 0 then ret tt else Panic)) (fun _ => h) h). owns_go.
Qed.
Hint Resolve owns_ensure : owns.

Lemma sock_owns_new_tcp h a : owns h (new_tcp_socket kernel a) (fun fd => {[+ fd +]} ⊎ h) h.
Proof. unfold new_tcp_socket, raw_socket. eapply owns_bind; [apply owns_ensure|]. intros. by apply sock_owns_socket. Qed.
Lemma sock_owns_new_udp h a : owns h (new_udp_socket kernel a) (fun fd => {[+ fd +]} ⊎ h) h.
Proof. unfold new_udp_socket, raw_socket. eapply owns_bind; [apply owns_ensure|]. intros. by apply sock_owns_socket. Qed.
Lemma sock_owns_new_unix h : owns h (new_unix_socket kernel) (fun fd => {[+ fd +]} ⊎ h) h.
Proof. unfold new_unix_socket. eapply owns_bind; [apply owns_ensure|]. intros. by apply sock_owns_socket. Qed.
Hint Resolve sock_owns_new_tcp sock_owns_new_udp sock_owns_new_unix : owns.

Lemma owns_set_sockopt h s opt : owns h (set_sockopt kernel s opt) (fun _ => h) h.
Proof. unfold set_sockopt. destruct opt; owns_go. Qed.
Lemma owns_raw_bind h s a : owns h (raw_bind kernel s a) (fun _ => h) h.
Proof. unfold raw_bind. destruct (to_sockaddr a). owns_go. Qed.
Lemma owns_raw_connect h s a : owns h (raw_connect kernel s a) (fun _ => h) h.
Proof. unfold raw_connect. destruct (to_sockaddr a). owns_go. Qed.
Lemma owns_raw_bind_unix h s p : owns h (raw_bind_unix kernel s p) (fun _ => h) h.
Proof. unfold raw_bind_unix. owns_go. Qed.
Lemma owns_raw_connect_unix h s p : owns h (raw_connect_unix kernel s p) (fun _ => h) h.
Proof. unfold raw_connect_unix. owns_go. Qed.
Hint Resolve owns_set_sockopt owns_raw_bind owns_raw_connect owns_raw_bind_unix owns_raw_connect_unix : owns.

(** Sleeping, and results that are only looked at, log nothing. *)
Lemma owns_probe_verdict h retries s p : owns h (probe_verdict kernel host retries s p) (fun _ => h) h.
Proof.
  unfold probe_verdict. apply (owns_catch _ _ (fun e => _) (fun _ w => (w, _)) (fun _ => h)); [owns_go| |intros; apply owns_ret; done].
  intros e. destruct (bool_decide _); [apply owns_ret; done|]. destruct (_ && _); [|apply owns_ret; done].
  apply (owns_pause host h _ (st_lift (ret None))), owns_ret. done.
Qed.
Hint Resolve owns_probe_verdict : owns.

Lemma sock_owns_stale_loop h p retries : owns h (stale_loop kernel host retries p) (fun _ => h) h.
Proof.
  induction retries as [|retries IH]; cbn [stale_loop].
  all: apply (owns_catch _ _ (fun e => st_lift (ret false)) (fun probe w => _) (fun fd => {[+ fd +]} ⊎ h)); [owns_go|intros; by apply owns_ret|intros s].
  all: apply (owns_catch _ _ (fun e => st_lift (fail e)) (fun b w => _) (fun _ => h));
    [apply owns_scoped; eapply owns_eq; [apply owns_probe_verdict|done..]|intros; by apply owns_fail|intros [b|]].
  all: first [by apply owns_ret|apply IH].
Qed.
Hint Resolve sock_owns_stale_loop : owns.

Lemma sock_owns_bind_reclaiming h s p : owns h (bind_reclaiming kernel host s p) (fun _ => h) h.
Proof.
  unfold bind_reclaiming, is_stale_socket.
  apply (owns_catch _ _ (fun e => _) (fun u w => (w, ret tt)) (fun _ => h)); [owns_go| |intros; by apply (owns_ret _ tt)].
  intros e. owns_go.
Qed.
Hint Resolve sock_owns_bind_reclaiming : owns.

Lemma owns_recvfrom h s n : owns h (raw_recvfrom kernel s n) (fun _ => h) h.
Proof. unfold raw_recvfrom. owns_go. Qed.

#[export] Instance windows_opens_one : OpensOne kernel (windows_net kernel host).
Proof.
  constructor; intros; cbn.
  - unfold tcp_connect. owns_go.
  - unfold tcp_listen, raw_listen. owns_go.
  - unfold unix_connect. owns_go.
  - unfold unix_listen, raw_listen. owns_go.
  - unfold udp_bind. owns_go.
  - unfold raw_recv. owns_go.
  - unfold raw_send. owns_go.
  - unfold peer_addr, raw_sock_addr. owns_go.
  - unfold unix_peer_addr, unix_name. owns_go.
  - unfold set_read_timeout. owns_go.
  - unfold set_nonblocking. owns_go.
  - unfold udp_send_to, raw_sendto. destruct (to_sockaddr _). owns_go.
  - unfold udp_recv_from, raw_recvfrom. owns_go.
  - unfold set_nodelay. owns_go.
  - unfold local_addr, raw_sock_addr. owns_go.
  - unfold local_addr, raw_sock_addr. owns_go.
  - unfold raw_recv. owns_go.
  - unfold raw_send. owns_go.
  - unfold unix_local_addr, raw_local_addr_unix, unix_name. owns_go.
  - unfold unix_local_addr, raw_local_addr_unix, unix_name. owns_go.
  - unfold local_addr, raw_sock_addr. owns_go.
Qed.
End descriptors.

(** An address of no family the code knows, and a listener that is told it. *)
Definition strange_peer (c : Call) (k : unit) : unit * Ret := (k, mkRet 5 0 (OAddr (zeros 110) 110)).
Definition no_host : Host unit := mkHost (fun _ => 0) (fun _ k => k) (fun _ _ => None) (fun _ _ => false).

(** The accepted socket is not closed when its peer's address is not
    understood: the law the other backends keep fails. *)
Lemma windows_accept_leaks : ~ AcceptsCleanly strange_peer (windows_net strange_peer no_host).
Proof.
  intros [H _]. destruct (H ∅ 3 (mkWorld tt []) _ _ eq_refl) as (l & Hl & Hr).
  cbn [log app] in Hl. subst l. specialize (Hr ltac:(done)). vm_compute in Hr. discriminate Hr.
Qed.

(** ** A name is removed only when nobody answers there *)

Section reclaim.
Context {K : Type} (kernel : Call -> K -> K * Ret) (host : Host K).
Implicit Types w : World K.

Definition no_delete (e : Call * Ret) : Prop := match fst e with w_delete_file _ => False | _ => True end.
Definition startup_failed w : Prop := exists r, startup_result w = Some r /\ r <> 0.

Lemma startup_stable w w' l : log w' = log w ++ l -> startup_failed w -> startup_failed w'.
Proof.
  intros Hl (r & Hr & Hne). exists r. split; [|done]. unfold startup_result in *. rewrite Hl, omap_app.
  by destruct (omap _ (log w)).
Qed.

(** [m] makes at most [n] calls, none of them a deletion, does not run out of
    fuel, and panics only when Winsock did not start; what else is known of
    its calls and result is [P]. *)
Definition mild {A} (n : nat) (m : World K -> World K * Run A) (P : list (Call * Ret) -> Result A -> Prop) : Prop :=
  forall w, exists l, log (fst (m w)) = log w ++ l /\ (length l <= n)%nat /\ Forall no_delete l /\
  match snd (m w) with
  | Done r => P l r
  | Panic => startup_failed (fst (m w))
  | OutOfFuel => False
  end.

Lemma mild_weaken {A} n n' (m : World K -> World K * Run A) (P P' : list (Call * Ret) -> Result A -> Prop) :
  mild n m P -> (n <= n')%nat -> (forall l r, P l r -> P' l r) -> mild n' m P'.
Proof.
  intros Hm Hn HP w. destruct (Hm w) as (l & Hl & Hlen & Hnd & H). exists l. split; [done|]. split; [lia|]. split; [done|].
  destruct (snd (m w)); [by apply HP|done..].
Qed.

Lemma mild_lift {A} n (r : Result A) : mild n (st_lift (Done r)) (fun l r' => l = [] /\ r' = r).
Proof. intros w. exists []. cbn. rewrite app_nil_r. repeat split; [lia|constructor]. Qed.

Lemma mild_ensure : mild 1 (ensure_wsa_started kernel) (fun _ r => r = Ok tt).
Proof.
  intros w. unfold ensure_wsa_started. destruct (startup_result w) as [r|] eqn:E.
  - exists []. cbn [fst snd]. rewrite app_nil_r. split; [done|]. split; [cbn; lia|]. split; [constructor|].
    destruct (r =? 0) eqn:Er; [done|]. bool_to_prop. by exists r.
  - unfold st_bind, syscall, st_lift. destruct (kernel _ _) as [k r]. eexists. split; [reflexivity|].
    split; [cbn; lia|]. split; [by repeat constructor|]. cbn [fst snd].
    destruct (rv r =? 0) eqn:Er; [done|]. bool_to_prop. exists (rv r). split; [|done].
    unfold startup_result in *. cbn [log]. rewrite omap_app. by destruct (omap _ (log w)).
Qed.

(** In sequence: [m] returned [a] after [l1], or failed. *)
Lemma mild_bind {A B} n1 n2 (m : World K -> World K * Run A) (k : A -> World K -> World K * Run B) P Q :
  mild n1 m P -> (forall a, mild n2 (k a) (Q a)) ->
  mild (n1 + n2) (st_bind m k) (fun l r =>
    (exists l1 l2 a, l = l1 ++ l2 /\ P l1 (Ok a) /\ Q a l2 r) \/ exists e, r = Err e /\ P l (Err e)).
Proof.
  intros Hm Hk w. unfold st_bind. destruct (Hm w) as (l1 & Hl1 & Hn1 & Hd1 & H1).
  destruct (m w) as [w1 [[a|e]| |]] eqn:E; cbn [fst snd] in *.
  - destruct (Hk a w1) as (l2 & Hl2 & Hn2 & Hd2 & H2). exists (l1 ++ l2). rewrite Hl2, Hl1, app_assoc.
    split; [done|]. split; [rewrite length_app; lia|]. split; [by apply Forall_app_2|].
    destruct (snd (k a w1)); [|done..]. left. by exists l1, l2, a.
  - exists l1. split; [done|]. split; [lia|]. split; [done|]. right. eauto.
  - exists l1. split; [done|]. split; [lia|]. by split.
  - done.
Qed.

Definition wsa_error (r : Ret) (op : string) : PlatformError := error_new (wsa_kind (err r)) (Win32 (err r)) op.

Lemma mild_wsa_unit c op : (forall r, no_delete (c, r)) ->
  mild 1 (wsa_unit kernel c op) (fun l r => exists x, l = [(c, x)] /\
    r = if rv x =? 0 then Ok tt else Err (wsa_error x op)).
Proof.
  intros Hc w. unfold wsa_unit, wsa_err, st_bind, syscall, st_lift. destruct (kernel _ _) as [k x].
  exists [(c, x)]. destruct (rv x =? 0) eqn:E; cbn [negb fst snd log]; (split; [done|]); (split; [cbn; lia|]);
    (split; [by repeat constructor|]); exists x; rewrite E; [done|]. by rewrite errno_last.
Qed.

Lemma mild_new_unix : mild 2 (new_unix_socket kernel) (fun _ _ => True).
Proof.
  eapply mild_weaken; [apply (mild_bind 1 1); [apply mild_ensure|]|lia|].
  - intros []. instantiate (1 := fun _ _ _ => True). intros w.
    unfold raw_unix_socket, new_socket, wsa_err, st_bind, syscall, st_lift. destruct (kernel _ _) as [k x].
    eexists. destruct (rv x =? INVALID_SOCKET); (split; [reflexivity|]); (split; [cbn; lia|]); by repeat constructor.
  - intros l [a|e] _; auto.
Qed.

(** [s] dropped at the end, or on a failure only. *)
Lemma mild_scoped {A} n s (m : World K -> World K * Run A) P :
  mild n m P -> mild (S n) (scoped kernel s m) (fun l r => exists l' x, l = l' ++ [(c_close s, x)] /\ P l' r).
Proof.
  intros Hm w. unfold scoped. destruct (Hm w) as (l & Hl & Hn & Hd & H). destruct (m w) as [w1 r]. cbn [fst snd] in *.
  destruct (drop_fd_log kernel s w1) as [x Hx]. exists (l ++ [(c_close s, x)]).
  assert (log (drop_fd kernel s w1) = log w ++ l ++ [(c_close s, x)]) as Hw by (by rewrite Hx, Hl, app_assoc).
  assert (Forall no_delete (l ++ [(c_close s, x)])) as Hf by (apply Forall_app_2; [done|by repeat constructor]).
  destruct r as [[a|e]| |]; [| | |done]; cbn [fst snd]; (split; [done|]); (split; [rewrite length_app; cbn; lia|]); (split; [done|]).
  - by exists l, x.
  - by exists l, x.
  - eapply (startup_stable w1); [exact Hx|done].
Qed.

(** ** The probe *)

Definition refused_connect (path : OsString) (s : Z) (e : Call * Ret) : Prop :=
  exists addr, to_sockaddr_un path = Ok addr /\ fst e = w_connect s addr /\
    rv (snd e) <> 0 /\ err (snd e) = WSAECONNREFUSED.

Lemma wsa_kind_refused c : wsa_kind c = ConnectionRefused -> c = WSAECONNREFUSED.
Proof.
  unfold wsa_kind. destruct (c =? WSAECONNREFUSED) eqn:E; [by apply Z.eqb_eq in E|].
  by repeat (destruct (_ =? _); [done|]).
Qed.

Lemma raw_connect_unix_cases s path : mild 1 (raw_connect_unix kernel s path) (fun l r =>
  match r with Ok _ => True | Err e => kind e = ConnectionRefused -> exists x, l = [x] /\ refused_connect path s x end).
Proof.
  unfold raw_connect_unix. destruct (to_sockaddr_un path) as [addr|e] eqn:Ea.
  - eapply mild_weaken; [apply (mild_bind 0 1); [apply mild_lift|intros a; by apply mild_wsa_unit]|lia|].
    intros l [[]|e]; [done|]. intros [(l1 & l2 & a & -> & [-> [= <-]] & x & -> & Hr)|(e' & _ & _ & [=])] Hk.
    cbn [app]. destruct (rv x =? 0) eqn:E; simplify_eq. bool_to_prop. eexists. split; [reflexivity|].
    exists a. split; [done|]. split; [done|]. split; [done|]. by apply wsa_kind_refused.
  - intros w. exists []. cbn. rewrite app_nil_r. repeat split; [lia|constructor|]. intros Hk. exfalso.
    unfold to_sockaddr_un in Ea. destruct (to_str path); [|by simplify_eq]. by destruct (_ <? _); simplify_eq.
Qed.

Lemma probe_verdict_cases retries s path : mild 1 (probe_verdict kernel host retries s path) (fun l r =>
  match r with
  | Ok (Some true) => exists x, l = [x] /\ refused_connect path s x
  | Ok None => retries <> O
  | Ok (Some false) => True
  | Err _ => False
  end).
Proof.
  intros w. unfold probe_verdict. destruct (raw_connect_unix_cases s path w) as (l & Hl & Hn & Hd & H).
  destruct (raw_connect_unix kernel s path w) as [w1 [[[]|e]| |]]; cbn [fst snd] in *; [by exists l| |by exists l|done].
  destruct (bool_decide (kind e = ConnectionRefused)) eqn:Ek.
  - apply bool_decide_eq_true in Ek. exists l. cbn [fst snd]. auto.
  - exists l. destruct (_ && _) eqn:Eb; cbn [fst snd]; [|done]. split; [done|]. split; [done|]. split; [done|].
    apply andb_true_iff in Eb as [_ Eb]. apply negb_true_iff, Nat.eqb_neq in Eb. done.
Qed.

(** Stale: the last two calls are a refused connection and the close of its
    socket. *)
Definition refused_last (path : OsString) (l : list (Call * Ret)) : Prop :=
  exists l0 s x rc, l = l0 ++ [x; (c_close s, rc)] /\ refused_connect path s x.

Definition answers (path : OsString) (l : list (Call * Ret)) (r : Result bool) : Prop :=
  match r with Ok true => refused_last path l | Ok false => True | Err _ => False end.

(** One turn, the probe opened. *)
Lemma stale_turn retries path s (next : World K -> World K * Run bool) n :
  (retries <> O -> mild n next (answers path)) ->
  mild (2 + n) (fun w =>
    match scoped kernel s (probe_verdict kernel host retries s path) w with
    | (w, ret (Some b)) => (w, ret b)
    | (w, ret None) => next w
    | (w, fail e) => (w, fail e)
    | (w, Panic) => (w, Panic)
    | (w, OutOfFuel) => (w, OutOfFuel)
    end) (answers path).
Proof.
  intros Hnext w. destruct (mild_scoped 1 s _ _ (probe_verdict_cases retries s path) w) as (l & Hl & Hn & Hd & H).
  destruct (scoped kernel s (probe_verdict kernel host retries s path) w) as [w2 [[[[|]|]|e]| |]]; cbn [fst snd] in *.
  - exists l. split_and!; [done|lia|done|]. destruct H as (l' & x & -> & y & -> & Hy). by exists [], s, y, x.
  - exists l. split_and!; [done|lia|done|done].
  - destruct H as (l' & x & -> & Hr). destruct (Hnext Hr w2) as (l2 & Hl2 & Hn2 & Hd2 & H2).
    exists ((l' ++ [(c_close s, x)]) ++ l2). rewrite Hl2, Hl, <- app_assoc.
    split; [done|]. split; [rewrite length_app; lia|]. split; [by apply Forall_app_2|].
    destruct (snd (next w2)) as [[[|]|]| |]; try done. destruct H2 as (l0 & s' & y & rc & -> & Hy).
    exists ((l' ++ [(c_close s, x)]) ++ l0), s', y, rc. by rewrite <- !app_assoc.
  - by destruct H as (? & ? & _ & []).
  - exists l. split_and!; [done|lia|done|done].
  - done.
Qed.

Lemma answers_app path l1 l2 r : answers path l2 r -> answers path (l1 ++ l2) r.
Proof.
  destruct r as [[|]|]; [|done..]. intros (l0 & s & x & rc & -> & Hx).
  exists (l1 ++ l0), s, x, rc. by rewrite app_assoc.
Qed.

Lemma stale_opened path n (next : Z -> World K -> World K * Run bool) :
  (forall s, mild n (next s) (answers path)) ->
  mild (2 + n) (fun w =>
    match new_unix_socket kernel w with
    | (w, ret probe) => next probe w
    | (w, fail _) => (w, ret false)
    | (w, Panic) => (w, Panic)
    | (w, OutOfFuel) => (w, OutOfFuel)
    end) (answers path).
Proof.
  intros Hn w. destruct (mild_new_unix w) as (l1 & Hl1 & Hn1 & Hd1 & H1).
  destruct (new_unix_socket kernel w) as [w1 [[s|e]| |]]; cbn [fst snd] in *.
  - destruct (Hn s w1) as (l2 & Hl2 & Hn2 & Hd2 & H2). exists (l1 ++ l2). rewrite Hl2, Hl1, app_assoc.
    split; [done|]. split; [rewrite length_app; lia|]. split; [by apply Forall_app_2|].
    destruct (snd (next s w1)); [by apply answers_app|done..].
  - exists l1. split_and!; [done|lia|done|done].
  - exists l1. split_and!; [done|lia|done|done].
  - done.
Qed.

Lemma stale_loop_cases path retries : mild (4 * S retries) (stale_loop kernel host retries path) (answers path).
Proof.
  induction retries as [|retries IH].
  - eapply mild_weaken; [apply (stale_opened path 2); intros s; apply (stale_turn 0 path s _ 0)|lia|by intros].
    intros []. done.
  - eapply mild_weaken; [apply (stale_opened path (2 + 4 * S retries)); intros s; apply (stale_turn (S retries) path s _ _)|lia|by intros].
    intros _. apply IH.
Qed.

(** ** Bind, with the second try *)

Definition bound (path : OsString) (s : Z) (e : Call * Ret) : Prop :=
  exists addr, to_sockaddr_un path = Ok addr /\ fst e = w_bind s addr /\ rv (snd e) = 0.

Lemma raw_bind_unix_cases s path : mild 1 (raw_bind_unix kernel s path) (fun l r =>
  match r with Ok _ => exists x, l = [x] /\ bound path s x | Err _ => True end).
Proof.
  unfold raw_bind_unix. eapply mild_weaken; [apply (mild_bind 0 1); [apply mild_lift|intros a; by apply mild_wsa_unit]|lia|].
  intros l [[]|e]; [|done]. intros [(l1 & l2 & a & -> & [-> Ha] & x & -> & Hr)|(e' & [=] & _)].
  destruct (rv x =? 0) eqn:E; [|done]. bool_to_prop. eexists. split; [reflexivity|]. by exists a.
Qed.

(** At most one deletion, of the name to bind, and only right after a
    connection to it was refused. *)
Definition reclaims (path : OsString) (l : list (Call * Ret)) : Prop :=
  Forall no_delete l \/
  exists l0 d l1, l = l0 ++ d :: l1 /\ fst d = w_delete_file (to_wide_nul path) /\
    refused_last path l0 /\ Forall no_delete l0 /\ Forall no_delete l1.

Lemma reclaims_app path l1 l l2 :
  Forall no_delete l1 -> reclaims path l -> Forall no_delete l2 -> reclaims path (l1 ++ l ++ l2).
Proof.
  intros H1 [H|(l0 & d & l' & -> & Hd & (m & s & x & rc & -> & Hx) & H0 & H')] H2.
  - left. by repeat apply Forall_app_2.
  - right. exists (l1 ++ m ++ [x; (c_close s, rc)]), d, (l' ++ l2). split; [by rewrite <- !app_assoc|].
    split; [done|]. split; [by exists (l1 ++ m), s, x, rc; rewrite <- app_assoc|].
    split; by apply Forall_app_2.
Qed.

(** Like [mild], a deletion being allowed as [reclaims] says. *)
Definition reclaiming {A} (n : nat) (path : OsString) (m : World K -> World K * Run A)
    (P : list (Call * Ret) -> Result A -> Prop) : Prop :=
  forall w, exists l, log (fst (m w)) = log w ++ l /\ (length l <= n)%nat /\ reclaims path l /\
  match snd (m w) with
  | Done r => P l r
  | Panic => startup_failed (fst (m w))
  | OutOfFuel => False
  end.

Definition bound_last (path : OsString) (s : Z) (l : list (Call * Ret)) : Prop :=
  exists l0 x, l = l0 ++ [x] /\ bound path s x.

(** Delete, and bind again. *)
Definition rebind (s : Z) (path : OsString) : World K -> World K * Run unit :=
  st! _ := syscall kernel (w_delete_file (to_wide_nul path)) in raw_bind_unix kernel s path.

Lemma rebind_cases s path w : exists d l1,
  log (fst (rebind s path w)) = log w ++ d :: l1 /\ (length l1 <= 1)%nat /\
  fst d = w_delete_file (to_wide_nul path) /\ Forall no_delete l1 /\
  match snd (rebind s path w) with
  | Done (Ok _) => exists x, l1 = [x] /\ bound path s x
  | Done (Err _) => True
  | Panic => startup_failed (fst (rebind s path w))
  | OutOfFuel => False
  end.
Proof.
  unfold rebind, st_bind, syscall. destruct (kernel (w_delete_file _) _) as [k r]. cbn [fst snd].
  set (w1 := mkWorld k _). destruct (raw_bind_unix_cases s path w1) as (l1 & Hl & Hn & Hd & H).
  exists (w_delete_file (to_wide_nul path), r), l1. rewrite Hl. unfold w1. cbn [log]. rewrite <- app_assoc.
  split_and!; [done|done|done|done|]. by destruct (snd (raw_bind_unix kernel s path _)) as [[[]|]| |].
Qed.

Lemma bind_reclaiming_cases s path : reclaiming (4 * 21 + 3) path (bind_reclaiming kernel host s path) (fun l r =>
  match r with Ok _ => bound_last path s l | Err _ => True end).
Proof.
  intros w. unfold bind_reclaiming. destruct (raw_bind_unix_cases s path w) as (l & Hl & Hn & Hd & H).
  destruct (raw_bind_unix kernel s path w) as [w1 [[[]|e]| |]]; cbn [fst snd] in *.
  3-4: by try (exists l; split_and!; [|lia|left|]).
  { exists l. split_and!; [done|lia|by left|]. destruct H as (x & -> & Hx). by exists [], x. }
  destruct (is_stale_bind_candidate e); [|exists l; split_and!; [done|lia|by left|done]].
  fold (rebind s path). unfold is_stale_socket, st_bind, st_lift.
  destruct (stale_loop_cases path STALE_PROBE_ENOBUFS_RETRIES w1) as (l1 & Hl1 & Hn1 & Hd1 & H1).
  change (4 * S STALE_PROBE_ENOBUFS_RETRIES)%nat with 84%nat in Hn1.
  destruct (stale_loop kernel host STALE_PROBE_ENOBUFS_RETRIES path w1) as [w2 [[[|]|e1]| |]]; cbn [fst snd] in *.
  - destruct (rebind_cases s path w2) as (d & l2 & Hl2 & Hn2 & Hdel & Hd2 & H2).
    exists (l ++ (l1 ++ d :: l2) ++ []). rewrite Hl2, Hl1, Hl, app_nil_r, <- !app_assoc. split; [done|].
    split; [rewrite !length_app; cbn; lia|]. rewrite <- (app_nil_r (l1 ++ d :: l2)) at 1.
    split; [apply reclaims_app; [done| |done]; right; by exists l1, d, l2|].
    destruct (snd (rebind s path w2)) as [[[]|]| |]; try done. destruct H2 as (x & -> & Hx).
    exists (l ++ l1 ++ [d]), x. by rewrite <- !app_assoc.
  - exists (l ++ l1). rewrite Hl1, Hl, app_assoc, length_app. split_and!; [done|lia|left; by apply Forall_app_2|done].
  - done.
  - exists (l ++ l1). rewrite Hl1, Hl, app_assoc, length_app. split_and!; [done|lia|left; by apply Forall_app_2|done].
  - done.
Qed.

(** The rest of [unix_listen], the socket owned. *)
Definition listening (path : OsString) (s : Z) (l : list (Call * Ret)) : Prop :=
  exists l0 b c, l = l0 ++ [b; c] /\ bound path s b /\
    fst c = w_listen s SOMAXCONN /\ rv (snd c) = 0.

Lemma bind_listen_cases s path :
  reclaiming (4 * 21 + 4) path
    (st! _ := bind_reclaiming kernel host s path in st! _ := raw_listen kernel s in st_lift (ret s))
    (fun l r => match r with Ok s' => s' = s /\ listening path s l | Err _ => True end).
Proof.
  intros w. unfold st_bind, st_lift. destruct (bind_reclaiming_cases s path w) as (l & Hl & Hn & Hr & H).
  destruct (bind_reclaiming kernel host s path w) as [w1 [[[]|e]| |]]; cbn [fst snd] in *; [| | |done];
    [|exists l; by (split_and!; try lia)..].
  destruct H as (l0 & x & -> & Hx). unfold raw_listen.
  destruct (mild_wsa_unit (w_listen s SOMAXCONN) "listen" ltac:(done) w1) as (l1 & Hl1 & Hn1 & Hd1 & H1).
  destruct (wsa_unit kernel (w_listen s SOMAXCONN) "listen" w1) as [w2 [[[]|e]| |]]; cbn [fst snd st_lift] in *; [| | |done];
    (exists ([] ++ (l0 ++ [x]) ++ l1); split; [by rewrite Hl1, Hl; cbn [app]; rewrite <- !app_assoc|]; split; [rewrite !length_app in *; cbn in *; lia|];
     split; [by apply reclaims_app|]); [|done..].
  destruct H1 as (y & -> & Hy). split; [done|]. exists l0, x, (w_listen s SOMAXCONN, y). cbn [app fst snd].
  rewrite <- app_assoc. split_and!; [done|done|done|]. destruct (rv y =? 0) eqn:E; [by bool_to_prop|done].
Qed.

Lemma st_bind_eq {A B} (m : World K -> World K * Run A) (k : A -> World K -> World K * Run B) w :
  st_bind m k w = match m w with
  | (w, ret a) => k a w
  | (w, fail e) => (w, fail e)
  | (w, Panic) => (w, Panic)
  | (w, OutOfFuel) => (w, OutOfFuel)
  end.
Proof. unfold st_bind. by destruct (m w) as [w1 [[a|e]| |]]. Qed.

(** C9: [unix_listen] always ends, in at most 91 calls whatever the kernel answers;
    it deletes at most one file, the one at the path it was given, and only
    right after a connection to that path was refused and its probe closed;
    when it returns a listener the last two calls bound that socket to the
    path and put it to listening, both with success; and it panics only when
    Winsock did not start. *)
Theorem windows_unix_listen_reclaims_only_dead path w : exists l,
  log (fst (unix_listen kernel host path w)) = log w ++ l /\ (length l <= 91)%nat /\ reclaims path l /\
  match snd (unix_listen kernel host path w) with
  | Done (Ok s) => listening path s l
  | Done (Err _) => True
  | Panic => startup_failed (fst (unix_listen kernel host path w))
  | OutOfFuel => False
  end.
Proof.
  unfold unix_listen. rewrite st_bind_eq. destruct (mild_new_unix w) as (l & Hl & Hn & Hd & Hp).
  destruct (new_unix_socket kernel w) as [w1 [[s|e]| |]]; cbn [fst snd] in *; [| | |done];
    [|exists l; (split; [done|]); (split; [lia|]); split; [by left|done]..].
  unfold owned. destruct (bind_listen_cases s path w1) as (l1 & Hl1 & Hn1 & Hr1 & H1).
  destruct ((st! _ := _ in _) w1) as [w2 [[s'|e]| |]]; cbn [fst snd] in *; [| | |done].
  1: { destruct H1 as [-> (l0 & b & c & -> & H)]. exists (l ++ (l0 ++ [b; c]) ++ []). rewrite Hl1, Hl, app_nil_r, <- app_assoc.
    split; [done|]. rewrite length_app. split; [lia|]. rewrite <- (app_nil_r (l0 ++ [b; c])).
    split; [by apply reclaims_app|]. exists (l ++ l0), b, c. by rewrite app_nil_r, <- app_assoc. }
  all: destruct (drop_fd_log kernel s w2) as [x Hx]; exists (l ++ l1 ++ [(c_close s, x)]); rewrite Hx, Hl1, Hl, <- !app_assoc;
    (split; [done|]); (split; [rewrite !length_app; cbn; lia|]); (split; [apply reclaims_app; [done|done|by repeat constructor]|]).
  1: done.
  by eapply (startup_stable w2).
Qed.
End reclaim.


(** A kernel with one name in its file system: whether a file is there, and
    what a connection to it says. *)
Record OneName := mkOneName { in_use : bool; refusal : Z; next_socket : Z }.
Definition one_name (c : Call) (k : OneName) : OneName * Ret :=
  let 'mkOneName b e n := k in
  match c with
  | w_socket _ _ _ => (mkOneName b e (n + 1), mkRet n 0 ONone)
  | w_bind _ _ => if b then (k, mkRet (-1) WSAEADDRINUSE ONone) else (mkOneName true e n, mkRet 0 0 ONone)
  | w_connect _ _ => (k, if e =? 0 then mkRet 0 0 ONone else mkRet (-1) e ONone)
  | w_delete_file _ => (mkOneName false e n, mkRet 1 0 ONone)
  | _ => (k, mkRet 0 0 ONone)
  end.
Definition one_name_host : Host OneName := mkHost (fun _ => 0) (fun _ k => k) (fun _ _ => None) (fun _ _ => false).

(** A dead listener's name is taken over; a live one keeps it; one that keeps
    saying it has no buffers is asked 21 times, and keeps it. *)
Example listen_dead :
  snd (unix_listen one_name one_name_host (lit "C:\s") (mkWorld (mkOneName true WSAECONNREFUSED 3) [])) = ret 3.
Proof. vm_compute. reflexivity. Qed.
Example listen_live :
  let (w, r) := unix_listen one_name one_name_host (lit "C:\s") (mkWorld (mkOneName true 0 3) []) in
  in_use (state w) = true /\ r = fail (error_new AddrInUse (Win32 WSAEADDRINUSE) "bind").
Proof. vm_compute. done. Qed.
Example listen_no_buffers :
  let (w, r) := unix_listen one_name one_name_host (lit "C:\s") (mkWorld (mkOneName true WSAENOBUFS 3) []) in
  in_use (state w) = true /\ length (log w) = 67%nat /\ next_socket (state w) = 25.
Proof. vm_compute. done. Qed.
