(* ===== verification/NetBackends.v ===== *)
(** * What the three network backends promise about descriptors

    The laws of [NetApi], for the backends of Linux, the BSDs and Windows. *)

From Stdlib Require Import ZArith.
From S2P Require Import Prelude Error Sys LinuxNet NetApi BsdNet WinNet WinProcess.
From stdpp Require Import base.

(** C39: On every backend the operations of [Net] that open hand over exactly the
    descriptor they return and leave nothing open when they fail, whatever the
    kernel answers, and the others neither open nor close; a failing [accept]
    leaves nothing open on Linux and the BSDs, and on Windows it may. *)
Theorem net_backends_own_descriptors :
  (forall K (kernel : Call -> K -> K * Ret), OpensOne kernel (linux_net kernel) /\ AcceptsCleanly kernel (linux_net kernel)) /\
  (forall t K (kernel : Call -> K -> K * Ret), OpensOne kernel (bsd_net t kernel) /\ AcceptsCleanly kernel (bsd_net t kernel)) /\
  (forall K (kernel : Call -> K -> K * Ret) (host : Host K), OpensOne kernel (windows_net kernel host)) /\
  ~ (forall K (kernel : Call -> K -> K * Ret) (host : Host K), AcceptsCleanly kernel (windows_net kernel host)).
Proof.
  split; [split; apply _|]. split; [split; apply _|]. split; [intros; apply _|].
  intros H. apply windows_accept_leaks, H.
Qed.
