(* ===== verification/BsdSecurity.v ===== *)
(** * Trust anchors on the BSDs and macOS
      ([platform-bsd/src/sys/trust_anchors.rs], [src/security.rs])

    macOS keeps its roots in the keychain: the array of certificates that
    Security.framework hands over is walked, with the Core Foundation
    references released by the rules of its naming.  The other systems keep
    PEM files; decoding and probing are those of [TrustAnchors], with other
    paths. *)

From Stdlib Require Import ZArith Lia String.
From S2P Require Import Prelude Error Sys TrustAnchors.
From stdpp Require Import base numbers list strings gmap gmultiset.
Open Scope Z_scope.

(** ** FreeBSD, OpenBSD, NetBSD, DragonFly *)

Definition BUNDLE_PATHS : list str :=
  [lit "/etc/ssl/cert.pem"; lit "/usr/local/etc/ssl/cert.pem"; lit "/usr/local/share/certs/ca-root-nss.crt";
   lit "/etc/openssl/certs/ca-certificates.crt"; lit "/etc/ssl/certs/ca-certificates.crt"].
Definition DIR_PATHS : list str :=
  [lit "/etc/ssl/certs"; lit "/usr/local/share/certs"; lit "/etc/openssl/certs"].

Definition load_anchors_pem : System -> Result (list (list Z)) :=
  probe BUNDLE_PATHS DIR_PATHS "CA bundle held no usable certificates"
    "CA directory held no usable certificates".

(** ** macOS *)

Definition ERR_SEC_SUCCESS := 0.

Section keychain.
Context {K : Type} (kernel : Call -> K -> K * Ret).
Abbreviation M A := (World K -> World K * Run A).
Abbreviation sys c := (syscall kernel c).

(** [for i in 0..count], [n] elements left; [continue] past what has no
    data. *)
Fixpoint anchors_loop (n : nat) (i array : Z) (anchors : list (list Z)) : M (list (list Z)) :=
  match n with
  | O => st_lift (ret anchors)
  | S n =>
    st! cert := sys (c_cf_array_value array i) in
    if rv cert =? 0 then anchors_loop n (i + 1) array anchors
    else
      st! data := sys (c_sec_copy_data (rv cert)) in
      if rv data =? 0 then anchors_loop n (i + 1) array anchors
      else
        st! len := sys (c_cf_data_length (rv data)) in
        st! ptr := sys (c_cf_data_ptr (rv data)) in
        let der := if (rv ptr =? 0) || (rv len <=? 0) then [] else take (Z.to_nat (rv len)) (out_bytes ptr) in
        st! _ := sys (c_cf_release (rv data)) in
        anchors_loop n (i + 1) array (match der with [] => anchors | _ => anchors ++ [der] end)
  end.

Definition load_anchors_keychain : M (list (list Z)) :=
  st! r := sys c_sec_copy_anchors in
  let array := out_int r in
  if negb (rv r =? ERR_SEC_SUCCESS) || (array =? 0)
  then st_lift (fail (error_new Other (Errno (rv r)) "SecTrustCopyAnchorCertificates"))
  else
    st! count := sys (c_cf_array_count array) in
    st! anchors := anchors_loop (Z.to_nat (rv count)) 0 array [] in
    st! _ := sys (c_cf_release array) in
    st_lift (match anchors with
      | [] => fail (no_anchors "system anchor certificates held no usable entries")
      | _ => ret anchors
      end).

(** ** Every reference is released once *)

Implicit Types h : gmultiset Z.

Lemma owns_anchors_loop h E n : forall i array anchors,
  owns h (anchors_loop n i array anchors) (fun _ => h) E.
Proof.
  induction n as [|n IH]; intros i array anchors; cbn [anchors_loop]; [by apply owns_ret|].
  apply (owns_bind _ _ _ (fun _ => h)); [by apply owns_neutral|]. intros cert. cbv beta. destruct (rv cert =? 0); [apply IH|].
  eapply owns_bind; [by apply owns_syscall|]. intros data. cbv beta. cbn [acquired fst snd].
  destruct (rv data =? 0).
  - rewrite list_to_set_disj_nil, (right_id_L ∅ (⊎)). apply IH.
  - rewrite list_to_set_disj_cons, list_to_set_disj_nil, (right_id_L ∅ (⊎)), (comm_L (⊎)).
    do 2 (apply (owns_bind _ _ _ (fun _ => {[+ rv data +]} ⊎ h)); [by apply owns_neutral|]; intros ?; cbv beta). cbv zeta.
    apply (owns_bind _ _ _ (fun _ => h)); [by apply owns_release|]. intros _. apply IH.
Qed.

Lemma owns_load_keychain h : owns h load_anchors_keychain (fun _ => h) h.
Proof.
  unfold load_anchors_keychain. eapply owns_bind; [by apply owns_syscall|]. intros r. cbv beta zeta.
  cbn [acquired fst snd]. unfold ERR_SEC_SUCCESS. destruct (rv r =? 0); cbn [negb orb andb].
  2: { rewrite list_to_set_disj_nil, (right_id_L ∅ (⊎)). apply owns_fail. }
  destruct (out_int r =? 0); cbn [negb].
  { rewrite list_to_set_disj_nil, (right_id_L ∅ (⊎)). apply owns_fail. }
  rewrite list_to_set_disj_cons, list_to_set_disj_nil, (right_id_L ∅ (⊎)), (comm_L (⊎)).
  apply (owns_bind _ _ _ (fun _ => {[+ out_int r +]} ⊎ h)); [by apply owns_neutral|]. intros count. cbv beta.
  apply (owns_bind _ _ _ (fun _ => {[+ out_int r +]} ⊎ h)); [apply owns_anchors_loop|]. intros anchors.
  apply (owns_bind _ _ _ (fun _ => h)); [by apply owns_release|]. intros _. destruct anchors; apply owns_pure.
Qed.

(** ** What an array of certificates answers *)

(** [None]: an element, or a certificate, there is no data for. *)
Class Keychain (array : Z) (certs : list (option (list Z))) : Prop := {
  keychain_count k : rv (snd (kernel (c_cf_array_count array) k)) = zlen certs;
  keychain_value i x k : certs !! i = Some x ->
    let cert := rv (snd (kernel (c_cf_array_value array (Z.of_nat i)) k)) in
    match x with
    | None => cert = 0 \/ forall k, rv (snd (kernel (c_sec_copy_data cert) k)) = 0
    | Some der => cert <> 0 /\ forall k,
      let data := rv (snd (kernel (c_sec_copy_data cert) k)) in
      data <> 0 /\ (forall k, rv (snd (kernel (c_cf_data_length data) k)) = zlen der) /\
      forall k, let p := snd (kernel (c_cf_data_ptr data) k) in rv p <> 0 /\ out_bytes p = der
    end;
}.

Definition usable (l : list (option (list Z))) : list (list Z) :=
  List.filter (fun der => match der with [] => false | _ => true end) (omap id l).

Lemma anchors_loop_all array certs {L : Keychain array certs} n : forall i anchors (w : World K),
  length certs = (i + n)%nat ->
  exists w', anchors_loop n (Z.of_nat i) array anchors w = (w', ret (anchors ++ usable (drop i certs))).
Proof.
  induction n as [|n IH]; intros i anchors w Hn.
  { exists w. cbn. rewrite drop_ge by lia. by rewrite app_nil_r. }
  destruct (lookup_lt_is_Some_2 certs i) as [x Hx]; [lia|]. rewrite (drop_S _ _ _ Hx). cbn [anchors_loop].
  replace (Z.of_nat i + 1) with (Z.of_nat (S i)) by lia.
  pose proof (keychain_value i x (state w) Hx) as H. cbv zeta in H.
  destruct (kernel (c_cf_array_value array (Z.of_nat i)) (state w)) as [k1 r1] eqn:E1. rewrite (st_sys _ _ _ _ _ _ E1).
  cbn [snd] in H. destruct x as [der|].
  - destruct H as [Hc H]. rewrite (proj2 (Z.eqb_neq _ _) Hc). specialize (H k1).
    destruct (kernel (c_sec_copy_data (rv r1)) k1) as [k2 r2] eqn:E2. rewrite (st_sys _ _ k2 r2) by exact E2.
    cbn [snd] in H. destruct H as (Hd & Hlen & Hp). rewrite (proj2 (Z.eqb_neq _ _) Hd). specialize (Hlen k2).
    destruct (kernel (c_cf_data_length (rv r2)) k2) as [k3 r3] eqn:E3. rewrite (st_sys _ _ k3 r3) by exact E3.
    specialize (Hp k3). destruct (kernel (c_cf_data_ptr (rv r2)) k3) as [k4 r4] eqn:E4.
    rewrite (st_sys _ _ k4 r4) by exact E4. cbn [snd] in *. destruct Hp as [Hp Hb]. cbv zeta.
    destruct (kernel (c_cf_release (rv r2)) k4) as [k5 r5] eqn:E5. rewrite (st_sys _ _ k5 r5) by exact E5.
    rewrite (proj2 (Z.eqb_neq _ _) Hp), Hlen, Hb. cbn [orb]. destruct der as [|b der].
    + apply IH. lia.
    + rewrite (proj2 (Z.leb_gt _ _)) by (cbn [length]; lia). rewrite Nat2Z.id, firstn_all.
      unfold usable. cbn [omap list_omap id List.filter].
      match goal with |- context [anchors_loop n _ array _ ?w1] =>
        destruct (IH (S i) (anchors ++ [b :: der]) w1 ltac:(lia)) as [w' Hw'] end.
      exists w'. rewrite Hw', <- app_assoc. done.
  - destruct (rv r1 =? 0) eqn:E2; [apply IH; lia|]. destruct H as [H|H]; [by rewrite H in E2|].
    destruct (kernel (c_sec_copy_data (rv r1)) k1) as [k2 r2] eqn:E3. rewrite (st_sys _ _ k2 r2) by exact E3.
    specialize (H k1). rewrite E3 in H. cbn [snd] in H. rewrite H. apply IH. lia.
Qed.
End keychain.

(** C32: The keychain's anchors are the data of all its certificates that have
    any, in order, and not found when there are none.  Whatever the frameworks
    answer, each reference the Copy rule hands over is released exactly once,
    and no borrowed one is. *)
Theorem keychain_anchors {K} (kernel : Call -> K -> K * Ret) array certs (w : World K) k' e
    `{!Keychain kernel array certs} :
  kernel c_sec_copy_anchors (state w) = (k', mkRet 0 e (OInt array)) -> array <> 0 ->
  (exists w', load_anchors_keychain kernel w = (w', match usable certs with
     | [] => fail (no_anchors "system anchor certificates held no usable entries")
     | anchors => ret anchors
     end)) /\
  (forall h, owns h (load_anchors_keychain kernel) (fun _ => h) h).
Proof.
  intros E Ha. split; [|apply owns_load_keychain]. unfold load_anchors_keychain. rewrite (st_sys _ _ _ _ _ _ E).
  cbn [rv out_int out]. rewrite (proj2 (Z.eqb_neq _ _) Ha). cbn [negb orb Z.eqb ERR_SEC_SUCCESS].
  destruct (kernel (c_cf_array_count array) k') as [k2 r2] eqn:E2. rewrite (st_sys _ _ k2 r2) by exact E2.
  pose proof (keychain_count kernel k') as Hc. rewrite E2 in Hc. cbn [snd] in Hc. rewrite Hc, Nat2Z.id.
  match goal with |- context [st_bind (anchors_loop _ _ _ _ _) _ ?w1] =>
    destruct (anchors_loop_all kernel array certs (length certs) 0 [] w1 eq_refl) as [w3 Hw3] end.
  rewrite (st_bind_ret _ _ _ _ _ Hw3).
  destruct (syscall_total kernel (c_cf_release array) w3) as (w4 & r4 & E4). rewrite (st_bind_ret _ _ _ _ _ E4).
  change ([] ++ usable (drop 0 certs)) with (usable certs). exists w4. by destruct (usable certs).
Qed.

(** Three certificates: one without data, one whose data is empty. *)
Definition keychain_kernel (c : Call) (k : unit) : unit * Ret :=
  match c with
  | c_sec_copy_anchors => (k, mkRet 0 0 (OInt 9))
  | c_cf_array_count _ => (k, mkRet 3 0 ONone)
  | c_cf_array_value _ i => (k, mkRet (100 + i) 0 ONone)
  | c_sec_copy_data 100 => (k, mkRet 0 0 ONone)
  | c_sec_copy_data x => (k, mkRet (x + 100) 0 ONone)
  | c_cf_data_length 202 => (k, mkRet 2 0 ONone)
  | c_cf_data_ptr 202 => (k, mkRet 1 0 (OBytes [48; 3]))
  | c_cf_data_ptr _ => (k, mkRet 1 0 (OBytes []))
  | _ => (k, mkRet 0 0 ONone)
  end.
#[export] Instance keychain_ex : Keychain keychain_kernel 9 [None; Some []; Some [48; 3]].
Proof.
  split; [done|]. intros i x k Hx. do 3 (destruct i as [|i]; [cbn in Hx; injection Hx as <-; cbn; auto|]). done.
Qed.

Lemma keychain_anchors_witness :
  (exists w', load_anchors_keychain keychain_kernel (mkWorld tt []) = (w', ret [[48; 3]])) /\
  (forall h, owns h (load_anchors_keychain keychain_kernel) (fun _ => h) h).
Proof.
  exact (keychain_anchors keychain_kernel 9 [None; Some []; Some [48; 3]] (mkWorld tt []) tt 0 eq_refl ltac:(done)).
Defined.

(** On the other systems too the operator's file, then directory, then the
    first bundle that exists decide alone, and no anchors is an error. *)
Theorem pem_anchors_exclusive s :
  load_anchors_pem s <> Ok [] /\
  (forall anchors, load_anchors_pem s = Ok anchors -> decided_by BUNDLE_PATHS DIR_PATHS s anchors).
Proof. apply probe_exclusive. Qed.

(** The first bundle path here is the last one there: with several bundles
    the two backends read different ones. *)
Example probes_differ :
  let s := mkSystem (fun _ => None) (fun p => Some (lit "-----BEGIN CERTIFICATE-----" ++ (if bool_decide (p = lit "/etc/ssl/cert.pem")
    then lit "TQ==" else lit "TWE=") ++ lit "-----END CERTIFICATE-----")) (fun _ => true) (fun _ => false) (fun _ => None) in
  load_anchors_pem s = Ok [lit "M"] /\ load_anchors s = Ok [lit "Ma"].
Proof. by vm_compute. Qed.
