(* ===== verification/WinSecurity.v ===== *)
(** * Randomness, credentials and trust anchors of the Windows backend
      ([platform-windows/src/sys/security.rs], default build,
       [platform-windows/src/security.rs])

    The credential store is set against what Credential Manager documents:
    one slot for each target name. *)

From Stdlib Require Import ZArith Lia String.
From S2P Require Import Prelude Error Text Sys SecretService MockDevices LinuxNet WinFs WinProcess WinNet.
From stdpp Require Import base numbers list strings gmap gmultiset.
Open Scope Z_scope.

Definition BCRYPT_USE_SYSTEM_PREFERRED_RNG := 2.
Definition CRED_TYPE_GENERIC := 1.
Definition CRED_PERSIST_LOCAL_MACHINE := 2.

(** [format!("rustils\u{1}{service}\u{1}{account}")], as an [OsString]. *)
Definition credential_target_name (service account : str) : OsString :=
  wide_of_str (lit "rustils" ++ [1] ++ service ++ [1] ++ account).

Section security.
Context {K : Type} (kernel : Call -> K -> K * Ret) (RtlNtStatusToDosError : Z -> Z).
Abbreviation M A := (World K -> World K * Run A).
Abbreviation sys := (syscall kernel).

(** The buffer after the call: its length goes through [as u32]. *)
Definition fill_random (buf : list Z) : M (list Z) :=
  let n := wrap 32 (zlen buf) in
  st! r := sys (w_bcrypt_gen_random n BCRYPT_USE_SYSTEM_PREFERRED_RNG) in
  if rv r <? 0 then st_lift (fail (nt_err RtlNtStatusToDosError (rv r) "BCryptGenRandom" []))
  else st_lift (ret (overwrite buf 0 (take (Z.to_nat n) (out_bytes r)))).

Definition credential_set (target_name user_name : OsString) (secret : list Z) : M unit :=
  st! r := sys (w_cred_write CRED_TYPE_GENERIC (to_wide_nul target_name) (to_wide_nul user_name)
    secret (wrap 32 (zlen secret)) CRED_PERSIST_LOCAL_MACHINE) in
  if rv r =? 0 then last_win32_err "CredWriteW" [] else st_lift (ret tt).

(** The allocation is [out_int] of the answer, the blob its bytes. *)
Definition credential_get (target_name : OsString) : M (option (list Z)) :=
  st! r := sys (w_cred_read (to_wide_nul target_name) CRED_TYPE_GENERIC) in
  if rv r =? 0 then fun w =>
    let e := win32_err (errno w) "CredReadW" [] in
    (w, if bool_decide (kind e = NotFound) then ret None else fail e)
  else
    let secret := out_bytes r in
    st! _ := sys (w_cred_free (rv r)) in
    st_lift (ret (Some secret)).

(** [continue] past an entry without bytes. *)
Fixpoint cert_loop (fuel : nat) (store ctx : Z) (anchors : list (list Z)) : M (list (list Z)) :=
  match fuel with
  | O => st_lift OutOfFuel
  | S fuel =>
    st! r := sys (w_cert_enum store ctx) in
    if rv r =? 0 then st_lift (ret anchors)
    else match out_bytes r with
         | [] => cert_loop fuel store (rv r) anchors
         | der => cert_loop fuel store (rv r) (anchors ++ [der])
         end
  end.

Definition load_anchors (fuel : nat) : M (list (list Z)) :=
  st! r := sys (w_cert_open_store (to_wide_nul (lit "ROOT"))) in
  if rv r =? 0 then last_win32_err "CertOpenSystemStoreW(ROOT)" (lit "ROOT")
  else
    st! anchors := cert_loop fuel (rv r) 0 [] in
    st! _ := sys (w_cert_close_store (rv r)) in
    st_lift (match anchors with
      | [] => fail (error_new NotFound NoCode "ROOT certificate store held no usable certificates")
      | _ => ret anchors
      end).

(** ** [security.rs] *)

Definition credential_available : CredentialStoreStatus := SecretService.Available.
Definition get (service account : str) : M (option (list Z)) :=
  credential_get (credential_target_name service account).
Definition set (service account : str) (secret : list Z) : M unit :=
  credential_set (credential_target_name service account) (wide_of_str account) secret.
Definition sandbox_confine_filesystem (readable writable : list OsString) : M SandboxStatus :=
  st_lift (ret MockDevices.Unsupported_).
Definition sandbox_block_inet_sockets : M SandboxStatus := st_lift (ret MockDevices.Unsupported_).
End security.

(** ** Names *)

Lemma code_points_app c cs us : scalar c -> code_points us = cs -> code_points (utf16_units c ++ us) = c :: cs.
Proof.
  unfold scalar, utf16_units. intros Hc <-. destruct (c <? 65536) eqn:E; bool_to_prop; cbn [app].
  - destruct us as [|u us]; [done|]. rewrite code_points_cons. unfold pair_of.
    destruct (55296 <=? c) eqn:E1; [|done]. bool_to_prop. by rewrite (proj2 (Z.ltb_ge c 56320)) by lia.
  - rewrite code_points_cons. unfold pair_of.
    assert (0 <= (c - 65536) / 1024 < 1024 /\ 0 <= (c - 65536) mod 1024 < 1024 /\
      65536 + ((c - 65536) / 1024) * 1024 + (c - 65536) mod 1024 = c) as (H1 & H2 & H3)
      by (Z.to_euclidean_division_equations; lia).
    rewrite (proj2 (Z.leb_le 55296 _)), (proj2 (Z.ltb_lt _ 56320)), (proj2 (Z.leb_le 56320 _)), (proj2 (Z.ltb_lt _ 57344)) by lia.
    cbn [andb]. f_equal. lia.
Qed.

Lemma code_points_wide s : utf8_valid s = true -> Forall (fun b => 0 <= b) s -> code_points (wide_of_str s) = chars s.
Proof.
  intros H Hb. unfold wide_of_str. induction (chars_scalar s H Hb) as [|c cs Hc _ IH]; [done|].
  cbn [map concat]. by apply code_points_app.
Qed.

Lemma wide_of_str_inj s s' : utf8_valid s = true -> utf8_valid s' = true ->
  Forall (fun b => 0 <= b) s -> Forall (fun b => 0 <= b) s' -> wide_of_str s = wide_of_str s' -> s = s'.
Proof.
  intros H H' Hb Hb' E. rewrite <- (of_chars_chars s H), <- (of_chars_chars s' H').
  by rewrite <- !code_points_wide, E.
Qed.

(** Cut at the first SOH. *)
Lemma soh_split (s a s' a' : str) : 1 ∉ s -> 1 ∉ s' -> s ++ [1] ++ a = s' ++ [1] ++ a' -> s = s' /\ a = a'.
Proof.
  revert s'. induction s as [|b s IH]; intros [|b' s'] Hs Hs'; cbn [app].
  - by intros [= ->].
  - intros [= <- _]. exfalso. apply Hs'. by left.
  - intros [= -> _]. exfalso. apply Hs. by left.
  - intros [= <- E]. apply not_elem_of_cons in Hs as [_ Hs], Hs' as [_ Hs'].
    destruct (IH s' Hs Hs' E) as [-> ->]. done.
Qed.

(** A string of Rust. *)
Definition is_str (s : str) : Prop := utf8_valid s = true /\ Forall (fun b => 0 <= b) s.

Lemma is_str_app s s' : is_str s -> is_str s' -> is_str (s ++ s').
Proof. intros [Hs Bs] [Hs' Bs']. split; [by rewrite utf8_valid_app|by apply Forall_app]. Qed.

Lemma is_str_ascii s : Forall (fun b => 0 <= b < 128) s -> is_str s.
Proof.
  intros H. split; [|by eapply List.Forall_impl; [|exact H]; cbn; intros ? []].
  apply utf8_valid_ascii. eapply List.Forall_impl; [|exact H]. unfold is_ascii. cbn. intros a Ha.
  apply andb_true_iff. rewrite Z.leb_le, Z.ltb_lt. lia.
Qed.

Lemma target_name_str s a : is_str s -> is_str a -> is_str (lit "rustils" ++ [1] ++ s ++ [1] ++ a).
Proof.
  intros Hs Ha. repeat apply is_str_app; try done; apply is_str_ascii; by repeat constructor.
Qed.

Lemma credential_target_name_inj s a s' a' : is_str s -> is_str a -> is_str s' -> is_str a' -> 1 ∉ s -> 1 ∉ s' ->
  credential_target_name s a = credential_target_name s' a' -> s = s' /\ a = a'.
Proof.
  intros Hs Ha Hs' Ha' H1 H1' E.
  destruct (target_name_str s a Hs Ha) as [? ?], (target_name_str s' a' Hs' Ha') as [? ?].
  apply wide_of_str_inj in E; [|done..]. apply app_inv_head, app_inv_head in E. by apply soh_split.
Qed.

(** ** Credential Manager *)

(** What [CredWriteW] and [CredReadW] document, of the slots of the generic
    type: [key] is what the manager tells names apart by. *)
Class CredentialManager {K} (kernel : Call -> K -> K * Ret) (key : list Z -> list Z)
    (slot : K -> list Z -> option (list Z)) : Prop := {
  cred_write_slots k t u blob n k' r t' :
    kernel (w_cred_write CRED_TYPE_GENERIC t u blob n CRED_PERSIST_LOCAL_MACHINE) k = (k', r) -> rv r <> 0 ->
    slot k' t' = if bool_decide (key t' = key t) then Some (take (Z.to_nat n) blob) else slot k t';
  cred_write_refused k t u blob n k' r t' :
    kernel (w_cred_write CRED_TYPE_GENERIC t u blob n CRED_PERSIST_LOCAL_MACHINE) k = (k', r) -> rv r = 0 ->
    slot k' t' = slot k t';
  cred_read_slots k t k' r t' :
    kernel (w_cred_read t CRED_TYPE_GENERIC) k = (k', r) -> slot k' t' = slot k t';
  cred_read_found k t k' r :
    kernel (w_cred_read t CRED_TYPE_GENERIC) k = (k', r) -> rv r <> 0 -> slot k t = Some (out_bytes r);
  cred_read_missing k t k' r :
    kernel (w_cred_read t CRED_TYPE_GENERIC) k = (k', r) -> rv r = 0 ->
    kind_of_win32 (err r) = NotFound -> slot k t = None;
  cred_free_slots k c k' r t' : kernel (w_cred_free c) k = (k', r) -> slot k' t' = slot k t';
}.

Section credentials.
Context {K : Type} (kernel : Call -> K -> K * Ret) (key : list Z -> list Z) (slot : K -> list Z -> option (list Z)).
Context `{!CredentialManager kernel key slot}.

Definition name_slot (k : K) (s a : str) : option (list Z) := slot k (to_wide_nul (credential_target_name s a)).

(** [get] reports the slot of its name, or an error, and changes no slot. *)
Lemma get_reports s a (w w' : World K) r : get kernel s a w = (w', r) ->
  (forall t, slot (state w') t = slot (state w) t) /\
  match r with ret o => o = name_slot (state w) s a | fail _ => True | _ => False end.
Proof.
  unfold get, credential_get, name_slot, st_bind, syscall, st_lift.
  destruct (kernel (w_cred_read _ _) (state w)) as [k1 r1] eqn:E1. destruct (rv r1 =? 0) eqn:E0; bool_to_prop.
  - intros [= <- <-]. split; [intros t; by eapply cred_read_slots|].
    rewrite errno_last. destruct (bool_decide _) eqn:Ek; [|done]. apply bool_decide_eq_true in Ek.
    symmetry. eapply cred_read_missing; [exact E1|done|exact Ek].
  - cbn [state]. destruct (kernel (w_cred_free _) k1) as [k2 r2] eqn:E2. intros [= <- <-]. cbn [state]. split.
    + intros t. erewrite cred_free_slots by exact E2. by eapply cred_read_slots.
    + symmetry. by eapply cred_read_found.
Qed.

(** What is kept of a secret: its length goes through [as u32]. *)
Definition kept (secret : list Z) : list Z := take (Z.to_nat (zlen secret mod 2 ^ 32)) secret.

Lemma kept_all secret : zlen secret < 2 ^ 32 -> kept secret = secret.
Proof. intros H. unfold kept. rewrite Z.mod_small by lia. apply take_ge. lia. Qed.

(** A [set] that reports no error fills the slot of its name; one that does
    leaves every slot as it is. *)
Lemma set_fills s a secret (w w' : World K) r : set kernel s a secret w = (w', r) ->
  forall t, slot (state w') t =
    if bool_decide (r = ret tt /\ key t = key (to_wide_nul (credential_target_name s a)))
    then Some (kept secret) else slot (state w) t.
Proof.
  unfold set, credential_set, last_win32_err, st_bind, syscall, st_lift.
  destruct (kernel _ _) as [k1 r1] eqn:E1. destruct (rv r1 =? 0) eqn:E0; bool_to_prop; intros [= <- <-] t; cbn [state].
  - rewrite bool_decide_false by by intros [? _]. by eapply cred_write_refused.
  - rewrite (cred_write_slots _ _ _ _ _ _ _ t E1 E0). unfold kept, wrap.
    case_bool_decide as Hk; [by rewrite bool_decide_true|]. by rewrite bool_decide_false by by intros [_ ?].
Qed.

(** What a program does with the store, in any order. *)
Inductive CredOp := GetCred (service account : str) | SetCred (service account : str) (secret : list Z).
Definition perform (op : CredOp) (w : World K) : World K :=
  match op with GetCred s a => fst (get kernel s a w) | SetCred s a secret => fst (set kernel s a secret w) end.
(** The manager tells what the operation sets from [t]. *)
Definition spares (t : list Z) (op : CredOp) : Prop :=
  match op with
  | GetCred _ _ => True
  | SetCred s a _ => key t <> key (to_wide_nul (credential_target_name s a))
  end.

Lemma perform_spares t op (w : World K) : spares t op -> slot (state (perform op w)) t = slot (state w) t.
Proof.
  destruct op as [s a|s a secret]; cbn [perform spares]; intros Hs.
  - destruct (get kernel s a w) as [w' r] eqn:E. by apply get_reports in E as [-> _].
  - destruct (set kernel s a secret w) as [w' r] eqn:E. cbn [fst]. rewrite (set_fills _ _ _ _ _ _ E).
    by rewrite bool_decide_false by by intros [_ ?].
Qed.

Lemma performs_spare t ops : forall w : World K, Forall (spares t) ops ->
  slot (state (foldl (fun w op => perform op w) w ops)) t = slot (state w) t.
Proof.
  induction ops as [|op ops IH]; intros w H; [done|]. cbn [foldl]. rewrite IH by exact (Forall_inv_tail H).
  apply perform_spares. exact (Forall_inv H).
Qed.

(** C19: After a [set] without an error, whatever operations follow, failed
    ones included, as long as none of them sets a name the manager takes for
    the same, a [get] of that service and account that reports no error
    reports the secret, cut to its length modulo 2^32: below 4 GiB that is the
    whole secret.  What the other names hold is as it was before the [set],
    and two pairs whose services hold no SOH have the same target name only if
    they are the same pair. *)
Theorem windows_credentials s a secret (w w' : World K) :
  set kernel s a secret w = (w', ret tt) ->
  let name := to_wide_nul (credential_target_name s a) in
  (forall ops w1 r, Forall (spares name) ops ->
    get kernel s a (foldl (fun w op => perform op w) w' ops) = (w1, ret r) ->
    r = Some (take (Z.to_nat (zlen secret mod 2 ^ 32)) secret) /\ (zlen secret < 2 ^ 32 -> r = Some secret)) /\
  (forall s' a' ops w1 r, let name' := to_wide_nul (credential_target_name s' a') in
    key name' <> key name -> Forall (spares name') ops ->
    get kernel s' a' (foldl (fun w op => perform op w) w' ops) = (w1, ret r) -> r = name_slot (state w) s' a') /\
  (forall s' a', is_str s -> is_str a -> is_str s' -> is_str a' -> 1 ∉ s -> 1 ∉ s' ->
    credential_target_name s' a' = credential_target_name s a -> s' = s /\ a' = a).
Proof.
  intros Hset name. pose proof (set_fills _ _ _ _ _ _ Hset) as Hs. split_and!.
  - intros ops w1 r Hops Hg. apply get_reports in Hg as [_ ->]. unfold name_slot.
    rewrite performs_spare, Hs, bool_decide_true by done. split; [done|]. intros Hl. by rewrite kept_all.
  - intros s' a' ops w1 r name' Hk Hops Hg. apply get_reports in Hg as [_ ->]. unfold name_slot.
    rewrite performs_spare, Hs by done. by rewrite bool_decide_false by by intros [_ ?].
  - intros s' a' ? ? ? ? ? ? E. by apply credential_target_name_inj.
Qed.
End credentials.

(** A vault that lasts: the latest entry of a name counts. *)
Definition vault_slot (k : list (list Z * list Z)) (t : list Z) : option (list Z) :=
  snd <$> List.find (fun e => bool_decide (fst e = t)) k.
Definition vault (c : Call) (k : list (list Z * list Z)) : list (list Z * list Z) * Ret :=
  match c with
  | w_cred_write _ t _ blob n _ => ((t, take (Z.to_nat n) blob) :: k, mkRet 1 0 ONone)
  | w_cred_read t _ =>
    match vault_slot k t with
    | Some blob => (k, mkRet 1 0 (OBytes blob))
    | None => (k, mkRet 0 ERROR_NOT_FOUND ONone)
    end
  | _ => (k, mkRet 1 0 ONone)
  end.
#[export] Instance vault_manager : CredentialManager vault (fun t => t) vault_slot.
Proof.
  split.
  - intros k t u blob n k' r t' [= <- <-] _. unfold vault_slot at 1. cbn [List.find fst].
    destruct (decide (t = t')) as [->|Hne]; [by rewrite !bool_decide_true|].
    rewrite !bool_decide_false by congruence. done.
  - by intros k t u blob n k' r t' [= <- <-].
  - intros k t k' r t'. cbn. by destruct (vault_slot k t); intros [= <- _].
  - intros k t k' r. cbn. by destruct (vault_slot k t); intros [= _ <-].
  - intros k t k' r. cbn. by destruct (vault_slot k t); intros [= _ <-].
  - by intros k c k' r t' [= <- _].
Qed.

Lemma windows_credentials_witness :
  let w' := fst (set vault (lit "mail") (lit "joe") [1; 2; 3] (mkWorld [] [])) in
  let name := to_wide_nul (credential_target_name (lit "mail") (lit "joe")) in
  (forall ops w1 r, Forall (spares (fun t => t) name) ops ->
    get vault (lit "mail") (lit "joe") (foldl (fun w op => perform vault op w) w' ops) = (w1, ret r) ->
    r = Some (take (Z.to_nat (zlen [1; 2; 3] mod 2 ^ 32)) [1; 2; 3]) /\ (zlen [1; 2; 3] < 2 ^ 32 -> r = Some [1; 2; 3])) /\
  (forall s' a' ops w1 r, let name' := to_wide_nul (credential_target_name s' a') in
    name' <> name -> Forall (spares (fun t => t) name') ops ->
    get vault s' a' (foldl (fun w op => perform vault op w) w' ops) = (w1, ret r) ->
    r = name_slot vault_slot (state (mkWorld [] [])) s' a') /\
  (forall s' a', is_str (lit "mail") -> is_str (lit "joe") -> is_str s' -> is_str a' -> 1 ∉ lit "mail" -> 1 ∉ s' ->
    credential_target_name s' a' = credential_target_name (lit "mail") (lit "joe") -> s' = lit "mail" /\ a' = lit "joe").
Proof.
  intros w' name. apply (windows_credentials vault (fun t => t) vault_slot (lit "mail") (lit "joe") [1; 2; 3] (mkWorld [] []) w').
  vm_compute. reflexivity.
Defined.

(** With a SOH in a service two pairs share one slot. *)
Example target_names_collide :
  credential_target_name (lit "a" ++ [1] ++ lit "b") (lit "c") = credential_target_name (lit "a") (lit "b" ++ [1] ++ lit "c").
Proof. reflexivity. Qed.

(** ** Randomness *)

(** The whole buffer is the generator's, below 4 GiB. *)
Lemma win_fill_random_fills {K} (kernel : Call -> K -> K * Ret) dos buf (w : World K) k' r :
  zlen buf < 2 ^ 32 -> kernel (w_bcrypt_gen_random (zlen buf) BCRYPT_USE_SYSTEM_PREFERRED_RNG) (state w) = (k', r) ->
  0 <= rv r -> length (out_bytes r) = length buf -> snd (fill_random kernel dos buf w) = ret (out_bytes r).
Proof.
  intros Hl Hk Hr Hn. unfold fill_random. unfold wrap. rewrite Z.mod_small by lia.
  rewrite (st_sys _ _ _ _ _ _ Hk). rewrite (proj2 (Z.ltb_ge (rv r) 0)) by lia. cbn [snd st_lift]. f_equal.
  rewrite (take_ge (out_bytes r)) by lia. unfold overwrite. rewrite take_0. cbn [app]. rewrite take_ge by lia.
  rewrite drop_ge by lia. by rewrite app_nil_r.
Qed.

(** At 4 GiB the generator is asked for nothing, and the call succeeds with
    the buffer as it was. *)
Lemma fill_random_4gib {K} (kernel : Call -> K -> K * Ret) dos buf (w : World K) k' r :
  zlen buf = 2 ^ 32 -> kernel (w_bcrypt_gen_random 0 BCRYPT_USE_SYSTEM_PREFERRED_RNG) (state w) = (k', r) ->
  rv r = 0 -> snd (fill_random kernel dos buf w) = ret buf.
Proof.
  intros Hl Hk Hr. unfold fill_random. rewrite Hl. change (wrap 32 (2 ^ 32)) with 0.
  rewrite (st_sys _ _ _ _ _ _ Hk), Hr. cbn [Z.ltb Z.compare snd st_lift Z.to_nat]. unfold overwrite.
  by rewrite !take_0, take_nil.
Qed.

(** ** Trust anchors *)

(** A store that enumerates [certs]: the context of the [i]-th is [i + 1]. *)
Class Enumerates {K} (kernel : Call -> K -> K * Ret) (store : Z) (certs : list (list Z)) : Prop := {
  enum_next k i : (i <= length certs)%nat -> exists k' e,
    kernel (w_cert_enum store (Z.of_nat i)) k = (k', match nth_error certs i with
      | Some der => mkRet (Z.of_nat (S i)) e (OBytes der)
      | None => mkRet 0 e ONone
      end);
}.

Definition has_bytes (der : list Z) : bool := match der with [] => false | _ => true end.

Section anchors.
Context {K : Type} (kernel : Call -> K -> K * Ret) (store : Z) (certs : list (list Z)).
Context `{!Enumerates kernel store certs}.

Lemma cert_loop_all i anchors (w : World K) fuel : (i <= length certs)%nat -> (length certs - i < fuel)%nat ->
  exists w' l, cert_loop kernel fuel store (Z.of_nat i) anchors w =
    (w', ret (anchors ++ List.filter has_bytes (drop i certs))) /\
    log w' = log w ++ l /\ Forall (fun e => exists ctx, fst e = w_cert_enum store ctx) l.
Proof.
  intros Hi Hf. assert (exists n, n = length certs - i)%nat as [n En] by eauto. revert i anchors w fuel Hi Hf En.
  induction n as [|n IH]; intros i anchors w fuel Hi Hf En; (destruct fuel as [|fuel]; [lia|]); cbn [cert_loop].
  all: destruct (enum_next (state w) i Hi) as (k' & e & Ek); rewrite (st_sys _ _ _ _ _ _ Ek).
  - rewrite (proj2 (nth_error_None certs i)) by lia. cbn [rv Z.eqb].
    rewrite (drop_ge certs) by lia. cbn [List.filter]. rewrite app_nil_r.
    eexists _, [_]. split; [reflexivity|]. split; [reflexivity|]. repeat constructor. by eexists.
  - destruct (nth_error certs i) as [der|] eqn:Ed.
    2: { apply nth_error_None in Ed. lia. }
    assert (drop i certs = der :: drop (S i) certs) as ->.
    { clear -Ed. destruct (nth_error_split _ _ Ed) as (l1 & l2 & -> & <-). rewrite drop_app_length.
      rewrite (app_assoc l1 [der] l2 : l1 ++ der :: l2 = _).
      replace (S (length l1)) with (length (l1 ++ [der])) by (rewrite length_app; cbn; lia). by rewrite drop_app_length. }
    destruct (IH (S i) (anchors ++ List.filter has_bytes [der]) (mkWorld k' (log w ++ [(w_cert_enum store (Z.of_nat i), mkRet (Z.of_nat (S i)) e (OBytes der))])) fuel
      ltac:(lia) ltac:(lia) ltac:(lia)) as (w' & l & E & Hl & Hf').
    exists w', ((w_cert_enum store (Z.of_nat i), mkRet (Z.of_nat (S i)) e (OBytes der)) :: l).
    rewrite Hl. cbn [log]. rewrite <- app_assoc. split_and!; [|done|by constructor; [eexists|]].
    cbn [rv]. rewrite (proj2 (Z.eqb_neq (Z.of_nat (S i)) 0)) by lia. cbn [List.filter has_bytes] in *.
    change (out_bytes (mkRet (Z.of_nat (S i)) e (OBytes der))) with der.
    rewrite <- app_assoc in E. destruct der; cbn [has_bytes] in *; [rewrite app_nil_r in E|]; exact E.
Qed.
End anchors.

(** The trust anchors are all the certificates of the store that have bytes,
    in the store's order, and not found when there is none; the store is
    closed, once and last. *)
Theorem windows_anchors_complete {K} (kernel : Call -> K -> K * Ret) store certs fuel (w : World K) k' e :
  kernel (w_cert_open_store (to_wide_nul (lit "ROOT"))) (state w) = (k', mkRet store e ONone) -> store <> 0 ->
  Enumerates kernel store certs -> (length certs < fuel)%nat ->
  exists w' l r rc, load_anchors kernel fuel w = (w', r) /\
    log w' = log w ++ l ++ [(w_cert_close_store store, rc)] /\
    Forall (fun e => fst e <> w_cert_close_store store) l /\
    match List.filter has_bytes certs with
    | [] => exists err, r = fail err /\ kind err = NotFound
    | anchors => r = ret anchors
    end.
Proof.
  intros Ho Hs He Hf. unfold load_anchors. rewrite (st_sys _ _ _ _ _ _ Ho). cbn [rv].
  rewrite (proj2 (Z.eqb_neq store 0)) by done. set (w1 := mkWorld k' _).
  destruct (cert_loop_all kernel store certs 0 [] w1 fuel ltac:(lia) ltac:(lia)) as (w2 & l & E & Hl & Hc).
  rewrite (st_bind_ret _ _ _ _ _ E). unfold st_bind, syscall, st_lift.
  destruct (kernel (w_cert_close_store store) (state w2)) as [k3 rc].
  eexists _, (_ :: l), _, rc. split; [reflexivity|]. split; [|split].
  - cbn [log]. rewrite Hl. unfold w1. cbn [log app]. by rewrite <- !app_assoc.
  - constructor; [done|]. eapply List.Forall_impl; [|exact Hc]. cbn. by intros x [ctx ->].
  - rewrite drop_0. cbn [app]. destruct (List.filter has_bytes certs); [|done]. by eexists.
Qed.

(** A store of three entries, the second without bytes. *)
Definition root_store (c : Call) (k : unit) : unit * Ret :=
  match c with
  | w_cert_enum _ 0 => (k, mkRet 1 0 (OBytes [48; 1]))
  | w_cert_enum _ 1 => (k, mkRet 2 0 (OBytes []))
  | w_cert_enum _ 2 => (k, mkRet 3 0 (OBytes [48; 2]))
  | w_cert_enum _ _ => (k, mkRet 0 0 ONone)
  | _ => (k, mkRet 7 0 ONone)
  end.
#[export] Instance root_store_enumerates : Enumerates root_store 7 [[48; 1]; []; [48; 2]].
Proof.
  split. intros [] i Hi. cbn in Hi. exists tt, 0. do 4 (destruct i as [|i]; [done|]). lia.
Qed.

Lemma windows_anchors_complete_witness :
  exists w' l r rc, load_anchors root_store 4 (mkWorld tt []) = (w', r) /\
    log w' = [] ++ l ++ [(w_cert_close_store 7, rc)] /\
    Forall (fun e => fst e <> w_cert_close_store 7) l /\ r = ret [[48; 1]; [48; 2]].
Proof.
  apply (windows_anchors_complete root_store 7 [[48; 1]; []; [48; 2]] 4 (mkWorld tt []) tt 0);
    [reflexivity|done|apply root_store_enumerates|cbn; lia].
Defined.
