(* ===== verification/WinTerm.v ===== *)
(** * The Windows console
      ([platform-windows/src/sys/console.rs], default build,
       [platform-windows/src/term.rs], [sys/csignals.rs], [signals.rs])

    Console modes of the standard handles, raw mode with its saved modes, the
    acquisition of a console, and the pending control event. *)

From Stdlib Require Import ZArith Lia String.
From S2P Require Import Prelude Error Sys Process Terminal MockDevices LinuxTerm WinFs WinProcess.
From stdpp Require Import base numbers list strings gmap gmultiset.
Open Scope Z_scope.

Definition ENABLE_PROCESSED_INPUT := 1.
Definition ENABLE_LINE_INPUT := 2.
Definition ENABLE_ECHO_INPUT := 4.
Definition ENABLE_VIRTUAL_TERMINAL_INPUT := 512.
Definition ENABLE_PROCESSED_OUTPUT := 1.
Definition ENABLE_VIRTUAL_TERMINAL_PROCESSING := 4.
Definition GENERIC_READ := 2147483648.
Definition GENERIC_WRITE := 1073741824.
Definition ATTACH_PARENT_PROCESS := 4294967295.
Definition CTRL_C_EVENT := 0.
Definition CTRL_BREAK_EVENT := 1.
Definition CTRL_CLOSE_EVENT := 2.

Definition slot (stream : TermStream) : Z :=
  match stream with Stdin => STD_INPUT_HANDLE | Stdout => STD_OUTPUT_HANDLE | Stderr => STD_ERROR_HANDLE end.

(** The modes raw mode asks for, of those there were. *)
Definition raw_in (mode : Z) : Z :=
  Z.lor (Z.land mode (not_u32 (Z.lor (Z.lor ENABLE_ECHO_INPUT ENABLE_LINE_INPUT) ENABLE_PROCESSED_INPUT)))
    ENABLE_VIRTUAL_TERMINAL_INPUT.
Definition vt_out (mode : Z) : Z :=
  Z.lor (Z.lor mode ENABLE_PROCESSED_OUTPUT) ENABLE_VIRTUAL_TERMINAL_PROCESSING.

Record SavedModes := mkSavedModes { input : Z; output : option Z }.

(** [i16] arithmetic, which panics on overflow in a debug build. *)
Definition extent (low high : Z) : option Z :=
  let i16 x := (- 2 ^ 15 <=? x) && (x <? 2 ^ 15) in
  if i16 (high - low) && i16 (high - low + 1) then Some (Z.max (high - low + 1) 0) else None.

Section console.
Context {K : Type} (kernel : Call -> K -> K * Ret).
Abbreviation M A := (World K -> World K * Run A).
Abbreviation sys := (syscall kernel).

Definition std_handle (stream : TermStream) : M Z :=
  st! r := sys (w_get_std_handle (slot stream)) in st_lift (ret (rv r)).

Definition get_mode (h : Z) : M Z :=
  st! r := win_call kernel (w_get_console_mode h) "GetConsoleMode" [] in st_lift (ret (out_int r)).
Definition set_mode (h mode : Z) : M unit :=
  st! _ := win_call kernel (w_set_console_mode h mode) "SetConsoleMode" [] in st_lift (ret tt).

(** [m.is_ok()], and [if let Ok(a) = m]. *)
Definition when_ok {A B} (m : M A) (b : B) (k : A -> M B) : M B := fun w =>
  match m w with
  | (w, ret a) => k a w
  | (w, fail _) => (w, ret b)
  | (w, Panic) => (w, Panic)
  | (w, OutOfFuel) => (w, OutOfFuel)
  end.

Definition is_tty (stream : TermStream) : M bool :=
  st! h := std_handle stream in
  if negb (valid_handle h) then st_lift (ret false)
  else when_ok (get_mode h) false (fun _ => st_lift (ret true)).

Definition screen_size (h : Z) : M (Z * Z) :=
  st! r := win_call kernel (w_get_screen_info h) "GetConsoleScreenBufferInfo" [] in
  let at_ i := nth i (out_ints r) 0 in
  match extent (at_ 0%nat) (at_ 2%nat), extent (at_ 1%nat) (at_ 3%nat) with
  | Some cols, Some rows => st_lift (ret (rows, cols))
  | _, _ => st_lift Panic
  end.

Fixpoint first_screen (streams : list TermStream) : M (Z * Z) :=
  match streams with
  | [] => last_win32_err "GetConsoleMode" []
  | s :: streams =>
    st! tty := is_tty s in
    if negb tty then first_screen streams else st! h := std_handle s in screen_size h
  end.
Definition window_size : M (Z * Z) := first_screen [Stdout; Stderr; Stdin].

Definition enter_raw : M SavedModes :=
  st! hin := std_handle Stdin in
  st! in_mode := get_mode hin in
  st! _ := set_mode hin (raw_in in_mode) in
  st! tty := is_tty Stdout in
  st! output :=
    (if tty then
       st! hout := std_handle Stdout in
       when_ok (get_mode hout) None (fun out_mode =>
         when_ok (set_mode hout (vt_out out_mode)) None (fun _ => st_lift (ret (Some out_mode))))
     else st_lift (ret None)) in
  st_lift (ret (mkSavedModes in_mode output)).

Definition restore (saved : SavedModes) : M unit :=
  st! hin := std_handle Stdin in
  st! _ := set_mode hin (input saved) in
  match output saved with
  | Some out_mode =>
    st! hout := std_handle Stdout in
    when_ok (set_mode hout out_mode) tt (fun _ => st_lift (ret tt))
  | None => st_lift (ret tt)
  end.

Definition is_raw : M bool :=
  st! hin := std_handle Stdin in
  if negb (valid_handle hin) then st_lift (ret false)
  else when_ok (get_mode hin) false (fun mode =>
    st_lift (ret (Z.land mode (Z.lor ENABLE_ECHO_INPUT ENABLE_LINE_INPUT) =? 0))).

Definition set_echo (on : bool) : M bool :=
  st! hin := std_handle Stdin in
  st! mode := get_mode hin in
  let was_on := negb (Z.land mode ENABLE_ECHO_INPUT =? 0) in
  let next := if on then Z.lor mode ENABLE_ECHO_INPUT else Z.land mode (not_u32 ENABLE_ECHO_INPUT) in
  st! _ := set_mode hin next in
  st_lift (ret was_on).

Definition wait_signaled (h timeout_ms : Z) : M bool :=
  st! r := sys (w_wait_single h timeout_ms) in
  if rv r =? WAIT_OBJECT_0 then st_lift (ret true)
  else if rv r =? WAIT_TIMEOUT then st_lift (ret false)
  else last_win32_err "WaitForSingleObject" [].

Definition poll_readable (timeout : option Z) : M bool :=
  st! hin := std_handle Stdin in
  wait_signaled hin (match timeout with None => INFINITE | Some d => Z.min (d / 1000000) U32_MAX end).

Definition read_chunk (n : Z) : M (list Z) :=
  st! hin := std_handle Stdin in
  st! r := win_call kernel (w_read_file hin (Z.min n U32_MAX)) "ReadFile" [] in
  st_lift (ret (out_bytes r)).

(** *** Acquisition *)

Definition reopen (name : string) (access : Z) : M Z :=
  st! r := sys (w_create_file (to_wide_nul (lit name)) access (Z.lor FILE_SHARE_READ FILE_SHARE_WRITE)
    false OPEN_EXISTING 0) in
  if valid_handle (rv r) then st_lift (ret (rv r)) else last_win32_err "CreateFileW" (lit name).

Definition has_console : M bool :=
  when_ok (reopen "CONIN$" GENERIC_READ) false (fun h w => (drop_fd kernel h w, ret true)).

Definition alloc : M unit := st! _ := win_call kernel w_alloc_console "AllocConsole" [] in st_lift (ret tt).
Definition free : M unit := st! _ := win_call kernel w_free_console "FreeConsole" [] in st_lift (ret tt).
Definition attach (pid : option Z) : M unit :=
  st! _ := win_call kernel (w_attach_console (default ATTACH_PARENT_PROCESS pid)) "AttachConsole" [] in
  st_lift (ret tt).
Definition set_std (slot h : Z) (label : string) : M unit :=
  st! _ := win_call kernel (w_set_std_handle slot h) "SetStdHandle" (lit label) in st_lift (ret tt).

Definition reopen_std_handles : M unit :=
  st! hin := reopen "CONIN$" (Z.lor GENERIC_READ GENERIC_WRITE) in
  st! hout := reopen "CONOUT$" (Z.lor GENERIC_READ GENERIC_WRITE) in
  st! herr := reopen "CONOUT$" (Z.lor GENERIC_READ GENERIC_WRITE) in
  st! _ := set_std STD_INPUT_HANDLE hin "stdin" in
  st! _ := set_std STD_OUTPUT_HANDLE hout "stdout" in
  st! _ := set_std STD_ERROR_HANDLE herr "stderr" in
  when_ok (get_mode hout) tt (fun mode =>
    when_ok (set_mode hout (vt_out mode)) tt (fun _ => st_lift (ret tt))).

(** ** [WindowsTerminal] *)

Inductive ConsoleState := NoConsole | Inherited | Allocated | Attached.
#[export] Instance ConsoleState_eq_dec : EqDecision ConsoleState.
Proof. solve_decision. Defined.

Definition initial_state : M ConsoleState :=
  st! b := has_console in st_lift (ret (if (b : bool) then Inherited else NoConsole)).

Record WindowsTerminal := mkWindowsTerminal { world : World K; saved : option SavedModes; console_state : ConsoleState }.

Definition new_terminal (w : World K) : WindowsTerminal :=
  match initial_state w with
  | (w, ret s) => mkWindowsTerminal w None s
  | (w, _) => mkWindowsTerminal w None NoConsole
  end.

Definition on_console {A} (m : M A) (t : WindowsTerminal) : WindowsTerminal * Run A :=
  let (w, r) := m (world t) in (mkWindowsTerminal w (saved t) (console_state t), r).
Definition map_run {A B} (f : A -> B) (r : Run A) : Run B :=
  match r with ret a => ret (f a) | fail e => fail e | Panic => Panic | OutOfFuel => OutOfFuel end.

Definition windows_enter_raw (t : WindowsTerminal) : WindowsTerminal * Run unit :=
  match saved t with
  | Some _ => (t, ret tt)
  | None =>
    let (w, r) := enter_raw (world t) in
    (mkWindowsTerminal w (match r with ret s => Some s | _ => None end) (console_state t), map_run (fun _ => tt) r)
  end.

(** [self.saved.take()] comes first. *)
Definition windows_leave_raw (t : WindowsTerminal) : WindowsTerminal * Run unit :=
  match saved t with
  | None => (t, ret tt)
  | Some s => let (w, r) := restore s (world t) in (mkWindowsTerminal w None (console_state t), r)
  end.

(** The state changes once the console is there and its handles are open. *)
Definition acquire (m : M unit) (s : ConsoleState) (t : WindowsTerminal) : WindowsTerminal * Run unit :=
  let (w, r) := (st! _ := m in reopen_std_handles) (world t) in
  (mkWindowsTerminal w (saved t) (match r with ret _ => s | _ => console_state t end), r).
Definition alloc_console : WindowsTerminal -> WindowsTerminal * Run unit := acquire alloc Allocated.
Definition attach_console (pid : option Z) : WindowsTerminal -> WindowsTerminal * Run unit :=
  acquire (attach pid) Attached.
Definition free_console (t : WindowsTerminal) : WindowsTerminal * Run unit :=
  if bool_decide (console_state t = NoConsole) then (t, ret tt)
  else
    let (w, r) := free (world t) in
    (mkWindowsTerminal w (saved t) (match r with ret _ => NoConsole | _ => console_state t end), r).

(** What a query answers; [GetStdHandle], [GetConsoleMode] and
    [GetConsoleScreenBufferInfo] change nothing. *)
Definition console_answer {A} (d : Result A) (m : M A) (t : WindowsTerminal) : Result A :=
  match snd (m (world t)) with Done r => r | _ => d end.
Definition console_truth (m : M bool) (t : WindowsTerminal) : bool :=
  match snd (m (world t)) with ret b => b | _ => false end.
End console.
Arguments mkWindowsTerminal {K} _ _ _.
Arguments world {K} _.
Arguments saved {K} _.
Arguments console_state {K} _.

#[export] Instance windows_terminal {K} (kernel : Call -> K -> K * Ret) : Terminal (@WindowsTerminal K) := {|
  is_tty_ stream := console_truth (is_tty kernel stream);
  window_size_ := console_answer (Err (win32_err 0 "GetConsoleMode" []))
    (st! (r, c) := window_size kernel in st_lift (ret (mkWinSize r c)));
  enter_raw_ := windows_enter_raw kernel;
  leave_raw_ := windows_leave_raw kernel;
  is_raw_ := console_truth (is_raw kernel);
  poll_readable_ timeout := on_console (poll_readable kernel timeout);
  read_chunk_ n := on_console (read_chunk kernel n);
  set_echo_ on := on_console (set_echo kernel on);
|}.

(** ** Control events *)

(** [record], the handler: the slot holds the event and one more; answers
    whether the event is handled. *)
Definition record (ctrl_type : Z) (pending : Z) : Z * Z :=
  if (ctrl_type =? CTRL_C_EVENT) || (ctrl_type =? CTRL_BREAK_EVENT) || (ctrl_type =? CTRL_CLOSE_EVENT)
  then (ctrl_type + 1, 1) else (pending, 0).
Definition take_ctrl (pending : Z) : Z * option Z := (0, if pending =? 0 then None else Some (pending - 1)).
Definition event_of_ctrl (ctrl : Z) : option SignalEvent :=
  if ctrl =? CTRL_C_EVENT then Some Interrupt
  else if ctrl =? CTRL_BREAK_EVENT then Some Terminate
  else if ctrl =? CTRL_CLOSE_EVENT then Some Hangup else None.
Definition take_event (pending : Z) : Z * option SignalEvent :=
  let (pending, c) := take_ctrl pending in (pending, c ≫= event_of_ctrl).

Section install.
Context {K : Type} (kernel : Call -> K -> K * Ret).
Definition install : World K -> World K * Run unit :=
  st! _ := win_call kernel (w_set_ctrl_handler 1) "SetConsoleCtrlHandler" [] in st_lift (ret tt).
End install.

(** Of the console events that arrive before a [take], the last is taken and
    the others are lost, whatever else arrives; the handler claims these and
    no other; and a second [take] finds nothing. *)
Theorem ctrl_events_coalesce (events : list Z) pending : 
  let slot := fold_left (fun p c => fst (record c p)) events pending in
  let mapped : list SignalEvent := omap event_of_ctrl events in
  snd (take_event slot) = match list_basics.list.last mapped with Some e => Some e | None => snd (take_event pending) end /\
  snd (take_event (fst (take_event slot))) = None /\
  (forall c, snd (record c pending) = 1 <-> is_Some (event_of_ctrl c)).
Proof.
  cbn zeta. assert (forall c p, snd (take_event (fst (record c p))) = match event_of_ctrl c with
      Some e => Some e | None => snd (take_event p) end) as Hr.
  { intros c p. unfold record, event_of_ctrl, take_event, take_ctrl. cbn [fst snd].
    destruct (c =? CTRL_C_EVENT) eqn:E0; [by bool_to_prop; subst|].
    destruct (c =? CTRL_BREAK_EVENT) eqn:E1; [by bool_to_prop; subst|].
    destruct (c =? CTRL_CLOSE_EVENT) eqn:E2; [by bool_to_prop; subst|done]. }
  split; [|split; [done|]].
  - induction events as [|c events IH] using rev_ind; [done|].
    rewrite fold_left_app, omap_app. cbn [fold_left omap list_omap]. rewrite Hr.
    destruct (event_of_ctrl c); [by rewrite last_snoc|]. by rewrite app_nil_r.
  - intros c. unfold record, event_of_ctrl. destruct (c =? CTRL_C_EVENT); [by split; [eexists|]|].
    destruct (c =? CTRL_BREAK_EVENT); [by split; [eexists|]|].
    destruct (c =? CTRL_CLOSE_EVENT); [by split; [eexists|]|]. cbn. split; [done|by intros []].
Qed.

(** ** What raw mode leaves the console as *)

Section raw.
Context {K : Type} (kernel : Call -> K -> K * Ret) (modes : K -> Z -> Z) (std : Z -> Z).

(** What the calls document: [modes] is what [GetConsoleMode] reads and a
    successful [SetConsoleMode] writes, of one handle; a call that fails, and
    every other call, leaves them; the standard handles stay and are two. *)
Class ConsoleLaws : Prop := {
  std_fixed k slot : rv (snd (kernel (w_get_std_handle slot) k)) = std slot;
  mode_reads k h : rv (snd (kernel (w_get_console_mode h) k)) <> 0 ->
    out_int (snd (kernel (w_get_console_mode h) k)) = modes k h;
  mode_writes k h m h' : modes (fst (kernel (w_set_console_mode h m) k)) h' =
    (if negb (rv (snd (kernel (w_set_console_mode h m) k)) =? 0) && (h' =? h) then m else modes k h');
  others_leave_modes k c h : (forall h m, c <> w_set_console_mode h m) -> modes (fst (kernel c k)) h = modes k h;
  two_handles : std STD_INPUT_HANDLE <> std STD_OUTPUT_HANDLE;
}.
Context {L : ConsoleLaws}.
Abbreviation at_ w := (modes (state w)).
Abbreviation hin := (std STD_INPUT_HANDLE).
Abbreviation hout := (std STD_OUTPUT_HANDLE).
Implicit Types w : World K.

Lemma std_handle_run s w : exists w',
  std_handle kernel s w = (w', ret (std (slot s))) /\ forall h, at_ w' h = at_ w h.
Proof.
  unfold std_handle, st_bind, syscall, st_lift. pose proof (std_fixed (state w) (slot s)) as Hr.
  pose proof (fun h => others_leave_modes (state w) (w_get_std_handle (slot s)) h ltac:(done)) as Ho.
  destruct (kernel _ _) as [k r]. cbn [fst snd] in *. rewrite Hr. by eexists.
Qed.

Lemma get_mode_run h w : exists w' r, get_mode kernel h w = (w', Done r) /\ (forall h', at_ w' h' = at_ w h') /\
  match r with Ok m => m = at_ w h | Err _ => True end.
Proof.
  unfold get_mode, win_call, last_win32_err, st_bind, syscall, st_lift. pose proof (mode_reads (state w) h) as Hr.
  pose proof (fun h' => others_leave_modes (state w) (w_get_console_mode h) h' ltac:(done)) as Ho.
  destruct (kernel _ _) as [k r]. cbn [fst snd] in *.
  destruct (rv r =? 0) eqn:E; bool_to_prop; eexists _, _; (split; [reflexivity|]); split; auto.
Qed.

Lemma set_mode_run h m w : exists w',
  (set_mode kernel h m w = (w', ret tt) /\ forall h', at_ w' h' = if h' =? h then m else at_ w h') \/
  (exists e, set_mode kernel h m w = (w', fail e) /\ forall h', at_ w' h' = at_ w h').
Proof.
  unfold set_mode, win_call, last_win32_err, st_bind, syscall, st_lift. pose proof (mode_writes (state w) h m) as Hr.
  destruct (kernel _ _) as [k r]. cbn [fst snd] in *.
  destruct (rv r =? 0) eqn:E; cbn [negb andb] in Hr; eexists; [right; eexists|left]; split; [reflexivity|exact Hr|reflexivity|exact Hr].
Qed.

Lemma is_tty_run s w : exists w' b, is_tty kernel s w = (w', ret b) /\ forall h, at_ w' h = at_ w h.
Proof.
  unfold is_tty. destruct (std_handle_run s w) as (w1 & E1 & H1). rewrite (st_bind_ret _ _ _ _ _ E1).
  destruct (negb (valid_handle _)); [by eexists _, _|]. unfold when_ok.
  destruct (get_mode_run (std (slot s)) w1) as (w2 & r & -> & H2 & _).
  exists w2. destruct r; eexists; (split; [reflexivity|]); intros h; by rewrite H2.
Qed.

(** The output half of [enter_raw], best effort. *)
Definition output_mode (w : World K) (o : option Z) (h : Z) : Z :=
  match o with Some m => if h =? hout then vt_out m else at_ w h | None => at_ w h end.

Lemma output_run (b : bool) w : exists w' o,
  (if b then
     st! hout := std_handle kernel Stdout in
     when_ok (get_mode kernel hout) None (fun out_mode =>
       when_ok (set_mode kernel hout (vt_out out_mode)) None (fun _ => st_lift (ret (Some out_mode))))
   else st_lift (ret None)) w = (w', ret o) /\
  (forall m, o = Some m -> m = at_ w hout) /\ forall h, at_ w' h = output_mode w o h.
Proof.
  destruct b; [|by eexists _, None].
  destruct (std_handle_run Stdout w) as (w2 & E2 & H2). rewrite (st_bind_ret _ _ _ _ _ E2). cbn [slot]. unfold when_ok.
  destruct (get_mode_run hout w2) as (w3 & r & -> & H3 & Hr).
  destruct r as [m|e]; [|eexists _, None; split; [reflexivity|]; split; [done|intros h; cbn; by rewrite H3]].
  subst m. rewrite H2. destruct (set_mode_run hout (vt_out (at_ w hout)) w3) as (w4 & [[-> H4]|(e & -> & H4)]).
  - eexists _, (Some _). split; [reflexivity|]. split; [by intros m [= <-]|]. intros h. cbn. rewrite H4. by rewrite H3, H2.
  - eexists _, None. split; [reflexivity|]. split; [done|]. intros h. cbn. by rewrite H4, H3, H2.
Qed.

Abbreviation now t := (modes (state (world t))).

Lemma windows_enter_cases t : saved t = None ->
  (exists t' o, windows_enter_raw kernel t = (t', ret tt) /\ saved t' = Some (mkSavedModes (now t hin) o) /\
     (forall m, o = Some m -> m = now t hout) /\
     now t' hin = raw_in (now t hin) /\ forall h, h <> hin -> now t' h = output_mode (world t) o h) \/
  (exists t' e, windows_enter_raw kernel t = (t', fail e) /\ saved t' = None /\ forall h, now t' h = now t h).
Proof.
  intros Hs. unfold windows_enter_raw, enter_raw. rewrite Hs. set (w := world t).
  destruct (std_handle_run Stdin w) as (w1 & E1 & H1). rewrite (st_bind_ret _ _ _ _ _ E1). cbn [slot].
  destruct (get_mode_run hin w1) as (w2 & [m|e] & E2 & H2 & Hm).
  2: { right. rewrite (st_bind_fail _ _ _ _ _ E2). eexists _, _. split; [reflexivity|]. split; [done|].
       intros h. cbn. by rewrite H2. }
  rewrite (st_bind_ret _ _ _ _ _ E2). subst m. rewrite H1.
  destruct (set_mode_run hin (raw_in (at_ w hin)) w2) as (w3 & [[E3 H3]|(e & E3 & H3)]).
  2: { right. rewrite (st_bind_fail _ _ _ _ _ E3). eexists _, _. split; [reflexivity|]. split; [done|].
       intros h. cbn. by rewrite H3, H2. }
  rewrite (st_bind_ret _ _ _ _ _ E3). destruct (is_tty_run Stdout w3) as (w4 & b & E4 & H4).
  rewrite (st_bind_ret _ _ _ _ _ E4). destruct (output_run b w4) as (w5 & o & E5 & Ho & H5).
  rewrite (st_bind_ret _ _ _ _ _ E5). left. eexists _, o. split; [reflexivity|]. split; [done|].
  pose proof two_handles as Hd. cbn [world].
  assert (forall h, h <> hin -> at_ w4 h = at_ w h) as Hw.
  { intros h Hh. rewrite H4, H3, (proj2 (Z.eqb_neq h hin)) by done. by rewrite H2, H1. }
  split; [intros m ->; by rewrite (Ho m eq_refl), Hw|]. split.
  - rewrite H5. unfold output_mode. rewrite (proj2 (Z.eqb_neq hin hout)) by done.
    assert (at_ w4 hin = raw_in (at_ w hin)) as -> by (by rewrite H4, H3, Z.eqb_refl). by destruct o.
  - intros h Hh. rewrite H5. unfold output_mode. destruct o; [|by apply Hw]. destruct (h =? hout); [done|by apply Hw].
Qed.

Lemma windows_leave_cases t s : saved t = Some s ->
  (exists t', windows_leave_raw kernel t = (t', ret tt) /\ saved t' = None /\ now t' hin = input s /\
     (forall h, h <> hin -> h <> hout -> now t' h = now t h) /\
     (now t' hout = now t hout \/ output s = Some (now t' hout))) \/
  (exists t' e, windows_leave_raw kernel t = (t', fail e) /\ saved t' = None /\ forall h, now t' h = now t h).
Proof.
  intros Hs. unfold windows_leave_raw, restore. rewrite Hs. set (w := world t). pose proof two_handles as Hd.
  destruct (std_handle_run Stdin w) as (w1 & E1 & H1). rewrite (st_bind_ret _ _ _ _ _ E1). cbn [slot].
  destruct (set_mode_run hin (input s) w1) as (w2 & [[E2 H2]|(e & E2 & H2)]).
  2: { right. rewrite (st_bind_fail _ _ _ _ _ E2). eexists _, _. split; [reflexivity|]. split; [done|].
       intros h. cbn. by rewrite H2. }
  rewrite (st_bind_ret _ _ _ _ _ E2). left.
  assert (forall h, h <> hin -> at_ w2 h = at_ w h) as Hw.
  { intros h Hh. by rewrite H2, (proj2 (Z.eqb_neq h hin)), H1 by done. }
  destruct (output s) as [m|].
  2: { eexists. split; [reflexivity|]. split; [done|]. cbn [world st_lift]. split; [by rewrite H2, Z.eqb_refl|].
       split; [intros h Hh _; by apply Hw|]. left. by apply Hw. }
  destruct (std_handle_run Stdout w2) as (w3 & E3 & H3). rewrite (st_bind_ret _ _ _ _ _ E3). cbn [slot]. unfold when_ok.
  destruct (set_mode_run hout m w3) as (w4 & [[-> H4]|(e & -> & H4)]); eexists; (split; [reflexivity|]); cbn [world st_lift];
    (split; [done|]); rewrite !H4, ?Z.eqb_refl, ?(proj2 (Z.eqb_neq hin hout)) by done.
  - split; [by rewrite H3, H2, Z.eqb_refl|]. split; [|by right].
    intros h Hh Ho. rewrite H4, (proj2 (Z.eqb_neq h hout)) by done. rewrite H3. by apply Hw.
  - split; [by rewrite H3, H2, Z.eqb_refl|]. split; [|left; rewrite H3; by apply Hw].
    intros h Hh Ho. rewrite H4, H3. by apply Hw.
Qed.

Lemma raw_in_bits m : Z.land (raw_in m) 7 = 0 /\ Z.testbit (raw_in m) 9 = true.
Proof.
  unfold raw_in, not_u32. change (Z.lor (Z.lor _ _) _) with 7. change ENABLE_VIRTUAL_TERMINAL_INPUT with (2 ^ 9). split.
  - apply Z.bits_inj'. intros i Hi. rewrite Z.land_spec, Z.lor_spec, Z.land_spec, Z.bits_0, Z.pow2_bits_eqb by lia.
    destruct (Z_lt_ge_dec i 3) as [H|H].
    + assert (i = 0 \/ i = 1 \/ i = 2) as [->|[->| ->]] by lia; cbn; by rewrite andb_false_r.
    + change 7 with (Z.ones 3) at 2. rewrite Z.ones_spec_high by lia. apply andb_false_r.
  - rewrite Z.lor_spec, Z.pow2_bits_true by lia. apply orb_true_r.
Qed.

(** Raw mode on Windows: input is raw inside (no echo, no lines, no Ctrl-C
    processing, virtual-terminal input); whatever the body does to the modes,
    after [with_raw] on a terminal that was not in raw mode the input mode is
    what it was before and the output mode is too or is what the body left it,
    unless the console refused the input mode, which is reported when the body
    has no error of its own; when the console could not be put in raw mode
    nothing has changed and the body has not run; a second [enter_raw] inside
    changes nothing. *)
Theorem windows_with_raw {A} (body : WindowsTerminal -> WindowsTerminal * Run A) t :
  saved t = None -> (forall t1, saved (fst (body t1)) = saved t1) ->
  let (t', r) := with_raw (T := windows_terminal kernel) body t in
  match windows_enter_raw kernel t with
  | (t1, ret _) =>
    Z.land (now t1 hin) 7 = 0 /\ Z.testbit (now t1 hin) 9 = true /\ windows_enter_raw kernel t1 = (t1, ret tt) /\
    match body t1 with
    | (t2, Done out) => saved t' = None /\
        (now t' hin = now t hin /\ (now t' hout = now t hout \/ now t' hout = now t2 hout) /\ r = Done out \/
         (forall h, now t' h = now t2 h) /\ (is_ok out = true -> exists e, r = fail e))
    | (_, Panic) => r = Panic
    | (_, OutOfFuel) => r = OutOfFuel
    end
  | (_, _) => saved t' = None /\ (forall h, now t' h = now t h) /\ exists e, r = fail e
  end.
Proof.
  intros Hs Hb. unfold with_raw, st_bind. cbn [enter_raw_ leave_raw_ windows_terminal].
  destruct (windows_enter_cases t Hs) as [(t1 & o & -> & Hs1 & Ho & Hi & Hr)|(t1 & e & -> & Hs1 & Ha1)].
  2: { repeat split; [done|done|by eexists]. }
  rewrite Hi. destruct (raw_in_bits (now t hin)) as [H7 H9].
  specialize (Hb t1). destruct (body t1) as [t2 r]. cbn [fst] in Hb. rewrite Hs1 in Hb.
  assert (windows_enter_raw kernel t1 = (t1, ret tt)) as Hidem by (unfold windows_enter_raw; by rewrite Hs1).
  destruct r as [out| |]; [|done..].
  destruct (windows_leave_cases t2 _ Hb) as [(t3 & -> & Hs3 & Hi3 & Hr3 & Ho3)|(t3 & e & -> & Hs3 & Ha3)].
  - split_and!; [done..|]. left. split; [done|]. split; [|by destruct out].
    destruct Ho3 as [Ho3|Ho3]; [by right|]. left. by apply Ho.
  - split_and!; [done..|]. right. split; [done|]. intros Hok. destruct out; [by eexists|done].
Qed.
End raw.

(** A console whose two handles keep their modes; it refuses the [n]-th
    change, if told so. *)
Record Con := mkCon { con_modes : Z -> Z; con_changes : nat; con_refuse : option nat }.
Definition con_kernel (c : Call) (k : Con) : Con * Ret :=
  match c with
  | w_get_std_handle s => (k, mkRet (if s =? STD_INPUT_HANDLE then 3 else 7) 0 ONone)
  | w_get_console_mode h => (k, mkRet 1 0 (OInt (con_modes k h)))
  | w_set_console_mode h m =>
    if bool_decide (con_refuse k = Some (con_changes k)) then (k, mkRet 0 6 ONone)
    else (mkCon (fun h' => if h' =? h then m else con_modes k h') (S (con_changes k)) (con_refuse k), mkRet 1 0 ONone)
  | _ => (k, mkRet 0 0 ONone)
  end.
Definition con_std (s : Z) : Z := if s =? STD_INPUT_HANDLE then 3 else 7.
#[export] Instance con_laws : ConsoleLaws con_kernel con_modes con_std.
Proof.
  split; try done.
  - intros k h m h'. cbn. destruct (bool_decide _); cbn; [done|]. by destruct (h' =? h).
  - intros k c h Hc. destruct c; try done. exfalso. by eapply Hc.
Qed.

Definition con_start : WindowsTerminal := mkWindowsTerminal (mkWorld (mkCon (fun _ => 503) 0 None) []) None Inherited.
Lemma windows_with_raw_witness :
  let body := fun t : WindowsTerminal => (t, ret 5) in
  let (t', r) := with_raw (T := windows_terminal con_kernel) body con_start in
  match windows_enter_raw con_kernel con_start with
  | (t1, ret _) =>
    Z.land (con_modes (state (world t1)) 3) 7 = 0 /\ Z.testbit (con_modes (state (world t1)) 3) 9 = true /\
    windows_enter_raw con_kernel t1 = (t1, ret tt) /\
    match body t1 with
    | (t2, Done out) => saved t' = None /\
        (con_modes (state (world t')) 3 = con_modes (state (world con_start)) 3 /\
         (con_modes (state (world t')) 7 = con_modes (state (world con_start)) 7 \/
          con_modes (state (world t')) 7 = con_modes (state (world t2)) 7) /\ r = Done out \/
         (forall h, con_modes (state (world t')) h = con_modes (state (world t2)) h) /\
         (is_ok out = true -> exists e, r = fail e))
    | (_, Panic) => r = Panic
    | (_, OutOfFuel) => r = OutOfFuel
    end
  | (_, _) => saved t' = None /\
      (forall h, con_modes (state (world t')) h = con_modes (state (world con_start)) h) /\ exists e, r = fail e
  end.
Proof. exact (windows_with_raw con_kernel con_modes con_std (fun t => (t, ret 5)) con_start eq_refl (fun _ => eq_refl)). Defined.

(** A refused restore loses the saved modes: the second [leave_raw] reports
    success and the console stays raw. *)
Example leave_raw_forgets :
  let start := mkWindowsTerminal (mkWorld (mkCon (fun _ => 503) 0 (Some 2%nat)) []) None Inherited in
  let t1 := fst (windows_enter_raw con_kernel start) in
  let (t2, r2) := windows_leave_raw con_kernel t1 in
  let (t3, r3) := windows_leave_raw con_kernel t2 in
  is_ok (match r2 with Done r => r | _ => Ok tt end) = false /\ r3 = ret tt /\
  con_modes (state (world t3)) 3 = raw_in 503.
Proof. vm_compute. done. Qed.

(** ** The console a process has *)

Section acquisition.
Context {K : Type} (kernel : Call -> K -> K * Ret) (attached : K -> bool).

(** What the calls document: a process has a console or not; it is given one
    only when it has none, and [CONIN$] opens exactly when it has one. *)
Definition changes_console (c : Call) : bool :=
  match c with w_alloc_console | w_attach_console _ | w_free_console => true | _ => false end.
Class HasConsole : Prop := {
  acquire_needs_none c k : c = w_alloc_console \/ (exists pid, c = w_attach_console pid) ->
    if rv (snd (kernel c k)) =? 0 then attached (fst (kernel c k)) = attached k
    else attached k = false /\ attached (fst (kernel c k)) = true;
  free_gives_up k : attached (fst (kernel w_free_console k)) =
    (if rv (snd (kernel w_free_console k)) =? 0 then attached k else false);
  others_keep k c : changes_console c = false -> attached (fst (kernel c k)) = attached k;
  conin_opens k access share inherit disposition flags :
    valid_handle (rv (snd (kernel (w_create_file (to_wide_nul (lit "CONIN$")) access share inherit disposition flags) k))) = attached k;
}.
Context {L : HasConsole}.
Abbreviation M A := (World K -> World K * Run A).
Abbreviation has w := (attached (state w)).

(** Code that leaves the console alone, and comes to an end. *)
Definition steady {A} (m : M A) : Prop := forall w, has (fst (m w)) = has w /\ exists r, snd (m w) = Done r.

Lemma steady_lift {A} (r : Result A) : steady (st_lift (Done r)).
Proof. intros w. split; [done|by eexists]. Qed.
Lemma steady_bind {A B} (m : M A) (k : A -> M B) : steady m -> (forall a, steady (k a)) -> steady (st_bind m k).
Proof.
  intros Hm Hk w. unfold st_bind. destruct (Hm w) as [H1 [r Hr]]. destruct (m w) as [w1 r1]. cbn [fst snd] in *. subst r1.
  destruct r as [a|e]; cbn [fst snd]; [|split; [done|by eexists]]. destruct (Hk a w1) as [H2 H3]. by rewrite H2.
Qed.
Lemma steady_call c op path : changes_console c = false -> steady (win_call kernel c op path).
Proof.
  intros Hc w. unfold win_call, last_win32_err, st_bind, syscall, st_lift. pose proof (others_keep (state w) c Hc) as Ho.
  destruct (kernel _ _) as [k r]. destruct (rv r =? 0); (split; [exact Ho|by eexists]).
Qed.
Lemma steady_when_ok {A B} (m : M A) (b : B) (k : A -> M B) :
  steady m -> (forall a, steady (k a)) -> steady (when_ok m b k).
Proof.
  intros Hm Hk w. unfold when_ok. destruct (Hm w) as [H1 [r Hr]]. destruct (m w) as [w1 r1]. cbn [fst snd] in *. subst r1.
  destruct r as [a|e]; cbn [fst snd]; [|split; [done|by eexists]]. destruct (Hk a w1) as [H2 H3]. by rewrite H2.
Qed.
Lemma steady_reopen name access : steady (reopen kernel name access).
Proof.
  intros w. unfold reopen, last_win32_err, st_bind, syscall, st_lift.
  pose proof (others_keep (state w) (w_create_file (to_wide_nul (lit name)) access (Z.lor FILE_SHARE_READ FILE_SHARE_WRITE)
    false OPEN_EXISTING 0) eq_refl) as Ho.
  destruct (kernel _ _) as [k r]. destruct (valid_handle (rv r)); (split; [exact Ho|by eexists]).
Qed.
Lemma steady_reopen_std : steady (reopen_std_handles kernel).
Proof.
  unfold reopen_std_handles, set_std, get_mode, set_mode.
  repeat first [apply steady_bind; [first [apply steady_reopen|by apply steady_call]|intros]|apply steady_lift
    |apply steady_bind; [|intros]|apply steady_when_ok; [|intros]].
Qed.

Inductive Op := OpAlloc | OpAttach (pid : option Z) | OpFree.
Definition step (op : Op) : WindowsTerminal -> WindowsTerminal * Run unit :=
  match op with
  | OpAlloc => alloc_console kernel
  | OpAttach pid => attach_console kernel pid
  | OpFree => free_console kernel
  end.
Definition steps (ops : list Op) (t : WindowsTerminal) : WindowsTerminal := fold_left (fun t op => fst (step op t)) ops t.

(** The terminal's account of its console is right; or it knows of none where
    there is one. *)
Definition agrees (t : WindowsTerminal) : Prop := console_state t = NoConsole <-> has (world t) = false.
Definition lost (t : WindowsTerminal) : Prop := console_state t = NoConsole /\ has (world t) = true.

Lemma acquire_cases m s t : (m = alloc kernel \/ exists pid, m = attach kernel pid) -> s <> NoConsole ->
  exists t' r, acquire kernel m s t = (t', Done r) /\
  match r with
  | Ok _ => has (world t) = false /\ has (world t') = true /\ console_state t' = s
  | Err _ => console_state t' = console_state t /\
      (has (world t') = has (world t) \/ has (world t) = false /\ has (world t') = true)
  end.
Proof.
  intros Hm Hs. assert (exists c, (c = w_alloc_console \/ exists pid, c = w_attach_console pid) /\
    exists op, m = (st! _ := win_call kernel c op [] in st_lift (ret tt))) as (c & Hc & op & ->).
  { destruct Hm as [->|[pid ->]].
    - exists w_alloc_console. split; [by left|]. eexists. reflexivity.
    - eexists. split; [right; by eexists|]. eexists. reflexivity. }
  unfold acquire. pose proof (acquire_needs_none c (state (world t)) Hc) as Ha.
  unfold st_bind, win_call, last_win32_err. unfold st_bind, syscall, st_lift.
  destruct (kernel c (state (world t))) as [k r]. cbn [fst snd] in Ha. destruct (rv r =? 0) eqn:E.
  - eexists _, (Err _). split; [reflexivity|]. split; [done|]. by left.
  - destruct Ha as [Ha0 Ha1].
    match goal with |- context [reopen_std_handles kernel ?w1] => destruct (steady_reopen_std w1) as [H1 [r2 H2]] end.
    destruct (reopen_std_handles kernel _) as [w2 r2']. cbn [fst snd state] in *. subst r2'.
    destruct r2 as [[]|e]; [eexists _, (Ok tt)|eexists _, (Err e)]; (split; [reflexivity|]); cbn [console_state world].
    + by rewrite H1.
    + split; [done|]. right. by rewrite H1.
Qed.

Lemma free_cases t : exists t' r, free_console kernel t = (t', Done r) /\
  if bool_decide (console_state t = NoConsole) then t' = t /\ r = Ok tt else
  match r with
  | Ok _ => console_state t' = NoConsole /\ has (world t') = false
  | Err _ => console_state t' = console_state t /\ has (world t') = has (world t)
  end.
Proof.
  unfold free_console. destruct (bool_decide _); [by eexists _, (Ok tt)|].
  unfold free, st_bind, win_call, last_win32_err. unfold st_bind, syscall, st_lift.
  pose proof (free_gives_up (state (world t))) as Hf. destruct (kernel w_free_console _) as [k r]. cbn [fst snd] in Hf.
  destruct (rv r =? 0); eexists _, _; (split; [reflexivity|]); done.
Qed.

(** C20: The account a terminal keeps of its process's console is right from the
    start and after every operation that succeeds; an operation that fails
    leaves it right, except that an acquired console whose handles do not open
    is lost: the terminal knows of none, and from then on whatever is tried
    [free_console] reports success and frees nothing and every acquisition is
    refused. *)
Theorem console_account :
  (forall w, agrees (new_terminal kernel w)) /\
  (forall op t, agrees t -> exists t' r, step op t = (t', Done r) /\
     match r with
     | Ok _ => agrees t' /\ (console_state t' = NoConsole <-> op = OpFree)
     | Err _ => agrees t' /\ console_state t' = console_state t \/ lost t' /\ op <> OpFree
     end) /\
  (forall ops t op, lost t -> lost (steps ops t) /\
     exists t' r, step op (steps ops t) = (t', Done r) /\ (is_ok r = true <-> op = OpFree)).
Proof.
  assert (forall op t, lost t -> exists t' r, step op t = (t', Done r) /\ lost t' /\ (is_ok r = true <-> op = OpFree)) as Hlost.
  { intros op t [Hs Hh]. destruct op; cbn [step].
    1,2: match goal with |- context [alloc_console] => destruct (acquire_cases (alloc kernel) Allocated t ltac:(auto) ltac:(done)) as (t' & r & E & H)
         | |- context [attach_console _ ?pid] => destruct (acquire_cases (attach kernel pid) Attached t ltac:(eauto) ltac:(done)) as (t' & r & E & H) end.
    1,2: exists t', r; split; [exact E|]; destruct r as [|e]; [by destruct H as (H & _); rewrite H in Hh|];
         destruct H as [H1 [H2|[H2 _]]]; [|by rewrite H2 in Hh]; split; [split; congruence|by split].
    destruct (free_cases t) as (t' & r & E & H). rewrite bool_decide_true in H by done. destruct H as [-> ->].
    exists t, (Ok tt). split; [exact E|]. split; [by split|done]. }
  split_and!.
  - intros w. unfold agrees, new_terminal, initial_state, has_console, when_ok, reopen, last_win32_err, st_bind, syscall, st_lift, drop_fd, syscall.
    pose proof (others_keep (state w) (w_create_file (to_wide_nul (lit "CONIN$")) GENERIC_READ (Z.lor FILE_SHARE_READ FILE_SHARE_WRITE)
      false OPEN_EXISTING 0) eq_refl) as Ho.
    pose proof (conin_opens (state w) GENERIC_READ (Z.lor FILE_SHARE_READ FILE_SHARE_WRITE) false OPEN_EXISTING 0) as Hc.
    destruct (kernel (w_create_file _ _ _ _ _ _) _) as [k r]. cbn [fst snd] in *. rewrite Hc.
    destruct (attached (state w)) eqn:E; cbn [fst snd state].
    + pose proof (others_keep k (c_close (rv r)) eq_refl) as Hk. destruct (kernel (c_close _) k) as [k2 r2].
      cbn [console_state world state fst snd] in *. rewrite Hk, Ho. by split.
    + cbn. by rewrite Ho.
  - intros op t Ha. destruct op; cbn [step].
    1,2: match goal with |- context [alloc_console] => destruct (acquire_cases (alloc kernel) Allocated t ltac:(auto) ltac:(done)) as (t' & r & E & H)
         | |- context [attach_console _ ?pid] => destruct (acquire_cases (attach kernel pid) Attached t ltac:(eauto) ltac:(done)) as (t' & r & E & H) end.
    1,2: exists t', r; split; [exact E|]; unfold agrees, lost in *; destruct r as [|e];
         [destruct H as (_ & -> & ->); by repeat split|];
         destruct H as [-> [->|[H0 ->]]]; [by left|right; split; [split; [by apply Ha|done]|done]].
    destruct (free_cases t) as (t' & r & E & H). exists t', r. split; [exact E|]. unfold agrees in *.
    destruct (bool_decide _) eqn:Eb.
    + destruct H as [-> ->]. apply bool_decide_eq_true in Eb. split; [done|]. by split.
    + destruct r; [destruct H as [-> ->]; by repeat split|]. destruct H as [-> ->]. by left.
  - intros ops. induction ops as [|o ops IH]; intros t op Hl; cbn [steps fold_left].
    + split; [done|]. destruct (Hlost op t Hl) as (t' & r & E & _ & H). by eexists _, _.
    + destruct (Hlost o t Hl) as (t' & r & E & Hl' & _). rewrite E. by apply IH.
Qed.
End acquisition.

(** A process with or without a console, whose screen opens or not. *)
Definition process_kernel (c : Call) (k : bool * bool) : (bool * bool) * Ret :=
  let (has, screen) := k in
  match c with
  | w_alloc_console | w_attach_console _ => if has then (k, mkRet 0 5 ONone) else ((true, screen), mkRet 1 0 ONone)
  | w_free_console => ((false, screen), mkRet 1 0 ONone)
  | w_create_file name _ _ _ _ _ =>
    (k, mkRet (if has && (bool_decide (name = to_wide_nul (lit "CONIN$")) || screen) then 9 else -1) 2 ONone)
  | _ => (k, mkRet 1 0 ONone)
  end.
#[export] Instance process_has_console : HasConsole process_kernel fst.
Proof.
  split.
  - intros c [[|] s] [->|[pid ->]]; by cbn.
  - by intros [h s].
  - intros [h s] c Hc. by destruct c.
  - intros [[|] s] access share inherit disposition flags; cbn [process_kernel fst snd andb]; [|done].
    by rewrite bool_decide_true.
Qed.

Lemma console_account_witness :
  (forall w, agrees fst (new_terminal process_kernel w)) /\
  (forall op t, agrees fst t -> exists t' r, step process_kernel op t = (t', Done r) /\
     match r with
     | Ok _ => agrees fst t' /\ (console_state t' = NoConsole <-> op = OpFree)
     | Err _ => agrees fst t' /\ console_state t' = console_state t \/ lost fst t' /\ op <> OpFree
     end) /\
  (forall ops t op, lost fst t -> lost fst (steps process_kernel ops t) /\
     exists t' r, step process_kernel op (steps process_kernel ops t) = (t', Done r) /\ (is_ok r = true <-> op = OpFree)).
Proof. exact (console_account process_kernel fst). Defined.

(** The screen does not open: the console is there and cannot be freed. *)
Example console_is_lost :
  let t := fst (alloc_console process_kernel (new_terminal process_kernel (mkWorld (false, false) []))) in
  lost fst t /\ fst (free_console process_kernel t) = t.
Proof. vm_compute. done. Qed.

(** Standard input is a pipe at its end: an error, where the interface
    promises an empty read. *)
Example end_of_pipe_is_an_error :
  let broken (c : Call) (k : unit) := (k, match c with w_read_file _ _ => mkRet 0 ERROR_BROKEN_PIPE ONone | _ => mkRet 5 0 ONone end) in
  snd (read_chunk broken 16 (mkWorld tt [])) = fail (win32_err ERROR_BROKEN_PIPE "ReadFile" []).
Proof. vm_compute. reflexivity. Qed.

(** A window whose extent does not fit 16 bits. *)
Example wide_window_panics :
  let k0 (c : Call) (k : unit) := (k, mkRet 1 0 (OInts [-32768; 0; 32767; 24])) in
  snd (screen_size k0 7 (mkWorld tt [])) = Panic.
Proof. vm_compute. reflexivity. Qed.
