(* ===== verification/WinPty.v ===== *)
(** * Pseudo consoles on Windows
      ([platform-windows/src/sys/pty.rs], default build,
       [platform-windows/src/pty.rs])

    The creation of a pseudo console, a child attached to it, and its end:
    two threads, the owner of the master and the one that watches the child,
    race to close it.  What each does is first written as the code has it,
    then cut into the single calls at which the two interleave. *)

From Stdlib Require Import ZArith Lia String.
From S2P Require Import Prelude Error Sys Process Terminal WinFs WinProcess WinLaunch.
From stdpp Require Import base numbers list strings gmap gmultiset.
Open Scope Z_scope.

Definition PROC_THREAD_ATTRIBUTE_PSEUDOCONSOLE := 131094.
Definition EXTENDED_STARTUPINFO_PRESENT := 524288.

(** [Duration]s, in nanoseconds. *)
Definition DRAIN_BUDGET := 2000000000.
Definition DRAIN_PAUSE := 5000000.
Definition PEEK_PAUSE := 10000000.
Definition DRAIN_BUFFER := 4096.

(** [WindowsPtyMaster]; its flag [closed] is shared with the watcher and is
    part of the state. *)
Record WindowsPtyMaster := mkWindowsPtyMaster { hpc : Z; input : Z; output : Z }.

Section pty.
Context {K : Type} (kernel : Call -> K -> K * Ret) (host : Host K).
(** Whether the system gives [thread::spawn] its thread; it panics if not. *)
Context (can_spawn : K -> bool).
Abbreviation M A := (World K -> World K * Run A).
Abbreviation sys c := (syscall kernel c).

Definition create_pipe_pair : M (Z * Z) :=
  st! r := win_call kernel (w_create_pipe false) "CreatePipe" [] in
  let read := nth 0 (out_ints r) 0 in
  let write := nth 1 (out_ints r) 0 in
  let bad := st_lift (fail (error_new Other NoCode "CreatePipe")) in
  if negb (valid_handle read) then bad
  else if negb (valid_handle write) then owned kernel read bad
  else st_lift (ret (read, write)).

(** The 16-bit fields of a [COORD] are signed. *)
Definition create_pseudo_console (input output : Z) (size : WinSize) : M Z :=
  st! r := sys (w_create_pseudo_console (sign 16 (cols size)) (sign 16 (rows size)) input output) in
  if rv r <? 0 then st_lift (fail (hresult_err (rv r) "CreatePseudoConsole")) else st_lift (ret (out_int r)).

(** The console's own ends go whatever it says. *)
Definition create_pty (size : WinSize) : M (Z * Z * Z) :=
  st! (conpty_input, master_input) := create_pipe_pair in
  or_bail kernel [master_input; conpty_input] create_pipe_pair (fun '(master_output, conpty_output) =>
    or_bail kernel [master_output; master_input]
      (scoped_all kernel [conpty_input; conpty_output]
         (create_pseudo_console conpty_input conpty_output size)) (fun hpc =>
      st_lift (ret (hpc, master_input, master_output)))).

(** The closure of [spawn_attached]; [STARTF_USESTDHANDLES] with null handles,
    so that none of the parent's are handed on. *)
Definition attach (hpc : Z) (line : list Z) (cwd : OsString) (env : EnvSpec) : M (Z * Z) :=
  st! _ := win_call kernel (w_update_attribute PROC_THREAD_ATTRIBUTE_PSEUDOCONSOLE hpc)
             "UpdateProcThreadAttribute" [] in
  let block := env_block env in
  let flags := Z.lor EXTENDED_STARTUPINFO_PRESENT
                 (match block with Some _ => CREATE_UNICODE_ENVIRONMENT | None => 0 end) in
  st! r := win_call kernel (w_create_process_ex line false flags block (to_wide_nul cwd) (Some [0; 0; 0])
             [(PROC_THREAD_ATTRIBUTE_PSEUDOCONSOLE, hpc)]) "CreateProcessW" cwd in
  let process := nth 0 (out_ints r) 0 in
  let thread := nth 1 (out_ints r) 0 in
  if negb (valid_handle process) then st_lift (fail (error_new Other NoCode "CreateProcessW"))
  else fun w => (drop_fds kernel (handles [thread]) w, ret (process, nth 2 (out_ints r) 0)).

Definition spawn_attached (hpc : Z) (command_line : list Z) (cwd : OsString) (env : EnvSpec) : M (Z * Z) :=
  let line := command_line ++ [0] in
  st! size := sys (w_attribute_list_size 1) in
  if out_int size =? 0 then last_win32_err "InitializeProcThreadAttributeList" []
  else
    st! _ := win_call kernel (w_init_attribute_list 1 (out_int size)) "InitializeProcThreadAttributeList" [] in
    fun w =>
      let (w, result) := attach hpc line cwd env w in
      let (w, _) := sys w_delete_attribute_list w in
      (w, result).

Definition resize (hpc : Z) (size : WinSize) : M unit :=
  st! r := sys (w_resize_pseudo_console hpc (sign 16 (cols size)) (sign 16 (rows size))) in
  if rv r <? 0 then st_lift (fail (hresult_err (rv r) "ResizePseudoConsole")) else st_lift (ret tt).

Definition close_pseudo_console (hpc : Z) : M unit :=
  st! _ := sys (w_close_pseudo_console hpc) in st_lift (ret tt).

(** [Instant::now() + d]. *)
Definition deadline_in (d : Z) (w : World K) : World K * Run Z :=
  let deadline := now host (state w) + d in
  if MAX_INSTANT <=? deadline then (w, Panic) else (w, ret deadline).

Fixpoint peek_loop (fuel : nat) (output deadline : Z) (w : World K) : World K * Run bool :=
  match fuel with
  | O => (w, OutOfFuel)
  | S fuel =>
    (st! r := sys (w_peek_named_pipe output) in
     if (rv r =? 0) || (0 <? out_int r) then st_lift (ret true)
     else fun w =>
       if deadline <=? now host (state w) then (w, ret false)
       else peek_loop fuel output deadline (pause host PEEK_PAUSE w)) w
  end.
Definition wait_readable (fuel : nat) (output budget : Z) : M bool :=
  st! deadline := deadline_in budget in peek_loop fuel output deadline.

(** The loop of [close]; the deadline is looked at first, every time. *)
Fixpoint drain_loop (fuel : nat) (output deadline : Z) (w : World K) : World K * Run unit :=
  match fuel with
  | O => (w, OutOfFuel)
  | S fuel =>
    if deadline <=? now host (state w) then (w, ret tt)
    else
      (st! r := sys (w_peek_named_pipe output) in
       if rv r =? 0 then st_lift (ret tt)
       else if out_int r =? 0 then fun w => drain_loop fuel output deadline (pause host DRAIN_PAUSE w)
       else
         st! r := sys (w_read_file output DRAIN_BUFFER) in
         if rv r =? 0 then st_lift (ret tt) else drain_loop fuel output deadline) w
  end.
Definition close (fuel : nat) (hpc output : Z) : M unit :=
  st! deadline := deadline_in DRAIN_BUDGET in
  st! _ := drain_loop fuel output deadline in
  close_pseudo_console hpc.

(** [spawn_exit_watcher]: the duplicate the new thread owns, when there is
    one. *)
Definition spawn_exit_watcher (process : Z) : M (option Z) := fun w =>
  match duplicate kernel process false w with
  | (w, ret dup) => if can_spawn (state w) then (w, ret (Some dup)) else (drop_fd kernel dup w, Panic)
  | (w, _) => (w, ret None)
  end.

(** [WindowsPty::spawn]: the master, the child, and the watcher's handle. *)
Definition pty_spawn (fuel : nat) (cmd : Command) (size : WinSize) : M (WindowsPtyMaster * WindowsChild * option Z) :=
  if is_join (c_group cmd) then
    st_lift (fail (error_new InvalidInput NoCode
      "Pty::spawn: GroupSpec::JoinGroup is incompatible with a fresh pty session"))
  else
    st! resolved := resolve host (program cmd) in
    st! line := st_lift (Done (build_command_line resolved (argv cmd))) in
    st! (hpc, input, output) := create_pty size in
    fun w =>
      match spawn_attached hpc line (cwd cmd) (c_env cmd) w with
      | (w, ret (process, pid)) =>
        or_bail kernel [process; output; input] (spawn_exit_watcher process) (fun dup =>
          st_lift (ret (mkWindowsPtyMaster hpc input output, from_parts process None pid, dup))) w
      | (w, fail e) =>
        or_bail kernel [output; input] (close fuel hpc output) (fun _ => bail kernel [output; input] e) w
      | (w, Panic) => (drop_fds kernel [output; input] w, Panic)
      | (w, OutOfFuel) => (w, OutOfFuel)
      end.

(** The master's operations. *)
Definition pty_read (m : WindowsPtyMaster) (n : Z) : M (list Z) := read kernel (output m) n.
Definition pty_write (m : WindowsPtyMaster) (buf : list Z) : M Z := write kernel (input m) buf.
Definition pty_resize (m : WindowsPtyMaster) (size : WinSize) : M unit := resize (hpc m) size.

(** ** The two threads, each from its start to its end

    The flag is beside the world. *)

Abbreviation Shared := (World K * bool)%type.

(** [compare_exchange(false, true)]. *)
Definition win_close (s : Shared) : Shared * bool := ((fst s, true), negb (snd s)).

(** The body of the watcher's thread; its duplicate goes when it is over. *)
Definition exit_watcher (dup hpc : Z) (s : Shared) : Shared :=
  let (w, _) := wait kernel dup (fst s) in
  let '((w, closed), won) := win_close (w, snd s) in
  let w := if won : bool then fst (close_pseudo_console hpc w) else w in
  (drop_fd kernel dup w, closed).

(** [Drop for WindowsPtyMaster], then its fields; the fields are dropped after
    a panic too. *)
Definition master_drop (fuel : nat) (m : WindowsPtyMaster) (s : Shared) : Shared * Run unit :=
  let '((w, closed), won) := win_close s in
  let (w, r) := if won : bool then close fuel (hpc m) (output m) w else (w, ret tt) in
  match r with
  | OutOfFuel => ((w, closed), OutOfFuel)
  | r => ((drop_fds kernel [input m; output m] w, closed), r)
  end.

(** ** The two threads, call by call

    A turn is one call or one exchange of the flag. *)

Inductive Owner :=
  | Live
  | Closing                        (* in [close], the exchange won *)
  | Checking (deadline : Z)
  | Peeking (deadline : Z)
  | Pausing (deadline : Z)
  | Reading (deadline : Z)
  | Shutting
  | DroppingInput | DroppingOutput | Gone.

Inductive Watcher :=
  | Absent
  | Waiting | ReadingCode | Exchanging | WatcherShutting | DroppingDup | Finished.

Record Sys := mkSys { world : World K; closed : bool; owner : Owner; watcher : Watcher }.

Inductive Act := Read (n : Z) | Write (buf : list Z) | Resize (size : WinSize) | Next.
Inductive Turn := ByOwner (a : Act) | ByWatcher.

(** A live master is read, written and resized as its owner likes; [Next] is
    its drop, and then the next call of the drop. *)
Definition owner_step (m : WindowsPtyMaster) (a : Act) (s : Sys) : option Sys :=
  let w := world s in
  let keep := fun o w => mkSys w (closed s) o (watcher s) in
  match owner s, a with
  | Live, Read n => Some (keep Live (fst (pty_read m n w)))
  | Live, Write buf => Some (keep Live (fst (pty_write m buf w)))
  | Live, Resize size => Some (keep Live (fst (pty_resize m size w)))
  | Live, Next =>
    let '((w, c), won) := win_close (w, closed s) in
    Some (mkSys w c (if won then Closing else DroppingInput) (watcher s))
  | Closing, Next =>
    match deadline_in DRAIN_BUDGET w with
    | (w, ret d) => Some (keep (Checking d) w)
    | (w, _) => Some (keep DroppingInput w)
    end
  | Checking d, Next => Some (keep (if d <=? now host (state w) then Shutting else Peeking d) w)
  | Peeking d, Next =>
    match sys (w_peek_named_pipe (output m)) w with
    | (w, ret r) => Some (keep (if rv r =? 0 then Shutting else if out_int r =? 0 then Pausing d else Reading d) w)
    | _ => None
    end
  | Pausing d, Next => Some (keep (Checking d) (pause host DRAIN_PAUSE w))
  | Reading d, Next =>
    match sys (w_read_file (output m) DRAIN_BUFFER) w with
    | (w, ret r) => Some (keep (if rv r =? 0 then Shutting else Checking d) w)
    | _ => None
    end
  | Shutting, Next => Some (keep DroppingInput (fst (close_pseudo_console (hpc m) w)))
  | DroppingInput, Next => Some (keep DroppingOutput (drop_fd kernel (input m) w))
  | DroppingOutput, Next => Some (keep Gone (drop_fd kernel (output m) w))
  | _, _ => None
  end.

Definition watcher_step (dup : Z) (m : WindowsPtyMaster) (s : Sys) : option Sys :=
  let w := world s in
  let keep := fun v w => mkSys w (closed s) (owner s) v in
  match watcher s with
  | Waiting =>
    match sys (w_wait_single dup INFINITE) w with
    | (w, ret r) => Some (keep (if rv r =? WAIT_OBJECT_0 then ReadingCode else Exchanging) w)
    | _ => None
    end
  | ReadingCode => Some (keep Exchanging (fst (exit_code kernel dup w)))
  | Exchanging =>
    let '((w, c), won) := win_close (w, closed s) in
    Some (mkSys w c (owner s) (if won then WatcherShutting else DroppingDup))
  | WatcherShutting => Some (keep DroppingDup (fst (close_pseudo_console (hpc m) w)))
  | DroppingDup => Some (keep Finished (drop_fd kernel dup w))
  | Absent | Finished => None
  end.

Definition take_turn (dup : Z) (m : WindowsPtyMaster) (t : Turn) (s : Sys) : option Sys :=
  match t with ByOwner a => owner_step m a s | ByWatcher => watcher_step dup m s end.

Fixpoint take_turns (dup : Z) (m : WindowsPtyMaster) (ts : list Turn) (s : Sys) : option Sys :=
  match ts with
  | [] => Some s
  | t :: ts => s ← take_turn dup m t s; take_turns dup m ts s
  end.

(** What [pty_spawn] leaves. *)
Definition started (dup : option Z) (w : World K) : Sys :=
  mkSys w false Live (match dup with Some _ => Waiting | None => Absent end).

Inductive reachable (dup : option Z) (m : WindowsPtyMaster) (w : World K) : Sys -> Prop :=
  | reach_start : reachable dup m w (started dup w)
  | reach_turn t s s' : reachable dup m w s -> take_turn (default 0 dup) m t s = Some s' -> reachable dup m w s'.

End pty.
Arguments Sys : clear implicits.
Arguments mkSys {K} _ _ _ _.
Arguments world {K} _.
Arguments closed {K} _.
Arguments owner {K} _.
Arguments watcher {K} _.

(** ** Handles *)

Section ownership.
Context {K : Type} (kernel : Call -> K -> K * Ret) (host : Host K) (can_spawn : K -> bool).
Implicit Types h : gmultiset Z.

Hint Resolve owns_last_win32_err owns_duplicate : owns.
Hint Extern 2 (owns _ (win_call _ _ _ _) _ _) => apply owns_win_call; [reflexivity|reflexivity] : owns.

Lemma owns_create_pipe_pair h : owns h (create_pipe_pair kernel) (fun p => fds [fst p; snd p] ⊎ h) h.
Proof.
  apply (owns_new_pipe kernel h false "CreatePipe" (error_new Other NoCode "CreatePipe") (fun rd wt =>
    st_lift (ret (rd, wt)))). intros rd wt. by apply owns_ret.
Qed.

Lemma owns_create_pseudo_console h i o size : owns h (create_pseudo_console kernel i o size) (fun _ => h) h.
Proof. unfold create_pseudo_console. owns_go. Qed.

Lemma owns_create_pty h size :
  owns h (create_pty kernel size) (fun '(_, i, o) => fds [o; i] ⊎ h) h.
Proof.
  unfold create_pty. eapply owns_bind; [apply owns_create_pipe_pair|]. intros [ci mi]. cbn [fst snd].
  apply (owns_perm h [mi; ci]); [apply perm_swap|].
  eapply owns_or_bail; [apply owns_create_pipe_pair|]. intros [mo co]. cbn [fst snd].
  eapply owns_or_bail with (Q := fun _ => fds [mo; mi] ⊎ h).
  - apply owns_scoped_all. eapply owns_eq; [apply owns_create_pseudo_console| |reflexivity|reflexivity].
    rewrite !list_to_set_disj_cons. multiset_solver.
  - intros hpc. by apply owns_ret.
Qed.

Lemma owns_attach h hpc line cwd env :
  owns h (attach kernel hpc line cwd env) (fun p => {[+ fst p +]} ⊎ h) h.
Proof.
  unfold attach. apply (owns_bind _ _ _ (fun _ => h)); [eauto with owns|]. intros _. cbv zeta.
  unfold win_call. eapply (owns_bind _ _ _ (fun r =>
    (if valid_handle (nth 0 (out_ints r) 0) then fds (handles (take 2 (out_ints r))) else ∅) ⊎ h)).
  - eapply owns_bind; [by apply owns_syscall|]. intros r. cbv beta. cbn [acquired fst snd].
    destruct (rv r =? 0); cbn [negb orb].
    + rewrite list_to_set_disj_nil, (right_id_L ∅ (⊎)). apply owns_last_win32_err.
    + apply owns_ret. destruct (valid_handle (nth 0 (out_ints r) 0)); cbn [negb];
        by rewrite (comm_L (⊎)).
  - intros r. cbv beta. destruct (valid_handle (nth 0 _ 0)) eqn:E0; cbn [negb].
    2: { rewrite (left_id_L ∅ (⊎)). apply owns_fail. }
    eapply owns_eq; [apply (owns_dropping kernel (fds [nth 0 (out_ints r) 0] ⊎ h) (handles [nth 1 (out_ints r) 0]))| |reflexivity|reflexivity].
    + symmetry. apply fds_one.
    + rewrite handles_one. destruct (out_ints r) as [|p [|t rest]]; [done|..]; cbn [nth take] in *;
        unfold handles; cbn [List.filter]; rewrite E0; [|destruct (valid_handle t)];
        cbn [valid_handle Z.eqb negb andb]; rewrite ?list_to_set_disj_cons; multiset_solver.
Qed.

Lemma con_owns_spawn_attached h hpc line cwd env :
  owns h (spawn_attached kernel hpc line cwd env) (fun p => {[+ fst p +]} ⊎ h) h.
Proof.
  unfold spawn_attached. eapply owns_bind; [by apply owns_neutral|]. intros size. cbv beta.
  destruct (_ =? 0); [apply owns_last_win32_err|].
  apply (owns_bind _ _ _ (fun _ => h)); [eauto with owns|]. intros _. intros w w' r.
  destruct (attach kernel hpc (line ++ [0]) cwd env w) as [w1 r1] eqn:E1.
  destruct (owns_attach h hpc (line ++ [0]) cwd env _ _ _ E1) as (l1 & Hl1 & H1).
  unfold syscall. destruct (kernel w_delete_attribute_list (state w1)) as [k2 r2]. intros [= <- <-].
  exists (l1 ++ [(w_delete_attribute_list, r2)]). cbn [log]. rewrite Hl1, app_assoc. split; [done|].
  intros Hr. rewrite replay_app, H1 by done. destruct r1 as [[a|e]| |]; cbn; [| | |done];
    unfold replay1; cbn; by rewrite (right_id_L ∅ (⊎)).
Qed.

Lemma owns_deadline h d : owns h (deadline_in host d) (fun _ => h) h.
Proof.
  intros w w' r. unfold deadline_in. destruct (_ <=? _); intros [= <- <-]; exists []; by rewrite app_nil_r.
Qed.

Lemma owns_drain h fuel o d : owns h (drain_loop kernel host fuel o d) (fun _ => h) h.
Proof.
  induction fuel as [|fuel IH]; [intros w w' r [= <- <-]; exists []; by rewrite app_nil_r|].
  intros w w' r. cbn [drain_loop]. destruct (d <=? _).
  { intros [= <- <-]. exists []. by rewrite app_nil_r. }
  revert w w' r. change (owns h (st! r := syscall kernel (w_peek_named_pipe o) in
       if rv r =? 0 then st_lift (ret tt)
       else if out_int r =? 0 then fun w => drain_loop kernel host fuel o d (pause host DRAIN_PAUSE w)
       else
         st! r := syscall kernel (w_read_file o DRAIN_BUFFER) in
         if rv r =? 0 then st_lift (ret tt) else drain_loop kernel host fuel o d) (fun _ => h) h).
  eapply owns_bind; [by apply owns_neutral|]. intros r. cbv beta.
  destruct (rv r =? 0); [by apply owns_ret|]. destruct (out_int r =? 0); [by apply owns_pause|].
  eapply owns_bind; [by apply owns_neutral|]. intros r2. cbv beta. destruct (rv r2 =? 0); [by apply owns_ret|done].
Qed.

Lemma owns_close h fuel hpc o : owns h (close kernel host fuel hpc o) (fun _ => h) h.
Proof.
  unfold close. eapply owns_bind; [apply owns_deadline|]. intros d. cbv beta.
  apply (owns_bind _ _ _ (fun _ => h)); [apply owns_drain|]. intros _. unfold close_pseudo_console. owns_go.
Qed.

Lemma owns_exit_watcher h p :
  owns h (spawn_exit_watcher kernel can_spawn p) (fun o => fds (option_list o) ⊎ h) h.
Proof.
  unfold spawn_exit_watcher. eapply owns_let_else with (R := fun o => fds (option_list o) ⊎ h).
  - apply owns_duplicate.
  - intros w. unfold duplicate, win_call, st_bind, syscall, last_win32_err, st_lift.
    destruct (kernel _ _) as [k r]. destruct (rv r =? 0); [done|]. by destruct (valid_handle _).
  - apply (left_id_L ∅ (⊎)).
  - intros dup w w' r. destruct (can_spawn _).
    + intros [= <- <-]. exists []. rewrite app_nil_r. split; [done|]. intros _. cbn [replay held]. unfold option_list. cbn [option_rect]. by rewrite fds_one.
    + destruct (drop_fd_log kernel dup w) as [rc Hrc]. intros [= <- <-]. exists [(c_close dup, rc)].
      split; [done|]. intros _. by apply (replay_close _ []).
Qed.

Lemma win_owns_resolve h program : owns h (resolve host program) (fun _ => h) h.
Proof.
  intros w w' r H. destruct (resolve_pure host program w) as [x Hx]. rewrite Hx in H. injection H as <- <-.
  exists []. rewrite app_nil_r. split; [done|]. by destruct x.
Qed.

Definition session_handles (x : WindowsPtyMaster * WindowsChild * option Z) : list Z :=
  let '(m, c, dup) := x in option_list dup ++ wc_process c :: [output m; input m].

Lemma con_owns_pty_spawn h fuel cmd size :
  owns h (pty_spawn kernel host can_spawn fuel cmd size) (fun x => fds (session_handles x) ⊎ h) h.
Proof.
  unfold pty_spawn. destruct (is_join _); [apply owns_fail|].
  eapply owns_bind; [apply win_owns_resolve|]. intros resolved. cbv beta.
  eapply owns_bind; [apply owns_pure|]. intros line. cbv beta.
  eapply owns_bind; [apply owns_create_pty|]. intros [[hpc i] o].
  eapply owns_match with (f := fun e => or_bail kernel [o; i] (close kernel host fuel hpc o) (fun _ => bail kernel [o; i] e))
    (p := fun w => (drop_fds kernel [o; i] w, Panic)).
  - apply con_owns_spawn_attached.
  - intros [process pid]. cbn [fst]. eapply owns_or_bail with (Q := fun dup => fds (option_list dup) ⊎ (fds [process; o; i] ⊎ h)).
    + eapply owns_eq; [apply owns_exit_watcher| |reflexivity|reflexivity]. rewrite !list_to_set_disj_cons. multiset_solver.
    + intros dup. apply owns_ret. unfold session_handles. cbn. by rewrite list_to_set_disj_app, <- (assoc_L (⊎)).
  - intros e. apply (owns_or_bail kernel h _ _ _ _ (fun _ => fds [o; i] ⊎ h)); [apply owns_close|]. intros _. apply owns_bail.
  - intros w w' r [= <- <-]. destruct (drop_fds_log kernel [o; i] w) as (l & Hl & HT). exists l. split; [done|].
    intros _. apply HT.
Qed.
End ownership.

(** ** What happens to pseudo consoles *)

Inductive ConsoleEvent :=
  | Opened (hpc : Z)
  | Attached (process : Z) (line : list Z) (std : option (list Z)) (attributes : list (Z * Z))
  | Closed (hpc : Z).

(** The calls that succeeded; a close cannot fail. *)
Definition console_of (e : Call * Ret) : option ConsoleEvent :=
  let r := snd e in
  match fst e with
  | w_create_pseudo_console _ _ _ _ => if rv r <? 0 then None else Some (Opened (out_int r))
  | w_create_process_ex line _ _ _ _ std attributes =>
    if (rv r =? 0) || negb (valid_handle (nth 0 (out_ints r) 0)) then None
    else Some (Attached (nth 0 (out_ints r) 0) line std attributes)
  | w_close_pseudo_console hpc => Some (Closed hpc)
  | _ => None
  end.
Definition console (l : list (Call * Ret)) : list ConsoleEvent := omap console_of l.

Lemma console_app l1 l2 : console (l1 ++ l2) = console l1 ++ console l2.
Proof. apply omap_app. Qed.

Section events.
Context {K : Type} (kernel : Call -> K -> K * Ret) (host : Host K) (can_spawn : K -> bool).
Abbreviation M A := (World K -> World K * Run A).

(** [m] makes the events [P] names, for what it ends in. *)
Definition shows {A} (m : M A) (P : list ConsoleEvent -> Run A -> Prop) : Prop :=
  traces m (fun l r => P (console l) r).

Lemma quiet_shows {A} (m : M A) : quiet console_of m ->
  shows m (fun ev r => ev = [] /\ match r with Done _ => True | _ => False end).
Proof. done. Qed.

Lemma shows_bind {A B} (m : M A) (k : A -> M B) P Q :
  shows m P ->
  (forall ev a, P ev (ret a) -> shows (k a) (fun ev2 => Q (ev ++ ev2))) ->
  (forall ev r, P ev r -> (forall a, r <> ret a) -> Q ev (carried r)) ->
  shows (st_bind m k) Q.
Proof.
  intros Hm Hk Hr. eapply traces_bind; [exact Hm| |].
  - intros l a Ha. eapply traces_weaken; [exact (Hk _ _ Ha)|]. intros l2 r H. cbv beta. rewrite console_app. exact H.
  - intros l r H Hno. by apply Hr.
Qed.

(** After a call that is no event. *)
Lemma shows_sys {A} c (k : Ret -> M A) P :
  (forall r, console_of (c, r) = None) -> (forall r, shows (k r) P) -> shows (st! r := syscall kernel c in k r) P.
Proof.
  intros Hc Hk. apply traces_sys. intros r. eapply traces_weaken; [apply Hk|]. intros l x H. cbv beta.
  unfold console. by rewrite seen_cons, Hc.
Qed.

(** After a piece that shows nothing and ends. *)
Lemma shows_after {A B} (m : M A) (k : A -> M B) Q :
  quiet console_of m -> (forall e, Q [] (fail e)) -> (forall a, shows (k a) Q) -> shows (st_bind m k) Q.
Proof.
  intros Hm Hf Hk. eapply shows_bind; [by apply quiet_shows| |].
  - intros ev a [-> _]. apply Hk.
  - intros ev [[a|e]| |] [-> H] Hno; [by destruct (Hno a)|apply Hf|done..].
Qed.

Lemma shows_dropping {A} (m : M A) fds (P : list ConsoleEvent -> Run A -> Prop) (f : Run A -> Run A) :
  shows m (fun ev r => P ev (f r)) -> shows (fun w => let (w, r) := m w in (drop_fds kernel fds w, f r)) P.
Proof.
  intros Hm w. destruct (Hm w) as (l & Hl & HP). destruct (m w) as [w1 r]. cbn [fst snd] in *.
  destruct (drop_fds_seen kernel console_of (fun _ _ => eq_refl) fds w1) as (l2 & Hl2 & Hs).
  exists (l ++ l2). rewrite Hl2, Hl, app_assoc. split; [done|].
  by rewrite console_app, (Hs : console l2 = []), app_nil_r.
Qed.

Lemma quiet_create_pipe_pair : quiet console_of (create_pipe_pair kernel).
Proof. unfold create_pipe_pair. cbv zeta. quiet_go. Qed.

(** [or_bail] of a piece that shows something. *)
Lemma shows_or_bail {A B} fds (m : M A) (k : A -> M B) P Q :
  shows m P ->
  (forall ev a, P ev (ret a) -> shows (k a) (fun ev2 => Q (ev ++ ev2))) ->
  (forall ev r, P ev r -> (forall a, r <> ret a) -> Q ev (carried r)) ->
  shows (or_bail kernel fds m k) Q.
Proof.
  intros Hm Hk Hr w. destruct (Hm w) as (l & Hl & HP). unfold or_bail, bail.
  destruct (m w) as [w1 r]. cbn [fst snd] in *.
  destruct (drop_fds_seen kernel console_of (fun _ _ => eq_refl) fds w1) as (l2 & Hl2 & Hs).
  assert (console (l ++ l2) = console l) as Hc by by rewrite console_app, (Hs : console l2 = []), app_nil_r.
  destruct r as [[a|e]| |].
  - destruct (Hk _ a HP w1) as (l3 & Hl3 & HT). exists (l ++ l3). rewrite Hl3, Hl, app_assoc. split; [done|].
    by rewrite console_app.
  - exists (l ++ l2). cbn [fst snd]. rewrite Hl2, Hl, app_assoc, Hc. split; [done|]. by apply (Hr _ (fail e)).
  - exists (l ++ l2). cbn [fst snd]. rewrite Hl2, Hl, app_assoc, Hc. split; [done|]. by apply (Hr _ Panic).
  - exists l. split; [done|]. by apply (Hr _ OutOfFuel).
Qed.

(** What [create_pty] shows: the console it returns, or none. *)
Definition opens (ev : list ConsoleEvent) (r : Run (Z * Z * Z)) : Prop :=
  match r with ret (hpc, _, _) => ev = [Opened hpc] | fail _ => ev = [] | _ => False end.

Lemma shows_create_pty size : shows (create_pty kernel size) opens.
Proof.
  unfold create_pty. apply shows_after; [apply quiet_create_pipe_pair|done|]. intros [ci mi].
  eapply shows_or_bail; [apply quiet_shows, quiet_create_pipe_pair| |].
  2: { intros ev [[a|e]| |] [-> H] Hno; [by destruct (Hno a)|done..]. }
  intros ev [mo co] [-> _]. cbn [app].
  eapply (shows_or_bail _ _ _ (fun ev r => match r with ret hpc => ev = [Opened hpc] | fail _ => ev = [] | _ => False end)).
  - intros w. unfold scoped_all, create_pseudo_console, st_bind, syscall, st_lift.
    destruct (kernel _ _) as [k r]. destruct (rv r <? 0) eqn:E;
      match goal with |- context [drop_fds kernel ?fds ?w1] =>
        destruct (drop_fds_seen kernel console_of (fun _ _ => eq_refl) fds w1) as (l2 & Hl2 & Hs) end;
      (eexists (_ :: l2)); cbn [fst snd]; rewrite Hl2; cbn [log]; rewrite <- app_assoc; (split; [reflexivity|]);
      unfold console; rewrite seen_cons; cbn; by rewrite E, Hs.
  - intros ev hpc ->. by apply traces_lift.
  - intros ev [[a|e]| |] H Hno; [by destruct (Hno a)|done..].
Qed.

Definition attaches (hpc : Z) (line : list Z) (ev : list ConsoleEvent) (r : Run (Z * Z)) : Prop :=
  match r with
  | ret (process, _) => ev = [Attached process line (Some [0; 0; 0]) [(PROC_THREAD_ATTRIBUTE_PSEUDOCONSOLE, hpc)]]
  | fail _ => ev = []
  | _ => False
  end.

Lemma shows_attach hpc line cwd env : shows (attach kernel hpc line cwd env) (attaches hpc line).
Proof.
  unfold attach. apply shows_after; [by apply quiet_win_call|done|]. intros _. cbv zeta.
  intros w. unfold win_call, st_bind, syscall, last_win32_err, st_lift.
  destruct (kernel _ _) as [k r]. destruct (rv r =? 0) eqn:E0.
  { eexists [_]. split; [reflexivity|]. cbn. by rewrite E0. }
  destruct (valid_handle (nth 0 (out_ints r) 0)) eqn:E1; cbn [negb].
  2: { eexists [_]. split; [reflexivity|]. cbn. by rewrite E0, E1. }
  match goal with |- context [drop_fds kernel ?fds ?w1] =>
    destruct (drop_fds_seen kernel console_of (fun _ _ => eq_refl) fds w1) as (l2 & Hl2 & Hs) end.
  eexists (_ :: l2). cbn [fst snd]. rewrite Hl2. cbn [log]. rewrite <- app_assoc. split; [reflexivity|].
  unfold console. rewrite seen_cons. cbn. by rewrite E0, E1, Hs.
Qed.

Lemma shows_spawn_attached hpc line cwd env :
  shows (spawn_attached kernel hpc line cwd env) (attaches hpc (line ++ [0])).
Proof.
  unfold spawn_attached. apply shows_sys; [done|]. intros size.
  destruct (_ =? 0); [apply (traces_fail (fun w => _)); done|].
  apply shows_after; [by apply quiet_win_call|done|]. intros _ w.
  destruct (shows_attach hpc (line ++ [0]) cwd env w) as (l & Hl & HT).
  destruct (attach _ _ _ _ _ w) as [w1 r1]. unfold syscall. destruct (kernel w_delete_attribute_list _) as [k2 r2].
  cbn [fst snd log] in *. exists (l ++ [(w_delete_attribute_list, r2)]). rewrite Hl, app_assoc. split; [done|].
  by rewrite console_app, app_nil_r.
Qed.

Lemma drain_silent fuel o d : shows (drain_loop kernel host fuel o d) (fun ev r => ev = [] /\ (r = ret tt \/ r = OutOfFuel)).
Proof.
  induction fuel as [|fuel IH]; intros w; cbn [drain_loop]; [exists []; rewrite app_nil_r; auto|].
  destruct (d <=? _); [exists []; rewrite app_nil_r; auto|].
  refine (shows_sys _ _ (fun ev r => ev = [] /\ (r = ret tt \/ r = OutOfFuel)) _ _ w); [done|]. intros r. destruct (rv r =? 0); [apply traces_lift; auto|].
  destruct (out_int r =? 0); [intros w1; exact (IH (pause host DRAIN_PAUSE w1))|].
  apply shows_sys; [done|]. intros r2. destruct (rv r2 =? 0); [apply traces_lift; auto|exact IH].
Qed.

Definition closes (hpc : Z) (ev : list ConsoleEvent) (r : Run unit) : Prop :=
  match r with ret _ => ev = [Closed hpc] | fail _ => False | _ => ev = [] end.

Lemma shows_close fuel hpc o : shows (close kernel host fuel hpc o) (closes hpc).
Proof.
  unfold close. eapply (shows_bind _ _ (fun ev r => ev = [] /\ match r with ret _ | Panic => True | _ => False end)).
  { intros w. exists []. unfold deadline_in. destruct (_ <=? _); by rewrite app_nil_r. }
  2: { intros ev [[a|e]| |] [-> H] Hno; [by destruct (Hno a)|done..]. }
  intros ev d [-> _]. cbn [app]. eapply shows_bind; [apply drain_silent| |].
  - intros ev [] [-> _]. cbn [app]. apply traces_sys. intros r. by apply traces_lift.
  - intros ev r [-> [-> | ->]] Hno; [by destruct (Hno tt)|done].
Qed.

Lemma shows_watcher p : shows (spawn_exit_watcher kernel can_spawn p) (fun ev r => ev = [] /\
  match r with ret _ => True | Panic => exists k, can_spawn k = false | _ => False end).
Proof.
  assert (quiet console_of (duplicate kernel p false)) as Hq.
  { unfold duplicate. quiet_go. }
  intros w. unfold spawn_exit_watcher. destruct (Hq w) as (l & Hl & Hs & Hr).
  destruct (duplicate kernel p false w) as [w1 [[dup|e]| |]]; cbn [fst snd] in *; [|by exists l|done..].
  destruct (can_spawn (state w1)) eqn:Ec; [by exists l|].
  destruct (drop_fd_log kernel dup w1) as [rc Hrc]. exists (l ++ [(c_close dup, rc)]). cbn [fst snd].
  rewrite Hrc, Hl, app_assoc. split; [done|]. rewrite console_app, (Hs : console l = []). eauto.
Qed.

(** The end of a successful [pty_spawn]. *)
Lemma shows_session fds (m : WindowsPtyMaster) (child : WindowsChild) p :
  shows (or_bail kernel fds (spawn_exit_watcher kernel can_spawn p) (fun dup => st_lift (ret (m, child, dup))))
    (fun ev r => ev = [] /\ match r with
       | ret (m', child', _) => m' = m /\ child' = child
       | Panic => exists k, can_spawn k = false
       | _ => False end).
Proof.
  eapply shows_or_bail; [apply shows_watcher| |].
  - intros ev dup [-> _]. by apply (traces_lift (Done (Ok (m, child, dup)))).
  - intros ev [[a|e]| |] [-> H'] Hno; [by destruct (Hno a)|done..].
Qed.
End events.

(** ** The drain ends

    Time does not run backwards, a sleep lasts, and reading something takes
    at least [tick] nanoseconds: that is what ends the drain of a console
    that never stops talking. *)

Class ClockForward {K} (kernel : Call -> K -> K * Ret) (host : Host K) := {
  call_forward c k : now host k <= now host (fst (kernel c k));
  sleep_lasts d k : 0 <= d -> now host k + d <= now host (sleep host d k);
}.

Class TimePasses {K} (kernel : Call -> K -> K * Ret) (host : Host K) (tick : Z) := {
  time_forward :: ClockForward kernel host;
  tick_small : 0 < tick <= DRAIN_PAUSE;
  read_takes h n k : now host k + tick <= now host (fst (kernel (w_read_file h n) k));
}.

Definition ticks (tick d : Z) : nat := Z.to_nat ((d + tick - 1) / tick).
Definition drain_fuel (tick : Z) : nat := S (ticks tick DRAIN_BUDGET).

Lemma ticks_none tick d : 0 < tick -> d <= 0 -> ticks tick d = O.
Proof.
  intros Ht Hd. unfold ticks. enough ((d + tick - 1) / tick <= 0) by lia.
  apply Z.lt_succ_r. apply Z.div_lt_upper_bound; lia.
Qed.
Lemma ticks_mono tick d d' : 0 < tick -> d <= d' -> (ticks tick d <= ticks tick d')%nat.
Proof.
  intros Ht Hd. unfold ticks. pose proof (Z.div_le_mono (d + tick - 1) (d' + tick - 1) tick). lia.
Qed.
Lemma ticks_next tick d : 0 < tick -> 0 < d -> ticks tick d = S (ticks tick (d - tick)).
Proof.
  intros Ht Hd. unfold ticks. replace (d + tick - 1) with ((d - tick + tick - 1) + 1 * tick) by lia.
  rewrite Z.div_add by lia.
  assert (0 <= (d - tick + tick - 1) / tick) by (apply Z.div_pos; lia). lia.
Qed.

Section drain.
Context {K : Type} (kernel : Call -> K -> K * Ret) (host : Host K).

Abbreviation clock w := (now host (state w)).

Lemma clock_sys {F : ClockForward kernel host} c w : clock w <= clock (fst (syscall kernel c w)).
Proof. unfold syscall. pose proof (call_forward c (state w)). by destruct (kernel c (state w)). Qed.
Lemma clock_drop {F : ClockForward kernel host} fd w : clock w <= clock (drop_fd kernel fd w).
Proof. apply (clock_sys (c_close fd)). Qed.
Lemma clock_drops {F : ClockForward kernel host} l : forall w, clock w <= clock (drop_fds kernel l w).
Proof.
  induction l as [|fd l IH]; intros w; [done|]. pose proof (clock_drop fd w).
  etrans; [exact H|]. apply (IH (drop_fd kernel fd w)).
Qed.

Context {tick : Z} `{T : !TimePasses kernel host tick}.

Lemma drain_ends fuel o d : forall w, (ticks tick (d - clock w) < fuel)%nat ->
  exists w', drain_loop kernel host fuel o d w = (w', ret tt).
Proof.
  pose proof tick_small as Ht. unfold DRAIN_PAUSE in Ht.
  assert (forall w w', clock w < d -> clock w + tick <= clock w' ->
    (S (ticks tick (d - clock w')) <= ticks tick (d - clock w))%nat) as Hstep.
  { intros w w' Hd Hw. rewrite (ticks_next tick (d - clock w)) by lia. apply le_n_S, ticks_mono; lia. }
  induction fuel as [|fuel IH]; intros w Hf; [lia|]. cbn [drain_loop].
  destruct (d <=? clock w) eqn:Ed; [by eexists|]. bool_to_prop.
  unfold st_bind at 1, syscall at 1. pose proof (call_forward (w_peek_named_pipe o) (state w)) as Hp.
  destruct (kernel (w_peek_named_pipe o) (state w)) as [k1 r1]. cbn [fst] in Hp.
  destruct (rv r1 =? 0); [by eexists|]. destruct (out_int r1 =? 0).
  - apply IH. pose proof (sleep_lasts DRAIN_PAUSE k1 ltac:(unfold DRAIN_PAUSE; lia)) as Hs.
    match goal with |- context [pause host DRAIN_PAUSE ?w1] =>
      pose proof (Hstep w (pause host DRAIN_PAUSE w1) Ed) as H end.
    cbn [pause state] in *. unfold DRAIN_PAUSE in *. lia.
  - unfold st_bind, syscall. cbn [state log]. pose proof (read_takes o DRAIN_BUFFER k1) as Hr.
    destruct (kernel (w_read_file o DRAIN_BUFFER) k1) as [k2 r2]. cbn [fst] in Hr.
    destruct (rv r2 =? 0); [by eexists|]. apply IH.
    match goal with |- context [ticks tick (d - clock ?w2)] => pose proof (Hstep w w2 Ed) as H end.
    cbn [state] in *. lia.
Qed.

Lemma close_ends fuel hpc o w : (drain_fuel tick <= fuel)%nat ->
  match close kernel host fuel hpc o w with
  | (_, ret _) => True
  | (w', Panic) => MAX_INSTANT <= clock w' + DRAIN_BUDGET
  | _ => False
  end.
Proof.
  intros Hf. unfold close, deadline_in, st_bind at 1. cbv zeta.
  destruct (_ <=? _) eqn:E; bool_to_prop; [done|]. unfold st_bind.
  destruct (drain_ends fuel o (clock w + DRAIN_BUDGET) w) as [w1 ->].
  { replace (clock w + DRAIN_BUDGET - clock w) with DRAIN_BUDGET by lia. exact Hf. }
  unfold close_pseudo_console, st_bind. by destruct (syscall_total kernel (w_close_pseudo_console hpc) w1) as (w' & r & ->).
Qed.

(** [wait_readable] only sleeps between its looks. *)
Lemma peek_ends {F : ClockForward kernel host} fuel o d : forall w, d - clock w <= (Z.of_nat fuel - 1) * PEEK_PAUSE -> (0 < fuel)%nat ->
  exists w' b l r, peek_loop kernel host fuel o d w = (w', ret b) /\
    log w' = log w ++ l ++ [(w_peek_named_pipe o, r)] /\
    b = (rv r =? 0) || (0 <? out_int r) /\ (b = false -> d <= clock w') /\
    Forall (fun e => fst e = w_peek_named_pipe o /\ rv (snd e) <> 0 /\ out_int (snd e) <= 0) l.
Proof.
  induction fuel as [|fuel IH]; intros w Hd Hf; [lia|]. cbn [peek_loop].
  unfold st_bind, syscall. pose proof (call_forward (w_peek_named_pipe o) (state w)) as Hp.
  destruct (kernel (w_peek_named_pipe o) (state w)) as [k1 r1]. cbn [fst] in Hp.
  destruct ((rv r1 =? 0) || (0 <? out_int r1)) eqn:Er.
  { eexists _, true, [], r1. split; [reflexivity|]. by rewrite Er. }
  cbn [state]. destruct (d <=? now host k1) eqn:Ed; [apply Z.leb_le in Ed|apply Z.leb_gt in Ed].
  { eexists _, false, [], r1. split; [reflexivity|]. rewrite Er. cbn [state log app]. auto. }
  assert (0 <= PEEK_PAUSE) as H0 by (unfold PEEK_PAUSE; lia).
  pose proof (sleep_lasts PEEK_PAUSE k1 H0) as Hs.
  assert (fuel <> O) as Hne by (intros ->; unfold PEEK_PAUSE in *; lia).
  destruct (IH (pause host PEEK_PAUSE (mkWorld k1 (log w ++ [(w_peek_named_pipe o, r1)])))) as (w' & b & l & r & Hw & Hl & Hb & Hd' & Hall).
  - cbn [pause state]. unfold PEEK_PAUSE in *. lia.
  - lia.
  - exists w', b, ((w_peek_named_pipe o, r1) :: l), r. split; [exact Hw|]. rewrite Hl. cbn [pause log].
    rewrite <- app_assoc. split; [done|]. split; [done|]. split; [done|]. constructor; [|done]. cbn [fst snd].
    apply orb_false_iff in Er as [? ?]. bool_to_prop. auto.
Qed.

(** The end of a [pty_spawn] that failed. *)
Lemma close_after {A} fuel l hpc o e w : (drain_fuel tick <= fuel)%nat ->
  let m := or_bail kernel l (close kernel host fuel hpc o) (fun _ => bail (A := A) kernel l e) w in
  exists lg, log (fst m) = log w ++ lg /\
  ((console lg = [Closed hpc] /\ snd m = fail e) \/
   (console lg = [] /\ snd m = Panic /\ MAX_INSTANT <= clock (fst m) + DRAIN_BUDGET)).
Proof.
  intros Hf. unfold or_bail, bail. pose proof (close_ends fuel hpc o w Hf) as He.
  destruct (shows_close kernel host fuel hpc o w) as (l3 & Hl3 & H3).
  destruct (close kernel host fuel hpc o w) as [w3 [[[]|e3]| |]]; cbn [fst snd closes] in *; [|done| |done];
    destruct (drop_fds_seen kernel console_of (fun _ _ => eq_refl) l w3) as (l4 & Hl4 & H4);
    exists (l3 ++ l4); (split; [by rewrite Hl4, Hl3, !app_assoc|]); rewrite console_app, H3, (H4 : console l4 = []).
  - by left.
  - right. do 2 (split; [done|]). pose proof (clock_drops l w3). lia.
Qed.
End drain.

(** ** The two threads together *)

Definition owner_closing (o : Owner) : nat :=
  match o with
  | Closing | Checking _ | Peeking _ | Pausing _ | Reading _ | Shutting => 1
  | _ => 0
  end.
Definition watcher_closing (v : Watcher) : nat := match v with WatcherShutting => 1 | _ => 0 end.
Definition racing (v : Watcher) : Prop :=
  match v with Absent | Waiting | ReadingCode | Exchanging => True | _ => False end.

(** The handles each still has to close. *)
Definition owner_holds (m : WindowsPtyMaster) (o : Owner) : list Z :=
  match o with Gone => [] | DroppingOutput => [output m] | _ => [input m; output m] end.
Definition watcher_holds (dup : Z) (v : Watcher) : list Z :=
  match v with Absent | Finished => [] | _ => [dup] end.

Section together.
Context {K : Type} (kernel : Call -> K -> K * Ret) (host : Host K) {F : ClockForward kernel host}.
Context (m : WindowsPtyMaster).
Abbreviation clock w := (now host (state w)).

(** What a turn does to the world: the events it shows, and the handles it
    takes and leaves, beside any others. *)
Definition effect (w w' : World K) (ev : list ConsoleEvent) (h : gmultiset Z) : Prop :=
  clock w <= clock w' /\
  exists l, log w' = log w ++ l /\ console l = ev /\ forall f, replay (h ⊎ f) l = Some f.

Lemma effect_none w : effect w w [] ∅.
Proof.
  split; [lia|]. exists []. rewrite app_nil_r. split; [done|]. split; [done|]. intros f.
  cbn [replay]. by rewrite (left_id_L ∅ (⊎)).
Qed.

Lemma effect_pause d w : 0 <= d -> effect w (pause host d w) [] ∅.
Proof.
  intros Hd. destruct (effect_none w) as [_ H]. split; [|exact H]. pose proof (sleep_lasts d (state w) Hd).
  cbn [pause state]. lia.
Qed.

Lemma effect_sys c w : released c = None -> (forall r, acquired (c, r) = []) ->
  forall ev, (forall r, option_list (console_of (c, r)) = ev) -> effect w (fst (syscall kernel c w)) ev ∅.
Proof.
  intros Hc Ha ev He. split; [apply (clock_sys kernel host)|]. unfold syscall. destruct (kernel c (state w)) as [k r].
  exists [(c, r)]. split; [done|]. split.
  - rewrite <- (He r). unfold console. cbn [omap list_omap]. by destruct (console_of (c, r)).
  - intros f. cbn [replay]. unfold replay1. cbn [fst]. by rewrite Hc, Ha, list_to_set_disj_nil, (right_id_L ∅ (⊎)), (left_id_L ∅ (⊎)).
Qed.

Lemma effect_drop fd w : effect w (drop_fd kernel fd w) [] (fds [fd]).
Proof.
  split; [apply (clock_drop kernel host)|]. destruct (drop_fd_log kernel fd w) as [r Hr]. exists [(c_close fd, r)].
  split; [done|]. split; [done|]. intros f. rewrite fds_one. by apply (replay_close _ []).
Qed.

(** The operations that are one call. *)
Lemma read_one_call h n w : fst (read kernel h n w) = fst (syscall kernel (w_read_file h (Z.min n U32_MAX)) w).
Proof.
  unfold read, st_bind, syscall, last_win32_err, st_lift. destruct (kernel _ _) as [k r].
  destruct (rv r =? 0); [|done]. by destruct (errno _ =? _).
Qed.
Lemma write_one_call h buf w : fst (write kernel h buf w) =
  fst (syscall kernel (w_write_file h (take (Z.to_nat (Z.min (zlen buf) U32_MAX)) buf)) w).
Proof.
  unfold write, win_call, st_bind, syscall, last_win32_err, st_lift. destruct (kernel _ _) as [k r].
  by destruct (rv r =? 0).
Qed.
Lemma resize_one_call hpc size w : fst (resize kernel hpc size w) =
  fst (syscall kernel (w_resize_pseudo_console hpc (sign 16 (cols size)) (sign 16 (rows size))) w).
Proof. unfold resize, st_bind, syscall, st_lift. destruct (kernel _ _) as [k r]. by destruct (rv r <? 0). Qed.
Lemma close_one_call hpc w : fst (close_pseudo_console kernel hpc w) = fst (syscall kernel (w_close_pseudo_console hpc) w).
Proof. unfold close_pseudo_console, st_bind, syscall. by destruct (kernel _ _). Qed.
Lemma exit_code_one_call p w : fst (exit_code kernel p w) = fst (syscall kernel (w_get_exit_code p) w).
Proof.
  unfold exit_code, win_call, st_bind, syscall, last_win32_err, st_lift. destruct (kernel _ _) as [k r].
  by destruct (rv r =? 0).
Qed.

Context (dup : option Z) (w0 : World K).

Definition holds (s : Sys K) : list Z := owner_holds m (owner s) ++ watcher_holds (default 0 dup) (watcher s).

(** The console was closed, is about to be, or (past the end of time) never
    will be: each exactly when the flag is set. *)
Definition sound (s : Sys K) : Prop :=
  exists l n leak, log (world s) = log w0 ++ l /\ console l = replicate n (Closed (hpc m)) /\
  (n + owner_closing (owner s) + watcher_closing (watcher s) + leak = if closed s then 1 else 0)%nat /\
  (leak = O \/ MAX_INSTANT <= clock (world s) + DRAIN_BUDGET) /\
  (closed s = false -> owner s = Live /\ racing (watcher s)) /\
  (watcher s = Absent <-> dup = None) /\
  forall f, replay (fds (input m :: output m :: option_list dup) ⊎ f) l = Some (fds (holds s) ⊎ f).

Lemma sound_start : sound (started dup w0).
Proof.
  exists [], O, O. cbn. rewrite app_nil_r. do 2 (split; [done|]). split; [by destruct dup|]. split; [by left|].
  split; [by destruct dup|]. split; [by destruct dup|]. intros f. by destruct dup.
Qed.

Lemma sound_step s s' n d leak :
  sound s -> effect (world s) (world s') (replicate n (Closed (hpc m))) (fds d) ->
  holds s ≡ₚ d ++ holds s' ->
  (n + owner_closing (owner s') + watcher_closing (watcher s') + leak + (if closed s then 1 else 0) =
   owner_closing (owner s) + watcher_closing (watcher s) + (if closed s' then 1 else 0))%nat ->
  (leak = O \/ MAX_INSTANT <= clock (world s') + DRAIN_BUDGET) ->
  (closed s' = false -> owner s' = Live /\ racing (watcher s')) ->
  (watcher s' = Absent <-> watcher s = Absent) -> sound s'.
Proof.
  intros (l & n0 & leak0 & Hl & Hc & Hn & Hleak & Hf & Ha & Hr) (Hclock & l2 & Hl2 & Hc2 & Hr2) Hh Hn' Hleak' Hf' Ha'.
  exists (l ++ l2), (n0 + n)%nat, (leak0 + leak)%nat. split; [by rewrite Hl2, Hl, app_assoc|].
  split; [by rewrite console_app, Hc, Hc2, replicate_add|].
  split; [destruct (closed s), (closed s'); lia|].
  split.
  { destruct Hleak as [->|]; [|right; lia]. destruct Hleak' as [->|]; auto. }
  split; [done|]. split; [by rewrite Ha'|]. intros f. rewrite replay_app, Hr. cbn [mbind option_bind].
  by rewrite (list_to_set_disj_perm _ _ Hh), list_to_set_disj_app, <- (assoc_L (⊎)), Hr2.
Qed.

(** The flag is set from the first exchange on. *)
Lemma sound_flag s : sound s -> (owner s <> Live \/ ~ racing (watcher s)) -> closed s = true.
Proof.
  intros (l & n & leak & _ & _ & _ & _ & Hf & _) H. destruct (closed s); [done|].
  destruct (Hf eq_refl) as [Ho Hv]. by destruct H as [H|H]; destruct H.
Qed.

(** A turn that changes neither the flag nor what is held or closed. *)
Lemma sound_quiet s w' o v :
  sound s -> effect (world s) w' [] ∅ ->
  (owner_closing o = owner_closing (owner s) /\ owner_holds m o = owner_holds m (owner s) /\ (o = Live <-> owner s = Live)) ->
  (watcher_closing v = watcher_closing (watcher s) /\ watcher_holds (default 0 dup) v = watcher_holds (default 0 dup) (watcher s) /\
   (racing v <-> racing (watcher s)) /\ (v = Absent <-> watcher s = Absent)) ->
  sound (mkSys w' (closed s) o v).
Proof.
  intros Hs He (Ho1 & Ho2 & Ho3) (Hv1 & Hv2 & Hv3 & Hv4). pose proof Hs as (_ & _ & _ & _ & _ & _ & _ & Hf & _).
  apply (sound_step s _ O [] O); [done|exact He|..]; cbn [owner watcher closed world replicate]; [|lia|by left| |done].
  - unfold holds. cbn [owner watcher]. by rewrite Ho2, Hv2.
  - intros Hc. destruct (Hf Hc). by rewrite Ho3, Hv3.
Qed.

Lemma owner_step_sound a s s' : sound s -> owner_step kernel host m a s = Some s' -> sound s'.
Proof.
  intros Hs. pose proof (sound_flag s Hs) as Hflag. destruct s as [w c o v]. cbn [owner watcher closed] in *.
  unfold owner_step. cbn [owner world closed watcher].
  destruct o, a; try done.
  - intros [= <-]. apply (sound_quiet _ _ Live v Hs); [|done|done]. unfold pty_read. rewrite read_one_call. by apply effect_sys.
  - intros [= <-]. apply (sound_quiet _ _ Live v Hs); [|done|done]. unfold pty_write. rewrite write_one_call. by apply effect_sys.
  - intros [= <-]. apply (sound_quiet _ _ Live v Hs); [|done|done]. unfold pty_resize. rewrite resize_one_call. by apply effect_sys.
  - cbn [win_close fst snd]. intros [= <-]. eapply (sound_step _ _ O [] O Hs); [apply effect_none|..]; cbn; [by destruct c|destruct c; cbn; lia|by left|done|done].
  - unfold deadline_in. destruct (_ <=? _) eqn:E; bool_to_prop; intros [= <-].
    + rewrite (Hflag ltac:(by left)) in *. eapply (sound_step _ _ O [] 1 Hs); [apply effect_none|..]; cbn; [done|lia|by right|done|done].
    + apply (sound_quiet _ _ (Checking _) v Hs); [apply effect_none|done|done].
  - intros [= <-]. apply (sound_quiet _ _ _ v Hs); [apply effect_none|by destruct (_ <=? _)|done].
  - destruct (syscall kernel _ w) as [w' [[r|]| |]] eqn:E; [|done..]. intros [= <-].
    apply (sound_quiet _ _ _ v Hs); [|destruct (rv r =? 0); [done|by destruct (out_int r =? 0)]|done].
    change w' with (fst (w', Done (Ok r))). rewrite <- E. by apply effect_sys.
  - intros [= <-]. apply (sound_quiet _ _ (Checking _) v Hs); [|done|done]. apply effect_pause. unfold DRAIN_PAUSE. lia.
  - destruct (syscall kernel _ w) as [w' [[r|]| |]] eqn:E; [|done..]. intros [= <-].
    apply (sound_quiet _ _ _ v Hs); [|by destruct (rv r =? 0)|done].
    change w' with (fst (w', Done (Ok r))). rewrite <- E. by apply effect_sys.
  - intros [= <-]. rewrite (Hflag ltac:(by left)) in *.
    eapply (sound_step _ _ 1 [] O Hs); [cbn [world]; rewrite close_one_call; by apply effect_sys|cbn..];
      [done|lia|by left|done|done].
  - intros [= <-]. rewrite (Hflag ltac:(by left)) in *.
    eapply (sound_step _ _ O [input m] O Hs); [apply effect_drop|cbn..]; [done|lia|by left|done|done].
  - intros [= <-]. rewrite (Hflag ltac:(by left)) in *.
    eapply (sound_step _ _ O [output m] O Hs); [apply effect_drop|cbn..]; [done|lia|by left|done|done].
Qed.

Lemma watcher_step_sound s s' : sound s -> watcher_step kernel (default 0 dup) m s = Some s' -> sound s'.
Proof.
  intros Hs. pose proof (sound_flag s Hs) as Hflag. destruct s as [w c o v]. cbn [owner watcher closed] in *.
  unfold watcher_step. cbn [owner world closed watcher]. destruct v; try done.
  - destruct (syscall kernel _ w) as [w' [[r|]| |]] eqn:E; [|done..]. intros [= <-].
    apply (sound_quiet _ _ o _ Hs); [|done|by destruct (rv r =? _)].
    change w' with (fst (w', Done (Ok r))). rewrite <- E. by apply effect_sys.
  - intros [= <-]. apply (sound_quiet _ _ o Exchanging Hs); [|done|done]. rewrite exit_code_one_call. by apply effect_sys.
  - cbn [win_close fst snd]. intros [= <-]. eapply (sound_step _ _ O [] O Hs); [apply effect_none|..]; cbn; [by destruct c|destruct c; cbn; lia|by left|done|by destruct c].
  - intros [= <-]. rewrite (Hflag ltac:(by right; intros [])) in *.
    eapply (sound_step _ _ 1 [] O Hs); [cbn [world]; rewrite close_one_call; by apply effect_sys|cbn..];
      [done|lia|by left|done|done].
  - intros [= <-]. rewrite (Hflag ltac:(by right; intros [])) in *.
    eapply (sound_step _ _ O [default 0 dup] O Hs); [apply effect_drop|cbn..]; [|lia|by left|done|done].
    unfold holds. cbn. solve_Permutation.
Qed.

Lemma reachable_sound s : reachable kernel host dup m w0 s -> sound s.
Proof.
  induction 1 as [|t s s' _ IH Ht]; [apply sound_start|].
  destruct t; [by eapply owner_step_sound|by eapply watcher_step_sound].
Qed.

End together.

(** ** The end of the owner's drop, whatever the watcher does meanwhile *)

Definition owner_turns (ts : list Turn) : nat :=
  length (List.filter (fun t => match t with ByOwner _ => true | ByWatcher => false end) ts).

Section turns.
Context {K : Type} (kernel : Call -> K -> K * Ret) (host : Host K).
Context (dup : Z) (m : WindowsPtyMaster).
Abbreviation clock w := (now host (state w)).

(** What the owner has left to do at most. *)
Definition owner_work (tick : Z) (s : Sys K) : nat :=
  match owner s with
  | Live | Gone => 0
  | Closing => 3 * drain_fuel tick + 2
  | Checking d => 3 * ticks tick (d - clock (world s)) + 4
  | Peeking d => 3 * ticks tick (d - tick - clock (world s)) + 6
  | Pausing d | Reading d => 3 * ticks tick (d - tick - clock (world s)) + 5
  | Shutting => 3 | DroppingInput => 2 | DroppingOutput => 1
  end.

Lemma sys_forward {F : ClockForward kernel host} c (w w' : World K) r :
  syscall kernel c w = (w', r) -> clock w <= clock w'.
Proof. intros E. pose proof (clock_sys kernel host c w) as H. by rewrite E in H. Qed.

Lemma owner_step_work {tick} {T : TimePasses kernel host tick} a s s' :
  owner s <> Live -> owner_step kernel host m a s = Some s' ->
  (owner s' <> Live /\ S (owner_work tick s') <= owner_work tick s)%nat.
Proof.
  pose proof (tick_small (TimePasses := T)) as Ht.
  destruct s as [w c o v]. cbn [owner]. intros Ho. unfold owner_step, owner_work. cbn [owner world closed watcher].
  destruct o, a; try done.
  - unfold deadline_in. destruct (_ <=? _); intros [= <-]; cbn [owner world]; (split; [done|unfold drain_fuel]); [lia|].
    replace (clock w + DRAIN_BUDGET - clock w) with DRAIN_BUDGET by lia. lia.
  - intros [= <-]. cbn [owner world]. destruct (deadline <=? _) eqn:E; bool_to_prop; (split; [done|]); [lia|].
    rewrite (ticks_next tick (deadline - clock w)) by lia.
    replace (deadline - clock w - tick) with (deadline - tick - clock w) by lia. lia.
  - destruct (syscall kernel _ w) as [w' [[r|]| |]] eqn:E; [|done..]. intros [= <-].
    apply sys_forward in E. pose proof (ticks_mono tick (deadline - tick - clock w') (deadline - tick - clock w)).
    cbn [owner world]. destruct (rv r =? 0); [split; [done|lia]|]. destruct (out_int r =? 0); (split; [done|lia]).
  - intros [= <-]. cbn [owner world]. split; [done|].
    pose proof (sleep_lasts DRAIN_PAUSE (state w) ltac:(unfold DRAIN_PAUSE; lia)).
    pose proof (ticks_mono tick (deadline - clock (pause host DRAIN_PAUSE w)) (deadline - tick - clock w)).
    cbn [pause state] in *. lia.
  - unfold syscall. pose proof (read_takes (output m) DRAIN_BUFFER (state w)) as Hr.
    destruct (kernel (w_read_file _ _) (state w)) as [k r]. intros [= <-]. cbn [owner world fst] in *.
    pose proof (ticks_mono tick (deadline - clock (mkWorld k (log w ++ [(w_read_file (output m) DRAIN_BUFFER, r)])))
      (deadline - tick - clock w)) as Hm. cbn [state] in Hm.
    destruct (rv r =? 0); (split; [done|]); cbn [state]; lia.
  - intros [= <-]. by split; [|cbn; lia].
  - intros [= <-]. by split; [|cbn; lia].
  - intros [= <-]. by split; [|cbn; lia].
Qed.

Lemma watcher_step_work {tick} {T : TimePasses kernel host tick} s s' :
  watcher_step kernel dup m s = Some s' -> owner s' = owner s /\ (owner_work tick s' <= owner_work tick s)%nat.
Proof.
  pose proof (tick_small (TimePasses := T)) as Ht. intros H.
  assert (owner s' = owner s /\ clock (world s) <= clock (world s')) as [Ho Hc].
  { revert H. unfold watcher_step. destruct (watcher s); try done.
    - destruct (syscall kernel _ _) as [w' [[r|]| |]] eqn:E; [|done..]. intros [= <-]. split; [done|]. by apply sys_forward in E.
    - intros [= <-]. rewrite exit_code_one_call. split; [done|]. apply (clock_sys kernel host).
    - intros [= <-]. done.
    - intros [= <-]. rewrite close_one_call. split; [done|]. apply (clock_sys kernel host).
    - intros [= <-]. split; [done|]. apply (clock_drop kernel host). }
  split; [done|]. unfold owner_work. rewrite Ho.
  destruct (owner s); try lia;
    match goal with |- context [ticks _ (?d - clock (world s'))] =>
      pose proof (ticks_mono tick (d - clock (world s')) (d - clock (world s))) end; lia.
Qed.

Lemma turns_work {tick} {T : TimePasses kernel host tick} ts : forall s s',
  owner s <> Live -> take_turns kernel host dup m ts s = Some s' ->
  (owner s' <> Live /\ owner_turns ts + owner_work tick s' <= owner_work tick s)%nat.
Proof.
  induction ts as [|t ts IH]; intros s s' Ho; cbn [take_turns]; [by intros [= <-]|].
  destruct (take_turn _ _ _ _ t s) as [s1|] eqn:E; [|done]. cbn [mbind option_bind]. intros H.
  destruct t as [a|]; cbn [take_turn] in E.
  - destruct (owner_step_work (T := T) a s s1 Ho E) as [Ho1 Hw]. destruct (IH s1 s' Ho1 H) as [? Hts]. split; [done|].
    cbn [owner_turns List.filter length] in *. unfold owner_turns in *. cbn [List.filter length]. lia.
  - destruct (watcher_step_work (T := T) s s1 E) as [Ho1 Hw]. rewrite <- Ho1 in Ho. destruct (IH s1 s' Ho H) as [? Hts].
    split; [done|]. unfold owner_turns in *. cbn [List.filter length]. lia.
Qed.

(** The owner is never stuck. *)
Lemma owner_enabled s : owner s <> Gone -> is_Some (owner_step kernel host m Next s).
Proof.
  intros H. unfold owner_step, deadline_in, win_close, syscall. destruct (owner s); try done;
    repeat match goal with |- context [kernel ?c ?k] => destruct (kernel c k) end; try (by eexists).
  by destruct (_ <=? _).
Qed.

(** ** Each thread alone *)

Lemma take_turns_app ts1 : forall ts2 s s1,
  take_turns kernel host dup m ts1 s = Some s1 ->
  take_turns kernel host dup m (ts1 ++ ts2) s = take_turns kernel host dup m ts2 s1.
Proof.
  induction ts1 as [|t ts1 IH]; intros ts2 s s1; cbn [take_turns app]; [by intros [= <-]|].
  destruct (take_turn _ _ _ _ t s); [apply IH|done].
Qed.

Lemma drain_turns c v d fuel : forall w w', drain_loop kernel host fuel (output m) d w = (w', ret tt) ->
  exists n, take_turns kernel host dup m (replicate n (ByOwner Next)) (mkSys w c (Checking d) v) = Some (mkSys w' c Shutting v).
Proof.
  induction fuel as [|fuel IH]; intros w w'; [done|]. cbn [drain_loop].
  destruct (d <=? _) eqn:E0.
  { intros [= <-]. exists 1%nat. cbn. by rewrite E0. }
  unfold st_bind, syscall. destruct (kernel _ (state w)) as [k1 r1] eqn:E1. destruct (rv r1 =? 0) eqn:E2.
  { intros [= <-]. exists 2%nat. cbn. rewrite E0. cbn. unfold syscall. rewrite E1. cbn. by rewrite E2. }
  destruct (out_int r1 =? 0) eqn:E3.
  { intros H. destruct (IH _ _ H) as [n Hn]. exists (3 + n)%nat. cbn. rewrite E0. cbn. unfold syscall.
    rewrite E1. cbn. by rewrite E2, E3. }
  cbn [state log]. destruct (kernel _ k1) as [k2 r2] eqn:E4. destruct (rv r2 =? 0) eqn:E5.
  { intros [= <-]. exists 3%nat. cbn. rewrite E0. cbn. unfold syscall. rewrite E1. cbn. rewrite E2, E3. cbn.
    unfold syscall. cbn [state log]. rewrite E4. cbn. by rewrite E5. }
  intros H. destruct (IH _ _ H) as [n Hn]. exists (3 + n)%nat. cbn. rewrite E0. cbn. unfold syscall.
  rewrite E1. cbn. rewrite E2, E3. cbn. unfold syscall. cbn [state log]. rewrite E4. cbn. by rewrite E5.
Qed.
End turns.

(** ** Properties *)

(** C16: What [WindowsPty::spawn] does with the pseudo console: a child it returns
    runs the command line built for the resolved program, with that console
    as its only attribute and no standard handle of the parent's; when the
    launch fails after the console was opened, the console is closed, once.
    It ends owning the handles of the session it returns (both pipe ends, the
    process and the watcher's duplicate) and nothing otherwise.  A panic
    (no thread, the end of the clock) is the one way to lose the console. *)
Theorem windows_pty_console {K} (kernel : Call -> K -> K * Ret) host can_spawn tick
    `{!TimePasses kernel host tick} fuel cmd size w :
  (drain_fuel tick <= fuel)%nat ->
  let (w', r) := pty_spawn kernel host can_spawn fuel cmd size w in
  (forall h, owns h (pty_spawn kernel host can_spawn fuel cmd size) (fun x => fds (session_handles x) ⊎ h) h) /\
  exists l, log w' = log w ++ l /\
  ((console l = [] /\ exists e, r = fail e) \/
   exists resolved line c, resolve host (program cmd) w = (w, ret resolved) /\ child_line resolved (argv cmd) line /\
   let child p := Attached p (line ++ [0]) (Some [0; 0; 0]) [(PROC_THREAD_ATTRIBUTE_PSEUDOCONSOLE, c)] in
   match r with
   | ret (m, child', _) => hpc m = c /\ console l = [Opened c; child (wc_process child')]
   | fail _ => console l = [Opened c; Closed c]
   | Panic => (exists p k, console l = [Opened c; child p] /\ can_spawn k = false) \/
       (console l = [Opened c] /\ MAX_INSTANT <= now host (state w') + DRAIN_BUDGET)
   | OutOfFuel => False
   end).
Proof.
  intros Hfuel. destruct (pty_spawn _ _ _ _ _ _ w) as [w' r] eqn:Erun. split; [intros h; apply con_owns_pty_spawn|].
  revert Erun. unfold pty_spawn, st_bind, st_lift.
  destruct (is_join _); [intros [= <- <-]; exists []; rewrite app_nil_r; eauto|].
  destruct (resolve_pure host (program cmd) w) as [[resolved|e] Er]; rewrite Er;
    [|intros [= <- <-]; exists []; rewrite app_nil_r; eauto].
  destruct (build_command_line resolved (argv cmd)) as [line|e] eqn:Eb;
    [|intros [= <- <-]; exists []; rewrite app_nil_r; eauto].
  apply build_child_line in Eb.
  destruct (shows_create_pty kernel size w) as (l1 & Hl1 & H1).
  destruct (create_pty kernel size w) as [w1 [[[[c i] o]|e]| |]]; cbn [fst snd opens] in *; [|intros [= <- <-]; eauto 7|done..].
  destruct (shows_spawn_attached kernel c line (cwd cmd) (c_env cmd) w1) as (l2 & Hl2 & H2).
  destruct (spawn_attached kernel c line (cwd cmd) (c_env cmd) w1) as [w2 [[[p pid]|e]| |]]; cbn [fst snd attaches] in *; [..|done|done].
  - intros H. destruct (shows_session kernel can_spawn [p; o; i] (mkWindowsPtyMaster c i o) (from_parts p None pid) p w2) as (l3 & Hl3 & H3 & Hr).
    unfold st_lift in *. rewrite H in Hl3, Hr. cbn [fst snd] in *. exists (l1 ++ l2 ++ l3).
    split; [by rewrite Hl3, Hl2, Hl1, !app_assoc|]. right. exists resolved, line, c. do 2 (split; [done|]).
    rewrite !console_app, H1, H2, H3. destruct r as [[[[m child'] dup]|e]| |]; [|done| |done].
    + by destruct Hr as [-> ->].
    + destruct Hr as [k Hk]. left. by exists p, k.
  - intros H. destruct (close_after kernel host (A := WindowsPtyMaster * WindowsChild * option Z) fuel [o; i] c o e w2 Hfuel)
      as (l3 & Hl3 & H3). rewrite H in Hl3, H3.
    cbn [fst snd] in *. exists (l1 ++ l2 ++ l3). split; [by rewrite Hl3, Hl2, Hl1, !app_assoc|]. right.
    exists resolved, line, c. do 2 (split; [done|]). rewrite !console_app, H1, H2.
    destruct H3 as [[-> ->]|(-> & -> & ?)]; [done|by right].
Qed.

(** C15: However the owner and the watcher interleave, and whatever the owner does
    with the master while it has it, the console is never closed twice; when
    both threads are over it was closed exactly once (unless the clock was at
    its end) and each handle of the session was closed exactly once. *)
Theorem pseudo_console_closed_once {K} (kernel : Call -> K -> K * Ret) host `{!ClockForward kernel host} dup m w s :
  reachable kernel host dup m w s ->
  exists l, log (world s) = log w ++ l /\ (console l = [] \/ console l = [Closed (hpc m)]) /\
  (owner s = Gone -> watcher s = Finished \/ watcher s = Absent ->
     (console l = [Closed (hpc m)] \/ MAX_INSTANT <= now host (state (world s)) + DRAIN_BUDGET) /\
     forall h, replay (fds (input m :: output m :: option_list dup) ⊎ h) l = Some h).
Proof.
  intros Hs. apply reachable_sound in Hs as (l & n & leak & Hl & Hc & Hn & Hleak & Hf & _ & Hr); [|done].
  exists l. split; [done|].
  assert (n = O \/ n = 1%nat) as [-> | ->] by (destruct (closed s); lia); (split; [by auto|]); intros Ho Hw.
  all: split; [|intros h; rewrite Hr; unfold holds; rewrite Ho; destruct Hw as [-> | ->]; f_equal; exact (left_id_L ∅ (⊎) h)].
  2: by left.
  right. destruct Hleak as [->|]; [|done]. exfalso. rewrite Ho in *.
  assert (closed s = true) as Hcl by (destruct (closed s) eqn:E; [done|]; by destruct (Hf eq_refl)).
  rewrite Hcl in Hn. destruct Hw as [Hw|Hw]; rewrite Hw in Hn; cbn in Hn; lia.
Qed.

(** C17: Once its drop has begun the owner is never stuck and gone after a bounded
    number of turns, however many the watcher takes in between and however
    much the child goes on writing. *)
Theorem master_drop_bounded {K} (kernel : Call -> K -> K * Ret) host tick `{!TimePasses kernel host tick} dup m ts s s' :
  owner s = Live -> take_turns kernel host dup m (ByOwner Next :: ts) s = Some s' ->
  (owner_turns ts <= 3 * drain_fuel tick + 2)%nat /\
  (owner s' = Gone \/ is_Some (owner_step kernel host m Next s')).
Proof.
  intros Ho. cbn [take_turns take_turn]. unfold owner_step at 1, win_close. rewrite Ho. cbn [fst snd mbind option_bind].
  intros H. apply turns_work with (tick := tick) in H as [Hl H]; [|done|cbn; by destruct (closed s)]. split.
  - unfold owner_work at 2 in H. cbn [owner] in H. destruct (closed s); cbn [negb] in H; lia.
  - destruct (owner s') eqn:E; [done|right; apply owner_enabled; by rewrite E..|by left].
Qed.

(** C18: The two threads as written are their turns taken without interruption,
    and the drop of the master returns. *)
Theorem threads_as_turns {K} (kernel : Call -> K -> K * Ret) host tick `{!TimePasses kernel host tick} dup m fuel w c o v :
  (drain_fuel tick <= fuel)%nat ->
  (let (w', c') := exit_watcher kernel dup (hpc m) (w, c) in
   exists n, take_turns kernel host dup m (replicate n ByWatcher) (mkSys w c o Waiting) = Some (mkSys w' c' o Finished)) /\
  (let '((w', c'), r) := master_drop kernel host fuel m (w, c) in
   r <> OutOfFuel /\
   exists n, take_turns kernel host dup m (replicate n (ByOwner Next)) (mkSys w c Live v) = Some (mkSys w' c' Gone v)).
Proof.
  intros Hfuel. split.
  - unfold exit_watcher, win_close. cbn [fst snd]. unfold wait, st_bind, syscall.
    destruct (kernel (w_wait_single dup INFINITE) (state w)) as [k1 r1] eqn:E1.
    destruct (rv r1 =? WAIT_OBJECT_0) eqn:E2; cbn [negb].
    + destruct (exit_code kernel dup (mkWorld k1 (log w ++ [(w_wait_single dup INFINITE, r1)]))) as [w2 r2] eqn:E3.
      exists (if c then 4 else 5)%nat. destruct c; cbn; unfold syscall; rewrite E1; cbn; rewrite E2; cbn; by rewrite E3.
    + exists (if c then 3 else 4)%nat. destruct c; cbn; unfold syscall; rewrite E1; cbn; by rewrite E2.
  - unfold master_drop, win_close. cbn [fst snd]. destruct c; cbn [negb].
    { split; [done|]. by exists 3%nat. }
    unfold close, deadline_in, st_bind at 1. cbv zeta. destruct (MAX_INSTANT <=? _) eqn:E.
    { split; [done|]. exists 4%nat. cbn. unfold deadline_in. by rewrite E. }
    unfold st_bind. destruct (drain_ends kernel host fuel (output m) (now host (state w) + DRAIN_BUDGET) w) as [w1 Hw1].
    { replace (now host (state w) + DRAIN_BUDGET - now host (state w)) with DRAIN_BUDGET by lia. exact Hfuel. }
    rewrite Hw1. destruct (drain_turns kernel host dup m true v _ _ _ _ Hw1) as [n Hn].
    unfold close_pseudo_console, st_bind. destruct (syscall_total kernel (w_close_pseudo_console (hpc m)) w1) as (w2 & r2 & E2).
    rewrite E2. split; [done|]. exists (2 + (n + 3))%nat. cbn. unfold deadline_in. rewrite E. cbn.
    rewrite replicate_add, (take_turns_app _ _ _ _ _ _ _ _ Hn). cbn. unfold close_pseudo_console, st_bind. by rewrite E2.
Qed.

(** [wait_readable] answers within its budget: yes exactly when the last look
    found something to read or a broken pipe, and no only when every look
    found the pipe open and empty until the time was over. *)
Theorem wait_readable_answers {K} (kernel : Call -> K -> K * Ret) host `{!ClockForward kernel host} fuel output budget w :
  0 <= budget <= (Z.of_nat fuel - 1) * PEEK_PAUSE -> now host (state w) + budget < MAX_INSTANT ->
  exists w' b l r, wait_readable kernel host fuel output budget w = (w', ret b) /\
    log w' = log w ++ l ++ [(w_peek_named_pipe output, r)] /\
    b = (rv r =? 0) || (0 <? out_int r) /\ (b = false -> now host (state w) + budget <= now host (state w')) /\
    Forall (fun e => fst e = w_peek_named_pipe output /\ rv (snd e) <> 0 /\ out_int (snd e) <= 0) l.
Proof.
  intros Hb Hm. unfold wait_readable, deadline_in, st_bind. cbv zeta. rewrite (proj2 (Z.leb_gt _ _) Hm).
  assert (0 < PEEK_PAUSE) by (unfold PEEK_PAUSE; lia).
  apply (peek_ends kernel host); [replace (now host (state w) + budget - now host (state w)) with budget by lia; apply Hb|destruct fuel; [unfold PEEK_PAUSE in *|]; lia].
Qed.

(** ** A console host that never stops talking

    Its state is the clock; every read takes five milliseconds and finds more,
    and the child is over whenever someone looks. *)

Definition conhost (created : bool) (c : Call) (k : Z) : Z * Ret :=
  match c with
  | w_create_pipe _ => (k, mkRet 1 0 (OInts [10; 11]))
  | w_create_pseudo_console _ _ _ _ => (k, mkRet 0 0 (OInt 77))
  | w_attribute_list_size _ => (k, mkRet 0 122 (OInt 48))
  | w_init_attribute_list _ _ | w_update_attribute _ _ => (k, mkRet 1 0 ONone)
  | w_create_process_ex _ _ _ _ _ _ _ => (k, if created then mkRet 1 0 (OInts [20; 21; 4242]) else mkRet 0 2 ONone)
  | w_duplicate_handle _ _ => (k, mkRet 1 0 (OInt 30))
  | w_peek_named_pipe _ => (k, mkRet 1 0 (OInt 1))
  | w_read_file _ _ => (k + 5000000, mkRet 1 0 (OBytes [65]))
  | w_get_exit_code _ => (k, mkRet 1 0 (OInt 0))
  | _ => (k, mkRet 0 0 ONone)
  end.
Definition conhost_host : Host Z := mkHost (fun k => k) (fun d k => k + d) (fun _ _ => None) (fun _ _ => true).

#[export] Instance conhost_time created : TimePasses (conhost created) conhost_host 5000000.
Proof.
  split; [split| |].
  - intros [] k; cbn; lia.
  - intros d k _. cbn. lia.
  - unfold DRAIN_PAUSE. lia.
  - intros h n k. cbn. lia.
Qed.

Definition ex_cmd : Command := arg (lit "a b") (Command_new (lit "C:\tool.exe") (lit "C:\")).
Definition ex_size : WinSize := mkWinSize 24 80.
Definition ex_master : WindowsPtyMaster := mkWindowsPtyMaster 77 11 10.

Lemma conhost_fuel : (drain_fuel 5000000 <= 401)%nat.
Proof. apply Nat.leb_le. by vm_compute. Qed.

Lemma windows_pty_console_witness :
  let run := pty_spawn (conhost true) conhost_host (fun _ => true) 401 ex_cmd ex_size (mkWorld 0 []) in
  snd run = ret (ex_master, from_parts 20 None 4242, Some 30) /\
  exists l, log (fst run) = [] ++ l /\ console l <> [].
Proof.
  split; [by vm_compute|].
  pose proof (windows_pty_console (conhost true) conhost_host (fun _ => true) 5000000 401 ex_cmd ex_size (mkWorld 0 []) conhost_fuel) as H.
  destruct (pty_spawn _ _ _ _ _ _ _) as [w' r] eqn:E. destruct H as (_ & l & Hl & H). exists l. split; [exact Hl|].
  assert (r = ret (ex_master, from_parts 20 None 4242, Some 30)) as -> by (change r with (snd (w', r)); rewrite <- E; by vm_compute).
  destruct H as [[_ [e He]]|(resolved & line & c & _ & _ & _ & ->)]; done.
Defined.

(** A launch that fails drains for two seconds, 400 reads, then closes. *)
Example failed_launch_closes :
  let run := pty_spawn (conhost false) conhost_host (fun _ => true) 401 ex_cmd ex_size (mkWorld 0 []) in
  console (log (fst run)) = [Opened 77; Closed 77] /\ state (fst run) = 2000000000 /\
  exists e, snd run = fail e /\ kind e = NotFound.
Proof. split; [by vm_compute|]. split; [by vm_compute|]. eexists. split; vm_compute; reflexivity. Qed.

Lemma take_turns_reachable {K} (kernel : Call -> K -> K * Ret) host dup m w ts : forall s s',
  reachable kernel host dup m w s -> take_turns kernel host (default 0 dup) m ts s = Some s' ->
  reachable kernel host dup m w s'.
Proof.
  induction ts as [|t ts IH]; intros s s' Hs; cbn [take_turns]; [by intros [= <-]|].
  destruct (take_turn _ _ _ _ t s) as [s1|] eqn:E; [|done]. apply IH. by eapply reach_turn.
Qed.

(** The child ends while the owner reads; the owner drops, the watcher wins. *)
Definition ex_turns : list Turn :=
  [ByOwner (Read 10); ByWatcher; ByOwner (Resize ex_size); ByWatcher; ByWatcher; ByOwner Next; ByWatcher;
   ByOwner Next; ByWatcher; ByOwner Next].
Definition ex_end : Sys Z :=
  default (started None (mkWorld 0 [])) (take_turns (conhost true) conhost_host 30 ex_master ex_turns (started (Some 30) (mkWorld 0 []))).

Lemma pseudo_console_closed_once_witness :
  (owner ex_end = Gone /\ watcher ex_end = Finished) /\
  exists l, log (world ex_end) = [] ++ l /\ (console l = [] \/ console l = [Closed 77]).
Proof.
  split; [by vm_compute|].
  destruct (pseudo_console_closed_once (conhost true) conhost_host (Some 30) ex_master (mkWorld 0 []) ex_end) as (l & Hl & H & _).
  - apply (take_turns_reachable _ _ _ _ _ ex_turns (started (Some 30) (mkWorld 0 []))); [constructor|]. vm_compute. reflexivity.
  - by exists l.
Defined.

(** The owner drops first, and the child still talks. *)
Definition ex_drop : list Turn := ByOwner Next :: replicate 50 (ByOwner Next) ++ [ByWatcher; ByWatcher].

Lemma master_drop_bounded_witness :
  exists s', take_turns (conhost true) conhost_host 30 ex_master ex_drop (started (Some 30) (mkWorld 0 [])) = Some s' /\
  (owner_turns (tail ex_drop) <= 1205)%nat /\
  (owner s' = Gone \/ is_Some (owner_step (conhost true) conhost_host ex_master Next s')).
Proof.
  eexists. split; [vm_compute; reflexivity|].
  apply (master_drop_bounded (conhost true) conhost_host 5000000 30 ex_master (tail ex_drop) (started (Some 30) (mkWorld 0 [])));
    [done|vm_compute; reflexivity].
Defined.

Lemma threads_as_turns_witness :
  let '((w', c'), r) := master_drop (conhost true) conhost_host 401 ex_master (mkWorld 0 [], false) in
  r <> OutOfFuel /\
  exists n, take_turns (conhost true) conhost_host 30 ex_master (replicate n (ByOwner Next)) (mkSys (mkWorld 0 []) false Live Waiting)
    = Some (mkSys w' c' Gone Waiting).
Proof.
  destruct (threads_as_turns (conhost true) conhost_host 5000000 30 ex_master 401 (mkWorld 0 []) false Live Waiting
    conhost_fuel) as [_ H]. exact H.
Defined.

Lemma wait_readable_answers_witness :
  exists w' b l r, wait_readable (conhost true) conhost_host 2 10 5000000 (mkWorld 0 []) = (w', ret b) /\
    log w' = [] ++ l ++ [(w_peek_named_pipe 10, r)] /\ b = (rv r =? 0) || (0 <? out_int r).
Proof.
  destruct (wait_readable_answers (conhost true) conhost_host 2 10 5000000 (mkWorld 0 [])) as (w' & b & l & r & H & Hl & Hb & _).
  - split; [lia|]. unfold PEEK_PAUSE. lia.
  - by vm_compute.
  - by exists w', b, l, r.
Defined.

(** The handle of the console is used after the watcher has closed it: nothing
    stops [resize] on a master that is still there. *)
Example resize_after_close :
  match take_turns (conhost true) conhost_host 30 ex_master
    [ByWatcher; ByWatcher; ByWatcher; ByWatcher; ByOwner (Resize ex_size)] (started (Some 30) (mkWorld 0 [])) with
  | Some s => exists l, log (world s) = l ++ [(w_close_pseudo_console 77, mkRet 0 0 ONone); (w_resize_pseudo_console 77 80 24, mkRet 0 0 ONone)]
  | None => False
  end.
Proof. vm_compute. eexists [_; _]. reflexivity. Qed.

(** A wait that fails counts as the end of the child: the console is closed
    under it. *)
Example failed_wait_closes :
  let refuse c k := match c with w_wait_single _ _ => (k, mkRet 4294967295 6 ONone) | _ => conhost true c k end in
  console (log (fst (exit_watcher refuse 30 77 (mkWorld 0 [], false)))) = [Closed 77] /\
  snd (exit_watcher refuse 30 77 (mkWorld 0 [], false)) = true.
Proof. by vm_compute. Qed.

(** More than 32767 columns become a negative width. *)
Example wide_console : log (fst (resize (conhost true) 77 (mkWinSize 24 40000) (mkWorld 0 [])))
  = [(w_resize_pseudo_console 77 (-25536) 24, mkRet 0 0 ONone)].
Proof. by vm_compute. Qed.
